(* ===== verification/_CoqProject ===== *)
-Q . S2P
Prelude.v
Once.v
MpscQueue.v
DispatchTime.v
BlockRuntime.v
Semaphore.v
Group.v
Apply.v
DispatchObject.v
DispatchQueue.v
SerialQueue.v
WideQueue.v
MainQueue.v
PoolThread.v
Workqueue.v
WorkerPool.v
ProcInfo.v
PoolManager.v
DispatchSource.v
TimerList.v
TimerSource.v
DispatchAfter.v
AfterTimer.v
SourceTable.v
SourceEvents.v
Manager.v
RbTree.v
RbHeap.v
RbBalance.v
RbMap.v
Kqueue.v
KqueueLinux.v
KqueueTable.v
KqueueTree.v
KqueueEvents.v
KqueueDelivery.v
KqueueClient.v
