(* ===== verification/Prelude.v ===== *)
(** * Grand Central Dispatch for POSIX hosts: a verification of xdispatch's C core

    xdispatch ports Apple's libdispatch to Linux and other hosts.  Its C code has four libraries, and this
    development models each of them in the configuration of a 64-bit Linux build.

    - libdispatch (src/libdispatch/src): once, time, semaphores, groups, parallel loops, objects, queues, sources.
    - libpthread_workqueue (src/libpthread_workqueue/src): the threads that run the root queues.
    - libkqueue (src/libkqueue/src): kqueue(2) and kevent(2) on top of epoll, which libdispatch's manager queue
      waits in.
    - libblocksruntime (src/libblocksruntime): copying and releasing closures.

    The parts meet as follows.  A submission puts an item on the lock-free list of a queue (queue_internal.h); the
    first item wakes the queue, which pushes it on its target queue, in the end on a root queue; a root queue asks
    libpthread_workqueue for a thread; the thread drains the root queue, which invokes the queue, which drains its
    items.  Sources are objects that run on their target queue, and register themselves on the manager queue with
    kevent(2), which here is libkqueue; the manager waits for events and timers and wakes the sources.

    ** Files and the code they model

    - Prelude: machine integers with their conversions, words, lists, the [TransitionSystem] class with
      reachability and invariants, the tactics.
    - Once: once.c.  MpscQueue: the list of a queue, [_dispatch_queue_push_list] (queue_internal.h) and
      [_dispatch_queue_drain] (queue.c).  Semaphore and Group: semaphore.c.  Apply: apply.c.  These are
      transition systems in which every access to a shared word is one step of one of any number of threads.
    - DispatchTime: time.c and the clock shims, on 64-bit words.
    - BlockRuntime: runtime.c of libblocksruntime on an explicit memory.
    - DispatchObject: object.c and the continuation cache.  DispatchQueue: queue.c and what it uses of semaphore.c.
      Both run on a memory of words in which a use of freed memory is a [Fault].  SerialQueue and WideQueue have
      their theorems.  MainQueue: dispatch_main, the run-loop entry points for Qt and dispatch_atfork_child of queue.c, with
      their theorems.  PoolThread: _dispatch_worker_thread of queue.c and the timed wait it makes.
    - DispatchSource: source.c, source_kevent.c and queue_kevent.c.  TimerList, TimerSource, SourceTable, SourceEvents
      and Manager have their theorems, and Manager the loop of the manager queue.
    - DispatchAfter: dispatch_after_f of queue.c, whose one-shot timer is a source, on the state of DispatchSource together with
      the objects and the calls of client functions.  AfterTimer has its theorem.
    - Workqueue: api.c and the shared and overcommit parts of posix/manager.c.  WorkerPool: the pool of threads
      of the same file.  ProcInfo: linux/load.c, linux/thread_info.c and the limits that posix/manager.c asks for.
      PoolManager: the manager thread, submission, suspension and the handler of a fork, with the other two as one system.
    - RbTree: the red-black macros of libkqueue's common/tree.h (RB_INSERT, RB_REMOVE, RB_FIND and what they call), on nodes
      with the pointers and colours of RB_ENTRY.  RbHeap relates the nodes to trees, RbBalance has the colours, RbMap the theorem.
    - Kqueue: the common directory of libkqueue.  KqueueLinux: its linux directory.  KqueueTable, KqueueEvents
      and KqueueDelivery have their theorems, KqueueTree connects them with the red-black tree, and KqueueClient has those of
      libdispatch running on libkqueue.

    ** What the theorems show

    - Submission.  Whatever the interleaving, the list of a queue is a FIFO queue ([mq_refines_fifo], [mq_fifo]) whose
      drain ends with everything delivered ([mq_drain_empties]); work submitted to an idle serial queue runs once, in
      order, and leaves everything as it was ([serial_async_completes]); a synchronous call runs inline
      ([sync_idle_inline]); the width bounds what runs at once ([width_bounds_concurrency]); objects are disposed of
      exactly at the last release ([object_refs]).
    - The main queue.  What is submitted to it waits until dispatch_main gives it up ([main_queue_runs_after_main]) or a run
      loop, told once of the batch, drains it ([run_loop_drains_main]).  A root queue without a workqueue takes a thread from its
      pool and gets it back ([pool_thread_serves]).  After a fork the queues of a process that had asked for a worker
      crash at once ([atfork_child_crashes]).
    - Synchronisation.  Semaphores refine an abstract counter and lose no wakeup; a group wait returns after the
      members left, and does return; dispatch_once calls its function once and comes to an end; dispatch_apply calls
      each index once and returns when nobody uses its frame.
    - Time.  Deadlines are saturating arithmetic on the 64-bit encoding, and a deadline n from now has n left.
    - Sources.  Installing and uninstalling keep the table of kevents sound; a cancelled source comes to rest
      with one call of its cancellation handler; events and merged data reach the handler in one call; creation
      accepts exactly what the type of the source allows.
    - Timers.  The lists stay sorted; what fires is exactly what is due; the manager sleeps until the
      earliest timer; dispatch_after_f calls its function once, not before its time, and leaves no source behind
      ([after_calls_once]).
    - Trees.  Whatever the insertions, removals and searches, the red-black tree is a finite map and its height is
      logarithmic ([rb_refines_map]).
    - kqueue emulation.  The change list of kevent() follows an abstract specification of the registered events for
      every reply of the system ([kevent_changes_refine]); delivery stores one event per ready knote and treats one-shot
      and dispatch events as documented ([copyout_delivers]); kqueue() yields a queue that is found again; timeouts are
      rounded down.
    - Both together.  A source installed on libkqueue, in whatever sound state, keeps libdispatch's table sound
      ([source_installs_on_libkqueue]).
    - Threads.  With clients, workers and the manager running together, the counters of the pool are exact, its workers stay within the
      limit, its queues are FIFO, and every overcommit item has a thread about to look for it ([workers_within_limit]); no resume
      of the manager is lost ([resume_not_lost]); the length of the run queue is the one that /proc/stat shows
      ([runqueue_length_parsed]).
    - Closures.  Copying and releasing are inverse on memory; a __block variable moves to the heap once and is
      freed at the last release.
    - Failures that the code has: a lost wakeup of the pool, a NULL dereference in the redirection of wide queues,
      sources on unimplemented filters that fire at once, descriptor 0 closed by a timer that fails, file events that
      cannot be deleted, timeouts beyond 2^31 milliseconds; a main thread that counts twice among the running threads
      ([main_thread_counted_twice]), states that are misread behind a name with spaces, a buffer without an end in load.c, a process
      limit that is cut to 32 bits; a child of a fork that aborts ([fork_child_aborts]) and a suspended manager that works
      ([suspended_manager_starts_worker]).

    ** Interfaces

    [TransitionSystem] is what the concurrent models share.  [sem_spec] is the contract of the semaphore that
    dispatch_apply uses.  [kernel_ok] is what the source model asks of kevent(2): it is discharged by an
    instantiation with the library of Kqueue in KqueueClient.  [FilterLaws] and [CopyoutLaws] are what the common
    code of libkqueue asks of the functions of a filter, and the Linux filters are shown to obey them; [OsOk] is
    what they rely on of the kernel (errno is not negative, a signalfd gives whole records).

    ** Parameters

    System calls, the replies of malloc, the clocks, client functions and the helpers that a
    compiler generates for closures are arguments of the definitions.  Wherever a theorem needs something of them it is a
    hypothesis, and its witness has a concrete function that satisfies it.

    ** Configuration and bounds

    The configuration is Linux on x86_64 with POSIX semaphores, pthread workqueues, ppoll, Qt support (a program without Qt
    is one that registers no handler), no Mach, no legacy
    interfaces and no blocks in libdispatch itself; mach_absolute_time is CLOCK_MONOTONIC in nanoseconds;
    HAVE_EPOLLRDHUP, which the filters test, is never defined by the build.  The concurrent models are
    sequentially consistent.  The models of queues, sources, kevent() and dispatch_after_f are sequential: each function
    runs without interference, and [after_calls_once] orders the caller, the turns of the source and the rounds of the manager
    one after the other.

    Recursion that is not structural has fuel, and the theorems say how much is enough.  [serial_async_completes] needs 7
    more than the number of items, since the knot of calls nests by submission, wakeup, worker, invoke and drain
    and then once per item; [run_timers_fires_due] needs more than the number of timers; cancellation takes at
    most 5 turns of the source, and a timer of dispatch_after_f is gone after 4; a loop down the red-black tree
    takes at most 2 log2 (n+1) + 1 turns for n nodes; the retries of an interrupted inotify read are bounded by [tries], and running out of them is
    a [NoFuel] outcome different from every result of the code.

    ** Not modelled

    - protocolServer.c and protocolUser.c: generated by mig and used on Mach only; legacy.c, benchmark.c, debug.c
      and the debugging functions of the other files: output, or outside of the configuration.
    - blocks.c and the block variants of the interfaces, which copy a block and call the function variant;
      shared_constructor.c.
    - The files for Windows, Solaris and other hosts; libxdispatch and libqtdispatch, which wrap the C interface in
      C++ classes.
    - In queue.c the main queue port for Cocoa, the statistics of DISPATCH_PERF_MON and the legacy queue attributes.
      dispatch_stride of apply.c is compiled out.  In source.c and source_kevent.c the sources for Mach ports, the legacy
      sources and the block handlers.
    - In libkqueue the splay tree, RB_NFIND and RB_PREV of tree.h and the allocator alloc.h, which nothing calls.  The
      knotes of a filter are a finite map in Kqueue; KqueueTree shows that the operations of knote.c do to the tree what they do to the
      map.
    - In libpthread_workqueue the caches of work items that are compiled out, and the load average and thread priorities, which Linux does
      not use.
    - In runtime.c the garbage-collected variants and the dumps.

    ** Plan

    In this order: EV_ENABLE of a knote that is enabled already and the end of regular files in read.c, both
    of which touch descriptors that are in use; the garbage-collected variants of the blocks runtime. *)

From stdpp Require Import base tactics list numbers strings gmap relations.
From Stdlib Require Import ZArith Lia.

Local Open Scope Z_scope.

(** * Machine integers

    A w-bit C integer is a [Z]; unsigned types live in [0, 2^w) and signed types
    in [-2^(w-1), 2^(w-1)).  The conversion functions below are the C conversions
    (wrap-around); every arithmetic operation of the models is followed by the one
    of the type the C expression has. *)

Declare Scope mint_scope.
Delimit Scope mint_scope with mint.

Definition u64 (z : Z) : Z := z mod 2 ^ 64.
Definition s64 (z : Z) : Z := (z + 2 ^ 63) mod 2 ^ 64 - 2 ^ 63.
Definition u32 (z : Z) : Z := z mod 2 ^ 32.
Definition s32 (z : Z) : Z := (z + 2 ^ 31) mod 2 ^ 32 - 2 ^ 31.
Definition u16 (z : Z) : Z := z mod 2 ^ 16.

Notation "'in_u64' z" := (0 <= z < 2 ^ 64) (at level 10, z at level 9).
Notation "'in_s64' z" := (- 2 ^ 63 <= z < 2 ^ 63) (at level 10, z at level 9).
Notation "'in_u32' z" := (0 <= z < 2 ^ 32) (at level 10, z at level 9).
Notation "'in_s32' z" := (- 2 ^ 31 <= z < 2 ^ 31) (at level 10, z at level 9).

Definition INT64_MAX : Z := 2 ^ 63 - 1.
Definition UINT64_MAX : Z := 2 ^ 64 - 1.
Definition INT_MAX : Z := 2 ^ 31 - 1.
Definition LONG_MAX : Z := 2 ^ 63 - 1.

Lemma u64_range z : in_u64 (u64 z).
Proof. apply Z.mod_pos_bound; lia. Qed.
Lemma s64_range z : in_s64 (s64 z).
Proof. unfold s64. pose proof (Z.mod_pos_bound (z + 2 ^ 63) (2 ^ 64)). lia. Qed.
Lemma u32_range z : in_u32 (u32 z).
Proof. apply Z.mod_pos_bound; lia. Qed.
Lemma s32_range z : in_s32 (s32 z).
Proof. unfold s32. pose proof (Z.mod_pos_bound (z + 2 ^ 31) (2 ^ 32)). lia. Qed.

Lemma u64_id z : in_u64 z -> u64 z = z.
Proof. intros. apply Z.mod_small. lia. Qed.
Lemma s64_id z : in_s64 z -> s64 z = z.
Proof. intros. unfold s64. rewrite Z.mod_small; lia. Qed.
Lemma u32_id z : in_u32 z -> u32 z = z.
Proof. intros. apply Z.mod_small. lia. Qed.
Lemma s32_id z : in_s32 z -> s32 z = z.
Proof. intros. unfold s32. rewrite Z.mod_small; lia. Qed.

(** Values one period away from the range, the only wrap-arounds the code meets. *)
Lemma u64_below z : - 2 ^ 64 <= z < 0 -> u64 z = z + 2 ^ 64.
Proof. intros. unfold u64. replace z with (z + 2 ^ 64 + (-1) * 2 ^ 64) at 1 by lia.
  rewrite Z_mod_plus_full. apply Z.mod_small. lia. Qed.
Lemma u64_above z : 2 ^ 64 <= z < 2 ^ 65 -> u64 z = z - 2 ^ 64.
Proof. intros. unfold u64. replace z with (z - 2 ^ 64 + 1 * 2 ^ 64) at 1 by lia.
  rewrite Z_mod_plus_full. apply Z.mod_small. lia. Qed.
Lemma s64_above z : 2 ^ 63 <= z < 2 ^ 63 + 2 ^ 64 -> s64 z = z - 2 ^ 64.
Proof. intros. unfold s64. replace (z + 2 ^ 63) with (z - 2 ^ 63 + 1 * 2 ^ 64) by lia.
  rewrite Z_mod_plus_full, Z.mod_small; lia. Qed.
Lemma s64_below z : - 2 ^ 63 - 2 ^ 64 <= z < - 2 ^ 63 -> s64 z = z + 2 ^ 64.
Proof. intros. unfold s64.
  replace (z + 2 ^ 63) with (z + 2 ^ 63 + 2 ^ 64 + (-1) * 2 ^ 64) by lia.
  rewrite Z_mod_plus_full, Z.mod_small; lia. Qed.

(** Conversions of the same width undo each other. *)
Lemma s64_u64 z : s64 (u64 z) = s64 z.
Proof. unfold s64, u64. by rewrite Zplus_mod_idemp_l. Qed.
Lemma u64_s64 z : u64 (s64 z) = u64 z.
Proof. unfold s64, u64. rewrite Zminus_mod_idemp_l. f_equal. lia. Qed.
Lemma u64_u64 z : u64 (u64 z) = u64 z.
Proof. apply u64_id, u64_range. Qed.
Lemma u32_u32 z : u32 (u32 z) = u32 z.
Proof. apply u32_id, u32_range. Qed.

Create HintDb mint discriminated.
#[export] Hint Resolve u64_range s64_range u32_range s32_range : mint.
Create Rewrite HintDb mint_norm.
#[export] Hint Rewrite s64_u64 u64_s64 u64_u64 u32_u32 : mint_norm.

(** Bit operations stay inside the width of their operands. *)
Lemma lor_range a b n : 0 <= n -> 0 <= a < 2 ^ n -> 0 <= b < 2 ^ n -> 0 <= Z.lor a b < 2 ^ n.
Proof.
  intros Hn Ha Hb. assert (Z.lor a b = Z.lor a b mod 2 ^ n) as ->; [|apply Z.mod_pos_bound; lia].
  rewrite <- Z.land_ones, Z.land_lor_distr_l, !Z.land_ones by done.
  by rewrite !Z.mod_small.
Qed.
Lemma land_range a b n : 0 <= n -> 0 <= a < 2 ^ n -> 0 <= Z.land a b < 2 ^ n.
Proof.
  intros Hn Ha. assert (Z.land a b = Z.land a b mod 2 ^ n) as ->; [|apply Z.mod_pos_bound; lia].
  rewrite <- Z.land_ones, (Z.land_comm a), <- Z.land_assoc, Z.land_ones by done.
  by rewrite Z.mod_small.
Qed.

(** [wrap] removes every conversion whose argument is in range, or one period away
    from it, by looking for the facts in the context. *)
Ltac wrap_step :=
  match goal with
  | |- context [u64 ?z] => rewrite (u64_id z) by lia
  | |- context [s64 ?z] => rewrite (s64_id z) by lia
  | |- context [u32 ?z] => rewrite (u32_id z) by lia
  | |- context [s32 ?z] => rewrite (s32_id z) by lia
  | |- context [u64 ?z] => rewrite (u64_below z) by lia
  | |- context [u64 ?z] => rewrite (u64_above z) by lia
  | |- context [s64 ?z] => rewrite (s64_above z) by lia
  | |- context [s64 ?z] => rewrite (s64_below z) by lia
  end.
Ltac wrap := repeat wrap_step.

(** Splits on the boolean comparisons of the code, with their arithmetic meaning. *)
Ltac case_cmp :=
  match goal with
  | |- context [Z.eqb ?a ?b] => destruct (Z.eqb_spec a b)
  | |- context [Z.ltb ?a ?b] => destruct (Z.ltb_spec a b)
  | |- context [Z.leb ?a ?b] => destruct (Z.leb_spec a b)
  | |- context [Z.gtb ?a ?b] => rewrite (Z.gtb_ltb a b)
  | |- context [Z.geb ?a ?b] => rewrite (Z.geb_leb a b)
  end.

(** * A state and error monad

    C code that mutates memory is a function of the memory [S].  It returns a value
    with the new memory, or stops: [Crash] is the abort of DISPATCH_CRASH and
    DISPATCH_CLIENT_CRASH (and of a failed assertion) with its message, [Fault] an access through an
    invalid pointer, [NoFuel] a recursion that used up the bound it was given. *)

Inductive outcome (S A : Type) : Type :=
| Ret (a : A) (s : S)
| Crash (msg : string) (s : S)
| Fault (s : S)
| NoFuel.
Arguments Ret {S A}.
Arguments Crash {S A}.
Arguments Fault {S A}.
Arguments NoFuel {S A}.

Definition M (S A : Type) : Type := S -> outcome S A.

#[export] Instance M_ret {S} : MRet (M S) := fun A a s => Ret a s.
#[export] Instance M_bind {S} : MBind (M S) := fun A B f m s =>
  match m s with
  | Ret a s' => f a s'
  | Crash msg s' => Crash msg s'
  | Fault s' => Fault s'
  | NoFuel => NoFuel
  end.

Definition get {S} : M S S := fun s => Ret s s.
Definition gets {S A} (f : S -> A) : M S A := fun s => Ret (f s) s.
Definition modify {S} (f : S -> S) : M S unit := fun s => Ret tt (f s).
Definition crash {S A} (msg : string) : M S A := fun s => Crash msg s.
Definition fault {S A} : M S A := fun s => Fault s.
Definition out_of_fuel {S A} : M S A := fun _ => NoFuel.

Lemma bind_ret_inv {S A B} (m : M S A) (f : A -> M S B) s b s' :
  (m ≫= f) s = Ret b s' -> exists a s1, m s = Ret a s1 /\ f a s1 = Ret b s'.
Proof. unfold mbind, M_bind. destruct (m s); naive_solver. Qed.

Lemma bind_step {S A B} (m : M S A) (f : A -> M S B) s a s1 :
  m s = Ret a s1 -> (m ≫= f) s = f a s1.
Proof. unfold mbind, M_bind. by intros ->. Qed.

Lemma bind_assoc {S A B C} (m : M S A) (f : A -> M S B) (g : B -> M S C) s :
  ((m ≫= f) ≫= g) s = (m ≫= (fun a => f a ≫= g)) s.
Proof. unfold mbind, M_bind. by destruct (m s). Qed.
Lemma ret_bind {S A B} (a : A) (f : A -> M S B) s : ((mret a : M S A) ≫= f) s = f a s.
Proof. done. Qed.
Lemma gets_bind {S A B} (p : S -> A) (f : A -> M S B) s : (gets p ≫= f) s = f (p s) s.
Proof. done. Qed.
Lemma modify_bind {S B} (p : S -> S) (f : unit -> M S B) s : (modify p ≫= f) s = f tt (p s).
Proof. done. Qed.

(** * Transition systems

    Concurrent code is a relation between global states, one constructor for each atomic
    access of a thread.  What a component promises is an invariant of
    the reachable states. *)

Class TransitionSystem (St : Type) := {
  ts_init : St -> Prop;
  ts_step : St -> St -> Prop
}.

Definition reachable `{TransitionSystem St} (s : St) : Prop :=
  exists s0, ts_init s0 /\ rtc ts_step s0 s.

Section invariants.
Context `{TransitionSystem St}.

Lemma reachable_init s : ts_init s -> reachable s.
Proof. intros. by exists s. Qed.

Lemma reachable_step s s' : reachable s -> ts_step s s' -> reachable s'.
Proof. intros (s0 & ? & ?) ?. exists s0. split; [done|]. by eapply rtc_r. Qed.

Lemma reachable_rtc s s' : reachable s -> rtc ts_step s s' -> reachable s'.
Proof. intros (s0 & ? & ?) ?. exists s0. split; [done|]. by etrans. Qed.

(** Rule induction on reachability: an inductive invariant holds of every
    reachable state. *)
Lemma invariant_reachable (Inv : St -> Prop) :
  (forall s, ts_init s -> Inv s) ->
  (forall s s', Inv s -> ts_step s s' -> Inv s') ->
  forall s, reachable s -> Inv s.
Proof.
  intros Hi Hs s (s0 & H0%Hi & Hrtc). induction Hrtc; naive_solver.
Qed.

End invariants.

Lemma elem_of_insert_inv {A} (l : list A) i x y :
  x ∈ <[i:=y]> l -> x = y \/ x ∈ l.
Proof.
  intros (j & Hj)%list_elem_of_lookup. apply list_lookup_insert_Some in Hj as [Hj|Hj].
  - naive_solver.
  - right. apply list_elem_of_lookup. naive_solver.
Qed.

(** The comparisons the code has already decided, as arithmetic facts. *)
Ltac cmp_hyps :=
  repeat match goal with
  | H : Z.eqb _ _ = true |- _ => apply Z.eqb_eq in H
  | H : Z.eqb _ _ = false |- _ => apply Z.eqb_neq in H
  | H : Z.ltb _ _ = true |- _ => apply Z.ltb_lt in H
  | H : Z.ltb _ _ = false |- _ => apply Z.ltb_ge in H
  | H : Z.leb _ _ = true |- _ => apply Z.leb_le in H
  | H : Z.leb _ _ = false |- _ => apply Z.leb_gt in H
  end.

(** Runs the tests of a step that was taken: every match is split, the equations on
    its result are solved and the comparisons become arithmetic. *)
Ltac solve_tests := simpl in *; repeat case_match; simplify_eq/=; cmp_hyps.

(** * Counting over thread pools *)

Section zsum.
Context {A : Type}.
Implicit Types (f : A -> Z) (l : list A).

Fixpoint zsum f l : Z :=
  match l with
  | [] => 0
  | x :: l => f x + zsum f l
  end.

Lemma zsum_app f l1 l2 : zsum f (l1 ++ l2) = zsum f l1 + zsum f l2.
Proof. induction l1; simpl; lia. Qed.

Lemma zsum_add f g l : zsum (fun x => f x + g x) l = zsum f l + zsum g l.
Proof. induction l; simpl; lia. Qed.

Lemma zsum_const k l : zsum (fun _ => k) l = k * Z.of_nat (length l).
Proof. induction l; simpl; lia. Qed.

Lemma zsum_insert f l i x y :
  l !! i = Some x -> zsum f (<[i:=y]> l) = zsum f l - f x + f y.
Proof.
  revert i. induction l as [|z l IH]; intros [|i] Hi; simplify_eq/=; [lia|].
  rewrite (IH _ Hi). lia.
Qed.

Lemma zsum_nonneg f l : (forall x, 0 <= f x) -> 0 <= zsum f l.
Proof. intros Hf. induction l as [|x l IH]; simpl; [lia|]. specialize (Hf x). lia. Qed.

Lemma zsum_lookup_le f l i x :
  (forall x, 0 <= f x) -> l !! i = Some x -> f x <= zsum f l.
Proof.
  intros Hf. revert i. induction l as [|z l IH]; intros [|i] Hi; simplify_eq/=.
  - pose proof (zsum_nonneg f l Hf). lia.
  - specialize (IH _ Hi). specialize (Hf z). lia.
Qed.

Lemma zsum_replicate f n x : zsum f (replicate n x) = Z.of_nat n * f x.
Proof. induction n; simpl; lia. Qed.

Lemma zsum_zero f l : (forall x, x ∈ l -> f x = 0) -> zsum f l = 0.
Proof.
  induction l as [|x l IH]; intros Hf; simpl; [done|].
  rewrite Hf by set_solver. rewrite IH; [lia|set_solver].
Qed.

Lemma zsum_ext f g l : (forall x, x ∈ l -> f x = g x) -> zsum f l = zsum g l.
Proof.
  induction l as [|x l IH]; intros Hf; simpl; [done|].
  rewrite Hf, IH; set_solver.
Qed.

Lemma zsum_pos_elem f l :
  (forall x, 0 <= f x) -> 0 < zsum f l -> exists i x, l !! i = Some x /\ 0 < f x.
Proof.
  intros Hf. induction l as [|x l IH]; simpl; intros Hpos; [lia|].
  destruct (decide (0 < f x)); [by exists 0%nat, x|].
  destruct IH as (i & y & Hi & Hy); [specialize (Hf x); lia|].
  by exists (S i), y.
Qed.

End zsum.

(** Two different positions both count. *)
Lemma zsum_lookup2_le {A} (f : A -> Z) l i j x y :
  (forall x, 0 <= f x) -> i <> j -> l !! i = Some x -> l !! j = Some y ->
  f x + f y <= zsum f l.
Proof.
  intros Hf. revert i j. induction l as [|z l IH]; intros [|i] [|j] Hij Hi Hj; simplify_eq/=.
  - pose proof (zsum_lookup_le f l j y Hf Hj). lia.
  - pose proof (zsum_lookup_le f l i x Hf Hi). lia.
  - assert (i <> j) as Hne by congruence.
    pose proof (IH i j Hne Hi Hj). specialize (Hf z). lia.
Qed.

(** * Lists of identifiers *)

Section filtering.
Context {A : Type} (P : A -> Prop) `{!forall x, Decision (P x)}.

Lemma filter_all_true (l : list A) : (forall x, x ∈ l -> P x) -> filter P l = l.
Proof.
  induction l as [|y l IH]; intros Hl; [done|]. rewrite filter_cons_True by (apply Hl; set_solver).
  by rewrite IH by (intros; apply Hl; set_solver).
Qed.
Lemma filter_all_false (l : list A) : (forall x, x ∈ l -> ~ P x) -> filter P l = [].
Proof.
  induction l as [|y l IH]; intros Hl; [done|]. rewrite filter_cons_False by (apply Hl; set_solver).
  by rewrite IH by (intros; apply Hl; set_solver).
Qed.

End filtering.

Lemma filter_iff_in {A} (P Q : A -> Prop) `{!forall x, Decision (P x), !forall x, Decision (Q x)} (l : list A) :
  (forall x, x ∈ l -> (P x <-> Q x)) -> filter P l = filter Q l.
Proof.
  induction l as [|y l IH]; intros Hl; [done|]. rewrite !filter_cons.
  destruct (Hl y ltac:(set_solver)) as [H1 H2]. rewrite IH by set_solver. repeat case_decide; naive_solver.
Qed.

(** TAILQ_REMOVE of an element: absent, or at one place. *)
Lemma remove_absent (ds : Z) (l : list Z) : ds ∉ l -> filter (fun x => x <> ds) l = l.
Proof. intros Hl. apply filter_all_true. intros x Hx ->. done. Qed.
Lemma remove_at_head (ds : Z) (l : list Z) : ds ∉ l -> filter (fun x => x <> ds) (ds :: l) = l.
Proof. intros Hl. rewrite filter_cons_False by (intros H; by apply H). by apply remove_absent. Qed.
