(* ===== verification/Once.v ===== *)
(** * Once-initialisation: libdispatch/src/once.c and include/dispatch/once.h

    [dispatch_once_f] is called by any number of threads on one predicate word.  A
    thread is a program counter; [once_thread_step] is the next atomic access of a
    thread, in the order of the C text (the test of the [dispatch_once_f] macro, the
    compare-and-swap, the call of the client function, the store of ~0l, the reads
    of the spin loop).  [once_step] interleaves the threads arbitrarily.  The barriers
    are no-ops here: the model is sequentially consistent. *)

From S2P Require Import Prelude.
From stdpp Require Import base tactics list numbers relations.
From Stdlib Require Import ZArith Lia.

Local Open Scope Z_scope.

Inductive once_pc :=
| OCall       (* at the macro, before the test of *x *)
| OCas        (* in the function, before dispatch_atomic_cmpxchg(val, 0l, 1l) *)
| OFunc       (* won the race, inside func(ctxt) *)
| OStore      (* func returned, before *val = ~0l *)
| OSpin       (* lost the race, in the do/while loop *)
| OReturned.

Record once_state := OnceState {
  once_val : Z;              (* *val, an intptr_t *)
  once_runs : nat;           (* completed calls of func *)
  once_threads : list once_pc
}.

(** ~0l *)
Definition once_done : Z := -1.

(** What one step of a thread does to its counter, the predicate, and the number of
    completed calls of the client function. *)
Definition once_thread_step (pc : once_pc) (val : Z) : option (once_pc * Z * nat) :=
  match pc with
  | OCall => if val =? once_done then Some (OReturned, val, 0%nat) else Some (OCas, val, 0%nat)
  | OCas => if val =? 0 then Some (OFunc, 1, 0%nat) else Some (OSpin, val, 0%nat)
  | OFunc => Some (OStore, val, 1%nat)
  | OStore => Some (OReturned, once_done, 0%nat)
  | OSpin => if val =? once_done then Some (OReturned, val, 0%nat) else Some (OSpin, val, 0%nat)
  | OReturned => None
  end.

Definition once_step_at (i : nat) (s : once_state) : option once_state :=
  pc ← once_threads s !! i;
  '(pc', val', n) ← once_thread_step pc (once_val s);
  Some (OnceState val' (once_runs s + n) (<[i:=pc']> (once_threads s))).

Definition once_step (s s' : once_state) : Prop := exists i, once_step_at i s = Some s'.

(** [n] threads about to call [dispatch_once_f] on a zero predicate. *)
Definition once_start (n : nat) : once_state := OnceState 0 0 (replicate n OCall).

#[export] Instance once_ts : TransitionSystem once_state := {
  ts_init s := exists n, s = once_start n;
  ts_step := once_step
}.

(** ** Invariant *)

(** The thread that owns the initialisation. *)
Definition once_owner (pc : once_pc) : Z :=
  match pc with OFunc | OStore => 1 | _ => 0 end.
Definition once_stored (pc : once_pc) : Z :=
  match pc with OStore => 1 | _ => 0 end.

(** The predicate is 0, 1 or ~0l; it is 1 exactly while one thread owns the
    initialisation; the client function has completed exactly when that owner is about to
    publish or the predicate says so; nobody has returned before that. *)
Definition once_inv (s : once_state) : Prop :=
  let owners := zsum once_owner (once_threads s) in
  ((once_val s = 0 /\ owners = 0 /\ once_runs s = 0%nat) \/
   (once_val s = 1 /\ owners = 1 /\
    Z.of_nat (once_runs s) = zsum once_stored (once_threads s)) \/
   (once_val s = once_done /\ owners = 0 /\ once_runs s = 1%nat)) /\
  (OReturned ∈ once_threads s -> once_val s = once_done) /\
  (OSpin ∈ once_threads s -> once_val s <> 0).

Lemma once_step_at_inv i s s' :
  once_step_at i s = Some s' ->
  exists pc pc' n, once_threads s !! i = Some pc /\
    once_thread_step pc (once_val s) = Some (pc', once_val s', n) /\
    once_runs s' = (once_runs s + n)%nat /\
    once_threads s' = <[i:=pc']> (once_threads s).
Proof.
  unfold once_step_at. intros H.
  destruct (once_threads s !! i) as [pc|] eqn:Hpc; simplify_eq/=.
  destruct (once_thread_step pc (once_val s)) as [[[pc' v'] n]|] eqn:Hst; simplify_eq/=.
  eauto 10.
Qed.

Lemma once_stored_owner l : 0 <= zsum once_stored l <= zsum once_owner l.
Proof. induction l as [|[] l IH]; simpl; lia. Qed.

Lemma once_stored_owner_others l i pc :
  l !! i = Some pc -> zsum once_stored l - once_stored pc <= zsum once_owner l - once_owner pc.
Proof.
  revert i. induction l as [|q l IH]; intros [|i] Hi; simplify_eq/=.
  - pose proof (once_stored_owner l). lia.
  - specialize (IH _ Hi). destruct q; simpl; lia.
Qed.

Lemma once_inv_step s s' : once_inv s -> once_step s s' -> once_inv s'.
Proof.
  intros (Hst & Hret & Hspin) (i & (pc & pc' & n & Hi & Hstep & Hruns & Hthr)%once_step_at_inv).
  destruct s' as [v' r' t']; simpl in *; subst.
  pose proof (zsum_lookup_le once_owner _ i pc ltac:(by intros []) Hi) as Hle.
  pose proof (zsum_lookup_le once_stored _ i pc ltac:(by intros []) Hi) as Hle2.
  pose proof (once_stored_owner (once_threads s)) as Hso.
  pose proof (once_stored_owner_others _ _ _ Hi) as Hoth.
  assert (pc ∈ once_threads s) as Hin by (apply list_elem_of_lookup; eauto).
  unfold once_inv; simpl.
  rewrite (zsum_insert once_owner _ _ _ _ Hi), (zsum_insert once_stored _ _ _ _ Hi).
  destruct pc; solve_tests; unfold once_done in *;
    (split; [lia|]);
    (split; intros [Heq|Hold]%elem_of_insert_inv; try done; try naive_solver lia).
Qed.

Lemma once_inv_start n : once_inv (once_start n).
Proof.
  unfold once_inv, once_start; simpl. rewrite zsum_replicate; simpl.
  split; [left; split_and!; [done|lia|done]|].
  split; intros [? ?]%elem_of_replicate; done.
Qed.

Lemma once_inv_reachable s : reachable s -> once_inv s.
Proof.
  apply invariant_reachable; [intros ? [n ->]; apply once_inv_start|apply once_inv_step].
Qed.

(** ** Progress *)

(** Accesses a thread has left, the turns of the spin loop not counted. *)
Definition once_left (pc : once_pc) : Z :=
  match pc with OCall => 4 | OCas => 3 | OFunc => 2 | OStore => 1 | OSpin => 1 | OReturned => 0 end.
Definition once_measure (s : once_state) : Z := zsum once_left (once_threads s).

Lemma once_step_at_some i s pc pc' v' n :
  once_threads s !! i = Some pc -> once_thread_step pc (once_val s) = Some (pc', v', n) ->
  once_step s (OnceState v' (once_runs s + n) (<[i:=pc']> (once_threads s))).
Proof. intros Hi Hst. exists i. unfold once_step_at. rewrite Hi; simpl. by rewrite Hst. Qed.

(** A thread other than one that must keep spinning brings the end nearer. *)
Lemma once_advance i s pc :
  once_threads s !! i = Some pc -> pc <> OReturned -> (pc = OSpin -> once_val s = once_done) ->
  exists s', once_step s s' /\ once_measure s' < once_measure s.
Proof.
  intros Hi Hret Hsp. unfold once_measure.
  destruct (once_thread_step pc (once_val s)) as [[[pc' v'] n]|] eqn:Hst;
    [|destruct pc; simpl in Hst; repeat case_match; naive_solver].
  eexists; split; [by eapply once_step_at_some|]. simpl.
  rewrite (zsum_insert once_left _ _ _ _ Hi).
  destruct pc; solve_tests; try lia.
  destruct (Z.eqb_spec (once_val s) once_done); naive_solver.
Qed.

Lemma once_progress s :
  once_inv s -> 0 < once_measure s ->
  exists s', once_step s s' /\ once_measure s' < once_measure s.
Proof.
  intros (Hst & Hret & Hspin) Hpos.
  destruct (zsum_pos_elem once_left (once_threads s)) as (i & pc & Hi & Hpc);
    [by intros []|done|].
  destruct (decide (once_val s = 1)) as [H1|H1].
  - destruct Hst as [?|[(_ & Ho & _)|[H2 _]]];
      [lia| |rewrite H1 in H2; done].
    destruct (zsum_pos_elem once_owner (once_threads s)) as (j & q & Hj & Hq);
      [by intros []|lia|].
    apply (once_advance j s q Hj); by destruct q.
  - apply (once_advance i s pc Hi); [by intros ->|].
    intros ->. assert (once_val s <> 0) by (apply Hspin, list_elem_of_lookup; eauto).
    unfold once_done in *. lia.
Qed.

Lemma once_all_return s :
  once_inv s -> exists s', rtc once_step s s' /\ once_measure s' = 0.
Proof.
  remember (Z.to_nat (once_measure s)) as m eqn:Hm.
  revert s Hm. induction m as [m IH] using lt_wf_ind. intros s Hm Hinv.
  assert (0 <= once_measure s) by (apply zsum_nonneg; by intros []).
  destruct (decide (once_measure s = 0)); [by exists s|].
  destruct (once_progress s Hinv) as (s1 & Hs1 & Hlt); [lia|].
  assert (0 <= once_measure s1) by (apply zsum_nonneg; by intros []).
  destruct (IH (Z.to_nat (once_measure s1)) ltac:(lia) s1 eq_refl) as (s2 & Hr & Hz).
  { by eapply once_inv_step. }
  exists s2. split; [by eapply rtc_l|done].
Qed.

Lemma once_measure_zero s i pc :
  once_measure s = 0 -> once_threads s !! i = Some pc -> pc = OReturned.
Proof.
  intros Hm Hi. pose proof (zsum_lookup_le once_left _ i pc ltac:(by intros []) Hi) as Hle.
  unfold once_measure in Hm. destruct pc; simpl in Hle; (done || lia).
Qed.

Lemma once_threads_rtc s s' :
  rtc once_step s s' -> length (once_threads s') = length (once_threads s).
Proof.
  induction 1 as [|s s1 s2 Hst _ IH]; [done|]. rewrite IH.
  destruct Hst as (i & (? & ? & ? & ? & ? & ? & ->)%once_step_at_inv). apply length_insert.
Qed.

(** ** Properties *)

(** C24: however the threads are interleaved, the client function of dispatch_once_f
    completes at most once, at most one thread is inside it or about to publish, and a thread
    that has returned has returned after that one completed call. *)
Theorem once_exactly_once (s : once_state) :
  reachable s ->
  (once_runs s <= 1)%nat /\
  zsum once_owner (once_threads s) <= 1 /\
  (OReturned ∈ once_threads s -> once_runs s = 1%nat).
Proof.
  intros (Hst & Hret & Hspin)%once_inv_reachable.
  pose proof (once_stored_owner (once_threads s)).
  split_and!; [lia|lia|]. intros Hr%Hret. unfold once_done in *. lia.
Qed.

Definition once_demo : once_state := OnceState (-1) 1 [OReturned; OSpin].

Lemma once_exactly_once_witness :
  reachable once_demo /\ (once_runs once_demo <= 1)%nat /\
  zsum once_owner (once_threads once_demo) <= 1 /\
  (OReturned ∈ once_threads once_demo -> once_runs once_demo = 1%nat).
Proof.
  assert (reachable once_demo) as Hr.
  { exists (once_start 2). split; [by exists 2%nat|].
    eapply rtc_l; [by exists 0%nat|]. eapply rtc_l; [by exists 1%nat|].
    eapply rtc_l; [by exists 0%nat|]. eapply rtc_l; [by exists 1%nat|].
    eapply rtc_l; [by exists 0%nat|]. apply rtc_once. by exists 0%nat. }
  split; [exact Hr|]. exact (once_exactly_once once_demo Hr).
Defined.

(** C25: no reachable state is a dead end: from each of them the threads can run so that
    every call of dispatch_once_f returns, and then the client function
    has completed exactly once if there was a call at all. *)
Theorem once_completes (s : once_state) :
  reachable s ->
  exists s', rtc once_step s s' /\
    Forall (fun pc => pc = OReturned) (once_threads s') /\
    (once_threads s <> [] -> once_runs s' = 1%nat).
Proof.
  intros Hr. pose proof (once_inv_reachable s Hr) as Hinv.
  destruct (once_all_return s Hinv) as (s' & Hrtc & Hm). exists s'.
  assert (Forall (fun pc => pc = OReturned) (once_threads s')) as Hall.
  { apply Forall_lookup. intros i pc. by apply once_measure_zero. }
  split_and!; [done|done|]. intros Hne.
  pose proof (once_threads_rtc _ _ Hrtc) as Hlen.
  assert (once_inv s') as (Hst & Hret & _) by (by eapply once_inv_reachable, reachable_rtc).
  destruct (once_threads s') as [|pc l] eqn:Ht; [by destruct (once_threads s)|].
  apply Forall_cons in Hall as [-> _]. specialize (Hret ltac:(set_solver)).
  unfold once_done in *. lia.
Qed.

Lemma once_completes_witness :
  reachable (once_start 3) /\ exists s', rtc once_step (once_start 3) s' /\
    Forall (fun pc => pc = OReturned) (once_threads s') /\
    (once_threads (once_start 3) <> [] -> once_runs s' = 1%nat).
Proof.
  assert (reachable (once_start 3)) as Hr by (apply reachable_init; by exists 3%nat).
  split; [exact Hr|]. exact (once_completes (once_start 3) Hr).
Defined.
