(* ===== verification/MpscQueue.v ===== *)
(** * The lock-free item list of a queue: _dispatch_queue_push_list and _dispatch_queue_drain

    The list of a dispatch queue is two words, dq_items_tail and dq_items_head, and the
    do_next fields of the items.  Producers ([_dispatch_queue_push_list] of
    queue_internal.h and [_dispatch_queue_push_list_slow] of queue.c) run concurrently with
    each other and with the one thread that holds dq_running and is inside
    [_dispatch_queue_drain] (queue.c).  Every shared access is one step.

    Producer [i] pushes the chain [mq_chains !! i] once; its stage says where it is.  The
    drainer's counter follows the C loop, including the path after [out:] that puts
    an item back.  The tests between reading an item and running it (suspension, width, target
    queue, barrier) are environment choices: the [go] argument of [mq_drain_step].

    Two ghost lists record what happened: [mq_log] the items in the order of the
    xchg on dq_items_tail, [mq_out] the items in the order they were popped. *)

From S2P Require Import Prelude.
From stdpp Require Import base tactics list numbers gmap relations.
From Stdlib Require Import ZArith Lia.

Local Open Scope Z_scope.

Inductive push_stage :=
| PInit          (* before tail->do_next = NULL *)
| PXchg          (* before prev = xchg(&dq->dq_items_tail, tail) *)
| PLink (prev : Z) (* prev was not NULL, before prev->do_next = head *)
| PHead          (* prev was NULL: in push_list_slow, before dq_items_head = obj *)
| PWake          (* before _dispatch_wakeup(dq) *)
| PDone.

Inductive drain_pc :=
| DIdle                      (* dq_running is not held *)
| DTest                      (* before the test of dq_items_tail *)
| DSpin                      (* while (!dq->dq_items_head) *)
| DRead                      (* before dc = dq->dq_items_head *)
| DClear (dc : Z)            (* before dq->dq_items_head = NULL *)
| DNext (dc : Z)             (* before next_dc = dc->do_next *)
| DCas (dc : Z)              (* next_dc is NULL, before cmpxchg(&dq->dq_items_tail, dc, NULL) *)
| DCheck (dc next : Z)       (* before the tests that may goto out *)
| DPop (dc next : Z)         (* before _dispatch_continuation_pop(dc) *)
| DUndo (dc next : Z)        (* at out: with dc <> NULL *)
| DRestore (dc : Z)          (* before dq->dq_items_head = dc *)
| DWait (dc : Z)             (* while (!(next_dc = dq->dq_items_head)) *)
| DRelink1 (dc next : Z)     (* before dq->dq_items_head = dc *)
| DRelink2 (dc next : Z).    (* before dc->do_next = next_dc *)

Record mq_state := MqState {
  mq_tail : Z;                      (* dq_items_tail *)
  mq_head : Z;                      (* dq_items_head *)
  mq_next : gmap Z Z;               (* do_next of every item *)
  mq_chains : list (list Z);        (* what producer i pushes *)
  mq_prods : list push_stage;
  mq_drain : drain_pc;
  mq_log : list Z;
  mq_out : list Z
}.

Definition nx (m : gmap Z Z) (a : Z) : Z := default 0 (m !! a).

(** ** Steps *)

(** _dispatch_queue_push_list of producer [i] whose chain starts at [h] and ends at [t],
    one access at a time. *)
Definition mq_push_step (i : nat) (s : mq_state) : option mq_state :=
  let set_stage st := <[i:=st]> (mq_prods s) in
  c ← mq_chains s !! i;
  st ← mq_prods s !! i;
  h ← head c;
  t ← last c;
  match st with
  | PInit => Some (MqState (mq_tail s) (mq_head s) (<[t:=0]> (mq_next s)) (mq_chains s)
                     (set_stage PXchg) (mq_drain s) (mq_log s) (mq_out s))
  | PXchg => Some (MqState t (mq_head s) (mq_next s) (mq_chains s)
                     (set_stage (if mq_tail s =? 0 then PHead else PLink (mq_tail s)))
                     (mq_drain s) (mq_log s ++ c) (mq_out s))
  | PLink prev => Some (MqState (mq_tail s) (mq_head s) (<[prev:=h]> (mq_next s)) (mq_chains s)
                     (set_stage PDone) (mq_drain s) (mq_log s) (mq_out s))
  | PHead => Some (MqState (mq_tail s) h (mq_next s) (mq_chains s)
                     (set_stage PWake) (mq_drain s) (mq_log s) (mq_out s))
  | PWake => Some (MqState (mq_tail s) (mq_head s) (mq_next s) (mq_chains s)
                     (set_stage PDone) (mq_drain s) (mq_log s) (mq_out s))
  | PDone => None
  end.

Definition mq_set_drain (s : mq_state) (pc : drain_pc) : mq_state :=
  MqState (mq_tail s) (mq_head s) (mq_next s) (mq_chains s) (mq_prods s) pc (mq_log s) (mq_out s).
Definition mq_set_head (s : mq_state) (h : Z) (pc : drain_pc) : mq_state :=
  MqState (mq_tail s) h (mq_next s) (mq_chains s) (mq_prods s) pc (mq_log s) (mq_out s).
Definition mq_set_tail (s : mq_state) (t : Z) (pc : drain_pc) : mq_state :=
  MqState t (mq_head s) (mq_next s) (mq_chains s) (mq_prods s) pc (mq_log s) (mq_out s).

(** _dispatch_queue_drain, one access at a time; [go] is the outcome of the tests
    between reading an item and popping it. *)
Definition mq_drain_step (go : bool) (s : mq_state) : mq_state :=
  match mq_drain s with
  | DIdle => mq_set_drain s DTest
  | DTest => mq_set_drain s (if mq_tail s =? 0 then DIdle else DSpin)
  | DSpin => mq_set_drain s (if mq_head s =? 0 then DSpin else DRead)
  | DRead => mq_set_drain s (DClear (mq_head s))
  | DClear dc => mq_set_head s 0 (DNext dc)
  | DNext dc =>
      let next := nx (mq_next s) dc in
      mq_set_drain s (if next =? 0 then DCas dc else DCheck dc next)
  | DCas dc =>
      if mq_tail s =? dc then mq_set_tail s 0 (DCheck dc 0) else mq_set_drain s (DNext dc)
  | DCheck dc next => mq_set_drain s (if go then DPop dc next else DUndo dc next)
  | DPop dc next =>
      MqState (mq_tail s) (mq_head s) (mq_next s) (mq_chains s) (mq_prods s)
        (if next =? 0 then DTest else DNext next) (mq_log s) (mq_out s ++ [dc])
  | DUndo dc next =>
      if negb (next =? 0) then mq_set_drain s (DRestore dc)
      else if mq_tail s =? 0 then mq_set_tail s dc (DRestore dc)
      else mq_set_drain s (DWait dc)
  | DRestore dc => mq_set_head s dc DIdle
  | DWait dc => mq_set_drain s (if mq_head s =? 0 then DWait dc else DRelink1 dc (mq_head s))
  | DRelink1 dc next => mq_set_head s dc (DRelink2 dc next)
  | DRelink2 dc next =>
      MqState (mq_tail s) (mq_head s) (<[dc:=next]> (mq_next s)) (mq_chains s) (mq_prods s)
        DIdle (mq_log s) (mq_out s)
  end.

Inductive mq_step : mq_state -> mq_state -> Prop :=
| mq_step_push s s' i : mq_push_step i s = Some s' -> mq_step s s'
| mq_step_drain s go : mq_step s (mq_drain_step go s).

(** The chains are disjoint, free of NULL, not empty, and already linked inside, as the
    callers of push_list leave them. *)
Fixpoint linked_in (m : gmap Z Z) (c : list Z) : Prop :=
  match c with
  | a :: ((b :: _) as c') => nx m a = b /\ linked_in m c'
  | _ => True
  end.

Definition mq_initial (s : mq_state) : Prop :=
  mq_tail s = 0 /\ mq_head s = 0 /\ mq_drain s = DIdle /\ mq_log s = [] /\ mq_out s = [] /\
  mq_prods s = replicate (length (mq_chains s)) PInit /\
  NoDup (concat (mq_chains s)) /\ 0 ∉ concat (mq_chains s) /\ [] ∉ mq_chains s /\
  Forall (linked_in (mq_next s)) (mq_chains s).

#[export] Instance mq_ts : TransitionSystem mq_state := {
  ts_init := mq_initial;
  ts_step := mq_step
}.

(** ** Invariant *)

(** The item the drainer has taken off the list entirely (its cmpxchg cleared the tail). *)
Definition held (pc : drain_pc) : list Z :=
  match pc with
  | DCheck dc next | DPop dc next | DUndo dc next => if next =? 0 then [dc] else []
  | DWait dc | DRelink1 dc _ | DRelink2 dc _ => [dc]
  | _ => []
  end.

(** The first item of the list, when the drainer owns it (dq_items_head is NULL). *)
Definition attached (pc : drain_pc) : option Z :=
  match pc with
  | DNext dc | DCas dc | DRestore dc => Some dc
  | DCheck dc next | DPop dc next | DUndo dc next => if next =? 0 then None else Some dc
  | _ => None
  end.

(** The successor the drainer has read. *)
Definition next_read (pc : drain_pc) : option (Z * Z) :=
  match pc with
  | DCheck dc next | DPop dc next | DUndo dc next => if next =? 0 then None else Some (dc, next)
  | _ => None
  end.

Section links.
Context (m : gmap Z Z) (chains : list (list Z)) (prods : list push_stage).

(** [b] follows [a], or a producer is about to link it there. *)
Definition link_ok (a b : Z) : Prop :=
  nx m a = b \/
  (nx m a = 0 /\ exists i c, prods !! i = Some (PLink a) /\ chains !! i = Some c /\ head c = Some b).

Fixpoint links (R : list Z) : Prop :=
  match R with
  | [] => True
  | a :: R' => match R' with [] => nx m a = 0 | b :: _ => link_ok a b end /\ links R'
  end.

Definition head_pending (R : list Z) : Prop :=
  exists i c h, prods !! i = Some PHead /\ chains !! i = Some c /\ head c = Some h /\ head R = Some h.
End links.

Definition adj (p h : Z) (R : list Z) : Prop := exists R1 R2, R = R1 ++ p :: h :: R2.

(** Where dq_items_head points, [R] being the items still on the list. *)
Definition head_ok (s : mq_state) (R : list Z) : Prop :=
  match mq_drain s with
  | DRead => mq_head s <> 0 /\ head R = Some (mq_head s)
  | DClear dc => mq_head s = dc /\ head R = Some dc
  | DRelink1 _ n => mq_head s = n /\ head R = Some n
  | DRelink2 dc n => mq_head s = dc /\ head R = Some n
  | pc =>
      match attached pc with
      | Some dc => mq_head s = 0 /\ head R = Some dc
      | None => (mq_head s = 0 /\ (R = [] \/ head_pending (mq_chains s) (mq_prods s) R)) \/
                (mq_head s <> 0 /\ head R = Some (mq_head s))
      end
  end.

Definition pushed (st : push_stage) : bool :=
  match st with PInit | PXchg => false | _ => true end.

Record mq_inv (s : mq_state) (R : list Z) : Prop := {
  inv_log : mq_log s = mq_out s ++ held (mq_drain s) ++ R;
  inv_len : length (mq_prods s) = length (mq_chains s);
  inv_chains : NoDup (concat (mq_chains s));
  inv_nonnull : 0 ∉ concat (mq_chains s);
  inv_nonempty : [] ∉ mq_chains s;
  inv_nodup : NoDup (mq_log s);
  inv_from : forall x, x ∈ mq_log s -> exists i c st,
    mq_chains s !! i = Some c /\ mq_prods s !! i = Some st /\ pushed st = true /\ x ∈ c;
  inv_unpushed : forall i c st, mq_chains s !! i = Some c -> mq_prods s !! i = Some st ->
    pushed st = false -> linked_in (mq_next s) c /\
    (st = PXchg -> forall t, last c = Some t -> nx (mq_next s) t = 0);
  inv_tail : mq_tail s = default 0 (last R);
  inv_links : links (mq_next s) (mq_chains s) (mq_prods s) R;
  inv_plink : forall i p, mq_prods s !! i = Some (PLink p) ->
    nx (mq_next s) p = 0 /\
    exists c h, mq_chains s !! i = Some c /\ head c = Some h /\ adj p h R;
  inv_phead : forall i, mq_prods s !! i = Some PHead ->
    mq_head s = 0 /\ attached (mq_drain s) = None /\
    exists c h, mq_chains s !! i = Some c /\ head c = Some h /\ head R = Some h;
  inv_held : forall dc, dc ∈ held (mq_drain s) -> nx (mq_next s) dc = 0;
  inv_read : forall dc n, next_read (mq_drain s) = Some (dc, n) ->
    nx (mq_next s) dc = n /\ exists R', R = dc :: n :: R';
  inv_head : head_ok s R
}.

(** ** List and link lemmas *)

Lemma nx_insert m a v b : nx (<[a:=v]> m) b = if decide (a = b) then v else nx m b.
Proof. unfold nx. rewrite lookup_insert. by case_decide. Qed.
Lemma nx_insert_ne m a v b : a <> b -> nx (<[a:=v]> m) b = nx m b.
Proof. intros. rewrite nx_insert. by case_decide. Qed.
Lemma nx_insert_eq m a v : nx (<[a:=v]> m) a = v.
Proof. rewrite nx_insert. by case_decide. Qed.

Lemma chain_disjoint (cs : list (list Z)) i j c d x :
  NoDup (concat cs) -> cs !! i = Some c -> cs !! j = Some d -> x ∈ c -> x ∈ d -> i = j.
Proof.
  revert i j. induction cs as [|e cs IH]; intros i j Hnd Hi Hj Hc Hd; [done|].
  simpl in Hnd. apply NoDup_app in Hnd as (He & Hdis & Hcs).
  destruct i as [|i], j as [|j]; simplify_eq/=; try done.
  - exfalso. eapply Hdis; [done|]. apply list_elem_of_In, in_concat.
    exists d. split; apply list_elem_of_In; [by eapply list_elem_of_lookup_2|done].
  - exfalso. eapply Hdis; [done|]. apply list_elem_of_In, in_concat.
    exists c. split; apply list_elem_of_In; [by eapply list_elem_of_lookup_2|done].
  - f_equal. by eapply IH.
Qed.

Lemma chain_elem (cs : list (list Z)) i c x : cs !! i = Some c -> x ∈ c -> x ∈ concat cs.
Proof.
  intros Hi Hx. apply list_elem_of_In, in_concat.
  exists c. split; apply list_elem_of_In; [by eapply list_elem_of_lookup_2|done].
Qed.

Lemma chain_nodup (cs : list (list Z)) i c : NoDup (concat cs) -> cs !! i = Some c -> NoDup c.
Proof.
  revert i. induction cs as [|e cs IH]; intros [|i] Hnd Hi; simplify_eq/=;
    apply NoDup_app in Hnd as (? & ? & ?); eauto.
Qed.

Lemma head_elem {A} (l : list A) x : head l = Some x -> x ∈ l.
Proof. destruct l; intros; simplify_eq/=. set_solver. Qed.
Lemma last_elem {A} (l : list A) x : last l = Some x -> x ∈ l.
Proof. intros [l' ->]%last_Some. set_solver. Qed.

Lemma adj_elem p h R : adj p h R -> p ∈ R /\ h ∈ R.
Proof. intros (R1 & R2 & ->). set_solver. Qed.
Lemma adj_app p h R c : adj p h R -> adj p h (R ++ c).
Proof. intros (R1 & R2 & ->). exists R1, (R2 ++ c). by rewrite <- app_assoc. Qed.
Lemma adj_cons p h a R : adj p h R -> adj p h (a :: R).
Proof. intros (R1 & R2 & ->). by exists (a :: R1), R2. Qed.
Lemma adj_uncons p h a R : adj p h (a :: R) -> p <> a -> adj p h R.
Proof. intros ([|b R1] & R2 & Heq) Hne; simplify_eq/=. by exists R1, R2. Qed.

Lemma adj_fun p h h' R : NoDup R -> adj p h R -> adj p h' R -> h = h'.
Proof.
  intros Hnd (R1 & R2 & ->) (R1' & R2' & Heq). revert R1' Heq.
  induction R1 as [|a R1 IH]; intros [|a' R1'] Heq; simplify_eq/=; try done.
  - apply NoDup_cons in Hnd as [Hn _]. exfalso. apply Hn. rewrite H0. set_solver.
  - apply NoDup_cons in Hnd as [Hn _]. exfalso. apply Hn. set_solver.
  - apply NoDup_cons in Hnd as [_ Hnd]. eauto.
Qed.

Lemma links_ext m m' chains prods prods' R :
  (forall a, a ∈ R -> nx m' a = nx m a) ->
  (forall i a, prods !! i = Some (PLink a) -> prods' !! i = Some (PLink a)) ->
  links m chains prods R -> links m' chains prods' R.
Proof.
  intros Hm Hp. induction R as [|a [|b R] IH]; simpl; [done| |].
  - intros [Ha _]. rewrite Hm; set_solver.
  - intros [Hl Hr]. split; [|apply IH; [set_solver|done]].
    unfold link_ok in *. rewrite Hm by set_solver. naive_solver.
Qed.

(** Replacing a pending link by the link itself. *)
Lemma links_link m chains prods i p c h R :
  NoDup R -> NoDup (concat chains) -> prods !! i = Some (PLink p) ->
  chains !! i = Some c -> head c = Some h -> adj p h R ->
  links m chains prods R -> links (<[p:=h]> m) chains (<[i:=PDone]> prods) R.
Proof.
  intros Hnd Hcs Hi Hc Hh. induction R as [|a R IH]; intros Hadj Hl; [done|].
  destruct (decide (p = a)) as [->|Hne].
  - destruct R as [|b R]; [by destruct Hadj as ([|? []] & ? & ?)|].
    assert (h = b) as ->.
    { apply (adj_fun a h b (a :: b :: R)); [done|done|]. by exists [], R. }
    destruct Hl as [_ Hl]. split; [left; apply nx_insert_eq|].
    apply NoDup_cons in Hnd as [Hn Hnd].
    revert Hl. clear IH Hadj. revert Hn. generalize (b :: R). intros l Hn.
    induction l as [|x l IHl]; [done|]. simpl. intros [Hx Hl].
    split; [|apply IHl; [set_solver|done]].
    assert (a <> x) by set_solver. destruct l as [|y l]; [by rewrite nx_insert_ne|].
    unfold link_ok in *. rewrite nx_insert_ne by done. destruct Hx as [?|(? & j & d & Hj & ?)]; [by left|].
    right. split; [done|]. exists j, d. split; [|done].
    rewrite list_lookup_insert_ne; [done|congruence].
  - pose proof (adj_uncons _ _ _ _ Hadj ltac:(done)) as Hadj'.
    apply NoDup_cons in Hnd as [Hn Hnd]. destruct Hl as [Hx Hl].
    split; [|by apply IH]. destruct R as [|b R]; [by rewrite nx_insert_ne|].
    unfold link_ok in *. rewrite nx_insert_ne by done. destruct Hx as [?|(? & j & d & Hj & ?)]; [by left|].
    right. split; [done|]. exists j, d. split; [|done].
    rewrite list_lookup_insert_ne; [done|congruence].
Qed.

Lemma linked_links m chains prods c :
  linked_in m c -> (forall t, last c = Some t -> nx m t = 0) -> links m chains prods c.
Proof.
  induction c as [|a [|b c] IH]; simpl; [done| |].
  - intros _ Hl. by split; [apply Hl|].
  - intros [Ha Hl] Ht. split; [by left|]. by apply IH.
Qed.

(** A chain appended behind a pending link. *)
Lemma links_append m chains prods i p c h R :
  last R = Some p -> nx m p = 0 -> prods !! i = Some (PLink p) -> chains !! i = Some c ->
  head c = Some h -> links m chains prods R -> links m chains prods c ->
  links m chains prods (R ++ c).
Proof.
  intros Hlast Hp Hi Hc Hh. induction R as [|a [|b R] IH]; [done| |].
  - simplify_eq/=. intros [? _] Hlc. destruct c as [|x c]; simplify_eq/=.
    split; [|done]. right. split; [done|]. eauto 10.
  - intros [Hx Hl] Hlc. split; [done|]. apply IH; done.
Qed.

Lemma links_last m chains prods R p :
  last R = Some p -> links m chains prods R -> nx m p = 0.
Proof.
  induction R as [|a [|b R] IH]; intros Hp Hl; simplify_eq/=; [naive_solver|].
  apply IH; [done|]. by destruct Hl.
Qed.

Lemma adj_last p h R c : last R = Some p -> head c = Some h -> adj p h (R ++ c).
Proof.
  intros [R1 ->]%last_Some Hh. destruct c as [|x c]; simplify_eq/=.
  exists R1, c. by rewrite <- app_assoc.
Qed.

Lemma linked_in_fresh m t v d : t ∉ d -> linked_in m d -> linked_in (<[t:=v]> m) d.
Proof.
  induction d as [|a [|b d] IH]; intros Ht Hl; [done|done|]; simpl in *.
  rewrite nx_insert_ne by set_solver. destruct Hl. split; [done|]. apply IH; [set_solver|done].
Qed.

Lemma linked_in_last m t v d :
  NoDup d -> last d = Some t -> linked_in m d -> linked_in (<[t:=v]> m) d.
Proof.
  induction d as [|a [|b d] IH]; intros Hnd Ht Hl; [done|done|].
  apply NoDup_cons in Hnd as [Hn Hnd]. change (last (b :: d) = Some t) in Ht.
  destruct Hl as [Ha Hl]. split; [|by apply IH].
  rewrite nx_insert_ne; [done|]. intros ->. apply last_elem in Ht. done.
Qed.

Lemma head_pending_mono chains prods prods' R R' :
  (forall j, prods !! j = Some PHead -> prods' !! j = Some PHead) -> head R' = head R ->
  head_pending chains prods R -> head_pending chains prods' R'.
Proof. intros Hp HR (j & c & h & Hj & ?). exists j, c, h. rewrite HR. naive_solver. Qed.

Lemma head_ok_mono s s' R R' :
  mq_drain s' = mq_drain s -> mq_head s' = mq_head s -> mq_chains s' = mq_chains s ->
  (forall j, mq_prods s !! j = Some PHead -> mq_prods s' !! j = Some PHead) ->
  head R' = head R -> head_ok s R -> head_ok s' R'.
Proof.
  intros Hd Hh Hc Hp HR. unfold head_ok. rewrite Hd, Hh, Hc, HR.
  destruct (mq_drain s); simpl; try done; repeat case_match; try done;
    (intros [[? [->|?]]|?]; auto; left; (split; [done|]);
      [left; by destruct R'|right; by eapply head_pending_mono]).
Qed.

Lemma stage_insert_ne (prods : list push_stage) i j st st' st0 :
  prods !! i = Some st0 -> st' <> st0 -> prods !! j = Some st' -> (<[i:=st]> prods) !! j = Some st'.
Proof. intros Hi Hne Hj. rewrite list_lookup_insert_ne; [done|congruence]. Qed.

Lemma stage_insert_inv (prods : list push_stage) i j st st' :
  (<[i:=st]> prods) !! j = Some st' -> (j = i /\ st' = st) \/ (j <> i /\ prods !! j = Some st').
Proof. intros [(-> & <- & _)|[? ?]]%list_lookup_insert_Some; auto. Qed.

(** The producers that have pushed still have after a step of producer [i]. *)
Lemma from_mono (chains : list (list Z)) (prods : list push_stage) (i : nat) st st0 (x : Z) :
  prods !! i = Some st0 -> (pushed st0 = true -> pushed st = true) ->
  (exists j c st', chains !! j = Some c /\ prods !! j = Some st' /\ pushed st' = true /\ x ∈ c) ->
  exists j c st', chains !! j = Some c /\ (<[i:=st]> prods) !! j = Some st' /\ pushed st' = true /\ x ∈ c.
Proof.
  intros Hi Hp (j & c & st' & Hc & Hj & Hp' & Hx). destruct (decide (i = j)) as [->|Hne].
  - exists j, c, st. split_and!; [done| |naive_solver|done].
    apply list_lookup_insert_eq. by eapply lookup_lt_Some.
  - exists j, c, st'. by rewrite list_lookup_insert_ne.
Qed.

(** ** The producers keep the invariant *)

Section facts.
Context (s : mq_state) (R : list Z) (Hinv : mq_inv s R).

Lemma rest_in_log x : x ∈ R -> x ∈ mq_log s.
Proof. rewrite (inv_log _ _ Hinv). set_solver. Qed.
Lemma held_in_log x : x ∈ held (mq_drain s) -> x ∈ mq_log s.
Proof. rewrite (inv_log _ _ Hinv). set_solver. Qed.
Lemma rest_nodup : NoDup R.
Proof.
  pose proof (inv_nodup _ _ Hinv) as Hnd. rewrite (inv_log _ _ Hinv) in Hnd.
  apply NoDup_app in Hnd as (_ & _ & Hnd). by apply NoDup_app in Hnd as (_ & _ & ?).
Qed.
Lemma held_not_rest x : x ∈ held (mq_drain s) -> x ∉ R.
Proof.
  pose proof (inv_nodup _ _ Hinv) as Hnd. rewrite (inv_log _ _ Hinv) in Hnd.
  apply NoDup_app in Hnd as (_ & _ & Hnd). apply NoDup_app in Hnd as (_ & Hd & _). naive_solver.
Qed.
Lemma log_nonnull x : x ∈ mq_log s -> x <> 0.
Proof.
  intros Hlog ->. destruct (inv_from _ _ Hinv 0 Hlog) as (i & c & st & Hc & _ & _ & Hx).
  apply (inv_nonnull _ _ Hinv). by eapply chain_elem.
Qed.
(** Items of a chain that is not pushed yet are on no list. *)
Lemma unpushed_fresh i c st x :
  mq_chains s !! i = Some c -> mq_prods s !! i = Some st -> pushed st = false ->
  x ∈ c -> x ∉ mq_log s.
Proof.
  intros Hc Hst Hp Hx Hlog.
  destruct (inv_from _ _ Hinv x Hlog) as (j & d & st' & Hd & Hst' & Hp' & Hx').
  assert (i = j) as -> by (eapply chain_disjoint; eauto using inv_chains). congruence.
Qed.
Lemma plink_in_log i p : mq_prods s !! i = Some (PLink p) -> p ∈ mq_log s.
Proof.
  intros Hi. destruct (inv_plink _ _ Hinv i p Hi) as (_ & c & h & _ & _ & Hadj).
  apply rest_in_log. apply (adj_elem _ _ _ Hadj).
Qed.
Lemma read_in_log dc n : next_read (mq_drain s) = Some (dc, n) -> dc ∈ mq_log s.
Proof.
  intros Hr. destruct (inv_read _ _ Hinv dc n Hr) as (_ & R' & HR).
  apply rest_in_log. rewrite HR. set_solver.
Qed.

Lemma tail_cases :
  (mq_tail s = 0 /\ R = []) \/
  (mq_tail s <> 0 /\ last R = Some (mq_tail s) /\ nx (mq_next s) (mq_tail s) = 0).
Proof.
  pose proof (inv_tail _ _ Hinv) as Ht. destruct (last R) as [p|] eqn:Hp; simpl in Ht.
  - right. rewrite Ht. split_and!; [|done|].
    + by eapply log_nonnull, rest_in_log, last_elem.
    + eapply links_last; [done|]. apply (inv_links _ _ Hinv).
  - left. by apply last_None in Hp.
Qed.

End facts.

Lemma mq_push_init s R i c t :
  mq_inv s R -> mq_chains s !! i = Some c ->
  mq_prods s !! i = Some PInit -> last c = Some t ->
  mq_inv (MqState (mq_tail s) (mq_head s) (<[t:=0]> (mq_next s)) (mq_chains s)
            (<[i:=PXchg]> (mq_prods s)) (mq_drain s) (mq_log s) (mq_out s)) R.
Proof.
  intros Hinv Hc Hi Ht. pose proof Hinv as Hinv0. destruct Hinv0.
  assert (forall x, x ∈ mq_log s -> nx (<[t:=0]> (mq_next s)) x = nx (mq_next s) x) as Hnx.
  { intros x Hx. apply nx_insert_ne. intros ->.
    by eapply (unpushed_fresh s R Hinv i c PInit x); eauto using last_elem. }
  split; simpl; try done.
  - by rewrite length_insert.
  - intros x Hx. eapply from_mono; eauto.
  - intros j d st Hd [[-> ->]|[Hne Hj]]%stage_insert_inv Hp.
    + simplify_eq. split; [|intros _ t' ?; simplify_eq; apply nx_insert_eq].
      apply linked_in_last; eauto using chain_nodup. by eapply (inv_unpushed0 i c PInit).
    + assert (t ∉ d) by (intros ?; apply Hne; symmetry; eapply chain_disjoint; eauto using last_elem).
      destruct (inv_unpushed0 j d st Hd Hj Hp) as [Hl Hz]. split; [by apply linked_in_fresh|].
      intros Hst t' Ht'. rewrite nx_insert_ne; [eauto|]. intros ->. eauto using last_elem.
  - eapply links_ext; [| |done]; [eauto using rest_in_log|]. eauto using stage_insert_ne.
  - intros j p [[_ ?]|[_ Hj]]%stage_insert_inv; [done|].
    rewrite Hnx by eauto using plink_in_log. eauto.
  - intros j [[_ ?]|[_ Hj]]%stage_insert_inv; [done|]. eauto.
  - intros dc Hdc. rewrite Hnx; eauto using held_in_log.
  - intros dc n Hr. rewrite Hnx; eauto using read_in_log.
  - eapply head_ok_mono; [..|done]; try done. simpl. eauto using stage_insert_ne.
Qed.

Lemma mq_push_link s R i c p h :
  mq_inv s R -> mq_chains s !! i = Some c ->
  mq_prods s !! i = Some (PLink p) -> head c = Some h ->
  mq_inv (MqState (mq_tail s) (mq_head s) (<[p:=h]> (mq_next s)) (mq_chains s)
            (<[i:=PDone]> (mq_prods s)) (mq_drain s) (mq_log s) (mq_out s)) R.
Proof.
  intros Hinv Hc Hi Hh. pose proof Hinv as Hinv0. destruct Hinv0.
  destruct (inv_plink0 i p Hi) as (Hp0 & c' & h' & ? & ? & Hadj); simplify_eq.
  destruct (adj_elem _ _ _ Hadj) as [HpR HhR].
  split; simpl; try done.
  - by rewrite length_insert.
  - intros x Hx. eapply from_mono; eauto.
  - intros j d st Hd [[-> ->]|[Hne Hj]]%stage_insert_inv Hp; [done|].
    assert (p ∉ d) by (intros ?; by eapply (unpushed_fresh s R Hinv j d st p); eauto using rest_in_log).
    destruct (inv_unpushed0 j d st Hd Hj Hp) as [Hl Hz]. split; [by apply linked_in_fresh|].
    intros Hst t' Ht'. rewrite nx_insert_ne; [eauto|]. intros ->. eauto using last_elem.
  - eapply links_link; eauto using rest_nodup.
  - intros j q [[_ ?]|[Hne Hj]]%stage_insert_inv; [done|].
    destruct (inv_plink0 j q Hj) as (Hq & d & g & Hd & Hg & Hadjq).
    rewrite nx_insert_ne; [eauto 10|]. intros ->.
    pose proof (adj_fun _ _ _ _ (rest_nodup s R Hinv) Hadj Hadjq) as <-.
    apply Hne. eapply chain_disjoint; eauto using head_elem.
  - intros j [[_ ?]|[_ Hj]]%stage_insert_inv; [done|]. eauto.
  - intros dc Hdc. rewrite nx_insert_ne; [eauto|]. intros ->. by eapply held_not_rest.
  - intros dc n Hr. destruct (inv_read0 dc n Hr) as (Hn & R' & HR).
    rewrite nx_insert_ne; [eauto|]. intros ->.
    assert (n = 0) as -> by congruence. apply (log_nonnull s R Hinv 0); [|done].
    apply (rest_in_log s R Hinv). rewrite HR. set_solver.
  - eapply head_ok_mono; [..|done]; try done. simpl. eauto using stage_insert_ne.
Qed.

Lemma mq_push_head s R i c h :
  mq_inv s R -> mq_chains s !! i = Some c ->
  mq_prods s !! i = Some PHead -> head c = Some h ->
  mq_inv (MqState (mq_tail s) h (mq_next s) (mq_chains s)
            (<[i:=PWake]> (mq_prods s)) (mq_drain s) (mq_log s) (mq_out s)) R.
Proof.
  intros Hinv Hc Hi Hh. pose proof Hinv as Hinv0. destruct Hinv0.
  destruct (inv_phead0 i Hi) as (H0 & Hatt & c' & h' & ? & ? & HR); simplify_eq.
  split; simpl; try done.
  - by rewrite length_insert.
  - intros x Hx. eapply from_mono; eauto.
  - intros j d st Hd [[-> ->]|[Hne Hj]]%stage_insert_inv Hp; [done|]. eauto.
  - eapply links_ext; [| |done]; [done|]. eauto using stage_insert_ne.
  - intros j q [[_ ?]|[Hne Hj]]%stage_insert_inv; [done|]. eauto.
  - intros j [[_ ?]|[Hne Hj]]%stage_insert_inv; [done|].
    destruct (inv_phead0 j Hj) as (_ & _ & d & g & Hd & Hg & HR'); simplify_eq.
    destruct Hne. eapply chain_disjoint; eauto using head_elem.
  - assert (h <> 0) by (by eapply log_nonnull, rest_in_log, head_elem).
    assert (forall x, x ∈ held (mq_drain s) -> x <> 0) as Hheld
      by (intros; by eapply log_nonnull, held_in_log).
    unfold head_ok in *; simpl. destruct (mq_drain s); simpl in *; try done;
      repeat case_match; try done; try (by right); destruct inv_head0; try congruence.
    destruct (Hheld dc); [set_solver|congruence].
Qed.

Lemma mq_push_wake s R i c :
  mq_inv s R -> mq_chains s !! i = Some c ->
  mq_prods s !! i = Some PWake ->
  mq_inv (MqState (mq_tail s) (mq_head s) (mq_next s) (mq_chains s)
            (<[i:=PDone]> (mq_prods s)) (mq_drain s) (mq_log s) (mq_out s)) R.
Proof.
  intros Hinv Hc Hi. pose proof Hinv as Hinv0. destruct Hinv0. split; simpl; try done.
  - by rewrite length_insert.
  - intros x Hx. eapply from_mono; eauto.
  - intros j d st Hd [[-> ->]|[Hne Hj]]%stage_insert_inv Hp; [done|]. eauto.
  - eapply links_ext; [| |done]; [done|]. eauto using stage_insert_ne.
  - intros j q [[_ ?]|[Hne Hj]]%stage_insert_inv; [done|]. eauto.
  - intros j [[_ ?]|[Hne Hj]]%stage_insert_inv; [done|]. eauto.
  - eapply head_ok_mono; [..|done]; try done. simpl. eauto using stage_insert_ne.
Qed.


Lemma mq_push_xchg s R i c t :
  mq_inv s R -> mq_chains s !! i = Some c ->
  mq_prods s !! i = Some PXchg -> last c = Some t ->
  mq_inv (MqState t (mq_head s) (mq_next s) (mq_chains s)
            (<[i:=if mq_tail s =? 0 then PHead else PLink (mq_tail s)]> (mq_prods s))
            (mq_drain s) (mq_log s ++ c) (mq_out s)) (R ++ c).
Proof.
  intros Hinv Hc Hi Ht. pose proof Hinv as Hinv0. destruct Hinv0.
  destruct (inv_unpushed0 i c PXchg Hc Hi eq_refl) as [Hlin Hz]. specialize (Hz eq_refl).
  assert (i < length (mq_prods s))%nat as Hlt by (by eapply lookup_lt_Some).
  assert (exists h, head c = Some h) as [h Hh] by (destruct c; naive_solver).
  assert (last (R ++ c) = Some t) as Hlast by (rewrite last_app, Ht; done).
  split; simpl; try done.
  - rewrite inv_log0. by rewrite <- !app_assoc.
  - by rewrite length_insert.
  - apply NoDup_app. split_and!; [done| |by eapply chain_nodup].
    intros x Hx Hxc. by eapply (unpushed_fresh s R Hinv i c PXchg x).
  - intros x [Hx|Hx]%elem_of_app.
    + eapply from_mono; eauto. done.
    + exists i, c, (if mq_tail s =? 0 then PHead else PLink (mq_tail s)).
      rewrite list_lookup_insert_eq by done. split_and!; [done|done|by case_match|done].
  - intros j d st Hd [[-> ->]|[Hne Hj]]%stage_insert_inv Hp; [by case_match|eauto].
  - by rewrite Hlast.
  - destruct (tail_cases s R Hinv) as [[Htl ->]|(Htl & HR & Hnx)]; simpl.
    + by apply linked_links.
    + eapply (links_append _ _ _ i (mq_tail s) c h); try done.
      * rewrite list_lookup_insert_eq by done. by case_cmp.
      * eapply links_ext; [done| |done]. eauto using stage_insert_ne.
      * by apply linked_links.
  - intros j p [[-> Hst]|[Hne Hj]]%stage_insert_inv.
    + destruct (tail_cases s R Hinv) as [[Htl ->]|(Htl & HR & Hnx)].
      { by rewrite Htl in Hst. }
      assert (p = mq_tail s) as -> by (revert Hst; case_cmp; congruence).
      split; [done|]. exists c, h. eauto using adj_last.
    + destruct (inv_plink0 j p Hj) as (? & d & g & ? & ? & ?).
      split; [done|]. exists d, g. eauto using adj_app.
  - intros j [[-> Hst]|[Hne Hj]]%stage_insert_inv.
    + destruct (tail_cases s R Hinv) as [[Htl ->]|(Htl & HR & Hnx)];
        [|revert Hst; by case_cmp].
      assert (mq_head s = 0 /\ attached (mq_drain s) = None) as [??].
      { unfold head_ok in inv_head0. destruct (mq_drain s); simpl in *; repeat case_match;
          simplify_eq/=; naive_solver. }
      split_and!; [done|done|]. by exists c, h.
    + destruct (inv_phead0 j Hj) as (? & ? & d & g & ? & ? & ?). split_and!; [done..|].
      exists d, g. split_and!; [done|done|]. by destruct R.
  - intros dc n Hr. destruct (inv_read0 dc n Hr) as (? & R' & ->). split; [done|].
    by exists (R' ++ c).
  - destruct (tail_cases s R Hinv) as [[Htl ->]|(Htl & HR & Hnx)].
    + unfold head_ok in *; simpl. rewrite Htl. simpl.
      assert (head_pending (mq_chains s) (<[i:=PHead]> (mq_prods s)) c) as Hpend.
      { exists i, c, h. by rewrite list_lookup_insert_eq by done. }
      destruct (mq_drain s); simpl in *; repeat case_match; naive_solver.
    + eapply head_ok_mono; [..|done]; try done; simpl; [|by destruct R].
      eauto using stage_insert_ne.
Qed.

(** ** The drainer keeps the invariant *)

Lemma no_phead s R :
  mq_inv s R -> mq_head s <> 0 \/ attached (mq_drain s) <> None \/ R = [] ->
  forall j, mq_prods s !! j <> Some PHead.
Proof.
  intros Hinv Hor j Hj. destruct (inv_phead _ _ Hinv j Hj) as (? & ? & c & h & ? & ? & ?).
  destruct Hor as [?|[?| ->]]; done.
Qed.

(** A step that only moves the program counter. *)
Lemma drain_move s R pc :
  mq_inv s R -> held pc = held (mq_drain s) ->
  (attached (mq_drain s) = None -> attached pc = None) ->
  (forall dc n, next_read pc = Some (dc, n) ->
     nx (mq_next s) dc = n /\ exists R', R = dc :: n :: R') ->
  head_ok (mq_set_drain s pc) R -> mq_inv (mq_set_drain s pc) R.
Proof.
  intros Hinv Hheld Hatt Hread Hhead. pose proof Hinv as Hinv0. destruct Hinv0.
  split; simpl; try done; rewrite ?Hheld; try done.
  intros j Hj. destruct (inv_phead0 j Hj) as (? & ? & ?). auto.
Qed.

(** A step that writes dq_items_head, while no producer is about to. *)
Lemma drain_set_head s R h pc :
  mq_inv s R -> held pc = held (mq_drain s) -> next_read pc = None ->
  (forall j, mq_prods s !! j <> Some PHead) ->
  head_ok (mq_set_head s h pc) R -> mq_inv (mq_set_head s h pc) R.
Proof.
  intros Hinv Hheld Hread Hph Hhead. pose proof Hinv as Hinv0. destruct Hinv0.
  split; simpl; try done; rewrite ?Hheld, ?Hread; try done.
  intros j Hj. by destruct (Hph j).
Qed.

Lemma head_nonnull s R x : mq_inv s R -> head R = Some x -> x <> 0.
Proof. intros. by eapply log_nonnull, rest_in_log, head_elem. Qed.

Lemma drain_clear s R dc :
  mq_inv s R -> mq_drain s = DClear dc -> mq_inv (mq_set_head s 0 (DNext dc)) R.
Proof.
  intros Hinv Hpc. pose proof (inv_head _ _ Hinv) as Hh. unfold head_ok in Hh.
  rewrite Hpc in Hh. destruct Hh as [Hh HR]. apply drain_set_head; try done.
  - by rewrite Hpc.
  - eapply no_phead; [done|]. left. rewrite Hh. by eapply head_nonnull.
Qed.

Lemma drain_next s R dc :
  mq_inv s R -> mq_drain s = DNext dc ->
  let next := nx (mq_next s) dc in
  mq_inv (mq_set_drain s (if next =? 0 then DCas dc else DCheck dc next)) R.
Proof.
  intros Hinv Hpc next. pose proof (inv_head _ _ Hinv) as Hh. unfold head_ok in Hh.
  rewrite Hpc in Hh. simpl in Hh. destruct Hh as [Hh HR].
  apply drain_move; [done|..]; rewrite ?Hpc; try done.
  - case_cmp; [done|]. simpl. by case_cmp.
  - intros dc' n. case_cmp; simpl; [done|]. case_cmp; [done|]. intros [= <- <-].
    split; [done|]. destruct R as [|a [|b R]]; simplify_eq/=.
    + destruct (inv_links _ _ Hinv) as [? _]. done.
    + destruct (inv_links _ _ Hinv) as [[Hb|[? _]] _]; [|done]. exists R. by rewrite <- Hb.
  - unfold head_ok; simpl. case_cmp; simpl; [done|]. by case_cmp.
Qed.

Lemma drain_cas s R dc :
  mq_inv s R -> mq_drain s = DCas dc -> mq_tail s = dc ->
  R = [dc] /\ mq_inv (mq_set_tail s 0 (DCheck dc 0)) [].
Proof.
  intros Hinv Hpc Htl. pose proof (inv_head _ _ Hinv) as Hh. unfold head_ok in Hh.
  rewrite Hpc in Hh. simpl in Hh. destruct Hh as [Hh HR].
  assert (R = [dc]) as ->.
  { pose proof (rest_nodup _ _ Hinv) as Hnd. pose proof (inv_tail _ _ Hinv) as Ht.
    destruct R as [|a [|b R]]; [done|by simplify_eq/=|]. injection HR as ->.
    apply NoDup_cons in Hnd as [Hn _]. destruct Hn.
    apply last_elem. change (last (_ :: b :: R)) with (last (b :: R)) in Ht.
    by destruct (last (b :: R)) eqn:Hl; simplify_eq/=; [|apply last_None in Hl]. }
  split; [done|].
  pose proof (no_phead s [dc] Hinv ltac:(right; left; by rewrite Hpc)) as Hph.
  destruct Hinv. rewrite Hpc in *. split; simpl; try done.
  - intros i p Hi. destruct (inv_plink0 i p Hi) as (_ & c & h & _ & _ & ([|? []] & ? & ?)); done.
  - intros i Hi. by destruct (Hph i).
  - intros x Hx. assert (x = dc) as -> by set_solver. by destruct inv_links0.
  - unfold head_ok; simpl. auto.
Qed.

Lemma drain_pop s R dc next :
  mq_inv s R -> mq_drain s = DPop dc next ->
  exists R', mq_inv (mq_drain_step true s) R' /\ held (DPop dc next) ++ R = dc :: R'.
Proof.
  intros Hinv Hpc. unfold mq_drain_step. rewrite Hpc.
  pose proof (inv_read _ _ Hinv dc next) as Hr. pose proof (inv_head _ _ Hinv) as Hh.
  unfold head_ok in Hh. rewrite Hpc in *. simpl in Hr, Hh. simpl held.
  destruct (Z.eqb_spec next 0) as [->|Hne].
  - exists R. split; [|done]. destruct Hinv. rewrite Hpc in *. simpl in *.
    split; simpl; try done; [by rewrite inv_log0, <- app_assoc|set_solver].
  - destruct (Hr eq_refl) as (Hn & R2 & ->). exists (next :: R2). split; [|done].
    pose proof (no_phead s _ Hinv) as Hph. rewrite Hpc in Hph. simpl in Hph.
    rewrite (proj2 (Z.eqb_neq next 0) Hne) in Hph. specialize (Hph ltac:(auto)).
    destruct Hinv. rewrite Hpc in *. simpl in inv_log0, inv_held0, inv_tail0, inv_links0.
    rewrite (proj2 (Z.eqb_neq next 0) Hne) in *.
    split; simpl; try done.
    + by rewrite inv_log0, <- app_assoc.
    + apply inv_links0.
    + intros i p Hi. destruct (inv_plink0 i p Hi) as (? & c & h & ? & ? & Hadj).
      split; [done|]. exists c, h. split_and!; try done. eapply adj_uncons; [done|congruence].
    + intros i Hi. by destruct (Hph i).
    + unfold head_ok; simpl. naive_solver.
Qed.

Lemma mq_drain_undo s R dc next :
  mq_inv s R -> mq_drain s = DUndo dc next ->
  exists R', mq_inv (mq_drain_step true s) R'.
Proof.
  intros Hinv Hpc. unfold mq_drain_step. rewrite Hpc.
  pose proof (inv_head _ _ Hinv) as Hh. unfold head_ok in Hh. rewrite Hpc in Hh. simpl in Hh.
  destruct (Z.eqb_spec next 0) as [->|Hne]; simpl.
  - destruct (Z.eqb_spec (mq_tail s) 0) as [Htl|Htl].
    + destruct (tail_cases s R Hinv) as [[_ ->]|(? & _)]; [|done]. exists [dc].
      pose proof (no_phead s [] Hinv ltac:(auto)) as Hph.
      assert (mq_head s = 0) as Hh0 by (destruct Hh as [[]|[]]; done).
      destruct Hinv. rewrite Hpc in *. simpl in *. split; simpl; try done.
      * split; [|done]. apply inv_held0. set_solver.
      * intros i p Hi.
        destruct (inv_plink0 i p Hi) as (_ & c & h & _ & _ & ([|? []] & ? & ?)); done.
      * intros i Hi. by destruct (Hph i).
      * set_solver.
    + exists R. apply drain_move; rewrite ?Hpc; done.
  - exists R. apply drain_move; rewrite ?Hpc; simpl;
      rewrite ?(proj2 (Z.eqb_neq next 0) Hne); done.
Qed.

Lemma drain_relink s R dc next :
  mq_inv s R -> mq_drain s = DRelink2 dc next ->
  mq_inv (mq_drain_step true s) (dc :: R).
Proof.
  intros Hinv Hpc. unfold mq_drain_step. rewrite Hpc.
  pose proof (inv_head _ _ Hinv) as Hh. unfold head_ok in Hh. rewrite Hpc in Hh.
  destruct Hh as [Hh HR].
  assert (dc ∈ held (mq_drain s)) as Hheld by (rewrite Hpc; set_solver).
  pose proof (held_in_log s R Hinv dc Hheld) as Hlog.
  pose proof (held_not_rest s R Hinv dc Hheld) as HnR.
  pose proof (log_nonnull s R Hinv dc Hlog) as Hd0.
  pose proof (no_phead s R Hinv ltac:(left; congruence)) as Hph.
  pose proof (unpushed_fresh s R Hinv) as Hfresh.
  destruct Hinv. rewrite Hpc in *. simpl in *. destruct R as [|b R]; simplify_eq/=.
  split; simpl; try done.
  - intros i d st Hd Hst Hp.
    assert (mq_head s ∉ d) by (intros ?; by eapply Hfresh).
    destruct (inv_unpushed0 i d st Hd Hst Hp) as [Hl Hz]. split; [by apply linked_in_fresh|].
    intros Hx t' Ht'. rewrite nx_insert_ne; [eauto|]. intros <-. eauto using last_elem.
  - split; [left; apply nx_insert_eq|].
    apply (links_ext (mq_next s) _ _ (mq_prods s) _ (next :: R)); [|done|done].
    intros a Ha. apply nx_insert_ne. intros <-. done.
  - intros i p Hi. destruct (inv_plink0 i p Hi) as (? & c & h & ? & ? & Hadj).
    destruct (adj_elem _ _ _ Hadj). rewrite nx_insert_ne by (intros <-; done).
    split; [done|]. exists c, h. eauto using adj_cons.
  - intros i Hi. by destruct (Hph i).
  - set_solver.
  - unfold head_ok; simpl. auto.
Qed.

Lemma mq_drain_inv s R go : mq_inv s R -> exists R', mq_inv (mq_drain_step go s) R'.
Proof.
  intros Hinv. pose proof (inv_head _ _ Hinv) as Hh.
  destruct (mq_drain s) as [| | | |dc|dc|dc|dc nxt|dc nxt|dc nxt|dc|dc|dc nxt|dc nxt] eqn:Hpc.
  - exists R. unfold mq_drain_step, head_ok in *. rewrite Hpc in *. apply drain_move; rewrite ?Hpc; done.
  - exists R. unfold mq_drain_step, head_ok in *. rewrite Hpc in *.
    case_cmp; apply drain_move; rewrite ?Hpc; done.
  - exists R. unfold mq_drain_step, head_ok in *. rewrite Hpc in *.
    case_cmp; apply drain_move; rewrite ?Hpc; try done. simpl in Hh. unfold head_ok; simpl. naive_solver.
  - exists R. unfold mq_drain_step, head_ok in *. rewrite Hpc in *. apply drain_move; rewrite ?Hpc; try done.
    unfold head_ok; simpl. naive_solver.
  - exists R. unfold mq_drain_step. rewrite Hpc. by apply drain_clear.
  - exists R. unfold mq_drain_step. rewrite Hpc. by apply drain_next.
  - unfold mq_drain_step. rewrite Hpc. destruct (Z.eqb_spec (mq_tail s) dc).
    + exists []. by eapply drain_cas.
    + exists R. unfold head_ok in *. rewrite Hpc in *. apply drain_move; rewrite ?Hpc; done.
  - exists R. unfold mq_drain_step, head_ok in *. rewrite Hpc in *. pose proof (inv_read _ _ Hinv) as Hr.
    rewrite Hpc in Hr. destruct go; apply drain_move; rewrite ?Hpc; try done.
  - destruct (drain_pop s R dc nxt Hinv Hpc) as (R' & ? & _). exists R'.
    unfold mq_drain_step in *. by rewrite Hpc in *.
  - destruct (mq_drain_undo s R dc nxt Hinv Hpc) as (R' & ?). exists R'.
    unfold mq_drain_step in *. by rewrite Hpc in *.
  - exists R. unfold mq_drain_step, head_ok in *. rewrite Hpc in *. simpl in Hh. destruct Hh as [Hh HR].
    apply drain_set_head; rewrite ?Hpc; try done.
    + eapply no_phead; [done|]. right; left. by rewrite Hpc.
    + unfold head_ok; simpl. right. split; [by eapply head_nonnull|done].
  - exists R. unfold mq_drain_step, head_ok in *. rewrite Hpc in *. simpl in Hh.
    case_cmp; apply drain_move; rewrite ?Hpc; try done. unfold head_ok; simpl. naive_solver.
  - exists R. unfold mq_drain_step, head_ok in *. rewrite Hpc in *. simpl in Hh. destruct Hh as [Hh HR].
    apply drain_set_head; rewrite ?Hpc; try done.
    eapply no_phead; [done|]. left. rewrite Hh. by eapply head_nonnull.
  - exists (dc :: R). pose proof (drain_relink s R dc nxt Hinv Hpc) as Hres.
    unfold mq_drain_step in *. by rewrite Hpc in *.
Qed.

Lemma mq_push_inv s s' R i :
  mq_inv s R -> mq_push_step i s = Some s' ->
  exists c st, mq_chains s !! i = Some c /\ mq_prods s !! i = Some st /\
    mq_inv s' (match st with PXchg => R ++ c | _ => R end).
Proof.
  unfold mq_push_step. intros Hinv Hs.
  apply bind_Some in Hs as (c & Hc & Hs). apply bind_Some in Hs as (st & Hst & Hs).
  apply bind_Some in Hs as (h & Hh & Hs). apply bind_Some in Hs as (t & Ht & Hs).
  exists c, st. split_and!; [done..|]. destruct st; simplify_eq.
  - by eapply mq_push_init.
  - by eapply mq_push_xchg.
  - by eapply mq_push_link.
  - by eapply mq_push_head.
  - by eapply mq_push_wake.
Qed.

Lemma mq_inv_initial s : mq_initial s -> mq_inv s [].
Proof.
  intros (Ht & Hh & Hd & Hl & Ho & Hp & Hnd & Hnn & Hne & Hlin).
  assert (forall i st, mq_prods s !! i = Some st -> st = PInit) as Hall.
  { intros i st Hi. rewrite Hp in Hi. by apply lookup_replicate in Hi as [-> _]. }
  split; rewrite ?Hd, ?Hl, ?Ho, ?Hp, ?Ht; simpl; try done.
  - by rewrite length_replicate.
  - apply NoDup_nil_2.
  - set_solver.
  - intros i c st Hc Hst _. rewrite <- Hp in Hst. split; [|by rewrite (Hall i st Hst)].
    by eapply Forall_lookup_1.
  - intros i p Hi. rewrite <- Hp in Hi. by apply Hall in Hi.
  - intros i Hi. rewrite <- Hp in Hi. by apply Hall in Hi.
  - set_solver.
  - unfold head_ok. rewrite Hd. simpl. auto.
Qed.

Lemma mq_inv_reachable s : reachable s -> exists R, mq_inv s R.
Proof.
  revert s. apply invariant_reachable.
  - intros s Hi. exists []. by apply mq_inv_initial.
  - intros s s' [R Hinv] Hst. destruct Hst as [s0 s1 i Hs|s0 go].
    + destruct (mq_push_inv s0 s1 R i Hinv Hs) as (c & st & _ & _ & ?). eauto.
    + by eapply mq_drain_inv.
Qed.

(** ** The contract: a FIFO queue *)

(** What clients rely on: a list of pending items and the list of items delivered so far. *)
Inductive fifo_step (chains : list (list Z)) : list Z * list Z -> list Z * list Z -> Prop :=
| fifo_enqueue c pend del : c ∈ chains -> fifo_step chains (pend, del) (pend ++ c, del)
| fifo_dequeue x pend del : fifo_step chains (x :: pend, del) (pend, del ++ [x]).

Definition mq_pending (s : mq_state) : list Z := drop (length (mq_out s)) (mq_log s).
Definition mq_abs (s : mq_state) : list Z * list Z := (mq_pending s, mq_out s).

Lemma mq_pending_eq s R : mq_inv s R -> mq_pending s = held (mq_drain s) ++ R.
Proof. intros Hinv. unfold mq_pending. rewrite (inv_log _ _ Hinv). apply drop_app_length. Qed.

Lemma mq_drain_log go s : mq_log (mq_drain_step go s) = mq_log s.
Proof. unfold mq_drain_step. repeat case_match; done. Qed.
Lemma mq_drain_prods go s :
  mq_prods (mq_drain_step go s) = mq_prods s /\ mq_chains (mq_drain_step go s) = mq_chains s.
Proof. unfold mq_drain_step. repeat case_match; done. Qed.

(** Only the pop changes the delivered items. *)
Lemma mq_drain_out go s :
  mq_out (mq_drain_step go s) =
    mq_out s ++ match mq_drain s with DPop dc _ => [dc] | _ => [] end.
Proof. unfold mq_drain_step. repeat case_match; simpl; by rewrite ?app_nil_r. Qed.

(** C2: at every moment the items handed to _dispatch_continuation_pop are a prefix, in
    order, of the items in the order of the xchg on dq_items_tail, and no item appears twice:
    nothing is lost, duplicated or reordered by the concurrent pushes and the drain. *)
Theorem mq_fifo s :
  reachable s -> mq_out s `prefix_of` mq_log s /\ NoDup (mq_log s).
Proof.
  intros [R Hinv]%mq_inv_reachable. split; [|by eapply inv_nodup].
  rewrite (inv_log _ _ Hinv). by eexists.
Qed.

(** C3: every step of the producers and of the drainer is either invisible, or the
    enqueue of a whole chain at the back, or the delivery of the first pending item: the two-word
    list with its do_next links refines a FIFO queue. *)
Theorem mq_refines_fifo s s' :
  reachable s -> mq_step s s' ->
  mq_abs s' = mq_abs s \/ fifo_step (mq_chains s) (mq_abs s) (mq_abs s').
Proof.
  intros [R Hinv]%mq_inv_reachable Hst. destruct Hst as [s0 s1 i Hs|s0 go]; unfold mq_abs.
  - destruct (mq_push_inv s0 s1 R i Hinv Hs) as (c & st & Hc & Hst & Hinv').
    rewrite (mq_pending_eq _ _ Hinv), (mq_pending_eq _ _ Hinv').
    unfold mq_push_step in Hs. rewrite Hc, Hst in Hs. simpl in Hs.
    apply bind_Some in Hs as (h & Hh & Hs). apply bind_Some in Hs as (t & Ht & Hs).
    destruct st; simplify_eq/=; [by left| |by left..].
    right. rewrite app_assoc. constructor. by eapply list_elem_of_lookup_2.
  - destruct (mq_drain s0) as [| | | | | | | |dc n| | | | |] eqn:Hpc.
    9: { right. destruct (drain_pop s0 R dc n Hinv Hpc) as (R' & Hinv' & HR).
         rewrite (mq_pending_eq _ _ Hinv), Hpc, HR. unfold mq_pending.
         rewrite mq_drain_out, mq_drain_log, Hpc, (inv_log _ _ Hinv), Hpc, HR.
         rewrite (cons_middle dc _ R'), app_assoc, drop_app_length. constructor. }
    all: left; unfold mq_pending; by rewrite mq_drain_out, mq_drain_log, Hpc, app_nil_r.
Qed.

(** ** Quiescent lists and progress of the drainer *)

(** The items found from [a] by following do_next. *)
Fixpoint walk (m : gmap Z Z) (fuel : nat) (a : Z) : list Z :=
  match fuel with
  | O => []
  | S n => if a =? 0 then [] else a :: walk m n (nx m a)
  end.

Definition push_finished (st : push_stage) : bool :=
  match st with PWake | PDone => true | _ => false end.
Definition pushes_finished (s : mq_state) : Prop :=
  forall i st, mq_prods s !! i = Some st -> push_finished st = true.

Lemma links_next m chains prods R :
  (forall i p, prods !! i <> Some (PLink p)) -> links m chains prods R ->
  forall a R', R = a :: R' -> nx m a = default 0 (head R').
Proof.
  intros Hp Hl a R' ->. destruct R' as [|b R']; [by destruct Hl|].
  destruct Hl as [[?|(_ & i & c & Hi & _)] _]; [done|]. by destruct (Hp i a).
Qed.

Lemma walk_links m chains prods R :
  (forall i p, prods !! i <> Some (PLink p)) -> 0 ∉ R -> links m chains prods R ->
  forall n, (length R < n)%nat -> walk m n (default 0 (head R)) = R.
Proof.
  intros Hp. induction R as [|a R IH]; intros H0 Hl [|n] Hn; simpl in *; try lia; [done|].
  case_cmp; [set_solver|]. f_equal.
  rewrite (links_next m chains prods (a :: R) Hp Hl a R eq_refl).
  destruct Hl as [_ Hl]. apply IH; [set_solver|done|lia].
Qed.

(** when no push is in progress and nobody drains, dq_items_head leads through do_next to
    exactly the pending items in order, and dq_items_tail is the last of them. *)
Theorem mq_quiescent_list s :
  reachable s -> pushes_finished s -> mq_drain s = DIdle ->
  walk (mq_next s) (S (length (mq_log s))) (mq_head s) = mq_pending s /\
  mq_tail s = default 0 (last (mq_pending s)).
Proof.
  intros [R Hinv]%mq_inv_reachable Hfin Hpc.
  assert (mq_pending s = R) as HR by (rewrite (mq_pending_eq _ _ Hinv), Hpc; done).
  rewrite HR. split; [|apply (inv_tail _ _ Hinv)].
  assert (mq_head s = default 0 (head R)) as ->.
  { pose proof (inv_head _ _ Hinv) as Hh. unfold head_ok in Hh. rewrite Hpc in Hh. simpl in Hh.
    destruct Hh as [[-> [->|(i & c & h & Hi & _)]]|[_ ->]]; [done| |done].
    by apply Hfin in Hi. }
  eapply walk_links; [|..|by eapply inv_links|].
  - intros i p Hi. by apply Hfin in Hi.
  - intros H0. by eapply log_nonnull; [|eapply rest_in_log|].
  - rewrite (inv_log _ _ Hinv), !length_app. lia.
Qed.

(** *** The drainer alone *)

Definition drains (s s' : mq_state) : Prop := exists n, s' = Nat.iter n (mq_drain_step true) s.

Lemma drains_refl s : drains s s.
Proof. by exists 0%nat. Qed.
Lemma drains_step s s' : drains (mq_drain_step true s) s' -> drains s s'.
Proof. intros [n ->]. exists (S n). by rewrite Nat.iter_succ_r. Qed.

Lemma step_next s dc :
  mq_drain s = DNext dc ->
  mq_drain_step true s = mq_set_drain s
    (if nx (mq_next s) dc =? 0 then DCas dc else DCheck dc (nx (mq_next s) dc)).
Proof. unfold mq_drain_step. by intros ->. Qed.
Lemma step_cas_eq s dc :
  mq_drain s = DCas dc -> mq_tail s = dc -> mq_drain_step true s = mq_set_tail s 0 (DCheck dc 0).
Proof. unfold mq_drain_step. intros -> <-. by rewrite Z.eqb_refl. Qed.

(** Taking the first item of a non-empty list. *)
Lemma drain_take s dc R :
  mq_inv s (dc :: R) -> mq_drain s = DIdle -> mq_head s = dc ->
  Nat.iter 5 (mq_drain_step true) s = mq_set_head s 0 (DNext dc) /\
  mq_inv (mq_set_head s 0 (DNext dc)) (dc :: R).
Proof.
  intros Hinv Hpc Hhd.
  assert (dc <> 0) as Hd0 by (by eapply head_nonnull).
  destruct (tail_cases _ _ Hinv) as [[_ ?]|(Ht & _)]; [done|].
  split.
  - simpl. unfold mq_drain_step at 5. rewrite Hpc. unfold mq_drain_step at 4. simpl.
    rewrite (proj2 (Z.eqb_neq _ _) Ht). unfold mq_drain_step at 3. simpl.
    rewrite Hhd, (proj2 (Z.eqb_neq _ _) Hd0). unfold mq_drain_step. simpl. by rewrite Hhd.
  - apply drain_set_head; rewrite ?Hpc; try done. eapply no_phead; [done|]. left. congruence.
Qed.

(** One turn of the loop body from DNext: the item is popped and, unless it was the last, the
    drainer holds the next one. *)
Lemma drain_turn s dc R :
  mq_inv s (dc :: R) -> pushes_finished s -> mq_drain s = DNext dc ->
  exists s', drains s s' /\ mq_inv s' R /\ pushes_finished s' /\ mq_log s' = mq_log s /\
    mq_drain s' = match R with [] => DTest | b :: _ => DNext b end.
Proof.
  intros Hinv Hfin Hpc.
  assert (nx (mq_next s) dc = default 0 (head R)) as Hnx.
  { eapply links_next; [|by eapply inv_links|done]. intros i p Hi. by apply Hfin in Hi. }
  assert (exists s1, drains s s1 /\ mq_drain s1 = DPop dc (default 0 (head R)) /\
    mq_inv s1 (if decide (R = []) then [] else dc :: R) /\
    pushes_finished s1 /\ mq_log s1 = mq_log s) as (s1 & Hd1 & Hpc1 & Hinv1 & Hfin1 & Hlog1).
  { pose proof (drain_next s (dc :: R) dc Hinv Hpc) as Hn. simpl in Hn. rewrite Hnx in Hn.
    destruct R as [|b R]; simpl in *.
    - pose proof (inv_tail _ _ Hinv) as Ht. simpl in Ht.
      destruct (drain_cas _ _ dc Hn eq_refl Ht) as [_ Hc].
      exists (mq_set_drain (mq_set_tail s 0 (DCheck dc 0)) (DPop dc 0)). split_and!; try done.
      + exists 3%nat. simpl. rewrite (step_next s dc), Hnx by done. simpl.
        by rewrite (step_cas_eq (mq_set_drain s (DCas dc)) dc).
      + apply (drain_move _ _ (DPop dc 0) Hc); try done. apply (inv_head _ _ Hc).
    - assert (b <> 0) as Hb by (eapply log_nonnull; [done|]; eapply rest_in_log; [done|set_solver]).
      rewrite (proj2 (Z.eqb_neq b 0) Hb) in Hn.
      exists (mq_set_drain s (DPop dc b)). split_and!; try done.
      + exists 2%nat. simpl. rewrite (step_next s dc), Hnx by done.
        by rewrite (proj2 (Z.eqb_neq b 0) Hb).
      + apply (drain_move _ _ (DPop dc b) Hn); try done;
          [apply (inv_read _ _ Hn)|apply (inv_head _ _ Hn)]. }
  destruct (drain_pop _ _ _ _ Hinv1 Hpc1) as (R' & Hinv' & HR').
  exists (mq_drain_step true s1). split_and!.
  - destruct Hd1 as [n ->]. by exists (S n).
  - replace R with R'; [done|]. destruct R as [|b R]; simpl in *; [by simplify_eq|].
    assert (b <> 0) as Hb by (eapply log_nonnull; [exact Hinv|]; eapply rest_in_log; [done|set_solver]).
    rewrite (proj2 (Z.eqb_neq b 0) Hb) in HR'. by simplify_eq/=.
  - intros i st. rewrite (proj1 (mq_drain_prods true s1)). apply Hfin1.
  - by rewrite mq_drain_log.
  - unfold mq_drain_step. rewrite Hpc1. simpl. destruct R as [|b R]; [done|]. simpl.
    case_cmp; [|done]. exfalso. eapply (log_nonnull _ _ Hinv b); [|done].
    eapply rest_in_log; [done|set_solver].
Qed.

Lemma drains_trans s1 s2 s3 : drains s1 s2 -> drains s2 s3 -> drains s1 s3.
Proof. intros [n ->] [m ->]. exists (m + n)%nat. by rewrite Nat.iter_add. Qed.

Lemma mq_drain_loop R : forall s,
  mq_inv s R -> pushes_finished s ->
  mq_drain s = match R with [] => DTest | b :: _ => DNext b end ->
  exists s', drains s s' /\ mq_drain s' = DIdle /\ mq_out s' = mq_log s /\ mq_tail s' = 0.
Proof.
  induction R as [|dc R IH]; intros s Hinv Hfin Hpc.
  - exists (mq_drain_step true s). split; [apply drains_step, drains_refl|].
    pose proof (inv_tail _ _ Hinv) as Ht. pose proof (inv_log _ _ Hinv) as Hl.
    unfold mq_drain_step. rewrite Hpc in *. simpl in *. rewrite Ht. simpl.
    rewrite app_nil_r in Hl. done.
  - destruct (drain_turn s dc R Hinv Hfin Hpc) as (s1 & Hd & Hinv1 & Hfin1 & Hlog & Hpc1).
    destruct (IH s1 Hinv1 Hfin1 Hpc1) as (s' & Hd' & ? & ? & ?).
    exists s'. split_and!; try done; [by eapply drains_trans|congruence].
Qed.

(** C33: once the pushes in progress have finished, a drain that nothing interrupts
    returns after finitely many steps, having delivered every item ever pushed and left the list
    empty. *)
Theorem mq_drain_empties s :
  reachable s -> pushes_finished s -> mq_drain s = DIdle ->
  exists n, let s' := Nat.iter n (mq_drain_step true) s in
    mq_drain s' = DIdle /\ mq_out s' = mq_log s /\ mq_tail s' = 0.
Proof.
  intros [R Hinv]%mq_inv_reachable Hfin Hpc.
  cut (exists s', drains s s' /\ mq_drain s' = DIdle /\ mq_out s' = mq_log s /\ mq_tail s' = 0).
  { intros (s' & [n ->] & ?). by exists n. }
  set (s1 := mq_set_drain s DTest).
  assert (mq_drain_step true s = s1) as Hs1 by (unfold mq_drain_step; by rewrite Hpc).
  pose proof (inv_head _ _ Hinv) as Hh. unfold head_ok in Hh. rewrite Hpc in Hh. simpl in Hh.
  destruct R as [|dc R].
  - destruct (mq_drain_loop [] s1) as (s' & Hd & ?); try done.
    + apply drain_move; rewrite ?Hpc; try done.
    + exists s'. split; [|done]. apply drains_step. by rewrite Hs1.
  - destruct Hh as [[_ [?|(i & c & h & Hi & _)]]|[Hh0 HR]]; [done|by apply Hfin in Hi|].
    injection HR as Hhd.
    destruct (drain_take s dc R Hinv Hpc (eq_sym Hhd)) as [Htake Hinv1].
    destruct (mq_drain_loop (dc :: R) _ Hinv1 Hfin eq_refl) as (s' & Hd & ?).
    exists s'. split; [|done]. eapply drains_trans; [|done]. by exists 5%nat.
Qed.

(** ** A concrete run *)

(** A schedule: which producer moves, or the drainer with the outcome of its tests. *)
Inductive mq_action := APush (i : nat) | ADrain (go : bool).

Fixpoint mq_run (acts : list mq_action) (s : mq_state) : option mq_state :=
  match acts with
  | [] => Some s
  | APush i :: acts => s' ← mq_push_step i s; mq_run acts s'
  | ADrain go :: acts => mq_run acts (mq_drain_step go s)
  end.

Lemma mq_run_rtc acts s s' : mq_run acts s = Some s' -> rtc mq_step s s'.
Proof.
  revert s. induction acts as [|[i|go] acts IH]; intros s; simpl.
  - intros [= ->]. done.
  - intros (s1 & Hs & Hr)%bind_Some. eapply rtc_l; [by econstructor|eauto].
  - intros Hr. eapply rtc_l; [by constructor|eauto].
Qed.

Definition mq_ex0 : mq_state :=
  MqState 0 0 {[10 := 20]} [[10; 20]; [30]; [40]] [PInit; PInit; PInit] DIdle [] [].

(** Producer 0 is slow to write the head while producer 1 has already exchanged the tail; the
    drainer pops one item, takes the last one and puts it back because of a suspension, while
    producer 2 has already pushed into the emptied list, so that the item is relinked. *)
Definition mq_ex_acts : list mq_action :=
  [APush 0; APush 1; APush 0; APush 1; ADrain true; ADrain true; ADrain true; APush 0;
   ADrain true; ADrain true; ADrain true; ADrain true; ADrain true; ADrain true;
   APush 1; ADrain true; ADrain true; ADrain true; ADrain true; ADrain true; ADrain false;
   APush 2; APush 2; ADrain true; ADrain true; APush 2; ADrain true; ADrain true; ADrain true;
   APush 2; APush 0].

Definition mq_ex_pend : mq_state :=
  MqState 40 30 {[10 := 20; 20 := 30; 30 := 40; 40 := 0]} [[10; 20]; [30]; [40]]
    [PDone; PDone; PDone] DIdle [10; 20; 30; 40] [10; 20].

Lemma mq_ex0_initial : mq_initial mq_ex0.
Proof.
  repeat split; try (by vm_compute).
  - apply (bool_decide_unpack _). by vm_compute.
  - apply (bool_decide_unpack _). by vm_compute.
  - apply (bool_decide_unpack _). by vm_compute.
  - repeat constructor; vm_compute; done.
Qed.

Lemma mq_ex_reachable acts s : mq_run acts mq_ex0 = Some s -> reachable s.
Proof. intros Hr. exists mq_ex0. split; [apply mq_ex0_initial|]. by eapply mq_run_rtc. Qed.

Lemma mq_ex_pend_run : mq_run mq_ex_acts mq_ex0 = Some mq_ex_pend.
Proof. vm_compute. reflexivity. Qed.

Lemma mq_fifo_witness :
  mq_out mq_ex_pend = [10; 20] /\
  mq_out mq_ex_pend `prefix_of` mq_log mq_ex_pend /\ NoDup (mq_log mq_ex_pend).
Proof.
  split; [reflexivity|]. apply (mq_fifo mq_ex_pend).
  apply (mq_ex_reachable mq_ex_acts), mq_ex_pend_run.
Defined.

Lemma mq_refines_fifo_witness :
  let s := default mq_ex0 (mq_run [APush 0; APush 0] mq_ex0) in
  let s1 := default mq_ex0 (mq_run [APush 0] mq_ex0) in
  mq_abs s = ([10; 20], []) /\
  (mq_abs s = mq_abs s1 \/ fifo_step (mq_chains s1) (mq_abs s1) (mq_abs s)).
Proof.
  split; [reflexivity|]. apply (mq_refines_fifo _ _).
  - by apply (mq_ex_reachable [APush 0]).
  - by apply (mq_step_push _ _ 0).
Defined.

Lemma mq_quiescent_list_witness :
  mq_pending mq_ex_pend = [30; 40] /\
  walk (mq_next mq_ex_pend) (S (length (mq_log mq_ex_pend))) (mq_head mq_ex_pend) =
    mq_pending mq_ex_pend /\
  mq_tail mq_ex_pend = default 0 (last (mq_pending mq_ex_pend)).
Proof.
  split; [reflexivity|]. apply (mq_quiescent_list mq_ex_pend); [|intros [|[|[|i]]] st|done].
  - apply (mq_ex_reachable mq_ex_acts), mq_ex_pend_run.
  - by intros [= <-].
  - by intros [= <-].
  - by intros [= <-].
  - done.
Defined.

Lemma mq_drain_empties_witness :
  exists n, let s' := Nat.iter n (mq_drain_step true) mq_ex_pend in
    mq_drain s' = DIdle /\ mq_out s' = [10; 20; 30; 40] /\ mq_tail s' = 0.
Proof.
  apply (mq_drain_empties mq_ex_pend); [|intros [|[|[|i]]] st|done].
  - apply (mq_ex_reachable mq_ex_acts), mq_ex_pend_run.
  - by intros [= <-].
  - by intros [= <-].
  - by intros [= <-].
  - done.
Defined.
