(* ===== verification/DispatchTime.v ===== *)
(** * Time values: dispatch_time, dispatch_walltime and the timeouts

    Models libdispatch/src/time.c and the clock shims of shims/time.h and shims/time.c on a
    host without mach_absolute_time (frac 1.0, ratio_1_to_1).  A dispatch_time_t is a 64-bit word: 0
    is "now", all ones is "forever", a negative word is minus the nanoseconds since the epoch
    (wall clock) and a positive one nanoseconds of CLOCK_MONOTONIC.  [dtime] is that encoding
    made explicit, and the theorems show that the C arithmetic is saturating arithmetic on
    [dtime].

    What the kernel's clocks return is a [host_clock] argument, the sample that the call
    reads.  Signed additions of the source that could overflow are modelled with wrap-around. *)

From S2P Require Import Prelude.
From stdpp Require Import base tactics numbers.
From Stdlib Require Import ZArith Lia.

Local Open Scope Z_scope.

Definition DISPATCH_TIME_NOW : Z := 0.
Definition DISPATCH_TIME_FOREVER : Z := UINT64_MAX.
Definition NSEC_PER_SEC : Z := 1000000000.
Definition NSEC_PER_USEC : Z := 1000.

Record timespec := Timespec { tv_sec : Z; tv_nsec : Z }.
Record timeval := Timeval { tv_sec' : Z; tv_usec : Z }.

(** One reading of CLOCK_MONOTONIC, CLOCK_REALTIME and gettimeofday. *)
Record host_clock := HostClock {
  clk_monotonic : timespec;
  clk_realtime : timespec;
  clk_timeofday : timeval
}.

Section time.
Context (clk : host_clock).

Definition _dispatch_get_nanoseconds : Z :=
  let now := clk_timeofday clk in
  u64 (tv_sec' now * NSEC_PER_SEC + tv_usec now * NSEC_PER_USEC).

(** _dispatch_host_time_data as _dispatch_get_host_time_init leaves it: frac and ratio_1_to_1. *)
Definition _dispatch_get_host_time_init : Z * bool := (1, true).

Definition _dispatch_time_mach2nano (machtime : Z) : Z :=
  u64 (machtime * fst _dispatch_get_host_time_init).

Definition _dispatch_time_nano2mach (nsec : Z) : Z :=
  if snd _dispatch_get_host_time_init then nsec
  else
    let big_tmp := Z.quot nsec (fst _dispatch_get_host_time_init) in
    if big_tmp >? INT64_MAX then INT64_MAX
    else if big_tmp <? - 2 ^ 63 then - 2 ^ 63
    else big_tmp.

Definition _dispatch_absolute_time : Z :=
  let ts := clk_monotonic clk in u64 (tv_sec ts * NSEC_PER_SEC + tv_nsec ts).

Definition dispatch_time (inval delta : Z) : Z :=
  if inval =? DISPATCH_TIME_FOREVER then DISPATCH_TIME_FOREVER
  else if s64 inval <? 0 then
    (* wall clock *)
    if delta >=? 0 then
      let inval := u64 (inval - delta) in
      if s64 inval >=? 0 then DISPATCH_TIME_FOREVER else inval
    else
      let inval := u64 (inval - delta) in
      if s64 inval >=? -1 then u64 (-2) else inval
  else
    (* mach clock *)
    let delta := _dispatch_time_nano2mach delta in
    let inval := if inval =? 0 then _dispatch_absolute_time else inval in
    if delta >=? 0 then
      let inval := u64 (inval + delta) in
      if s64 inval <=? 0 then DISPATCH_TIME_FOREVER else inval
    else
      let inval := u64 (inval + delta) in
      if s64 inval <? 1 then 1 else inval.

(** [inval] is None for a NULL pointer. *)
Definition dispatch_walltime (inval : option timespec) (delta : Z) : Z :=
  let nsec :=
    match inval with
    | Some ts => s64 (u64 (u64 (tv_sec ts) * 1000000000 + u64 (tv_nsec ts)))
    | None => s64 _dispatch_get_nanoseconds
    end in
  let nsec := s64 (nsec + delta) in
  if nsec <=? 1 then if delta >=? 0 then DISPATCH_TIME_FOREVER else u64 (-2)
  else u64 (- nsec).

Definition _dispatch_timeout (when : Z) : Z :=
  if when =? DISPATCH_TIME_FOREVER then DISPATCH_TIME_FOREVER
  else if when =? 0 then 0
  else if s64 when <? 0 then
    let when := u64 (- s64 when) in
    let now := _dispatch_get_nanoseconds in
    if now >=? when then 0 else u64 (when - now)
  else
    let now := _dispatch_absolute_time in
    if now >=? when then 0 else _dispatch_time_mach2nano (u64 (when - now)).

Definition _dispatch_timeout_ts (when : Z) : timespec :=
  let ts_realtime := clk_realtime clk in
  if when =? 0 then ts_realtime
  else if s64 when <? 0 then
    let when := u64 (- s64 when + tv_sec ts_realtime * NSEC_PER_SEC + tv_nsec ts_realtime) in
    Timespec (when / NSEC_PER_SEC) (when mod NSEC_PER_SEC)
  else
    let abstime := _dispatch_absolute_time in
    let realtime := u64 (tv_sec ts_realtime * NSEC_PER_SEC + tv_nsec ts_realtime +
                         u64 (when - abstime)) in
    Timespec (realtime / NSEC_PER_SEC) (realtime mod NSEC_PER_SEC).

End time.

(** ** The meaning of a dispatch_time_t *)

Inductive dtime :=
| Forever
| Now
| Uptime (ns : Z)     (* of the monotonic clock *)
| Wall (ns : Z).      (* since the epoch *)

#[export] Instance dtime_eq_dec : EqDecision dtime.
Proof. solve_decision. Defined.

Definition decode_time (t : Z) : dtime :=
  if t =? DISPATCH_TIME_FOREVER then Forever
  else if t =? DISPATCH_TIME_NOW then Now
  else if t <? 2 ^ 63 then Uptime t
  else Wall (2 ^ 64 - t).

Definition encode_time (t : dtime) : Z :=
  match t with
  | Forever => DISPATCH_TIME_FOREVER
  | Now => DISPATCH_TIME_NOW
  | Uptime ns => ns
  | Wall ns => 2 ^ 64 - ns
  end.

(** The nanoseconds the clocks show. *)
Definition uptime_ns (clk : host_clock) : Z :=
  tv_sec (clk_monotonic clk) * NSEC_PER_SEC + tv_nsec (clk_monotonic clk).
Definition wall_ns (clk : host_clock) : Z :=
  tv_sec' (clk_timeofday clk) * NSEC_PER_SEC + tv_usec (clk_timeofday clk) * NSEC_PER_USEC.
Definition real_ns (clk : host_clock) : Z :=
  tv_sec (clk_realtime clk) * NSEC_PER_SEC + tv_nsec (clk_realtime clk).

(** The clocks run and stay below 2^62 ns (about 146 years). *)
Record clock_ok (clk : host_clock) : Prop := {
  ok_uptime : 0 < uptime_ns clk < 2 ^ 62;
  ok_wall : 0 <= wall_ns clk < 2 ^ 62;
  ok_real : 0 <= real_ns clk < 2 ^ 62
}.

(** Saturating addition: later than every representable time is forever, earlier than
    every representable time is the first one of that clock. *)
Definition add_uptime (a delta : Z) : dtime :=
  if a + delta <? 1 then Uptime 1 else if a + delta <? 2 ^ 63 then Uptime (a + delta) else Forever.
Definition add_wall (w delta : Z) : dtime :=
  if w + delta <=? 1 then Wall 2 else if w + delta <=? 2 ^ 63 then Wall (w + delta) else Forever.

Definition time_add (clk : host_clock) (t : dtime) (delta : Z) : dtime :=
  match t with
  | Forever => Forever
  | Now => add_uptime (uptime_ns clk) delta
  | Uptime a => add_uptime a delta
  | Wall w => add_wall w delta
  end.

(** The nanoseconds left until [t]; None is never. *)
Definition time_left (clk : host_clock) (t : dtime) : option Z :=
  match t with
  | Forever => None
  | Now => Some 0
  | Uptime a => Some (Z.max 0 (a - uptime_ns clk))
  | Wall w => Some (Z.max 0 (w - wall_ns clk))
  end.

Create Rewrite HintDb dtime.

Lemma absolute_time_ok clk : clock_ok clk -> _dispatch_absolute_time clk = uptime_ns clk.
Proof. intros [? ? ?]. unfold _dispatch_absolute_time, uptime_ns in *. by wrap. Qed.
Lemma get_nanoseconds_ok clk : clock_ok clk -> _dispatch_get_nanoseconds clk = wall_ns clk.
Proof. intros [? ? ?]. unfold _dispatch_get_nanoseconds, wall_ns in *. by wrap. Qed.

(** Every word is a time and every time that fits in a word is decoded back. *)
Lemma encode_decode t : in_u64 t -> encode_time (decode_time t) = t.
Proof.
  intros. unfold decode_time, encode_time, DISPATCH_TIME_FOREVER, DISPATCH_TIME_NOW, UINT64_MAX in *.
  repeat case_cmp; simpl; lia.
Qed.

(** The two clocks of dispatch_time, as words. *)
Definition mach_branch (a delta : Z) : Z :=
  if delta >=? 0 then
    if s64 (u64 (a + delta)) <=? 0 then DISPATCH_TIME_FOREVER else u64 (a + delta)
  else if s64 (u64 (a + delta)) <? 1 then 1 else u64 (a + delta).
Definition wall_branch (t delta : Z) : Z :=
  if delta >=? 0 then
    if s64 (u64 (t - delta)) >=? 0 then DISPATCH_TIME_FOREVER else u64 (t - delta)
  else if s64 (u64 (t - delta)) >=? -1 then u64 (-2) else u64 (t - delta).

Lemma decode_uptime a : 0 < a < 2 ^ 63 -> decode_time a = Uptime a.
Proof.
  intros. unfold decode_time, DISPATCH_TIME_FOREVER, DISPATCH_TIME_NOW, UINT64_MAX.
  by repeat (case_cmp; try lia).
Qed.
Lemma decode_wall t : 2 ^ 63 <= t < 2 ^ 64 - 1 -> decode_time t = Wall (2 ^ 64 - t).
Proof.
  intros. unfold decode_time, DISPATCH_TIME_FOREVER, DISPATCH_TIME_NOW, UINT64_MAX.
  by repeat (case_cmp; try lia).
Qed.

Lemma mach_branch_add a delta :
  0 < a < 2 ^ 63 -> in_s64 delta -> decode_time (mach_branch a delta) = add_uptime a delta.
Proof.
  intros Ha Hd. unfold mach_branch, add_uptime. autorewrite with mint_norm.
  assert (a + delta < 1 \/ 1 <= a + delta < 2 ^ 63 \/ 2 ^ 63 <= a + delta) as [Hs|[Hs|Hs]] by lia;
    wrap; repeat (case_cmp; try lia); try reflexivity. all: apply decode_uptime; lia.
Qed.

Lemma wall_branch_add t delta :
  2 ^ 63 <= t < 2 ^ 64 - 1 -> in_s64 delta ->
  decode_time (wall_branch t delta) = add_wall (2 ^ 64 - t) delta.
Proof.
  intros Ht Hd. unfold wall_branch, add_wall. autorewrite with mint_norm.
  assert (t - delta >= 2 ^ 64 - 1 \/ 2 ^ 63 <= t - delta < 2 ^ 64 - 1 \/ t - delta < 2 ^ 63)
    as [Hs|[Hs|Hs]] by lia;
    wrap; repeat (case_cmp; try lia); try reflexivity; wrap.
  all: rewrite decode_wall by lia; f_equal; lia.
Qed.

(** dispatch_time is saturating addition on the times its words stand for, on both clocks and
    for every 64-bit delta: overflow gives forever, underflow the first instant of the clock,
    and forever stays forever. *)
Theorem dispatch_time_saturates clk t delta :
  clock_ok clk -> in_u64 t -> in_s64 delta ->
  decode_time (dispatch_time clk t delta) = time_add clk (decode_time t) delta.
Proof.
  intros Hok Ht Hd. unfold dispatch_time. rewrite (absolute_time_ok clk Hok).
  unfold _dispatch_time_nano2mach. simpl snd. cbv beta iota zeta. destruct Hok as [Hu _ _].
  assert (t = 2 ^ 64 - 1 \/ t = 0 \/ 0 < t < 2 ^ 63 \/ 2 ^ 63 <= t < 2 ^ 64 - 1)
    as [-> | [-> | [Hm | Hw]]] by lia.
  - reflexivity.
  - exact (mach_branch_add (uptime_ns clk) delta ltac:(lia) Hd).
  - rewrite (decode_uptime t) by lia. unfold DISPATCH_TIME_FOREVER, UINT64_MAX. wrap.
    do 3 (case_cmp; try lia). apply mach_branch_add; lia.
  - rewrite (decode_wall t) by lia. unfold DISPATCH_TIME_FOREVER at 1, UINT64_MAX.
    rewrite (s64_above t) by lia. do 3 (case_cmp; try lia). apply wall_branch_add; lia.
Qed.

(** _dispatch_timeout is the time left until the deadline on its own clock, 0 once it has
    passed and forever for forever. *)
Theorem dispatch_timeout_left clk t :
  clock_ok clk -> in_u64 t ->
  _dispatch_timeout clk t = default DISPATCH_TIME_FOREVER (time_left clk (decode_time t)).
Proof.
  intros Hok Ht. unfold _dispatch_timeout.
  rewrite (absolute_time_ok clk Hok), (get_nanoseconds_ok clk Hok).
  unfold _dispatch_time_mach2nano. simpl fst. rewrite Z.mul_1_r, u64_u64.
  destruct Hok as [Hu Hw _].
  assert (t = 2 ^ 64 - 1 \/ t = 0 \/ 0 < t < 2 ^ 63 \/ 2 ^ 63 <= t < 2 ^ 64 - 1)
    as [-> | [-> | [Hm | Hm]]] by lia.
  - reflexivity.
  - reflexivity.
  - rewrite decode_uptime by lia. unfold DISPATCH_TIME_FOREVER at 1, UINT64_MAX. simpl. wrap.
    repeat (case_cmp; try lia); wrap; lia.
  - rewrite decode_wall by lia. unfold DISPATCH_TIME_FOREVER at 1, UINT64_MAX. simpl. wrap.
    repeat (case_cmp; try lia); wrap; lia.
Qed.

(** The nanoseconds of a normalised timespec. *)
Definition timespec_ns (ts : timespec) : Z := tv_sec ts * NSEC_PER_SEC + tv_nsec ts.
Definition timespec_ok (ts : timespec) : Prop :=
  0 <= tv_sec ts /\ 0 <= tv_nsec ts < NSEC_PER_SEC /\ timespec_ns ts < 2 ^ 62.

Lemma timespec_divmod n :
  timespec_ns (Timespec (n / NSEC_PER_SEC) (n mod NSEC_PER_SEC)) = n.
Proof. unfold timespec_ns. simpl. rewrite (Z.div_mod n NSEC_PER_SEC) at 3; [lia|done]. Qed.

(** dispatch_walltime builds the wall time [delta] after the given timespec (or after
    gettimeofday), saturating in the same way as dispatch_time. *)
Theorem dispatch_walltime_saturates clk inval delta :
  clock_ok clk -> in_s64 delta -> (forall ts, inval = Some ts -> timespec_ok ts) ->
  decode_time (dispatch_walltime clk inval delta) =
    let base := match inval with Some ts => timespec_ns ts | None => wall_ns clk end in
    if base + delta <=? 1 then if delta >=? 0 then Forever else Wall 2
    else if base + delta <? 2 ^ 63 then Wall (base + delta) else Forever.
Proof.
  intros Hok Hd Hts. unfold dispatch_walltime. rewrite (get_nanoseconds_ok clk Hok).
  destruct Hok as [_ Hw _].
  set (base := match inval with Some ts => timespec_ns ts | None => wall_ns clk end).
  assert (0 <= base < 2 ^ 62) as Hb.
  { destruct inval as [ts|]; simpl in base; [|done]. destruct (Hts ts eq_refl) as (? & ? & ?).
    unfold base, timespec_ns, NSEC_PER_SEC in *. lia. }
  assert (match inval with
    | Some ts => s64 (u64 (u64 (tv_sec ts) * 1000000000 + u64 (tv_nsec ts)))
    | None => s64 (wall_ns clk) end = base) as ->.
  { destruct inval as [ts|]; simpl in base; [|by wrap].
    destruct (Hts ts eq_refl) as (? & ? & ?). unfold base, timespec_ns, NSEC_PER_SEC in *. by wrap. }
  assert (base + delta <= 1 \/ 1 < base + delta < 2 ^ 63 \/ 2 ^ 63 <= base + delta)
    as [Hs|[Hs|Hs]] by lia; simpl; wrap; repeat (case_cmp; try lia); try reflexivity; wrap.
  rewrite decode_wall by lia. f_equal; lia.
Qed.

Lemma dispatch_time_now clk n :
  clock_ok clk -> 0 <= n < 2 ^ 62 -> dispatch_time clk DISPATCH_TIME_NOW n = uptime_ns clk + n.
Proof.
  intros Hok Hn. unfold dispatch_time, _dispatch_time_nano2mach, DISPATCH_TIME_NOW.
  change (s64 0) with 0. simpl snd. simpl Z.eqb. cbv iota.
  rewrite (absolute_time_ok clk Hok). destruct Hok as [? _ _]. simpl Z.eqb. cbv iota.
  repeat (wrap; case_cmp; try lia).
Qed.

(** C36: a deadline made with dispatch_time(DISPATCH_TIME_NOW, n) or
    dispatch_walltime(NULL, n) has exactly [n] nanoseconds left at the moment it is made. *)
Theorem deadline_roundtrip clk n :
  clock_ok clk -> 0 <= n < 2 ^ 62 -> 2 <= wall_ns clk ->
  _dispatch_timeout clk (dispatch_time clk DISPATCH_TIME_NOW n) = n /\
  _dispatch_timeout clk (dispatch_walltime clk None n) = n.
Proof.
  intros Hok Hn Hw2. rewrite (dispatch_time_now clk n Hok Hn).
  unfold _dispatch_timeout, dispatch_walltime, _dispatch_time_mach2nano. simpl fst.
  rewrite (absolute_time_ok clk Hok), (get_nanoseconds_ok clk Hok).
  unfold DISPATCH_TIME_FOREVER, UINT64_MAX. destruct Hok as [Hu Hw _]. split.
  - rewrite Z.mul_1_r. wrap. repeat (case_cmp; try lia).
  - wrap. rewrite (proj2 (Z.leb_gt (wall_ns clk + n) 1)) by lia. wrap.
    repeat (case_cmp; try lia); wrap; lia.
Qed.

(** the absolute deadline given to sem_timedwait for a monotonic time is the real time
    plus what is left, as a normalised timespec; for a wall time it is that time plus the current
    real time, so such a wait ends late by the whole current time. *)
Theorem timeout_ts_deadline clk t :
  clock_ok clk -> in_u64 t ->
  let ts := _dispatch_timeout_ts clk t in
  match decode_time t with
  | Uptime a => uptime_ns clk <= a -> a - uptime_ns clk < 2 ^ 62 ->
      timespec_ns ts = real_ns clk + (a - uptime_ns clk) /\ 0 <= tv_nsec ts < NSEC_PER_SEC
  | Wall w => w < 2 ^ 63 ->
      timespec_ns ts = w + real_ns clk /\ 0 <= tv_nsec ts < NSEC_PER_SEC
  | Now => ts = clk_realtime clk
  | Forever => True
  end.
Proof.
  intros Hok Ht. unfold _dispatch_timeout_ts. rewrite (absolute_time_ok clk Hok).
  destruct Hok as [Hu _ Hr]. unfold real_ns in *.
  assert (t = 2 ^ 64 - 1 \/ t = 0 \/ 0 < t < 2 ^ 63 \/ 2 ^ 63 <= t < 2 ^ 64 - 1)
    as [-> | [-> | [Hm | Hm]]] by lia; [done|done|..].
  - rewrite decode_uptime by lia. wrap. do 2 (case_cmp; try lia). intros Hle Hlt.
    rewrite timespec_divmod. wrap. split; [lia|]. apply Z.mod_pos_bound. done.
  - rewrite decode_wall by lia. wrap. do 2 (case_cmp; try lia). intros Hlt.
    rewrite timespec_divmod. wrap. split; [lia|]. apply Z.mod_pos_bound. done.
Qed.

(** ** Concrete values *)

(** Up for 1000 s, at 1 300 000 000 s after the epoch. *)
Definition clk_ex : host_clock :=
  HostClock (Timespec 1000 5) (Timespec 1300000000 7) (Timeval 1300000000 0).

Lemma clk_ex_ok : clock_ok clk_ex.
Proof. split; vm_compute; split; intros; done. Qed.

Lemma dispatch_time_saturates_witness :
  dispatch_time clk_ex DISPATCH_TIME_NOW INT64_MAX = DISPATCH_TIME_FOREVER /\
  decode_time (dispatch_time clk_ex DISPATCH_TIME_NOW 1500) =
    time_add clk_ex (decode_time DISPATCH_TIME_NOW) 1500.
Proof.
  split; [vm_compute; reflexivity|].
  apply (dispatch_time_saturates clk_ex DISPATCH_TIME_NOW 1500 clk_ex_ok); vm_compute; split; done.
Defined.

Lemma dispatch_timeout_left_witness :
  _dispatch_timeout clk_ex 1000000000505 = 500 /\
  _dispatch_timeout clk_ex 1000000000505 =
    default DISPATCH_TIME_FOREVER (time_left clk_ex (decode_time 1000000000505)).
Proof.
  split; [vm_compute; reflexivity|].
  apply (dispatch_timeout_left clk_ex 1000000000505 clk_ex_ok); vm_compute; split; done.
Defined.

Lemma dispatch_walltime_saturates_witness :
  decode_time (dispatch_walltime clk_ex None (-5)) = Wall (1300000000000000000 - 5).
Proof.
  rewrite (dispatch_walltime_saturates clk_ex None (-5) clk_ex_ok);
    [vm_compute; reflexivity|vm_compute; split; done|done].
Defined.

Lemma deadline_roundtrip_witness :
  _dispatch_timeout clk_ex (dispatch_time clk_ex DISPATCH_TIME_NOW 42) = 42 /\
  _dispatch_timeout clk_ex (dispatch_walltime clk_ex None 42) = 42.
Proof. apply (deadline_roundtrip clk_ex 42 clk_ex_ok); vm_compute; try split; done. Defined.

(** A wall deadline of one second from now is handed to sem_timedwait as a date in 2052. *)
Lemma timeout_ts_deadline_witness :
  let t := dispatch_walltime clk_ex None NSEC_PER_SEC in
  _dispatch_timeout_ts clk_ex t = Timespec 2600000001 7 /\
  timespec_ns (_dispatch_timeout_ts clk_ex t) = 1300000001000000000 + real_ns clk_ex.
Proof.
  set (t := dispatch_walltime clk_ex None NSEC_PER_SEC). cbv zeta.
  split; [vm_compute; reflexivity|].
  assert (in_u64 t) as Ht by (vm_compute; split; done).
  pose proof (timeout_ts_deadline clk_ex t clk_ex_ok Ht) as Hd.
  replace (decode_time t) with (Wall 1300000001000000000) in Hd by (vm_compute; reflexivity).
  apply Hd. reflexivity.
Defined.
