(* ===== verification/BlockRuntime.v ===== *)
(** * The blocks runtime: copying and releasing closures

    Models libblocksruntime/runtime.c without a garbage collector ([isGC] false: nothing in the
    repository calls _Block_use_GC).  The memory is a map from addresses to blocks and __block
    structures; malloc answers from a list of addresses chosen by the environment, NULL (0)
    when it fails.  The copy and dispose helpers of a closure are compiler-generated:
    as the comment before _Block_object_assign describes, a helper is the list of
    the captured slots with the field kind that it passes to _Block_object_assign and
    _Block_object_dispose.

    The functions call each other through the helpers, so each is written with the recursive call as
    an argument and [run] ties the knot with fuel. *)

From S2P Require Import Prelude.
From stdpp Require Import base tactics list numbers gmap strings.
From Stdlib Require Import ZArith Lia.

Local Open Scope Z_scope.

Definition BLOCK_REFCOUNT_MASK : Z := 0xffff.
Definition BLOCK_NEEDS_FREE : Z := Z.shiftl 1 24.
Definition BLOCK_HAS_COPY_DISPOSE : Z := Z.shiftl 1 25.
Definition BLOCK_IS_GC : Z := Z.shiftl 1 27.
Definition BLOCK_IS_GLOBAL : Z := Z.shiftl 1 28.

Definition BLOCK_FIELD_IS_OBJECT : Z := 3.
Definition BLOCK_FIELD_IS_BLOCK : Z := 7.
Definition BLOCK_FIELD_IS_BYREF : Z := 8.
Definition BLOCK_FIELD_IS_WEAK : Z := 16.
Definition BLOCK_BYREF_CALLER : Z := 128.

Definition WANTS_ONE : Z := Z.shiftl 1 16.
Definition _Byref_flag_initial_value : Z := Z.lor BLOCK_NEEDS_FREE 2.

Inductive isa_class :=
| _NSConcreteStackBlock | _NSConcreteMallocBlock | _NSConcreteGlobalBlock
| _NSConcreteWeakBlockVariable | isa_other.

(** size, and the slots that the copy and dispose helpers handle. *)
Record Block_descriptor := BlockDescriptor { desc_size : Z; desc_helper : list (nat * Z) }.

Record Block_layout := BlockLayout {
  isa : isa_class;
  flags : Z;
  descriptor : Block_descriptor;
  vars : list Z                     (* the imported variables *)
}.

Record Block_byref := BlockByref {
  br_isa : isa_class;
  forwarding : Z;
  br_flags : Z;
  br_size : Z;
  br_helper : list (nat * Z);       (* byref_keep and byref_destroy *)
  br_vars : list Z
}.

Inductive mem_obj := OBlock (b : Block_layout) | OByref (r : Block_byref).

Inductive rr_event := EvRetain (p : Z) | EvRelease (p : Z).

Record rt_state := RtState {
  rt_mem : gmap Z mem_obj;
  rt_malloc : list Z;               (* the answers malloc will give *)
  rt_freed : list Z;                (* the calls to free, oldest first *)
  rt_rr : bool;                     (* _Block_use_RR has been called *)
  rt_events : list rr_event;        (* the calls to the installed retain and release *)
  rt_out : list string              (* printf *)
}.

Definition set_mem (h : gmap Z mem_obj) (s : rt_state) : rt_state :=
  RtState h (rt_malloc s) (rt_freed s) (rt_rr s) (rt_events s) (rt_out s).

Notation R := (M rt_state).

(** ** Memory *)

Definition load_block (p : Z) : R Block_layout :=
  fun s => match rt_mem s !! p with Some (OBlock b) => Ret b s | _ => Fault s end.
Definition load_byref (p : Z) : R Block_byref :=
  fun s => match rt_mem s !! p with Some (OByref r) => Ret r s | _ => Fault s end.
Definition store (p : Z) (o : mem_obj) : R unit :=
  modify (fun s => set_mem (<[p:=o]> (rt_mem s)) s).

Definition malloc : R Z := fun s =>
  match rt_malloc s with
  | [] => Ret 0 s
  | p :: l => Ret p (RtState (rt_mem s) l (rt_freed s) (rt_rr s) (rt_events s) (rt_out s))
  end.
Definition _Block_deallocator (p : Z) : R unit :=
  modify (fun s => RtState (delete p (rt_mem s)) (rt_malloc s) (rt_freed s ++ [p]) (rt_rr s)
                     (rt_events s) (rt_out s)).
Definition printf (msg : string) : R unit :=
  modify (fun s => RtState (rt_mem s) (rt_malloc s) (rt_freed s) (rt_rr s) (rt_events s)
                     (rt_out s ++ [msg])).
Definition rr_call (e : rr_event) : R unit :=
  modify (fun s => RtState (rt_mem s) (rt_malloc s) (rt_freed s) (rt_rr s)
                     (if rt_rr s then rt_events s ++ [e] else rt_events s) (rt_out s)).

(** The variable slots of an object and their assignment. *)
Definition set_slot (i : nat) (v : Z) (o : mem_obj) : mem_obj :=
  match o with
  | OBlock b => OBlock (BlockLayout (isa b) (flags b) (descriptor b) (<[i:=v]> (vars b)))
  | OByref r => OByref (BlockByref (br_isa r) (forwarding r) (br_flags r) (br_size r) (br_helper r)
                          (<[i:=v]> (br_vars r)))
  end.
Definition _Block_assign (value : Z) (dest : Z * nat) : R unit := fun s =>
  match rt_mem s !! dest.1 with
  | Some o => Ret tt (set_mem (<[dest.1:=set_slot dest.2 value o]> (rt_mem s)) s)
  | None => Fault s
  end.

(** _Block_use_RR and the two callouts it replaces. *)
Definition _Block_use_RR : R unit :=
  modify (fun s => RtState (rt_mem s) (rt_malloc s) (rt_freed s) true (rt_events s) (rt_out s)).
Definition _Block_retain_object (p : Z) : R unit := rr_call (EvRetain p).
Definition _Block_release_object (p : Z) : R unit := rr_call (EvRelease p).

(** ** The latching reference count in the low 16 bits of the flags *)

Definition refcount (f : Z) : Z := Z.land f BLOCK_REFCOUNT_MASK.
Definition has (f bit : Z) : bool := negb (Z.land f bit =? 0).

(** The stored value and the returned value of the compare-and-swap loop. *)
Definition latching_incr_int (old_value : Z) : Z * Z :=
  if refcount old_value =? BLOCK_REFCOUNT_MASK then (old_value, BLOCK_REFCOUNT_MASK)
  else (s32 (old_value + 1), s32 (old_value + 1)).

Definition latching_decr_int (old_value : Z) : Z * Z :=
  if refcount old_value =? BLOCK_REFCOUNT_MASK then (old_value, BLOCK_REFCOUNT_MASK)
  else if refcount old_value =? 0 then (old_value, 0)
  else (s32 (old_value - 1), s32 (old_value - 1)).

Definition set_flags (f : Z) (b : Block_layout) : Block_layout :=
  BlockLayout (isa b) f (descriptor b) (vars b).
Definition set_br_flags (f : Z) (r : Block_byref) : Block_byref :=
  BlockByref (br_isa r) (forwarding r) f (br_size r) (br_helper r) (br_vars r).

Definition latch_block (op : Z -> Z * Z) (p : Z) : R Z :=
  b ← load_block p;
  store p (OBlock (set_flags (op (flags b)).1 b));; mret (op (flags b)).2.
Definition latch_byref (op : Z -> Z * Z) (p : Z) : R Z :=
  r ← load_byref p;
  store p (OByref (set_br_flags (op (br_flags r)).1 r));; mret (op (br_flags r)).2.

(** ** The runtime functions *)

Inductive rt_call :=
| CCopyInternal (arg fl : Z)
| CByrefAssignCopy (dest : Z * nat) (arg fl : Z)
| CObjectAssign (dest : Z * nat) (object fl : Z)
| CByrefRelease (arg : Z)
| CRelease (arg : Z)
| CDestroy (arg : Z)
| CObjectDispose (object fl : Z).

Section functions.
Context (call : rt_call -> R Z) (garbage : Z).

(** The copy helper of a closure or a __block structure: each slot of [src] is assigned to
    the slot of [dst]. *)
Fixpoint keep_slots (helper : list (nat * Z)) (dst : Z) (src : list Z) : R unit :=
  match helper with
  | [] => mret tt
  | (i, k) :: helper =>
      match src !! i with
      | Some v => call (CObjectAssign (dst, i) v k);; keep_slots helper dst src
      | None => fault
      end
  end.

(** The dispose helper. *)
Fixpoint destroy_slots (helper : list (nat * Z)) (vs : list Z) : R unit :=
  match helper with
  | [] => mret tt
  | (i, k) :: helper =>
      match vs !! i with
      | Some v => call (CObjectDispose v k);; destroy_slots helper vs
      | None => fault
      end
  end.

Definition _Block_copy_internal (arg fl : Z) : R Z :=
  let wantsOne := Z.land WANTS_ONE fl =? WANTS_ONE in
  if arg =? 0 then mret 0
  else
    aBlock ← load_block arg;
    if has (flags aBlock) BLOCK_NEEDS_FREE then
      latch_block latching_incr_int arg;; mret arg
    else if has (flags aBlock) BLOCK_IS_GC then
      (* _Block_setHasRefcount does nothing by default *)
      (if wantsOne then latch_block latching_incr_int arg;; mret tt else mret tt);; mret arg
    else if has (flags aBlock) BLOCK_IS_GLOBAL then mret arg
    else
      result ← malloc;
      if result =? 0 then mret 0
      else
        let f := Z.lor (Z.land (flags aBlock) (Z.lnot BLOCK_REFCOUNT_MASK)) (Z.lor BLOCK_NEEDS_FREE 1) in
        store result (OBlock (BlockLayout _NSConcreteMallocBlock f (descriptor aBlock) (vars aBlock)));;
        (if has f BLOCK_HAS_COPY_DISPOSE
         then keep_slots (desc_helper (descriptor aBlock)) result (vars aBlock) else mret tt);;
        mret result.

Definition _Block_byref_assign_copy (dest : Z * nat) (arg fl : Z) : R Z :=
  src ← load_byref arg;
  fwd ← load_byref (forwarding src);
  (if has (br_flags fwd) BLOCK_IS_GC then mret tt
   else if refcount (br_flags fwd) =? 0 then
     let bits := Z.lor BLOCK_FIELD_IS_BYREF BLOCK_FIELD_IS_WEAK in
     let isWeak := Z.land fl bits =? bits in
     copy ← malloc;
     if copy =? 0 then fault
     else
       let hascd := has (br_flags src) BLOCK_HAS_COPY_DISPOSE in
       store copy (OByref (BlockByref (if isWeak then _NSConcreteWeakBlockVariable else isa_other)
         copy (Z.lor (br_flags src) _Byref_flag_initial_value) (br_size src)
         (br_helper src)
         (if hascd then replicate (length (br_vars src)) garbage else br_vars src)));;
       store arg (OByref (BlockByref (br_isa src) copy (br_flags src) (br_size src) (br_helper src)
                            (br_vars src)));;
       if hascd then keep_slots (br_helper src) copy (br_vars src) else mret tt
   else if Z.land (br_flags fwd) BLOCK_NEEDS_FREE =? BLOCK_NEEDS_FREE then
     latch_byref latching_incr_int (forwarding src);; mret tt
   else mret tt);;
  src ← load_byref arg;
  _Block_assign (forwarding src) dest;; mret 0.

Definition _Block_byref_release (arg : Z) : R Z :=
  a ← load_byref arg;
  let shared_struct := forwarding a in
  r ← load_byref shared_struct;
  if Z.land (br_flags r) BLOCK_NEEDS_FREE =? 0 then mret 0
  else if refcount (br_flags r) <=? 0 then
    printf "_Block_byref_release: Block byref data structure underflowed";; mret 0
  else
    v ← latch_byref latching_decr_int shared_struct;
    if refcount v =? 0 then
      r ← load_byref shared_struct;
      (if has (br_flags r) BLOCK_HAS_COPY_DISPOSE
       then destroy_slots (br_helper r) (br_vars r) else mret tt);;
      _Block_deallocator shared_struct;; mret 0
    else mret 0.

Definition _Block_release (arg : Z) : R Z :=
  if arg =? 0 then mret 0
  else
    v ← latch_block latching_decr_int arg;
    let newCount := refcount v in
    if newCount >? 0 then mret 0
    else
      aBlock ← load_block arg;
      if has (flags aBlock) BLOCK_IS_GC then mret 0
      else if has (flags aBlock) BLOCK_NEEDS_FREE then
        (if has (flags aBlock) BLOCK_HAS_COPY_DISPOSE
         then destroy_slots (desc_helper (descriptor aBlock)) (vars aBlock) else mret tt);;
        _Block_deallocator arg;; mret 0
      else if has (flags aBlock) BLOCK_IS_GLOBAL then mret 0
      else printf "Block_release called upon a stack Block, ignored";; mret 0.

Definition _Block_destroy (arg : Z) : R Z :=
  if arg =? 0 then mret 0
  else
    aBlock ← load_block arg;
    if has (flags aBlock) BLOCK_IS_GC then mret 0 else call (CRelease arg).

Definition _Block_object_assign (dest : Z * nat) (object fl : Z) : R Z :=
  if Z.land fl BLOCK_BYREF_CALLER =? BLOCK_BYREF_CALLER then
    (* the weak and the plain assignment both store the pointer *)
    _Block_assign object dest;; mret 0
  else if Z.land fl BLOCK_FIELD_IS_BYREF =? BLOCK_FIELD_IS_BYREF then
    call (CByrefAssignCopy dest object fl)
  else if Z.land fl BLOCK_FIELD_IS_BLOCK =? BLOCK_FIELD_IS_BLOCK then
    p ← call (CCopyInternal object fl);
    _Block_assign p dest;; mret 0
  else if Z.land fl BLOCK_FIELD_IS_OBJECT =? BLOCK_FIELD_IS_OBJECT then
    _Block_retain_object object;; _Block_assign object dest;; mret 0
  else mret 0.

Definition _Block_object_dispose (object fl : Z) : R Z :=
  if has fl BLOCK_FIELD_IS_BYREF then call (CByrefRelease object)
  else if Z.land fl (Z.lor BLOCK_FIELD_IS_BLOCK BLOCK_BYREF_CALLER) =? BLOCK_FIELD_IS_BLOCK then
    call (CDestroy object)
  else if Z.land fl (Z.lor BLOCK_FIELD_IS_WEAK (Z.lor BLOCK_FIELD_IS_BLOCK BLOCK_BYREF_CALLER)) =?
          BLOCK_FIELD_IS_OBJECT then
    _Block_release_object object;; mret 0
  else mret 0.

Definition rt_body (c : rt_call) : R Z :=
  match c with
  | CCopyInternal arg fl => _Block_copy_internal arg fl
  | CByrefAssignCopy dest arg fl => _Block_byref_assign_copy dest arg fl
  | CObjectAssign dest object fl => _Block_object_assign dest object fl
  | CByrefRelease arg => _Block_byref_release arg
  | CRelease arg => _Block_release arg
  | CDestroy arg => _Block_destroy arg
  | CObjectDispose object fl => _Block_object_dispose object fl
  end.

End functions.

(** Fuel bounds the nesting of captured blocks: four calls for each level. *)
Fixpoint run (garbage : Z) (fuel : nat) (c : rt_call) : R Z :=
  match fuel with
  | O => out_of_fuel
  | S n => rt_body (run garbage n) garbage c
  end.

Definition _Block_copy (garbage : Z) (fuel : nat) (arg : Z) : R Z :=
  run garbage fuel (CCopyInternal arg WANTS_ONE).
Definition Block_release (garbage : Z) (fuel : nat) (arg : Z) : R Z :=
  run garbage fuel (CRelease arg).

(** SPI. *)
Definition _Block_copy_collectable (garbage : Z) (fuel : nat) (arg : Z) : R Z :=
  run garbage fuel (CCopyInternal arg 0).
Definition Block_size (arg : Z) : R Z := b ← load_block arg; mret (desc_size (descriptor b)).

(** ** The reference count and the flag bits *)

Lemma refcount_mod f : refcount f = f mod 65536.
Proof. unfold refcount. change BLOCK_REFCOUNT_MASK with (Z.ones 16). by rewrite Z.land_ones. Qed.

Lemma refcount_range f : 0 <= refcount f < 65536.
Proof. rewrite refcount_mod. by apply Z.mod_pos_bound. Qed.

Lemma refcount_shift f k : 0 <= refcount f + k < 65536 -> refcount (f + k) = refcount f + k.
Proof.
  rewrite !refcount_mod. intros. rewrite <- (Z.add_mod_idemp_l f k) by done.
  rewrite Z.mod_small; lia.
Qed.

Lemma has_testbit f k : 0 <= k -> has f (Z.shiftl 1 k) = Z.testbit f k.
Proof.
  intros. unfold has. rewrite Z.shiftl_1_l. destruct (Z.testbit f k) eqn:Hb.
  - apply negb_true_iff, Z.eqb_neq. intros H0.
    assert (Z.testbit (Z.land f (2 ^ k)) k = false) as Hf by (rewrite H0; apply Z.testbit_0_l).
    rewrite Z.land_spec, Hb, Z.pow2_bits_true in Hf by done. done.
  - apply negb_false_iff, Z.eqb_eq, Z.bits_inj. intros n.
    rewrite Z.land_spec, Z.testbit_0_l. destruct (decide (n = k)) as [->|Hne]; [by rewrite Hb|].
    rewrite Z.pow2_bits_false by done. apply andb_false_r.
Qed.

(** The bits above the count do not see it move. *)
Lemma testbit_shift f k n :
  0 <= refcount f + k < 65536 -> 16 <= n -> Z.testbit (f + k) n = Z.testbit f n.
Proof.
  rewrite refcount_mod. intros Hk Hn.
  assert ((f + k) / 2 ^ 16 = f / 2 ^ 16) as Hd.
  { rewrite (Z.div_mod f 65536) at 1 by done. symmetry.
    apply (Z.div_unique _ _ _ (f mod 65536 + k)); [left; done|]. change (2 ^ 16) with 65536. lia. }
  replace n with (n - 16 + 16) by lia. rewrite <- !Z.shiftr_spec by lia.
  by rewrite !Z.shiftr_div_pow2, Hd by done.
Qed.

Lemma s32_shift f k :
  in_s32 f -> 0 <= refcount f + k < 65536 -> in_s32 (f + k).
Proof.
  rewrite refcount_mod. intros. pose proof (Z.div_mod f 65536 ltac:(done)).
  assert (- 32768 <= f / 65536 < 32768); [|lia].
  split; [apply Z.div_le_lower_bound|apply Z.div_lt_upper_bound]; lia.
Qed.

Lemma incr_step f :
  in_s32 f -> refcount f < BLOCK_REFCOUNT_MASK -> latching_incr_int f = (f + 1, f + 1).
Proof.
  intros Hf Hr. unfold latching_incr_int. unfold BLOCK_REFCOUNT_MASK in *. case_cmp; [lia|].
  rewrite s32_id; [done|]. apply s32_shift; [done|]. pose proof (refcount_range f). lia.
Qed.
Lemma decr_step f :
  in_s32 f -> 0 < refcount f < BLOCK_REFCOUNT_MASK -> latching_decr_int f = (f - 1, f - 1).
Proof.
  intros Hf Hr. unfold latching_decr_int. unfold BLOCK_REFCOUNT_MASK in *.
  do 2 (case_cmp; [lia|]).
  rewrite s32_id; [done|]. apply (s32_shift f (-1)); [done|]. lia.
Qed.

(** the latching counter moves by one inside the low 16 bits, leaves every flag
    bit alone, undoes itself, sticks for ever once it reaches 0xffff and never goes below 0. *)
Theorem latching_counter f :
  in_s32 f ->
  (refcount f < BLOCK_REFCOUNT_MASK ->
     refcount (latching_incr_int f).1 = refcount f + 1 /\
     (forall n, 16 <= n -> Z.testbit (latching_incr_int f).1 n = Z.testbit f n) /\
     (refcount f + 1 < BLOCK_REFCOUNT_MASK -> (latching_decr_int (latching_incr_int f).1).1 = f)) /\
  (refcount f = BLOCK_REFCOUNT_MASK ->
     latching_incr_int f = (f, BLOCK_REFCOUNT_MASK) /\ latching_decr_int f = (f, BLOCK_REFCOUNT_MASK)) /\
  (refcount f = 0 -> latching_decr_int f = (f, 0)).
Proof.
  intros Hf. pose proof (refcount_range f) as Hr. unfold BLOCK_REFCOUNT_MASK in *. split_and!.
  - intros Hlt. rewrite incr_step by done. simpl. split_and!.
    + apply refcount_shift. lia.
    + intros n Hn. apply testbit_shift; lia.
    + intros Hlt'. rewrite decr_step; [simpl; lia|apply s32_shift; lia|].
      rewrite refcount_shift; unfold BLOCK_REFCOUNT_MASK; lia.
  - intros Heq. unfold latching_incr_int, latching_decr_int. by rewrite Heq.
  - intros Heq. unfold latching_decr_int. by rewrite Heq.
Qed.

(** ** Counting references in memory *)

Definition obj_add (k : Z) (o : mem_obj) : mem_obj :=
  match o with
  | OBlock b => OBlock (set_flags (flags b + k) b)
  | OByref r => OByref (set_br_flags (br_flags r + k) r)
  end.
(** Adds [k] to the count of the object at [q]. *)
Definition addf (q k : Z) (m : gmap Z mem_obj) : gmap Z mem_obj := alter (obj_add k) q m.
Definition add_all (k : Z) (qs : list Z) (m : gmap Z mem_obj) : gmap Z mem_obj :=
  foldr (fun q m => addf q k m) m qs.

Lemma obj_add_add k k' o : obj_add k (obj_add k' o) = obj_add (k' + k) o.
Proof. destruct o as [[]|[]]; unfold obj_add, set_flags, set_br_flags; simpl; by rewrite Z.add_assoc. Qed.
Lemma obj_add_0 o : obj_add 0 o = o.
Proof. destruct o as [[]|[]]; unfold obj_add, set_flags, set_br_flags; simpl; by rewrite Z.add_0_r. Qed.

Lemma lookup_addf q k m i :
  addf q k m !! i = (if decide (q = i) then obj_add k else id) <$> (m !! i).
Proof.
  unfold addf. case_decide as Hq; [subst; by rewrite lookup_alter_eq|].
  rewrite lookup_alter_ne by done. by destruct (m !! i).
Qed.
Lemma addf_comm q k q' k' m : addf q k (addf q' k' m) = addf q' k' (addf q k m).
Proof.
  apply map_eq. intros i. rewrite !lookup_addf. destruct (m !! i); simpl; [|done].
  f_equal. repeat case_decide; simpl; try done. by rewrite !obj_add_add, (Z.add_comm k).
Qed.
Lemma addf_inv q k m : addf q (- k) (addf q k m) = m.
Proof.
  apply map_eq. intros i. unfold addf. destruct (decide (i = q)) as [->|].
  - rewrite !lookup_alter_eq. destruct (m !! q); simpl; [|done].
    by rewrite obj_add_add, Z.add_opp_diag_r, obj_add_0.
  - by rewrite !lookup_alter_ne.
Qed.
Lemma add_all_addf k qs q k' m : add_all k qs (addf q k' m) = addf q k' (add_all k qs m).
Proof. induction qs as [|x qs IH]; simpl; [done|]. by rewrite IH, addf_comm. Qed.

(** The references [qs] holds to [q]. *)
Fixpoint occ (q : Z) (qs : list Z) : Z :=
  match qs with [] => 0 | x :: qs => (if decide (x = q) then 1 else 0) + occ q qs end.
Lemma occ_nonneg q qs : 0 <= occ q qs.
Proof. induction qs; simpl; [lia|]. case_decide; lia. Qed.

Lemma lookup_add_all k qs m q :
  add_all k qs m !! q = obj_add (k * occ q qs) <$> (m !! q).
Proof.
  induction qs as [|x qs IH]; simpl.
  - rewrite Z.mul_0_r. destruct (m !! q); simpl; by rewrite ?obj_add_0.
  - unfold addf at 1. case_decide as Hx; [subst x; rewrite lookup_alter_eq|rewrite lookup_alter_ne by done];
      rewrite IH; destruct (m !! q); simpl; try done; rewrite ?obj_add_add; repeat f_equal; lia.
Qed.

(** ** Retaining and releasing a heap block *)

Lemma insert_addf m q o k : m !! q = Some o -> <[q:=obj_add k o]> m = addf q k m.
Proof.
  intros Hq. apply map_eq. intros i. rewrite lookup_addf. case_decide as Hi.
  - subst i. by rewrite lookup_insert_eq, Hq.
  - rewrite lookup_insert_ne by done. by destruct (m !! i).
Qed.

Lemma set_mem_id s : set_mem (rt_mem s) s = s.
Proof. by destruct s. Qed.
Lemma set_mem_mem m m' s : set_mem m (set_mem m' s) = set_mem m s.
Proof. done. Qed.
Lemma mem_set_mem m s : rt_mem (set_mem m s) = m.
Proof. done. Qed.
Create Rewrite HintDb rt.
#[export] Hint Rewrite set_mem_id set_mem_mem mem_set_mem : rt.

(** A block on the heap, owned by its reference count. *)
Record heap_block (b : Block_layout) : Prop := {
  hb_range : in_s32 (flags b);
  hb_free : has (flags b) BLOCK_NEEDS_FREE = true;
  hb_gc : has (flags b) BLOCK_IS_GC = false
}.

Lemma heap_block_shift b k :
  heap_block b -> 0 <= refcount (flags b) + k < 65536 -> heap_block (set_flags (flags b + k) b).
Proof.
  unfold BLOCK_NEEDS_FREE, BLOCK_IS_GC. intros [Hr Hf Hg] Hk. split; simpl.
  - by apply s32_shift.
  - unfold BLOCK_NEEDS_FREE in *. rewrite has_testbit in * by done. by rewrite testbit_shift.
  - unfold BLOCK_IS_GC in *. rewrite has_testbit in * by done. by rewrite testbit_shift.
Qed.

Lemma latch_incr s q b :
  rt_mem s !! q = Some (OBlock b) -> heap_block b -> refcount (flags b) < BLOCK_REFCOUNT_MASK ->
  latch_block latching_incr_int q s = Ret (flags b + 1) (set_mem (addf q 1 (rt_mem s)) s).
Proof.
  intros Hq [Hr _ _] Hc. unfold latch_block, load_block, mbind, M_bind. rewrite Hq.
  rewrite incr_step by done. unfold store, modify. simpl.
  by rewrite <- (insert_addf _ q (OBlock b) 1).
Qed.
Lemma latch_decr s q b :
  rt_mem s !! q = Some (OBlock b) -> heap_block b -> 0 < refcount (flags b) < BLOCK_REFCOUNT_MASK ->
  latch_block latching_decr_int q s = Ret (flags b + -1) (set_mem (addf q (-1) (rt_mem s)) s).
Proof.
  intros Hq [Hr _ _] Hc. unfold latch_block, load_block, mbind, M_bind. rewrite Hq.
  rewrite decr_step by done. unfold store, modify. simpl.
  by rewrite <- (insert_addf _ q (OBlock b) (-1)).
Qed.

Section heap_blocks.
Context (garbage : Z) (fuel : nat).

(** _Block_copy_internal of a heap block takes a reference. *)
Lemma blk_retain_run s q b fl :
  rt_mem s !! q = Some (OBlock b) -> q <> 0 -> heap_block b ->
  refcount (flags b) < BLOCK_REFCOUNT_MASK ->
  run garbage (S fuel) (CCopyInternal q fl) s = Ret q (set_mem (addf q 1 (rt_mem s)) s).
Proof.
  intros Hq H0 Hb Hc. simpl. unfold _Block_copy_internal. case_cmp; [done|].
  unfold mbind at 1, M_bind at 1, load_block. rewrite Hq, (hb_free _ Hb).
  unfold mbind, M_bind. by rewrite (latch_incr s q b).
Qed.

(** _Block_release of a heap block with other references drops one. *)
Lemma blk_release_run s q b :
  rt_mem s !! q = Some (OBlock b) -> q <> 0 -> heap_block b ->
  1 < refcount (flags b) < BLOCK_REFCOUNT_MASK ->
  run garbage (S fuel) (CRelease q) s = Ret 0 (set_mem (addf q (-1) (rt_mem s)) s).
Proof.
  intros Hq H0 Hb Hc. simpl. unfold _Block_release. case_cmp; [done|].
  unfold mbind at 1, M_bind at 1. rewrite (latch_decr s q b); [|done..|lia].
  unfold BLOCK_REFCOUNT_MASK in *.
  rewrite (refcount_shift (flags b) (-1)) by lia.
  rewrite (proj2 (Z.gtb_lt _ _)) by lia. done.
Qed.

(** The last reference: the captured variables are disposed of and the block is freed. *)
Lemma blk_release_last s q b :
  rt_mem s !! q = Some (OBlock b) -> q <> 0 -> heap_block b -> refcount (flags b) = 1 ->
  run garbage (S fuel) (CRelease q) s =
    ((if has (flags b) BLOCK_HAS_COPY_DISPOSE
      then destroy_slots (run garbage fuel) (desc_helper (descriptor b)) (vars b) else mret tt);;
     _Block_deallocator q;; mret 0) (set_mem (addf q (-1) (rt_mem s)) s).
Proof.
  intros Hq H0 Hb Hc. simpl. unfold _Block_release. case_cmp; [done|].
  unfold mbind at 1, M_bind at 1. rewrite (latch_decr s q b); [|done..|unfold BLOCK_REFCOUNT_MASK; lia].
  rewrite (refcount_shift (flags b) (-1)) by lia. rewrite Hc. simpl.
  pose proof (heap_block_shift b (-1) Hb ltac:(lia)) as [_ Hf Hg]. simpl in Hf, Hg.
  unfold mbind at 1, M_bind at 1, load_block. rewrite mem_set_mem, lookup_addf, Hq.
  rewrite decide_True by done. simpl. rewrite Hf, Hg.
  assert (has (flags b + -1) BLOCK_HAS_COPY_DISPOSE = has (flags b) BLOCK_HAS_COPY_DISPOSE) as ->.
  { unfold BLOCK_HAS_COPY_DISPOSE. rewrite !has_testbit by done. apply testbit_shift; lia. }
  done.
Qed.

End heap_blocks.

(** Block_copy of a heap block returns the same pointer with one more reference and
    Block_release gives it back, the memory being exactly as before; once the count has latched at
    0xffff no release ever frees the block. *)
Theorem block_copy_release garbage fuel s q b :
  rt_mem s !! q = Some (OBlock b) -> q <> 0 -> heap_block b -> 0 < refcount (flags b) ->
  (refcount (flags b) + 1 < BLOCK_REFCOUNT_MASK ->
     exists s1, _Block_copy garbage (S fuel) q s = Ret q s1 /\
       (exists b1, rt_mem s1 !! q = Some (OBlock b1) /\
          refcount (flags b1) = refcount (flags b) + 1) /\
       Block_release garbage (S fuel) q s1 = Ret 0 s) /\
  (refcount (flags b) = BLOCK_REFCOUNT_MASK -> Block_release garbage (S fuel) q s = Ret 0 s).
Proof.
  intros Hq H0 Hb Hpos. unfold BLOCK_REFCOUNT_MASK in *. split.
  - intros Hc. exists (set_mem (addf q 1 (rt_mem s)) s). unfold _Block_copy, Block_release.
    assert (rt_mem (set_mem (addf q 1 (rt_mem s)) s) !! q = Some (OBlock (set_flags (flags b + 1) b)))
      as Hq1 by (rewrite mem_set_mem, lookup_addf, Hq, decide_True by done; done).
    assert (refcount (flags b + 1) = refcount (flags b) + 1) as Hr by (apply refcount_shift; lia).
    split_and!.
    + apply (blk_retain_run _ _ s q b); unfold BLOCK_REFCOUNT_MASK; [done..|lia].
    + eexists. split; [exact Hq1|]. done.
    + rewrite (blk_release_run _ _ _ q _ Hq1 H0).
      * rewrite set_mem_mem, mem_set_mem, (addf_inv q 1). by rewrite set_mem_id.
      * apply heap_block_shift; [done|lia].
      * unfold BLOCK_REFCOUNT_MASK. simpl. lia.
  - intros Hc. unfold Block_release. simpl. unfold _Block_release. case_cmp; [done|].
    unfold latch_block, mbind, M_bind, load_block. rewrite Hq.
    unfold latching_decr_int. rewrite Hc. simpl. unfold store, modify.
    destruct s, b; simpl in *. by rewrite insert_id.
Qed.

(** ** Closures that capture blocks *)

(** Each helper entry handles a captured block: slot [i] of [vs] holds the [q] of the list. *)
Definition captures (helper : list (nat * Z)) (vs qs : list Z) : Prop :=
  Forall2 (fun ik q => ik.2 = BLOCK_FIELD_IS_BLOCK /\ vs !! ik.1 = Some q) helper qs.

(** Heap blocks with room for [lo] to [hi] more references than [qs] holds. *)
Definition refs_ok (m : gmap Z mem_obj) (qs : list Z) (P : Z -> Z -> Prop) : Prop :=
  forall q, q ∈ qs -> q <> 0 /\ exists b, m !! q = Some (OBlock b) /\ heap_block b /\
    P (refcount (flags b)) (occ q qs).

Lemma occ_cons_pos q qs : q ∈ qs -> 1 <= occ q qs.
Proof.
  induction qs as [|x qs IH]; [set_solver|]. intros Hq. simpl. pose proof (occ_nonneg q qs).
  case_decide; [lia|]. apply IH. set_solver.
Qed.

(** One reference moves from the list to the memory, or back. *)
Lemma refs_ok_step m q qs k (P : Z -> Z -> Prop) :
  refs_ok m (q :: qs) P -> (forall c o, P c (1 + o) -> 0 <= c < 65536 -> 0 <= o -> P (c + k) o) ->
  (forall c o, P c o -> 1 <= o -> 0 <= c < 65536 -> 0 <= c + k < 65536) ->
  refs_ok (addf q k m) qs P.
Proof.
  intros Hok HP Hr q' Hq'. destruct (Hok q') as (Hne & b & Hb & Hheap & Hp); [set_solver|].
  split; [done|]. rewrite lookup_addf, Hb. simpl in Hp.
  pose proof (refcount_range (flags b)). pose proof (occ_cons_pos q' qs Hq').
  case_decide as Hqq; simpl.
  - assert (0 <= refcount (flags b) + k < 65536) by (eapply Hr; [done|lia|lia]).
    eexists. split; [done|]. split; [by apply heap_block_shift|]. simpl.
    rewrite refcount_shift by lia. apply HP; [done|lia|lia].
  - exists b. by rewrite Z.add_0_l in Hp.
Qed.

Section closures.
Context (garbage : Z) (fuel : nat).

Lemma assign_block_run s r i q b c :
  rt_mem s !! q = Some (OBlock b) -> q <> 0 -> heap_block b ->
  refcount (flags b) < BLOCK_REFCOUNT_MASK ->
  rt_mem s !! r = Some (OBlock c) -> vars c !! i = Some q -> r <> q ->
  run garbage (S (S fuel)) (CObjectAssign (r, i) q BLOCK_FIELD_IS_BLOCK) s =
    Ret 0 (set_mem (addf q 1 (rt_mem s)) s).
Proof.
  intros Hq H0 Hb Hc Hr Hi Hne. change (run garbage (S (S fuel)) ?c) with
    (rt_body (run garbage (S fuel)) garbage c). cbn [rt_body].
  change (_Block_object_assign (run garbage (S fuel)) (r, i) q BLOCK_FIELD_IS_BLOCK) with
    (p ← run garbage (S fuel) (CCopyInternal q BLOCK_FIELD_IS_BLOCK);
     _Block_assign p (r, i);; mret (M := R) 0).
  rewrite (bind_step _ _ s q _ (blk_retain_run garbage fuel s q b _ Hq H0 Hb Hc)).
  unfold mbind, M_bind, _Block_assign. rewrite mem_set_mem. cbn [fst snd].
  rewrite lookup_addf, decide_False, Hr by done. simpl. unfold set_mem; simpl. f_equal.
  rewrite list_insert_id by done. f_equal. apply insert_id.
  rewrite lookup_addf, decide_False, Hr by done. by destruct c.
Qed.

Lemma keep_run helper vs qs : forall s r c,
  captures helper vs qs -> rt_mem s !! r = Some (OBlock c) -> vars c = vs -> r ∉ qs ->
  refs_ok (rt_mem s) qs (fun cnt o => cnt + o < BLOCK_REFCOUNT_MASK) ->
  keep_slots (run garbage (S (S fuel))) helper r vs s =
    Ret tt (set_mem (add_all 1 qs (rt_mem s)) s).
Proof.
  revert qs. induction helper as [|[i k] helper IH]; intros qs s r c Hcap Hr Hvs Hnr Hok;
    inversion Hcap as [|? q ? qs' [Hk Hi] Hcap']; subst; simpl in *.
  - by rewrite set_mem_id.
  - rewrite Hi. destruct (Hok q) as (H0 & b & Hb & Hheap & Hc); [set_solver|].
    simpl in Hc. rewrite decide_True in Hc by done. pose proof (occ_nonneg q qs').
    subst k. rewrite (bind_step _ _ s 0 _ (assign_block_run s r i q b c Hb H0 Hheap
      ltac:(lia) Hr Hi ltac:(set_solver))).
    rewrite (IH qs' _ r c); rewrite ?mem_set_mem, ?set_mem_mem, ?add_all_addf; try done.
    + rewrite lookup_addf, decide_False, Hr by set_solver. done.
    + set_solver.
    + eapply refs_ok_step; [done| |]; unfold BLOCK_REFCOUNT_MASK; lia.
Qed.

Lemma dispose_block_run s q b :
  rt_mem s !! q = Some (OBlock b) -> q <> 0 -> heap_block b ->
  1 < refcount (flags b) < BLOCK_REFCOUNT_MASK ->
  run garbage (S (S (S fuel))) (CObjectDispose q BLOCK_FIELD_IS_BLOCK) s =
    Ret 0 (set_mem (addf q (-1) (rt_mem s)) s).
Proof.
  intros Hq H0 Hb Hc. rewrite <- (blk_release_run garbage fuel s q b Hq H0 Hb Hc).
  change (_Block_destroy (run garbage (S fuel)) q s = run garbage (S fuel) (CRelease q) s).
  unfold _Block_destroy. case_cmp; [done|]. unfold mbind, M_bind, load_block.
  by rewrite Hq, (hb_gc _ Hb).
Qed.

Lemma destroy_run helper vs qs : forall s,
  captures helper vs qs ->
  refs_ok (rt_mem s) qs (fun cnt o => o < cnt < BLOCK_REFCOUNT_MASK) ->
  destroy_slots (run garbage (S (S (S fuel)))) helper vs s =
    Ret tt (set_mem (add_all (-1) qs (rt_mem s)) s).
Proof.
  revert qs. induction helper as [|[i k] helper IH]; intros qs s Hcap Hok;
    inversion Hcap as [|? q ? qs' [Hk Hi] Hcap']; subst; simpl in *.
  - by rewrite set_mem_id.
  - rewrite Hi. destruct (Hok q) as (H0 & b & Hb & Hheap & Hc); [set_solver|].
    simpl in Hc. rewrite decide_True in Hc by done. pose proof (occ_nonneg q qs').
    subst k. rewrite (bind_step _ _ s 0 _ (dispose_block_run s q b Hb H0 Hheap ltac:(lia))).
    rewrite (IH qs'); rewrite ?mem_set_mem, ?set_mem_mem, ?add_all_addf; try done.
    eapply refs_ok_step; [done| |]; unfold BLOCK_REFCOUNT_MASK; lia.
Qed.

End closures.

(** The flags of the heap copy of a stack block. *)
Definition copy_flags (f : Z) : Z :=
  Z.lor (Z.land f (Z.lnot BLOCK_REFCOUNT_MASK)) (Z.lor BLOCK_NEEDS_FREE 1).

Lemma copy_flags_refcount f : refcount (copy_flags f) = 1.
Proof.
  unfold refcount, copy_flags. rewrite Z.land_lor_distr_l, <- Z.land_assoc.
  rewrite (Z.land_comm (Z.lnot _)), Z.land_lnot_diag, Z.land_0_r. reflexivity.
Qed.
Lemma copy_flags_bit f n :
  16 <= n -> Z.testbit (copy_flags f) n = Z.testbit f n || (n =? 24).
Proof.
  intros Hn. unfold copy_flags. rewrite !Z.lor_spec, Z.land_spec, Z.lnot_spec by lia.
  change BLOCK_REFCOUNT_MASK with (Z.ones 16). rewrite Z.ones_spec_high by lia.
  unfold BLOCK_NEEDS_FREE. rewrite Z.shiftl_1_l, Z.pow2_bits_eqb by done.
  change 1 with (2 ^ 0). rewrite (Z.pow2_bits_false 0 n) by lia.
  by rewrite andb_true_r, orb_false_r, (Z.eqb_sym 24).
Qed.
Lemma copy_flags_range f : 0 <= f < 2 ^ 31 -> 0 <= copy_flags f < 2 ^ 31.
Proof.
  intros Hf. unfold copy_flags. apply lor_range; [done|by apply land_range|vm_compute; split; done].
Qed.

Lemma copy_flags_has f k :
  16 <= k -> has (copy_flags f) (Z.shiftl 1 k) = has f (Z.shiftl 1 k) || (k =? 24).
Proof. intros. rewrite !has_testbit by lia. by apply copy_flags_bit. Qed.

(** A closure on the stack with a copy and dispose helper. *)
Record stack_closure (b : Block_layout) : Prop := {
  sc_range : 0 <= flags b < 2 ^ 31;
  sc_free : has (flags b) BLOCK_NEEDS_FREE = false;
  sc_gc : has (flags b) BLOCK_IS_GC = false;
  sc_global : has (flags b) BLOCK_IS_GLOBAL = false;
  sc_helper : has (flags b) BLOCK_HAS_COPY_DISPOSE = true
}.

Definition heap_copy (b : Block_layout) : Block_layout :=
  BlockLayout _NSConcreteMallocBlock (copy_flags (flags b)) (descriptor b) (vars b).

Lemma heap_copy_ok b :
  stack_closure b -> heap_block (heap_copy b) /\ refcount (flags (heap_copy b)) = 1 /\
    has (flags (heap_copy b)) BLOCK_HAS_COPY_DISPOSE = true.
Proof.
  intros [Hr Hf Hg _ Hh]. unfold BLOCK_NEEDS_FREE, BLOCK_IS_GC, BLOCK_HAS_COPY_DISPOSE in *.
  split_and!; [split; simpl| |]; rewrite ?copy_flags_has by done.
  - pose proof (copy_flags_range _ Hr). lia.
  - unfold BLOCK_NEEDS_FREE. rewrite copy_flags_has by done. apply orb_true_r.
  - unfold BLOCK_IS_GC. rewrite copy_flags_has, Hg by done. done.
  - apply copy_flags_refcount.
  - simpl. rewrite copy_flags_has, Hh by done. done.
Qed.

(** What the copy of a closure that captures the blocks [qs] does to the memory. *)
Definition copied (m : gmap Z mem_obj) (r : Z) (b : Block_layout) (qs : list Z) :=
  add_all 1 qs (<[r:=OBlock (heap_copy b)]> m).

Lemma lookup_copied_other m r b qs q :
  r <> q -> copied m r b qs !! q = obj_add (occ q qs) <$> (m !! q).
Proof. intros. unfold copied. rewrite lookup_add_all, lookup_insert_ne, Z.mul_1_l; done. Qed.
Lemma occ_notin q qs : q ∉ qs -> occ q qs = 0.
Proof.
  induction qs as [|x qs IH]; [done|]. intros Hq. simpl. rewrite decide_False by set_solver.
  rewrite IH; [done|set_solver].
Qed.
Lemma lookup_copied_self m r b qs :
  r ∉ qs -> copied m r b qs !! r = Some (OBlock (heap_copy b)).
Proof.
  intros. unfold copied. rewrite lookup_add_all, lookup_insert_eq, occ_notin by done.
  simpl. by rewrite Z.add_0_r.
Qed.

(** Dropping the references again and freeing the copy. *)
Lemma uncopied m r b qs :
  m !! r = None -> r ∉ qs ->
  delete r (add_all (-1) qs (addf r (-1) (copied m r b qs))) = m.
Proof.
  intros Hr Hnr. apply map_eq. intros i. destruct (decide (r = i)) as [<-|Hne].
  - by rewrite lookup_delete_eq.
  - rewrite lookup_delete_ne, lookup_add_all, lookup_addf, decide_False by done.
    rewrite lookup_copied_other by done. destruct (m !! i) as [o|]; [|done].
    cbn [fmap option_fmap option_map id]. rewrite obj_add_add.
    replace (occ i qs + -1 * occ i qs) with 0 by lia. by rewrite obj_add_0.
Qed.

Lemma copy_run garbage fuel s a b r l qs :
  rt_mem s !! a = Some (OBlock b) -> a <> 0 -> stack_closure b ->
  rt_malloc s = r :: l -> r <> 0 -> rt_mem s !! r = None -> r ∉ qs ->
  captures (desc_helper (descriptor b)) (vars b) qs ->
  refs_ok (rt_mem s) qs (fun cnt o => 1 <= cnt /\ cnt + o < BLOCK_REFCOUNT_MASK) ->
  _Block_copy garbage (S (S (S fuel))) a s =
    Ret r (RtState (copied (rt_mem s) r b qs) l (rt_freed s) (rt_rr s) (rt_events s) (rt_out s)).
Proof.
  intros Ha H0 Hb Hm Hr0 Hr Hnr Hcap Hok. destruct (heap_copy_ok b Hb) as (_ & _ & Hcd).
  unfold _Block_copy. change (_Block_copy_internal (run garbage (S (S fuel))) a WANTS_ONE s = 
    Ret r (RtState (copied (rt_mem s) r b qs) l (rt_freed s) (rt_rr s) (rt_events s) (rt_out s))).
  unfold _Block_copy_internal. case_cmp; [done|].
  unfold mbind at 1, M_bind at 1, load_block. rewrite Ha.
  rewrite (sc_free _ Hb), (sc_gc _ Hb), (sc_global _ Hb).
  unfold mbind at 1, M_bind at 1, malloc. rewrite Hm. case_cmp; [done|].
  unfold mbind at 1, M_bind at 1, store, modify.
  change (Z.lor (Z.land (flags b) (Z.lnot BLOCK_REFCOUNT_MASK)) (Z.lor BLOCK_NEEDS_FREE 1))
    with (flags (heap_copy b)). rewrite Hcd.
  unfold mbind, M_bind. rewrite (keep_run garbage fuel _ _ qs _ r (heap_copy b)); try done.
  - simpl. by rewrite lookup_insert_eq.
  - intros q Hq. destruct (Hok q Hq) as (Hq0 & b' & Hb' & Hh & ? & ?). split; [done|].
    exists b'. simpl. rewrite lookup_insert_ne by (intros ->; done). done.
Qed.

(** C27: copying a closure from the stack whose helper captures the blocks [qs] makes one heap
    block with count 1 and takes one reference for every captured slot; releasing that copy gives all
    of them back and frees the copy, and only the copy: the memory is exactly what it was. *)
Theorem closure_copy_release garbage fuel s a b r l qs :
  rt_mem s !! a = Some (OBlock b) -> a <> 0 -> stack_closure b ->
  rt_malloc s = r :: l -> r <> 0 -> rt_mem s !! r = None ->
  captures (desc_helper (descriptor b)) (vars b) qs ->
  refs_ok (rt_mem s) qs (fun cnt o => 1 <= cnt /\ cnt + o < BLOCK_REFCOUNT_MASK) ->
  exists s1, _Block_copy garbage (S (S (S fuel))) a s = Ret r s1 /\
    (exists c, rt_mem s1 !! r = Some (OBlock c) /\ refcount (flags c) = 1 /\ vars c = vars b) /\
    (forall q cb, q ∈ qs -> rt_mem s !! q = Some (OBlock cb) -> exists cb',
       rt_mem s1 !! q = Some (OBlock cb') /\
       refcount (flags cb') = refcount (flags cb) + occ q qs) /\
    Block_release garbage (S (S (S (S fuel)))) r s1 =
      Ret 0 (RtState (rt_mem s) l (rt_freed s ++ [r]) (rt_rr s) (rt_events s) (rt_out s)).
Proof.
  intros Ha H0 Hb Hm Hr0 Hr Hcap Hok. destruct (heap_copy_ok b Hb) as (Hhb & Hrc & Hcd).
  assert (r ∉ qs) as Hnr by (intros Hin; destruct (Hok r Hin) as (_ & ? & ? & _); congruence).
  assert (forall q cb, q ∈ qs -> rt_mem s !! q = Some (OBlock cb) ->
    copied (rt_mem s) r b qs !! q = Some (OBlock (set_flags (flags cb + occ q qs) cb)) /\
    refcount (flags cb + occ q qs) = refcount (flags cb) + occ q qs) as Hcopied.
  { intros q cb Hq Hcb. destruct (Hok q Hq) as (_ & cb' & Hcb' & _ & Hc1 & Hc2).
    assert (cb' = cb) as -> by congruence. pose proof (occ_nonneg q qs).
    unfold BLOCK_REFCOUNT_MASK in *. rewrite refcount_shift by lia.
    rewrite lookup_copied_other, Hcb by (intros ->; done). done. }
  eexists. split; [by eapply copy_run|]. simpl. split_and!.
  - exists (heap_copy b). by rewrite lookup_copied_self.
  - intros q cb Hq Hcb. destruct (Hcopied q cb Hq Hcb). eauto.
  - unfold Block_release. rewrite (blk_release_last garbage _ _ r (heap_copy b)); simpl;
      [|by rewrite lookup_copied_self|done..].
    simpl in Hcd. rewrite Hcd.
    erewrite bind_step by (apply (destroy_run garbage fuel _ _ qs); [exact Hcap|]; shelve).
    Unshelve.
    + unfold mbind, M_bind, _Block_deallocator, modify. simpl.
      by rewrite uncopied.
    + simpl. intros q Hq. destruct (Hok q Hq) as (Hq0 & cb & Hcb & Hh & Hc1 & Hc2).
      destruct (Hcopied q cb Hq Hcb) as [Hl Hrc']. split; [done|].
      pose proof (occ_nonneg q qs). unfold BLOCK_REFCOUNT_MASK in *.
      rewrite lookup_addf, decide_False, Hl by (intros ->; done). eexists. split; [done|].
      split; [apply heap_block_shift; [done|lia]|]. simpl. lia.
Qed.

(** ** The life of a __block variable *)

(** The __block structure of the stack frame at [a] has been moved to [p], which has [k]
    references and holds [vs]. *)
Record byref_at (m : gmap Z mem_obj) (a p k : Z) (vs : list Z) : Prop := {
  ba_stack : exists ra, m !! a = Some (OByref ra) /\ forwarding ra = p;
  ba_heap : exists rp, m !! p = Some (OByref rp) /\ forwarding rp = p /\ in_s32 (br_flags rp) /\
    has (br_flags rp) BLOCK_NEEDS_FREE = true /\ has (br_flags rp) BLOCK_IS_GC = false /\
    has (br_flags rp) BLOCK_HAS_COPY_DISPOSE = false /\ refcount (br_flags rp) = k /\
    br_vars rp = vs
}.

(** The variable is captured by the copy of one more closure, or one holder lets go of it. *)
Inductive byref_op := BCopy (dest : Z * nat) | BRelease.

Fixpoint exec_byref (garbage : Z) (fuel : nat) (a : Z) (ops : list byref_op) : R unit :=
  match ops with
  | [] => mret tt
  | BCopy dest :: ops =>
      run garbage (S fuel) (CByrefAssignCopy dest a BLOCK_FIELD_IS_BYREF);;
      exec_byref garbage fuel a ops
  | BRelease :: ops =>
      run garbage (S fuel) (CByrefRelease a);; exec_byref garbage fuel a ops
  end.

(** The references left, when no operation follows the last release. *)
Fixpoint refs_left (k : Z) (ops : list byref_op) : option Z :=
  match ops with
  | [] => Some k
  | BCopy _ :: ops => if k + 1 <? BLOCK_REFCOUNT_MASK then refs_left (k + 1) ops else None
  | BRelease :: ops =>
      if k =? 1 then match ops with [] => Some 0 | _ => None end else refs_left (k - 1) ops
  end.

Lemma has_shift f k n :
  0 <= refcount f + k < 65536 -> 16 <= n -> has (f + k) (Z.shiftl 1 n) = has f (Z.shiftl 1 n).
Proof. intros. rewrite !has_testbit by lia. apply testbit_shift; lia. Qed.

Lemma byref_at_shift m a p k vs d :
  byref_at m a p k vs -> 0 <= k + d < 65536 -> byref_at (addf p d m) a p (k + d) vs.
Proof.
  intros [(ra & Ha & Hf) (rp & Hp & Hfp & Hr & Hnf & Hgc & Hcd & Hk & Hv)] Hd. split.
  - rewrite lookup_addf, Ha. case_decide; simpl; eauto.
  - rewrite lookup_addf, Hp, decide_True by done. simpl. eexists. split; [done|]. simpl.
    unfold BLOCK_NEEDS_FREE, BLOCK_IS_GC, BLOCK_HAS_COPY_DISPOSE in *.
    rewrite !has_shift by lia. rewrite refcount_shift by lia.
    split_and!; try done; try congruence; apply (s32_shift (br_flags rp) d); (done || lia).
Qed.

Lemma byref_at_other m a p k vs d o :
  byref_at m a p k vs -> d <> a -> d <> p -> byref_at (<[d:=o]> m) a p k vs.
Proof. intros [Ha Hp] Hda Hdp. split; by rewrite lookup_insert_ne. Qed.

Lemma byref_not_block m a p k vs d b :
  byref_at m a p k vs -> m !! d = Some (OBlock b) -> d <> a /\ d <> p.
Proof. intros [(ra & Ha & _) (rp & Hp & _)] Hd. split; intros ->; congruence. Qed.

Lemma latch_byref_incr s q r :
  rt_mem s !! q = Some (OByref r) -> in_s32 (br_flags r) ->
  refcount (br_flags r) < BLOCK_REFCOUNT_MASK ->
  latch_byref latching_incr_int q s = Ret (br_flags r + 1) (set_mem (addf q 1 (rt_mem s)) s).
Proof.
  intros Hq Hr Hc. unfold latch_byref, load_byref, mbind, M_bind. rewrite Hq.
  rewrite incr_step by done. unfold store, modify. simpl.
  by rewrite <- (insert_addf _ q (OByref r) 1).
Qed.
Lemma latch_byref_decr s q r :
  rt_mem s !! q = Some (OByref r) -> in_s32 (br_flags r) ->
  0 < refcount (br_flags r) < BLOCK_REFCOUNT_MASK ->
  latch_byref latching_decr_int q s = Ret (br_flags r + -1) (set_mem (addf q (-1) (rt_mem s)) s).
Proof.
  intros Hq Hr Hc. unfold latch_byref, load_byref, mbind, M_bind. rewrite Hq.
  rewrite decr_step by done. unfold store, modify. simpl.
  by rewrite <- (insert_addf _ q (OByref r) (-1)).
Qed.

Lemma byref_copy_run garbage fuel s a p k vs d i b :
  byref_at (rt_mem s) a p k vs -> 0 < k -> k + 1 < BLOCK_REFCOUNT_MASK ->
  rt_mem s !! d = Some (OBlock b) ->
  exists b', run garbage (S fuel) (CByrefAssignCopy (d, i) a BLOCK_FIELD_IS_BYREF) s =
    Ret 0 (set_mem (<[d:=OBlock b']> (addf p 1 (rt_mem s))) s).
Proof.
  intros Hat Hk Hk1 Hd. destruct (byref_not_block _ _ _ _ _ _ _ Hat Hd) as [Hda Hdp].
  destruct Hat as [(ra & Ha & Hf) (rp & Hp & Hfp & Hr & Hnf & Hgc & Hcd & Hrc & Hv)].
  simpl. unfold _Block_byref_assign_copy, mbind, M_bind.
  unfold load_byref at 1. rewrite Ha, Hf. unfold load_byref at 1. rewrite Hp, Hgc, Hrc.
  case_cmp; [lia|].
  assert (Z.land (br_flags rp) BLOCK_NEEDS_FREE = BLOCK_NEEDS_FREE) as Hand.
  { unfold BLOCK_NEEDS_FREE in *. rewrite has_testbit in Hnf by done.
    rewrite Z.shiftl_1_l. apply Z.bits_inj. intros j. rewrite Z.land_spec.
    destruct (decide (j = 24)) as [->|]; [by rewrite Hnf|].
    by rewrite Z.pow2_bits_false, andb_false_r by lia. }
  rewrite Hand, Z.eqb_refl, (latch_byref_incr s p rp) by (done || lia). simpl.
  unfold load_byref. simpl.
  rewrite lookup_addf, Ha. assert (forwarding (if decide (p = a) then
    set_br_flags (br_flags ra + 1) ra else ra) = p) as Hfa by (by case_decide).
  case_decide; simpl; unfold _Block_assign; simpl; rewrite lookup_addf, Hd, decide_False by done;
    simpl; eexists; unfold set_mem; simpl; by rewrite ?Hf.
Qed.

Lemma byref_release_run garbage fuel s a p k vs :
  byref_at (rt_mem s) a p k vs -> 0 < k < BLOCK_REFCOUNT_MASK ->
  run garbage (S fuel) (CByrefRelease a) s =
    if k =? 1
    then Ret 0 (RtState (delete p (addf p (-1) (rt_mem s))) (rt_malloc s) (rt_freed s ++ [p]) (rt_rr s)
                 (rt_events s) (rt_out s))
    else Ret 0 (set_mem (addf p (-1) (rt_mem s)) s).
Proof.
  intros [(ra & Ha & Hf) (rp & Hp & Hfp & Hr & Hnf & Hgc & Hcd & Hrc & Hv)] Hk.
  simpl. unfold _Block_byref_release, mbind, M_bind.
  unfold load_byref at 1. rewrite Ha, Hf. unfold load_byref at 1. rewrite Hp.
  unfold has in Hnf. destruct (Z.eqb_spec (Z.land (br_flags rp) BLOCK_NEEDS_FREE) 0); [done|].
  rewrite Hrc. rewrite (proj2 (Z.leb_gt k 0)) by lia.
  rewrite (latch_byref_decr s p rp) by (done || lia).
  unfold BLOCK_REFCOUNT_MASK in *. rewrite (refcount_shift (br_flags rp) (-1)), Hrc by lia.
  case_cmp; case_cmp; try lia; [|done].
  unfold load_byref, set_mem. simpl. rewrite lookup_addf, Hp, decide_True by done. simpl.
  unfold BLOCK_HAS_COPY_DISPOSE in *. rewrite has_shift, Hcd by lia. done.
Qed.

(** A __block structure that is still on the stack and has no helpers. *)
Record stack_byref (a : Z) (r : Block_byref) : Prop := {
  sb_fwd : forwarding r = a;
  sb_range : 0 <= br_flags r < 2 ^ 31;
  sb_rc : refcount (br_flags r) = 0;
  sb_gc : has (br_flags r) BLOCK_IS_GC = false;
  sb_helper : has (br_flags r) BLOCK_HAS_COPY_DISPOSE = false
}.

Lemma byref_flags_has f k :
  16 <= k -> has (Z.lor f _Byref_flag_initial_value) (Z.shiftl 1 k) =
    has f (Z.shiftl 1 k) || (k =? 24).
Proof.
  intros Hk. rewrite !has_testbit, Z.lor_spec by lia. f_equal.
  unfold _Byref_flag_initial_value, BLOCK_NEEDS_FREE.
  rewrite Z.lor_spec, Z.shiftl_1_l, Z.pow2_bits_eqb by done.
  assert (Z.testbit 2 k = false) as -> by (apply (Z.pow2_bits_false 1); lia).
  by rewrite orb_false_r, Z.eqb_sym.
Qed.

(** The first closure that is copied moves the variable to the heap: one reference for the
    closure, one for the stack frame. *)
Lemma byref_first_copy garbage fuel s a r p l d i b :
  rt_mem s !! a = Some (OByref r) -> stack_byref a r -> rt_malloc s = p :: l -> p <> 0 ->
  rt_mem s !! p = None -> rt_mem s !! d = Some (OBlock b) ->
  exists s1, run garbage (S fuel) (CByrefAssignCopy (d, i) a BLOCK_FIELD_IS_BYREF) s = Ret 0 s1 /\
    byref_at (rt_mem s1) a p 2 (br_vars r) /\ rt_freed s1 = rt_freed s /\
    (forall x y, rt_mem s !! x = Some (OBlock y) -> exists y', rt_mem s1 !! x = Some (OBlock y')).
Proof.
  intros Ha [Hf Hr Hrc Hgc Hcd] Hm Hp0 Hp Hd.
  assert (a <> p /\ d <> a /\ d <> p) as (Hap & Hda & Hdp) by (split_and!; intros ->; congruence).
  simpl. unfold _Block_byref_assign_copy, mbind, M_bind.
  unfold load_byref at 1. rewrite Ha, Hf. unfold load_byref at 1. rewrite Ha, Hgc, Hrc. simpl.
  unfold malloc. rewrite Hm. case_cmp; [done|]. rewrite Hcd. unfold store, modify, load_byref. simpl.
  rewrite lookup_insert_eq. simpl. unfold _Block_assign. simpl.
  rewrite !lookup_insert_ne, Hd by done. simpl. eexists. split; [done|].
  unfold set_mem. simpl. split_and!; [|done|].
  - split.
    + rewrite lookup_insert_ne, lookup_insert_eq by done. eauto.
    + rewrite !lookup_insert_ne, lookup_insert_eq by done. eexists. split; [done|]. simpl.
      unfold BLOCK_NEEDS_FREE, BLOCK_IS_GC, BLOCK_HAS_COPY_DISPOSE in *.
      rewrite !byref_flags_has, Hgc, Hcd by done. split_and!; try done.
      * assert (0 <= Z.lor (br_flags r) _Byref_flag_initial_value < 2 ^ 31); [|lia].
        apply lor_range; [done|done|vm_compute; split; done].
      * apply (lor_range _ _ 31); [done|done|vm_compute; split; done].
      * apply orb_true_r.
      * unfold refcount in *. by rewrite Z.land_lor_distr_l, Hrc.
  - intros x y Hx. destruct (decide (d = x)) as [->|]; [rewrite lookup_insert_eq; eauto|].
    rewrite !lookup_insert_ne by (done || congruence). eauto.
Qed.

(** The destinations of the copies are closures. *)
Definition dests_ok (m : gmap Z mem_obj) (ops : list byref_op) : Prop :=
  forall d i, BCopy (d, i) ∈ ops -> exists b, m !! d = Some (OBlock b).

Lemma exec_byref_ok garbage fuel a p vs ops : forall s k k',
  byref_at (rt_mem s) a p k vs -> 0 < k < BLOCK_REFCOUNT_MASK -> dests_ok (rt_mem s) ops ->
  refs_left k ops = Some k' ->
  exists s', exec_byref garbage fuel a ops s = Ret tt s' /\
    if k' =? 0 then rt_freed s' = rt_freed s ++ [p] /\ rt_mem s' !! p = None
    else rt_freed s' = rt_freed s /\ byref_at (rt_mem s') a p k' vs.
Proof.
  unfold BLOCK_REFCOUNT_MASK.
  induction ops as [|[[d i]|] ops IH]; intros s k k' Hat Hk Hd Hl; simpl in *.
  - injection Hl as <-. exists s. split; [done|]. case_cmp; [lia|done].
  - destruct (Z.ltb_spec (k + 1) BLOCK_REFCOUNT_MASK) as [Hlt|]; [|done].
    unfold BLOCK_REFCOUNT_MASK in Hlt.
    destruct (Hd d i) as [b Hb]; [set_solver|].
    destruct (byref_copy_run garbage fuel s a p k vs d i b) as [b' Hrun];
      unfold BLOCK_REFCOUNT_MASK; try done; try lia.
    destruct (byref_not_block _ _ _ _ _ _ _ Hat Hb) as [??].
    simpl in Hrun. rewrite (bind_step _ _ s 0 _ Hrun).
    destruct (IH (set_mem (<[d:=OBlock b']> (addf p 1 (rt_mem s))) s) (k + 1) k') as (s' & Hs' & Hpost);
      [|lia| |done|].
    + apply byref_at_other; try done. apply byref_at_shift; [done|lia].
    + intros d' i' Hin. simpl. destruct (decide (d = d')) as [->|]; [rewrite lookup_insert_eq; eauto|].
      destruct (Hd d' i') as [b2 Hb2]; [set_solver|].
      destruct (byref_not_block _ _ _ _ _ _ _ Hat Hb2).
      rewrite lookup_insert_ne, lookup_addf, decide_False, Hb2 by done. simpl. eauto.
    + eauto.
  - pose proof (byref_release_run garbage fuel s a p k vs Hat Hk) as Hrun. simpl in Hrun.
    destruct (Z.eqb_spec k 1) as [->|Hne].
    + destruct ops; [|done]. injection Hl as <-. rewrite (bind_step _ _ s 0 _ Hrun).
      eexists. split; [done|]. simpl. split; [done|apply lookup_delete_eq].
    + rewrite (bind_step _ _ s 0 _ Hrun).
      destruct (IH (set_mem (addf p (-1) (rt_mem s)) s) (k - 1) k') as (s' & Hs' & Hpost);
        [|lia| |done|eauto].
      * simpl. apply (byref_at_shift _ _ _ _ _ (-1)); [done|lia].
      * intros d' i' Hin. simpl. destruct (Hd d' i') as [b2 Hb2]; [set_solver|].
        destruct (byref_not_block _ _ _ _ _ _ _ Hat Hb2).
        rewrite lookup_addf, decide_False, Hb2 by done. simpl. eauto.
Qed.

(** C28: a __block variable is moved to the heap by the first closure that captures it, is shared
    by every later one, keeps its contents, and is freed exactly once: by the release that brings the
    references (one for each closure and one for the stack frame) to zero, whatever the order
    of captures and releases. *)
Theorem byref_lifecycle garbage fuel s a r p l d i b ops k :
  rt_mem s !! a = Some (OByref r) -> stack_byref a r -> rt_malloc s = p :: l -> p <> 0 ->
  rt_mem s !! p = None -> rt_mem s !! d = Some (OBlock b) -> dests_ok (rt_mem s) ops ->
  refs_left 2 ops = Some k ->
  exists s', exec_byref garbage fuel a (BCopy (d, i) :: ops) s = Ret tt s' /\
    if k =? 0 then rt_freed s' = rt_freed s ++ [p] /\ rt_mem s' !! p = None
    else rt_freed s' = rt_freed s /\ byref_at (rt_mem s') a p k (br_vars r).
Proof.
  intros Ha Hr Hm Hp0 Hp Hd Hdst Hl.
  destruct (byref_first_copy garbage fuel s a r p l d i b) as (s1 & Hrun & Hat & Hfr & Hblk); try done.
  destruct (exec_byref_ok garbage fuel a p (br_vars r) ops s1 2 k) as (s' & Hs' & Hpost);
    try done.
  - intros d' i' Hin. destruct (Hdst d' i' Hin) as [b' Hb']. eauto.
  - exists s'. rewrite Hfr in Hpost. split; [|done]. simpl in *.
    by rewrite (bind_step _ _ s 0 _ Hrun).
Qed.

(** ** Concrete runs *)

Definition ex_heap_block : Block_layout :=
  BlockLayout _NSConcreteMallocBlock (BLOCK_NEEDS_FREE + 1) (BlockDescriptor 32 []) [].
(** A closure on the stack that captures the same heap block twice. *)
Definition ex_closure : Block_layout :=
  BlockLayout _NSConcreteStackBlock BLOCK_HAS_COPY_DISPOSE
    (BlockDescriptor 48 [(0%nat, BLOCK_FIELD_IS_BLOCK); (1%nat, BLOCK_FIELD_IS_BLOCK)]) [100; 100].
Definition ex_byref : Block_byref := BlockByref isa_other 400 0 32 [] [7].
Definition ex_rt : rt_state :=
  RtState {[100 := OBlock ex_heap_block; 200 := OBlock ex_closure; 400 := OByref ex_byref]}
    [300; 500] [] false [] [].

Lemma ex_heap_block_ok : heap_block ex_heap_block.
Proof. split; vm_compute; (done || split; done). Qed.

Lemma latching_counter_witness :
  (latching_decr_int (latching_incr_int (BLOCK_NEEDS_FREE + 1)).1).1 = BLOCK_NEEDS_FREE + 1.
Proof. apply (latching_counter (BLOCK_NEEDS_FREE + 1)); vm_compute; (done || split; done). Defined.

Lemma block_copy_release_witness :
  exists s1, _Block_copy 0 1 100 ex_rt = Ret 100 s1 /\
    (exists b1, rt_mem s1 !! 100 = Some (OBlock b1) /\ refcount (flags b1) = 2) /\
    Block_release 0 1 100 s1 = Ret 0 ex_rt.
Proof.
  apply (block_copy_release 0 0 ex_rt 100 ex_heap_block);
    [reflexivity|done|apply ex_heap_block_ok|vm_compute; done|vm_compute; done].
Defined.

Lemma closure_copy_release_witness :
  exists s1, _Block_copy 0 3 200 ex_rt = Ret 300 s1 /\
    (exists c, rt_mem s1 !! 300 = Some (OBlock c) /\ refcount (flags c) = 1 /\ vars c = [100; 100]) /\
    (forall q cb, q ∈ [100; 100] -> rt_mem ex_rt !! q = Some (OBlock cb) -> exists cb',
       rt_mem s1 !! q = Some (OBlock cb') /\
       refcount (flags cb') = refcount (flags cb) + occ q [100; 100]) /\
    Block_release 0 4 300 s1 = Ret 0 (RtState (rt_mem ex_rt) [500] [300] false [] []).
Proof.
  apply (closure_copy_release 0 0 ex_rt 200 ex_closure 300 [500] [100; 100]); try done.
  - repeat constructor.
  - intros q Hq. assert (q = 100) as -> by set_solver. split; [done|]. exists ex_heap_block.
    split_and!; [reflexivity|apply ex_heap_block_ok|vm_compute; done|vm_compute; done].
Defined.

(** Two closures capture the variable; the closures and the frame let go of it. *)
Lemma byref_lifecycle_witness :
  exists s', exec_byref 0 0 400 [BCopy (100, 0%nat); BCopy (200, 1%nat); BRelease; BRelease; BRelease]
      ex_rt = Ret tt s' /\
    rt_freed s' = [300] /\ rt_mem s' !! 300 = None.
Proof.
  apply (byref_lifecycle 0 0 ex_rt 400 ex_byref 300 [500] 100 0 ex_heap_block
    [BCopy (200, 1%nat); BRelease; BRelease; BRelease] 0); try done.
  - intros d i Hin. assert (d = 200) as -> by set_solver. exists ex_closure. reflexivity.
Defined.
