(* ===== verification/Semaphore.v ===== *)
(** * Counting semaphores: dispatch_semaphore_wait and dispatch_semaphore_signal

    Models semaphore.c with POSIX semaphores.  A semaphore is three shared words, dsema_value,
    dsema_sent_ksignals and the count of the kernel semaphore dsema_sem.  Each thread of the pool executes one
    call, dispatch_semaphore_wait with a timeout or dispatch_semaphore_signal; every access
    to a shared word is one step, and the kernel may interrupt a wait or let it time
    out at any moment.  A wait that finds the kernel semaphore at zero has no step: it is
    blocked.

    [sem_spec] is the abstract semaphore: permits that signals add and successful waits take. *)

From S2P Require Import Prelude.
From stdpp Require Import base tactics list numbers relations.
From Stdlib Require Import ZArith Lia.

Local Open Scope Z_scope.

(** The three cases of [switch (timeout)]. *)
Inductive timeout_kind := TimeNow | TimeForever | TimeAt.

#[export] Instance timeout_kind_eq_dec : EqDecision timeout_kind.
Proof. solve_decision. Defined.

Inductive sem_pc :=
| WDec (t : timeout_kind)            (* dispatch_atomic_dec(&dsema->dsema_value) *)
| WRead (t : timeout_kind)           (* orig = dsema->dsema_sent_ksignals *)
| WCas (t : timeout_kind) (orig : Z) (* cmpxchg(&dsema->dsema_sent_ksignals, orig, orig - 1) *)
| WTimed                             (* sem_timedwait *)
| WUndo (t : timeout_kind)           (* orig = dsema->dsema_value *)
| WUndoCas (t : timeout_kind) (orig : Z) (* cmpxchg(&dsema->dsema_value, orig, orig + 1) *)
| WSem (t : timeout_kind)            (* sem_wait *)
| WDone (r : Z)
| SInc                               (* dispatch_atomic_inc(&dsema->dsema_value) *)
| SSlow                              (* dispatch_atomic_inc(&dsema->dsema_sent_ksignals) *)
| SPost                              (* sem_post *)
| SDone (r : Z).

Record sem_state := SemState {
  dsema_value : Z;
  dsema_sent_ksignals : Z;
  dsema_sem : Z;
  sem_threads : list sem_pc
}.

Section step.
Context (orig_value : Z).   (* the argument of dispatch_semaphore_create *)

(** Where [_dispatch_semaphore_wait_slow] goes when no signal has been sent. *)
Definition wait_switch (t : timeout_kind) : sem_pc :=
  match t with TimeAt => WTimed | TimeNow => WUndo t | TimeForever => WSem t end.

(** The decrement of dispatch_semaphore_wait: the new value and where the call goes. *)
Definition dispatch_semaphore_wait (t : timeout_kind) (value : Z) : Z * sem_pc :=
  let v := s64 (value - 1) in (v, if v >=? 0 then WDone 0 else WRead t).

(** The increment of dispatch_semaphore_signal. *)
Definition dispatch_semaphore_signal (value : Z) : Z * sem_pc :=
  let v := s64 (value + 1) in (v, if v >? 0 then SDone 0 else SSlow).

(** dispatch_semaphore_wait and _dispatch_semaphore_wait_slow; the result is the shared words and
    the next control point, None when the thread is blocked.  [fired] is the kernel's
    choice to end a sem_timedwait by the timeout. *)
Definition sem_wait_step (fired : bool) (pc : sem_pc) (s : sem_state) : option (Z * Z * Z * sem_pc) :=
  let v := dsema_value s in
  let sent := dsema_sent_ksignals s in
  let k := dsema_sem s in
  match pc with
  | WDec t => let '(v', pc') := dispatch_semaphore_wait t v in Some (v', sent, k, pc')
  | WRead t => Some (v, sent, k, if negb (sent =? 0) then WCas t sent else wait_switch t)
  | WCas t orig =>
      if sent =? orig then Some (v, s64 (orig - 1), k, WDone 0) else Some (v, sent, k, WRead t)
  | WTimed =>
      if fired then Some (v, sent, k, WUndo TimeAt)
      else if k >? 0 then Some (v, sent, k - 1, WRead TimeAt)
      else None
  | WUndo t => Some (v, sent, k, if v <? 0 then WUndoCas t v else WSem t)
  | WUndoCas t orig =>
      if v =? orig then Some (s64 (orig + 1), sent, k, WDone (-1)) else Some (v, sent, k, WUndo t)
  | WSem t => if k >? 0 then Some (v, sent, k - 1, WRead t) else None
  | _ => None
  end.

(** dispatch_semaphore_signal and _dispatch_semaphore_signal_slow. *)
Definition sem_signal_step (pc : sem_pc) (s : sem_state) : option (Z * Z * Z * sem_pc) :=
  let v := dsema_value s in
  let sent := dsema_sent_ksignals s in
  let k := dsema_sem s in
  match pc with
  | SInc => let '(v', pc') := dispatch_semaphore_signal v in Some (v', sent, k, pc')
  | SSlow => Some (v, s64 (sent + 1), k, SPost)
  | SPost => Some (v, sent, k + 1, SDone 1)
  | _ => None
  end.

Inductive sem_step : sem_state -> sem_state -> Prop :=
| sem_step_wait s i fired pc v sent k pc' :
    sem_threads s !! i = Some pc -> sem_wait_step fired pc s = Some (v, sent, k, pc') ->
    sem_step s (SemState v sent k (<[i:=pc']> (sem_threads s)))
| sem_step_signal s i pc v sent k pc' :
    sem_threads s !! i = Some pc -> sem_signal_step pc s = Some (v, sent, k, pc') ->
    sem_step s (SemState v sent k (<[i:=pc']> (sem_threads s))).

(** The call a thread makes. *)
Definition sem_start (pc : sem_pc) : bool :=
  match pc with WDec _ | SInc => true | _ => false end.

(** What dispatch_semaphore_create leaves; NULL is returned for a negative value. *)
Definition dispatch_semaphore_create (threads : list sem_pc) : option sem_state :=
  if orig_value <? 0 then None else Some (SemState orig_value 0 0 threads).

Definition sem_initial (s : sem_state) : Prop :=
  exists threads, Forall (fun pc => sem_start pc = true) threads /\
    orig_value + Z.of_nat (length threads) < 2 ^ 62 /\
    dispatch_semaphore_create threads = Some s.

#[local] Instance sem_ts : TransitionSystem sem_state := {
  ts_init := sem_initial;
  ts_step := sem_step
}.

(** ** Counting the threads *)

(** Waits that count against the value and have not returned. *)
Definition is_pending (pc : sem_pc) : Z :=
  match pc with
  | WRead _ | WCas _ _ | WTimed | WUndo _ | WUndoCas _ _ | WSem _ => 1
  | _ => 0
  end.
(** Waits that took a permit. *)
Definition is_acquired (pc : sem_pc) : Z := match pc with WDone r => if r =? 0 then 1 else 0 | _ => 0 end.
(** Signals that have incremented the value. *)
Definition is_signalled (pc : sem_pc) : Z :=
  match pc with SSlow | SPost | SDone _ => 1 | _ => 0 end.
Definition is_slow (pc : sem_pc) : Z := match pc with SSlow => 1 | _ => 0 end.
Definition is_posting (pc : sem_pc) : Z := match pc with SPost => 1 | _ => 0 end.
(** Waits about to look at dsema_sent_ksignals. *)
Definition is_reading (pc : sem_pc) : Z := match pc with WRead _ | WCas _ _ => 1 | _ => 0 end.

Definition pending s := zsum is_pending (sem_threads s).
Definition acquired s := zsum is_acquired (sem_threads s).
Definition signalled s := zsum is_signalled (sem_threads s).
Definition slow s := zsum is_slow (sem_threads s).
Definition posting s := zsum is_posting (sem_threads s).
Definition reading s := zsum is_reading (sem_threads s).

Definition pc_ok (pc : sem_pc) : Prop :=
  match pc with WCas _ orig => orig <> 0 | WUndoCas _ orig => orig < 0 | _ => True end.

Record sem_inv (s : sem_state) : Prop := {
  si_size : 0 <= orig_value /\ orig_value + Z.of_nat (length (sem_threads s)) < 2 ^ 62;
  si_value : dsema_value s = orig_value + signalled s - acquired s - pending s;
  si_pending : pending s = slow s + dsema_sent_ksignals s + Z.max 0 (- dsema_value s);
  si_sent : 0 <= dsema_sent_ksignals s;
  si_ksem : 0 <= dsema_sem s;
  si_wake : dsema_sent_ksignals s <= dsema_sem s + posting s + reading s;
  si_pcs : Forall pc_ok (sem_threads s)
}.

Lemma zsum_bound {A} (f : A -> Z) l : (forall x, 0 <= f x <= 1) -> 0 <= zsum f l <= Z.of_nat (length l).
Proof. intros Hf. induction l as [|x l IH]; simpl; [lia|]. specialize (Hf x). lia. Qed.

Lemma pending_bound s : 0 <= pending s <= Z.of_nat (length (sem_threads s)).
Proof. apply zsum_bound. intros []; simpl; lia. Qed.
Lemma acquired_bound s : 0 <= acquired s <= Z.of_nat (length (sem_threads s)).
Proof. apply zsum_bound. intros []; simpl; repeat case_match; lia. Qed.
Lemma signalled_bound s : 0 <= signalled s <= Z.of_nat (length (sem_threads s)).
Proof. apply zsum_bound. intros []; simpl; lia. Qed.
Lemma slow_bound s : 0 <= slow s <= Z.of_nat (length (sem_threads s)).
Proof. apply zsum_bound. intros []; simpl; lia. Qed.
Lemma posting_bound s : 0 <= posting s <= Z.of_nat (length (sem_threads s)).
Proof. apply zsum_bound. intros []; simpl; lia. Qed.
Lemma reading_bound s : 0 <= reading s <= Z.of_nat (length (sem_threads s)).
Proof. apply zsum_bound. intros []; simpl; lia. Qed.

(** Both kinds of step replace one thread and the shared words. *)
Lemma sem_inv_replace s i pc v sent k pc' :
  sem_inv s -> sem_threads s !! i = Some pc ->
  v - dsema_value s = (is_signalled pc' - is_signalled pc) - (is_acquired pc' - is_acquired pc)
                      - (is_pending pc' - is_pending pc) ->
  is_pending pc' - is_pending pc = (is_slow pc' - is_slow pc) + (sent - dsema_sent_ksignals s) +
    (Z.max 0 (- v) - Z.max 0 (- dsema_value s)) ->
  0 <= sent -> 0 <= k ->
  (sent = 0 \/ sent - dsema_sent_ksignals s <= (k - dsema_sem s) + (is_posting pc' - is_posting pc) +
    (is_reading pc' - is_reading pc)) ->
  pc_ok pc' ->
  sem_inv (SemState v sent k (<[i:=pc']> (sem_threads s))).
Proof.
  intros [Hsz Hv Hp Hs Hk Hw Hpcs] Hi Hdv Hdp Hsent Hk' Hdw Hpc.
  pose proof (posting_bound (SemState v sent k (<[i:=pc']> (sem_threads s)))) as Hb1.
  pose proof (reading_bound (SemState v sent k (<[i:=pc']> (sem_threads s)))) as Hb2.
  unfold pending, acquired, signalled, slow, posting, reading in *; simpl in *.
  split; unfold pending, acquired, signalled, slow, posting, reading; simpl;
    rewrite ?(zsum_insert _ _ _ _ pc' Hi) in *; rewrite ?length_insert; try lia.
  by apply Forall_insert.
Qed.

Lemma sem_inv_bounds s :
  sem_inv s -> - 2 ^ 62 < dsema_value s < 2 ^ 62 /\ dsema_sent_ksignals s < 2 ^ 62.
Proof.
  intros [Hsz Hv Hp Hs Hk Hw _].
  pose proof (pending_bound s). pose proof (acquired_bound s). pose proof (signalled_bound s).
  pose proof (slow_bound s).
  assert (signalled s + acquired s + pending s <= Z.of_nat (length (sem_threads s))); [|lia].
  unfold signalled, acquired, pending. clear. induction (sem_threads s) as [|pc l IH]; simpl; [lia|].
  destruct pc; simpl; repeat case_match; lia.
Qed.

Ltac sem_case := simplify_eq/=; eapply sem_inv_replace; [done|done|..]; simpl; repeat case_match;
  cmp_hyps; simpl; try done; try lia.

Lemma sem_inv_wait s i fired pc v sent k pc' :
  sem_inv s -> sem_threads s !! i = Some pc -> sem_wait_step fired pc s = Some (v, sent, k, pc') ->
  sem_inv (SemState v sent k (<[i:=pc']> (sem_threads s))).
Proof.
  intros Hinv Hi Hst. destruct (sem_inv_bounds s Hinv) as [Hvb Hsb].
  pose proof (si_sent _ Hinv). pose proof (si_ksem _ Hinv).
  assert (pc_ok pc) as Hok by (eapply Forall_lookup_1; [apply (si_pcs _ Hinv)|done]).
  destruct pc; simpl in Hst; try done.
  - rewrite (s64_id (dsema_value s - 1)) in Hst by lia. revert Hst. rewrite Z.geb_leb. case_cmp; intros; sem_case.
  - revert Hst. case_cmp; simpl; intros; sem_case. all: destruct t; simpl; lia || done.
  - revert Hst. case_cmp; intros Hst; sem_case. all: rewrite s64_id by (simpl in *; lia); simpl in *; lia.
  - revert Hst. destruct fired; [|rewrite Z.gtb_ltb; case_cmp; [|done]]; intros; sem_case.
  - revert Hst. case_cmp; intros; sem_case.
  - revert Hst. case_cmp; intros; sem_case. all: rewrite s64_id by (simpl in *; lia); simpl in *; lia.
  - revert Hst. rewrite Z.gtb_ltb. case_cmp; [|done]. intros; sem_case.
Qed.

Lemma sem_inv_signal s i pc v sent k pc' :
  sem_inv s -> sem_threads s !! i = Some pc -> sem_signal_step pc s = Some (v, sent, k, pc') ->
  sem_inv (SemState v sent k (<[i:=pc']> (sem_threads s))).
Proof.
  intros Hinv Hi Hst. destruct (sem_inv_bounds s Hinv) as [Hvb Hsb].
  pose proof (si_sent _ Hinv). pose proof (si_ksem _ Hinv).
  destruct pc; simpl in Hst; try done.
  - rewrite (s64_id (dsema_value s + 1)) in Hst by lia. revert Hst. rewrite Z.gtb_ltb.
    case_cmp; intros; sem_case.
  - rewrite (s64_id (dsema_sent_ksignals s + 1)) in Hst by lia. sem_case.
  - sem_case.
Qed.

Lemma sem_inv_step s s' : sem_inv s -> sem_step s s' -> sem_inv s'.
Proof.
  intros Hinv Hst. destruct Hst as [s i fired pc v sent k pc' Hi Hw|s i pc v sent k pc' Hi Hw].
  - by eapply sem_inv_wait.
  - by eapply sem_inv_signal.
Qed.

Lemma sem_inv_initial s : sem_initial s -> sem_inv s.
Proof.
  intros (threads & Hst & Hsz & Hc). unfold dispatch_semaphore_create in Hc.
  destruct (Z.ltb_spec orig_value 0); [done|]. injection Hc as <-.
  assert (forall f : sem_pc -> Z, (forall pc, sem_start pc = true -> f pc = 0) -> zsum f threads = 0) as Hz.
  { intros f Hf. apply zsum_zero. intros pc Hpc. apply Hf. by eapply Forall_forall in Hst. }
  split; unfold pending, acquired, signalled, slow, posting, reading; simpl;
    rewrite ?Hz by (by intros []); try lia.
  eapply Forall_impl; [exact Hst|]. by intros [].
Qed.

Lemma sem_inv_reachable s : reachable s -> sem_inv s.
Proof.
  revert s. apply invariant_reachable; [apply sem_inv_initial|]. intros s s'. apply sem_inv_step.
Qed.

(** ** The contract *)

(** Permits not yet handed out. *)
Definition permits (s : sem_state) : Z := orig_value + signalled s - acquired s.

(** The abstract semaphore: a signal adds a permit, a successful wait takes one that
    is there. *)
Inductive sem_spec : Z -> Z -> Prop :=
| spec_signal n : sem_spec n (n + 1)
| spec_take n : 0 < n -> sem_spec n (n - 1).

Lemma permits_nonneg s : sem_inv s -> 0 <= permits s.
Proof.
  intros [Hsz Hv Hp Hs Hk Hw _]. unfold permits. pose proof (slow_bound s). lia.
Qed.

Lemma permits_insert s i pc pc' v sent k :
  sem_threads s !! i = Some pc ->
  permits (SemState v sent k (<[i:=pc']> (sem_threads s))) =
    permits s + (is_signalled pc' - is_signalled pc) - (is_acquired pc' - is_acquired pc).
Proof.
  intros Hi. unfold permits, signalled, acquired. simpl. rewrite !(zsum_insert _ _ _ _ _ Hi). lia.
Qed.

(** No thread can move. *)
Definition sem_stuck (s : sem_state) : Prop := forall s', ~ sem_step s s'.

(** In a stuck state every call has returned or sleeps in sem_wait on an empty kernel semaphore. *)
Lemma stuck_pcs s i pc :
  sem_inv s -> sem_stuck s -> sem_threads s !! i = Some pc ->
  match pc with WDone _ | SDone _ => True | WSem _ => dsema_sem s = 0 | _ => False end.
Proof.
  intros Hinv Hst Hi. pose proof (si_ksem _ Hinv).
  assert (forall fired v sent k pc', sem_wait_step fired pc s <> Some (v, sent, k, pc')) as Hw.
  { intros fired v sent k pc' Hs. by eapply Hst, sem_step_wait. }
  assert (forall v sent k pc', sem_signal_step pc s <> Some (v, sent, k, pc')) as Hsg.
  { intros v sent k pc' Hs. by eapply Hst, sem_step_signal. }
  destruct pc; simpl in *; try done; try (by eapply Hsg); try (by eapply (Hw true)).
  - destruct (dsema_sent_ksignals s =? orig); by eapply (Hw true).
  - destruct (dsema_value s =? orig); by eapply (Hw true).
  - specialize (Hw true). rewrite Z.gtb_ltb in Hw. destruct (Z.ltb_spec 0 (dsema_sem s)); [|lia].
    by destruct (Hw _ _ _ _ eq_refl).
Qed.

End step.

(** C4: a dispatch semaphore refines the abstract semaphore: every step of any number of
    concurrent waits and signals is invisible, or adds one permit, or takes a permit that is
    there, so that never more waits succeed than permits were given. *)
Theorem sem_refines_spec v0 s s' :
  @reachable _ (sem_ts v0) s -> sem_step s s' ->
  0 <= permits v0 s /\
  (permits v0 s' = permits v0 s \/ sem_spec (permits v0 s) (permits v0 s')).
Proof.
  intros Hinv%sem_inv_reachable Hst. pose proof (permits_nonneg v0 s' (sem_inv_step v0 _ _ Hinv Hst)) as Hp.
  split; [by apply permits_nonneg|].
  destruct Hst as [s i fired pc v sent k pc' Hi Hw|s i pc v sent k pc' Hi Hw];
    rewrite (permits_insert v0 s i pc pc') in * by done.
  - assert (is_signalled pc' = is_signalled pc /\
      (is_acquired pc' = is_acquired pc \/ is_acquired pc' = 1 /\ is_acquired pc = 0)) as [Hs [Ha|[Ha Ha']]].
    { destruct pc; simpl in Hw; try done; repeat case_match; simplify_eq/=; auto;
        repeat case_match; simpl; auto; destruct t; auto. }
    + left. lia.
    + right. replace (_ - _) with (permits v0 s - 1) by lia. constructor. lia.
  - assert (is_acquired pc' = is_acquired pc /\
      (is_signalled pc' = is_signalled pc \/ is_signalled pc' = 1 /\ is_signalled pc = 0)) as [Ha [Hs|[Hs Hs']]].
    { destruct pc; simpl in Hw; try done; simplify_eq/=; repeat case_match; simpl; auto. }
    + left. lia.
    + right. replace (_ - _) with (permits v0 s + 1) by lia. constructor.
Qed.

(** C5: no wakeup is lost: when no thread can move any more, waits that are still asleep mean
    that every permit ever given was taken, and the value counts exactly those waits. *)
Theorem sem_no_lost_wakeup v0 s :
  @reachable _ (sem_ts v0) s -> sem_stuck s -> 0 < pending s ->
  permits v0 s = 0 /\ dsema_value s = - pending s.
Proof.
  intros Hinv%sem_inv_reachable Hst Hpos.
  assert (forall pc, pc ∈ sem_threads s -> is_slow pc = 0 /\ is_posting pc = 0 /\ is_reading pc = 0 /\
    (0 < is_pending pc -> dsema_sem s = 0)) as Hpcs.
  { intros pc (i & Hi)%list_elem_of_lookup. pose proof (stuck_pcs v0 s i pc Hinv Hst Hi).
    destruct pc; simpl; done. }
  assert (slow s = 0 /\ posting s = 0 /\ reading s = 0) as (Hs & Hpo & Hr).
  { unfold slow, posting, reading. rewrite !zsum_zero; [done| | |]; intros; by apply Hpcs. }
  assert (dsema_sem s = 0) as Hk.
  { destruct (zsum_pos_elem is_pending (sem_threads s)) as (i & pc & Hi & Hp); [intros []; simpl; lia|done|].
    apply (Hpcs pc); [by eapply list_elem_of_lookup_2|done]. }
  destruct Hinv as [Hsz Hv Hp Hsent Hks Hw _]. unfold permits. lia.
Qed.

(** ** A concrete run *)

(** The step of thread [i]; [fired] only matters in sem_timedwait. *)
Definition sem_exec (i : nat) (fired : bool) (s : sem_state) : option sem_state :=
  pc ← sem_threads s !! i;
  match sem_wait_step fired pc s with
  | Some (v, sent, k, pc') => Some (SemState v sent k (<[i:=pc']> (sem_threads s)))
  | None =>
      match sem_signal_step pc s with
      | Some (v, sent, k, pc') => Some (SemState v sent k (<[i:=pc']> (sem_threads s)))
      | None => None
      end
  end.

Fixpoint sem_run (sched : list (nat * bool)) (s : sem_state) : option sem_state :=
  match sched with
  | [] => Some s
  | (i, fired) :: sched => s' ← sem_exec i fired s; sem_run sched s'
  end.

Lemma sem_exec_step i fired s s' : sem_exec i fired s = Some s' -> sem_step s s'.
Proof.
  unfold sem_exec. intros (pc & Hi & Hs)%bind_Some.
  destruct (sem_wait_step fired pc s) as [[[[v sent] k] pc']|] eqn:Hw.
  - injection Hs as <-. by eapply sem_step_wait.
  - destruct (sem_signal_step pc s) as [[[[v sent] k] pc']|] eqn:Hw'; [|done].
    injection Hs as <-. by eapply sem_step_signal.
Qed.

Lemma sem_run_reachable v0 sched s0 s :
  sem_initial v0 s0 -> sem_run sched s0 = Some s -> @reachable _ (sem_ts v0) s.
Proof.
  intros H0 Hr. exists s0. split; [done|]. clear H0. revert s0 Hr.
  induction sched as [|[i fired] sched IH]; intros s0 Hr; simpl in Hr.
  - by injection Hr as <-.
  - apply bind_Some in Hr as (s1 & Hs & Hr). eapply rtc_l; [by eapply sem_exec_step|]. eauto.
Qed.

(** Value 1: the first wait takes the permit, the second goes to sleep, the third takes the permit of
    the signal that wakes the second, which sleeps again, and the fourth times out. *)
Definition sem_ex0 : sem_state :=
  SemState 1 0 0 [WDec TimeForever; WDec TimeForever; WDec TimeForever; WDec TimeAt; SInc].
Definition sem_ex_sched : list (nat * bool) :=
  [(0%nat, false); (1%nat, false); (1%nat, false); (3%nat, false); (3%nat, false); (4%nat, false);
   (4%nat, false); (4%nat, false); (1%nat, false); (2%nat, false); (2%nat, false); (2%nat, false);
   (1%nat, false); (3%nat, true); (3%nat, true); (3%nat, true)].
Definition sem_ex_end : sem_state :=
  SemState (-1) 0 0 [WDone 0; WSem TimeForever; WDone 0; WDone (-1); SDone 1].

Lemma sem_ex0_initial : sem_initial 1 sem_ex0.
Proof.
  exists (sem_threads sem_ex0). split_and!; [repeat constructor|vm_compute; done|reflexivity].
Qed.
Lemma sem_ex_run : sem_run sem_ex_sched sem_ex0 = Some sem_ex_end.
Proof. vm_compute. reflexivity. Qed.

Lemma sem_refines_spec_witness :
  let s' := default sem_ex0 (sem_exec 0 false sem_ex0) in
  0 <= permits 1 sem_ex0 /\
  (permits 1 s' = permits 1 sem_ex0 \/ sem_spec (permits 1 sem_ex0) (permits 1 s')).
Proof.
  apply (sem_refines_spec 1).
  - apply (sem_run_reachable 1 [] sem_ex0 sem_ex0 sem_ex0_initial eq_refl).
  - by apply (sem_exec_step 0 false).
Defined.

Lemma sem_no_lost_wakeup_witness :
  pending sem_ex_end = 1 /\ permits 1 sem_ex_end = 0 /\ dsema_value sem_ex_end = - pending sem_ex_end.
Proof.
  split; [reflexivity|]. apply (sem_no_lost_wakeup 1 sem_ex_end).
  - apply (sem_run_reachable 1 sem_ex_sched sem_ex0 sem_ex_end sem_ex0_initial sem_ex_run).
  - intros s' Hst. inversion Hst as [? i fired pc v sent k pc' Hi Hw|? i pc v sent k pc' Hi Hw]; subst;
      destruct i as [|[|[|[|[|i]]]]]; simplify_eq/=.
  - vm_compute. reflexivity.
Defined.
