(* ===== verification/Group.v ===== *)
(** * Groups: dispatch_group_enter, dispatch_group_leave and dispatch_group_wait

    A group is a semaphore created with LONG_MAX (semaphore.c): dsema_value is LONG_MAX minus the
    members inside.  Threads are members (enter, then leave) and waiters; every access to dsema_value,
    dsema_group_waiters and the kernel semaphore is one step.  The list of notify blocks that
    [_dispatch_group_wake] also flushes is not part of this file's state.

    Each thread carries a ghost snapshot: for a waiter, the members that were inside when its
    call read the value first. *)

From S2P Require Import Prelude Semaphore.
From stdpp Require Import base tactics list numbers relations.
From Stdlib Require Import ZArith Lia.

Local Open Scope Z_scope.

Inductive group_pc :=
| GEnter                               (* dispatch_group_enter *)
| GLeave                               (* dispatch_group_leave: dispatch_atomic_inc(&dsema_value) *)
| GLeaveCheck                          (* if (dsema_value == dsema_orig) *)
| GWait (t : timeout_kind)             (* dispatch_group_wait *)
| GAgain (t : timeout_kind)            (* again: if (dsema_value == dsema_orig) *)
| GIncWaiters (t : timeout_kind)       (* dispatch_atomic_inc(&dsema_group_waiters) *)
| GCheck (t : timeout_kind)            (* the second test of the value *)
| GTimed                               (* sem_timedwait *)
| GUndo (t : timeout_kind)             (* orig = dsema_group_waiters *)
| GUndoCas (t : timeout_kind) (orig : Z)
| GSem (t : timeout_kind)              (* sem_wait *)
| GWake                                (* _dispatch_group_wake: xchg(&dsema_group_waiters, 0) *)
| GPost (rval : Z)                     (* sem_post, rval times *)
| GSlow                                (* the semaphore's slow paths, which group_inv excludes *)
| GDone (r : Z).

Record group_state := GroupState {
  grp_value : Z;                       (* dsema_value; dsema_orig is LONG_MAX *)
  grp_waiters : Z;                     (* dsema_group_waiters *)
  grp_sem : Z;                         (* dsema_sem *)
  grp_threads : list (group_pc * list nat)
}.

(** The members inside the group. *)
Fixpoint inside_from (n : nat) (l : list (group_pc * list nat)) : list nat :=
  match l with
  | [] => []
  | (GLeave, _) :: l => n :: inside_from (S n) l
  | _ :: l => inside_from (S n) l
  end.
Definition inside_ids (s : group_state) : list nat := inside_from 0 (grp_threads s).

(** dispatch_group_enter is dispatch_semaphore_wait for ever: one decrement. *)
Definition dispatch_group_enter (value : Z) : Z * group_pc :=
  let v := s64 (value - 1) in (v, if v >=? 0 then GLeave else GSlow).

(** dispatch_group_leave: the increment of dispatch_semaphore_signal, then the test. *)
Definition dispatch_group_leave (value : Z) : Z * group_pc :=
  let v := s64 (value + 1) in (v, if v >? 0 then GLeaveCheck else GSlow).
Definition group_leave_check (value : Z) : group_pc :=
  if value =? LONG_MAX then GWake else GDone 0.

(** _dispatch_group_wake: take the announced waiters (a uint32_t), then post once for each. *)
Definition _dispatch_group_wake (waiters : Z) : group_pc :=
  let rval := u32 waiters in if rval =? 0 then GDone 0 else GPost rval.
Definition group_wake_post (rval : Z) : group_pc :=
  let rval := u32 (rval - 1) in if rval =? 0 then GDone 0 else GPost rval.

(** The tests of dispatch_group_wait before the slow path. *)
Definition dispatch_group_wait (t : timeout_kind) (value : Z) : group_pc :=
  if value =? LONG_MAX then GDone 0
  else match t with TimeNow => GDone (-1) | _ => GAgain t end.

(** One step of a thread: the shared words, the next control point and the ghost snapshot;
    None when it is blocked or has returned.  The steps from GAgain to GSem are those of
    _dispatch_group_wait_slow. *)
Definition group_thread_step (fired : bool) (pc : group_pc) (snap : list nat) (s : group_state) :
    option (Z * Z * Z * group_pc * list nat) :=
  let v := grp_value s in
  let w := grp_waiters s in
  let k := grp_sem s in
  match pc with
  | GEnter => let '(v', pc') := dispatch_group_enter v in Some (v', w, k, pc', snap)
  | GLeave => let '(v', pc') := dispatch_group_leave v in Some (v', w, k, pc', snap)
  | GLeaveCheck => Some (v, w, k, group_leave_check v, snap)
  | GWait t => Some (v, w, k, dispatch_group_wait t v, inside_ids s)
  | GAgain t => Some (v, w, k, if v =? LONG_MAX then GWake else GIncWaiters t, snap)
  | GIncWaiters t => Some (v, s64 (w + 1), k, GCheck t, snap)
  | GCheck t =>
      Some (v, w, k,
            if v =? LONG_MAX then GWake
            else match t with TimeAt => GTimed | TimeNow => GUndo t | TimeForever => GSem t end,
            snap)
  | GTimed =>
      if fired then Some (v, w, k, GUndo TimeAt, snap)
      else if k >? 0 then Some (v, w, k - 1, GAgain TimeAt, snap) else None
  | GUndo t => Some (v, w, k, if negb (w =? 0) then GUndoCas t w else GSem t, snap)
  | GUndoCas t orig =>
      if w =? orig then Some (v, s64 (orig - 1), k, GDone (-1), snap)
      else Some (v, w, k, GUndo t, snap)
  | GSem t => if k >? 0 then Some (v, w, k - 1, GAgain t, snap) else None
  | GWake => Some (v, 0, k, _dispatch_group_wake w, snap)
  | GPost rval => Some (v, w, k + 1, group_wake_post rval, snap)
  | GSlow | GDone _ => None
  end.

Inductive group_step : group_state -> group_state -> Prop :=
| group_step_thread s i fired pc snap v w k pc' snap' :
    grp_threads s !! i = Some (pc, snap) ->
    group_thread_step fired pc snap s = Some (v, w, k, pc', snap') ->
    group_step s (GroupState v w k (<[i:=(pc', snap')]> (grp_threads s))).

Definition group_start (th : group_pc * list nat) : bool :=
  match th with (GEnter, []) | (GWait _, []) => true | _ => false end.

(** dispatch_group_create, and the threads that are going to use the group. *)
Definition group_initial (s : group_state) : Prop :=
  Forall (fun th => group_start th = true) (grp_threads s) /\
  Z.of_nat (length (grp_threads s)) < 2 ^ 31 /\
  s = GroupState LONG_MAX 0 0 (grp_threads s).

#[export] Instance group_ts : TransitionSystem group_state := {
  ts_init := group_initial;
  ts_step := group_step
}.

(** ** Invariant *)

Definition is_inside (th : group_pc * list nat) : Z := match th.1 with GLeave => 1 | _ => 0 end.
(** Waiters that have announced themselves and not been told to look again. *)
Definition is_announced (th : group_pc * list nat) : Z :=
  match th.1 with GCheck _ | GTimed | GUndo _ | GUndoCas _ _ | GSem _ => 1 | _ => 0 end.
(** Those that may already be asleep. *)
Definition is_asleep (th : group_pc * list nat) : Z :=
  match th.1 with GTimed | GUndo _ | GUndoCas _ _ | GSem _ => 1 | _ => 0 end.
(** Threads that will look at the value, or are going to wake. *)
Definition is_waking (th : group_pc * list nat) : Z :=
  match th.1 with GLeaveCheck | GCheck _ | GWake => 1 | _ => 0 end.
Definition posts_left (th : group_pc * list nat) : Z := match th.1 with GPost n => n | _ => 0 end.
(** Threads that may have left their announcement behind. *)
Definition is_finished (th : group_pc * list nat) : Z :=
  match th.1 with GWake | GPost _ | GDone _ => 1 | _ => 0 end.

Definition inside s := zsum is_inside (grp_threads s).
Definition announced s := zsum is_announced (grp_threads s).
Definition asleep s := zsum is_asleep (grp_threads s).
Definition waking s := zsum is_waking (grp_threads s).
Definition posts s := zsum posts_left (grp_threads s).
Definition finished s := zsum is_finished (grp_threads s).

(** The thread has seen the group empty. *)
Definition saw_empty (pc : group_pc) : bool :=
  match pc with GWake | GPost _ => true | GDone r => r =? 0 | _ => false end.

Definition group_pc_ok (th : group_pc * list nat) : Prop :=
  match th with
  | (GPost n, _) => 0 < n < 2 ^ 32
  | (GUndoCas _ orig, _) => orig <> 0
  | (GEnter, snap) | (GLeave, snap) | (GLeaveCheck, snap) => snap = []
  | (GSlow, _) => False
  | _ => True
  end.

Record group_inv (s : group_state) : Prop := {
  gi_size : Z.of_nat (length (grp_threads s)) < 2 ^ 31;
  gi_value : grp_value s = LONG_MAX - inside s;
  gi_waiters : 0 <= grp_waiters s;
  gi_sem : 0 <= grp_sem s;
  gi_tokens : announced s <= grp_waiters s + grp_sem s + posts s <= announced s + finished s;
  gi_wake : grp_value s = LONG_MAX -> 0 < grp_waiters s -> 0 < asleep s -> 0 < waking s;
  gi_pcs : Forall group_pc_ok (grp_threads s)
}.

Lemma zsum_bound_le {A} (f : A -> Z) l :
  (forall x, x ∈ l -> 0 <= f x <= 1) -> 0 <= zsum f l <= Z.of_nat (length l).
Proof.
  induction l as [|x l IH]; simpl; intros Hf; [lia|]. pose proof (Hf x ltac:(set_solver)).
  assert (0 <= zsum f l <= Z.of_nat (length l)) by (apply IH; set_solver). lia.
Qed.

Lemma inside_range s : 0 <= inside s <= Z.of_nat (length (grp_threads s)).
Proof. apply zsum_bound_le. intros [[] ?] _; unfold is_inside; simpl; lia. Qed.
Lemma announced_finished_range s :
  0 <= announced s /\ 0 <= finished s /\ announced s + finished s <= Z.of_nat (length (grp_threads s)).
Proof.
  assert (forall th, 0 <= is_announced th /\ 0 <= is_finished th /\ is_announced th + is_finished th <= 1)
    as Hb by (intros [[] ?]; unfold is_announced, is_finished; simpl; lia).
  unfold announced, finished. induction (grp_threads s) as [|th l IH]; simpl; [lia|].
  specialize (Hb th). lia.
Qed.
Lemma posts_nonneg s : group_inv s -> 0 <= posts s.
Proof.
  intros [_ _ _ _ _ _ Hp]. unfold posts.
  assert (forall th, th ∈ grp_threads s -> 0 <= posts_left th) as Hn.
  { intros [pc snap] Hin. eapply Forall_forall in Hp; [|done].
    destruct pc; simpl in *; unfold posts_left; simpl; lia. }
  revert Hn. clear. induction (grp_threads s) as [|th l IH]; simpl; intros Hn; [lia|].
  pose proof (Hn th ltac:(set_solver)). assert (0 <= zsum posts_left l) by (apply IH; set_solver). lia.
Qed.

Lemma group_inv_bounds s :
  group_inv s -> LONG_MAX - 2 ^ 31 < grp_value s <= LONG_MAX /\ grp_waiters s < 2 ^ 31.
Proof.
  intros Hinv. pose proof (posts_nonneg s Hinv). destruct Hinv as [Hsz Hv Hw Hk Ht _ _].
  pose proof (inside_range s). pose proof (announced_finished_range s). lia.
Qed.

(** A step replaces one thread and the shared words. *)
Lemma group_inv_replace s i pc snap v w k pc' snap' :
  group_inv s -> grp_threads s !! i = Some (pc, snap) ->
  (v - grp_value s = - (is_inside (pc', snap') - is_inside (pc, snap))) ->
  0 <= w -> 0 <= k ->
  (let dtok := (w - grp_waiters s) + (k - grp_sem s) +
               (posts_left (pc', snap') - posts_left (pc, snap)) in
   let dann := is_announced (pc', snap') - is_announced (pc, snap) in
   let dfin := is_finished (pc', snap') - is_finished (pc, snap) in
   dann <= dtok <= dann + dfin) ->
  (v = LONG_MAX -> 0 < w -> 0 < is_waking (pc', snap') \/
     (grp_value s = LONG_MAX /\ 0 < grp_waiters s /\
      is_asleep (pc', snap') <= is_asleep (pc, snap) /\ is_waking (pc, snap) = 0)) ->
  group_pc_ok (pc', snap') ->
  group_inv (GroupState v w k (<[i:=(pc', snap')]> (grp_threads s))).
Proof.
  intros Hinv Hi Hdv Hw Hk Htok Hwk Hok. destruct Hinv as [Hsz Hv Hw0 Hk0 Ht Hwake Hpcs].
  simpl in Htok. unfold inside, announced, finished, asleep, waking, posts in *.
  split; unfold inside, announced, finished, asleep, waking, posts; simpl;
    rewrite ?(zsum_insert _ _ _ _ (pc', snap') Hi); rewrite ?length_insert; try lia.
  - intros Hve Hwp Has. destruct (Hwk Hve Hwp) as [Hp|(Hv' & Hw' & Ha & Hz)].
    + pose proof (zsum_lookup_le is_waking (grp_threads s) i _ ltac:(intros [[] ?]; unfold is_waking; simpl; lia) Hi).
      lia.
    + assert (0 < zsum is_waking (grp_threads s)) by (apply Hwake; [done|done|lia]).
      assert (0 <= is_waking (pc', snap')) by (destruct pc'; unfold is_waking; simpl; lia). lia.
  - by apply Forall_insert.
Qed.

Ltac group_step_unfold := unfold dispatch_group_enter, dispatch_group_leave, group_leave_check,
  _dispatch_group_wake, group_wake_post, dispatch_group_wait in *.
Ltac group_unfold :=
  unfold is_inside, is_announced, is_asleep, is_waking, posts_left, is_finished, LONG_MAX in *; simpl in *.
Ltac group_case := eapply group_inv_replace; [done|done|..]; group_unfold; try done; try lia.

Lemma group_inv_thread s i fired pc snap v w k pc' snap' :
  group_inv s -> grp_threads s !! i = Some (pc, snap) ->
  group_thread_step fired pc snap s = Some (v, w, k, pc', snap') ->
  group_inv (GroupState v w k (<[i:=(pc', snap')]> (grp_threads s))).
Proof.
  intros Hinv Hi Hst. destruct (group_inv_bounds s Hinv) as [Hvb Hwb].
  pose proof (gi_waiters _ Hinv). pose proof (gi_sem _ Hinv).
  assert (group_pc_ok (pc, snap)) as Hok by (eapply Forall_lookup_1; [apply (gi_pcs _ Hinv)|done]).
  assert (is_inside (pc, snap) <= inside s) as Hins
    by (apply (zsum_lookup_le _ _ i); [intros [[] ?]; unfold is_inside; simpl; lia|done]).
  pose proof (gi_value _ Hinv) as Hv. unfold LONG_MAX in *.
  destruct pc as [| | |t|t|t|t| |t|t o|t| |n| |r]; simpl in Hst; group_step_unfold; try done.
  - rewrite s64_id in Hst by lia. rewrite (proj2 (Z.geb_le _ _)) in Hst by lia. simplify_eq. group_case.
  - rewrite s64_id in Hst by (group_unfold; lia).
    rewrite (proj2 (Z.gtb_lt _ _)) in Hst by (group_unfold; lia). simplify_eq. group_case.
  - simplify_eq. case_cmp; group_case.
  - simplify_eq. case_cmp; [group_case|]. destruct t; group_case.
  - simplify_eq. case_cmp; group_case.
  - rewrite s64_id in Hst by lia. simplify_eq. group_case.
  - simplify_eq. case_cmp; [group_case|]. destruct t; group_case.
  - destruct fired; [simplify_eq; group_case|]. rewrite Z.gtb_ltb in Hst.
    destruct (Z.ltb_spec 0 (grp_sem s)); simplify_eq. group_case.
  - simplify_eq. case_cmp; simpl; group_case.
  - destruct (Z.eqb_spec (grp_waiters s) o); simplify_eq; [|group_case].
    simpl in Hok. rewrite s64_id by lia. group_case.
  - rewrite Z.gtb_ltb in Hst. destruct (Z.ltb_spec 0 (grp_sem s)); simplify_eq. group_case.
  - rewrite u32_id in Hst by lia. simplify_eq. case_cmp; group_case.
  - simpl in Hok. rewrite u32_id in Hst by lia. simplify_eq. case_cmp; group_case.
Qed.

(** ** What a waiter knows when it returns *)

Lemma inside_from_spec l n j :
  j ∈ inside_from n l <-> exists i snap, (j = n + i)%nat /\ l !! i = Some (GLeave, snap).
Proof.
  revert n. induction l as [|[pc snap] l IH]; intros n; simpl.
  - split; [set_solver|]. by intros (i & snap & _ & ?).
  - assert (j ∈ inside_from (S n) l <-> exists i snap', (j = n + i)%nat /\ i <> 0%nat /\
      ((pc, snap) :: l) !! i = Some (GLeave, snap')) as Hrest.
    { rewrite IH. split.
      - intros (i & sn & -> & Hi). exists (S i), sn. split_and!; [lia|done|done].
      - intros ([|i] & sn & -> & Hne & Hi); [done|]. exists i, sn. split; [lia|done]. }
    assert (forall P : Prop, (P <-> exists i snap', (j = n + i)%nat /\
      ((pc, snap) :: l) !! i = Some (GLeave, snap')) <-> (P <-> (j = n /\ pc = GLeave) \/
      j ∈ inside_from (S n) l)) as Hsplit.
    { intros P. rewrite Hrest. split; intros HP; rewrite HP; split.
      - intros ([|i] & sn & -> & Hi); simplify_eq/=; [left; split; [lia|done]|].
        right. exists (S i), sn. done.
      - intros [[-> ->]|(i & sn & ? & _ & ?)]; [exists 0%nat, snap; split; [lia|done]|eauto].
      - intros [[-> ->]|(i & sn & ? & _ & ?)]; [exists 0%nat, snap; split; [lia|done]|eauto].
      - intros ([|i] & sn & -> & Hi); simplify_eq/=; [left; split; [lia|done]|].
        right. exists (S i), sn. done. }
    apply Hsplit. destruct pc; rewrite ?elem_of_cons; naive_solver.
Qed.

Lemma inside_ids_spec s j :
  j ∈ inside_ids s <-> exists snap, grp_threads s !! j = Some (GLeave, snap).
Proof. unfold inside_ids. rewrite inside_from_spec. naive_solver. Qed.

(** Nobody is inside when the value is back to its origin. *)
Lemma empty_nobody s j snap :
  group_inv s -> grp_value s = LONG_MAX -> grp_threads s !! j <> Some (GLeave, snap).
Proof.
  intros Hinv Hv Hj. pose proof (gi_value _ Hinv).
  assert (is_inside (GLeave, snap) <= inside s); [|unfold is_inside in *; simpl in *; lia].
  apply (zsum_lookup_le _ _ j); [intros [[] ?]; unfold is_inside; simpl; lia|done].
Qed.

Lemma group_thread_facts fired pc snap s v w k pc' snap' :
  group_thread_step fired pc snap s = Some (v, w, k, pc', snap') ->
  pc' <> GEnter /\ (pc <> GEnter -> pc' <> GLeave) /\
  (saw_empty pc' = true -> saw_empty pc = true \/ grp_value s = LONG_MAX \/ pc = GLeaveCheck) /\
  (snap' = snap \/ ((exists t, pc = GWait t) /\ snap' = inside_ids s)).
Proof.
  intros Hst. destruct pc; simpl in Hst; group_step_unfold; try done; repeat case_match;
    simplify_eq/=; repeat case_match; cmp_hyps; naive_solver.
Qed.

Definition snap_inv (s : group_state) : Prop :=
  forall i pc snap j, grp_threads s !! i = Some (pc, snap) -> j ∈ snap ->
    exists pcj snapj, grp_threads s !! j = Some (pcj, snapj) /\ pcj <> GEnter /\
      (saw_empty pc = true -> pcj <> GLeave).

Lemma snap_inv_thread s i fired pc snap v w k pc' snap' :
  group_inv s -> snap_inv s -> grp_threads s !! i = Some (pc, snap) ->
  group_thread_step fired pc snap s = Some (v, w, k, pc', snap') ->
  snap_inv (GroupState v w k (<[i:=(pc', snap')]> (grp_threads s))).
Proof.
  intros Hinv Hsnap Hi Hst. destruct (group_thread_facts _ _ _ _ _ _ _ _ _ Hst) as (He & Hl & Hsaw & Hsn).
  assert (i < length (grp_threads s))%nat as Hlt by (by eapply lookup_lt_Some).
  (* where the threads of a snapshot are after the step *)
  assert (forall j pcj snapj (P : Prop), grp_threads s !! j = Some (pcj, snapj) -> pcj <> GEnter ->
    (P -> pcj <> GLeave) -> exists pcj snapj,
      (<[i:=(pc', snap')]> (grp_threads s)) !! j = Some (pcj, snapj) /\ pcj <> GEnter /\
      (P -> pcj <> GLeave)) as Hmove.
  { intros j pcj snapj P Hj Hje HP. destruct (decide (i = j)) as [<-|Hne].
    - exists pc', snap'. rewrite list_lookup_insert_eq by done. simplify_eq. naive_solver.
    - exists pcj, snapj. by rewrite list_lookup_insert_ne. }
  assert (group_pc_ok (pc, snap)) as Hok by (eapply Forall_lookup_1; [apply (gi_pcs _ Hinv)|done]).
  intros i0 pc0 snap0 j H0 Hj. simpl in *.
  apply list_lookup_insert_Some in H0 as [(<- & Heq & _)|[Hne H0]].
  - injection Heq as <- <-. destruct Hsn as [->|[[t ->] ->]].
    + destruct (Hsnap i pc snap j Hi Hj) as (pcj & snapj & Hjs & Hje & Hjl).
      eapply Hmove; [done|done|]. intros Hs. destruct (Hsaw Hs) as [?|[Hv| ->]].
      * auto.
      * intros ->. by eapply empty_nobody.
      * simpl in Hok. subst snap. set_solver.
    + apply inside_ids_spec in Hj as (snapj & Hjs). eapply Hmove; [done|done|].
      intros Hs. destruct (Hsaw Hs) as [?|[Hv|?]]; [done| |done].
      exfalso. by eapply empty_nobody.
  - destruct (Hsnap i0 pc0 snap0 j H0 Hj) as (pcj & snapj & Hjs & Hje & Hjl). eauto.
Qed.

Lemma group_inv_reachable s : reachable s -> group_inv s /\ snap_inv s.
Proof.
  revert s. apply invariant_reachable.
  - intros s (Hst & Hsz & Heq). split.
    + assert (forall f : group_pc * list nat -> Z, (forall th, group_start th = true -> f th = 0) ->
        zsum f (grp_threads s) = 0) as Hz.
      { intros f Hf. apply zsum_zero. intros th Hth. apply Hf. by eapply Forall_forall in Hst. }
      split; unfold inside, announced, finished, asleep, waking, posts;
        rewrite ?Hz by (by intros [[] ?]); try lia; try (by rewrite Heq).
      eapply Forall_impl; [exact Hst|]. intros [[] []]; simpl; try done.
    + intros i pc snap j Hi Hj. pose proof (Forall_lookup_1 _ _ _ _ Hst Hi) as Hs.
      assert (snap = []) as -> by (destruct pc, snap; done). set_solver.
  - intros s s' [Hinv Hsnap] Hst. destruct Hst. split; [by eapply group_inv_thread|by eapply snap_inv_thread].
Qed.

(** C6: dispatch_group_wait returns 0 only after every member that was inside the group when the
    call began has left it. *)
Theorem group_wait_safe s i snap j :
  reachable s -> grp_threads s !! i = Some (GDone 0, snap) -> j ∈ snap ->
  exists pcj snapj, grp_threads s !! j = Some (pcj, snapj) /\ pcj <> GEnter /\ pcj <> GLeave.
Proof.
  intros [_ Hsnap]%group_inv_reachable Hi Hj.
  destruct (Hsnap i (GDone 0) snap j Hi Hj) as (pcj & snapj & ? & ? & Hl). eauto 10.
Qed.

Definition group_stuck (s : group_state) : Prop := forall s', ~ group_step s s'.

(** C7: no waiter sleeps through the end of the group: when nothing can move and every
    member has left, every call has returned. *)
Theorem group_wait_wakes s :
  reachable s -> group_stuck s -> grp_value s = LONG_MAX ->
  Forall (fun th => exists r, th.1 = GDone r) (grp_threads s).
Proof.
  intros [Hinv _]%group_inv_reachable Hst Hv.
  assert (forall i pc snap, grp_threads s !! i = Some (pc, snap) ->
    match pc with GDone _ => True | GSem _ => grp_sem s = 0 | _ => False end) as Hpcs.
  { intros i pc snap Hi. pose proof (gi_sem _ Hinv).
    assert (group_pc_ok (pc, snap)) as Hok by (eapply Forall_lookup_1; [apply (gi_pcs _ Hinv)|done]).
    assert (forall fired v w k pc' snap', group_thread_step fired pc snap s <> Some (v, w, k, pc', snap'))
      as Hn by (intros fired v w k pc' snap' Hs; by eapply Hst, group_step_thread).
    destruct pc; simpl in *; try done; try (by eapply (Hn true)).
    - destruct (grp_waiters s =? orig); by eapply (Hn true).
    - specialize (Hn true). rewrite Z.gtb_ltb in Hn. destruct (Z.ltb_spec 0 (grp_sem s)); [|lia].
      by destruct (Hn _ _ _ _ _ eq_refl). }
  apply Forall_lookup_2. intros i [pc snap] Hi. pose proof (Hpcs i pc snap Hi) as Hpc.
  destruct pc; try done; [|simpl; eauto]. exfalso.
  assert (posts s = 0 /\ waking s = 0) as [Hp Hw].
  { unfold posts, waking. rewrite !zsum_zero; [done| |]; intros [pc' sn] (j & Hj)%list_elem_of_lookup;
      specialize (Hpcs j pc' sn Hj); by destruct pc'. }
  assert (1 <= announced s) as Ha
    by (apply (zsum_lookup_le is_announced _ i (GSem t, snap)); [intros [[] ?]; unfold is_announced; simpl; lia|done]).
  assert (1 <= asleep s) as Hs
    by (apply (zsum_lookup_le is_asleep _ i (GSem t, snap)); [intros [[] ?]; unfold is_asleep; simpl; lia|done]).
  pose proof (gi_tokens _ Hinv). pose proof (gi_wake _ Hinv Hv). lia.
Qed.

(** ** A concrete run *)

Definition group_exec (i : nat) (fired : bool) (s : group_state) : option group_state :=
  th ← grp_threads s !! i;
  match group_thread_step fired th.1 th.2 s with
  | Some (v, w, k, pc', snap') =>
      Some (GroupState v w k (<[i:=(pc', snap')]> (grp_threads s)))
  | None => None
  end.

Fixpoint group_run (sched : list (nat * bool)) (s : group_state) : option group_state :=
  match sched with
  | [] => Some s
  | (i, fired) :: sched => s' ← group_exec i fired s; group_run sched s'
  end.

Lemma group_run_reachable sched s0 s :
  group_initial s0 -> group_run sched s0 = Some s -> reachable s.
Proof.
  intros H0 Hr. exists s0. split; [done|]. clear H0. revert s0 Hr.
  induction sched as [|[i fired] sched IH]; intros s0 Hr; simpl in Hr.
  - by injection Hr as <-.
  - apply bind_Some in Hr as (s1 & Hs & Hr). eapply rtc_l; [|eauto].
    unfold group_exec in Hs. apply bind_Some in Hs as ([pc snap] & Hi & Hs). simpl in Hs.
    destruct (group_thread_step fired pc snap s0) as [[[[[v w] k] pc'] snap']|] eqn:Hst; [|done].
    injection Hs as <-. by eapply group_step_thread.
Qed.

(** A member enters, two waiters come, one of them sleeps, the member leaves and wakes it. *)
Definition group_ex0 : group_state :=
  GroupState LONG_MAX 0 0 [(GEnter, []); (GWait TimeForever, []); (GWait TimeNow, [])].
Definition group_ex_sched : list (nat * bool) :=
  (fun i => (i, false)) <$> [0; 1; 2; 1; 1; 1; 0; 0; 0; 0; 1; 1; 1]%nat.
Definition group_ex_end : group_state :=
  GroupState LONG_MAX 0 0 [(GDone 0, []); (GDone 0, [0%nat]); (GDone (-1), [0%nat])].

Lemma group_ex0_initial : group_initial group_ex0.
Proof. split_and!; [repeat constructor|vm_compute; done|done]. Qed.
Lemma group_ex_run : group_run group_ex_sched group_ex0 = Some group_ex_end.
Proof. vm_compute. reflexivity. Qed.

Lemma group_wait_safe_witness :
  exists pcj snapj, grp_threads group_ex_end !! 0%nat = Some (pcj, snapj) /\
    pcj <> GEnter /\ pcj <> GLeave.
Proof.
  apply (group_wait_safe group_ex_end 1 [0%nat] 0).
  - apply (group_run_reachable group_ex_sched group_ex0 _ group_ex0_initial group_ex_run).
  - reflexivity.
  - set_solver.
Defined.

Lemma group_wait_wakes_witness :
  Forall (fun th => exists r, th.1 = GDone r) (grp_threads group_ex_end).
Proof.
  apply (group_wait_wakes group_ex_end).
  - apply (group_run_reachable group_ex_sched group_ex0 _ group_ex0_initial group_ex_run).
  - intros s' Hst. inversion Hst as [? i fired pc snap v w k pc' snap' Hi Hw]; subst.
    destruct i as [|[|[|i]]]; simplify_eq/=.
  - reflexivity.
Defined.
