(* ===== verification/Apply.v ===== *)
(** * Parallel loops: dispatch_apply_f

    Models apply.c.  [apply_plan] is the decision [dispatch_apply_f] takes from the number of
    iterations, the processors and the queue; [_dispatch_apply_serial] is the loop it runs on a narrow
    queue; and a transition system is the parallel case: the workers share da_index and
    da_thr_cnt, the last one signals da_sema and the caller waits for it.  The semaphore
    is used only through the contract [sem_spec] of Semaphore.v.  The functions called are
    recorded in [ap_calls] in the order they start. *)

From S2P Require Import Prelude Semaphore.
From stdpp Require Import base tactics list numbers relations.
From Stdlib Require Import ZArith Lia.

Local Open Scope Z_scope.

Definition DISPATCH_APPLY_MAX_CPUS : Z := 256.

Inductive apply_decision :=
| ApplyNothing
| ApplySerial
| ApplyPushed (thr_cnt : Z)     (* every worker is pushed on the queue *)
| ApplyBorrow (thr_cnt : Z).    (* the caller is the first worker *)

Definition apply_plan (iterations cc_max_active dq_width : Z) (has_target : bool) : apply_decision :=
  let da_thr_cnt := u64 cc_max_active in
  let da_thr_cnt := if da_thr_cnt >? DISPATCH_APPLY_MAX_CPUS then DISPATCH_APPLY_MAX_CPUS else da_thr_cnt in
  if iterations =? 0 then ApplyNothing
  else
    let da_thr_cnt := if iterations <? da_thr_cnt then u32 iterations else da_thr_cnt in
    if (dq_width <=? 2) || (da_thr_cnt <=? 1) then ApplySerial
    else if has_target then ApplyPushed da_thr_cnt else ApplyBorrow da_thr_cnt.

(** The calls of the do-while loop of _dispatch_apply_serial. *)
Fixpoint apply_serial_loop (fuel : nat) (idx iterations : Z) : list Z :=
  match fuel with
  | O => []
  | S n =>
      let idx' := u64 (idx + 1) in
      idx :: if idx' <? iterations then apply_serial_loop n idx' iterations else []
  end.
Definition _dispatch_apply_serial (iterations : Z) : list Z :=
  apply_serial_loop (Z.to_nat iterations) 0 iterations.

(** ** The parallel case *)

Inductive apply_pc :=
| AInc            (* idx = dispatch_atomic_inc(&da->da_index) - 1 *)
| ACall (idx : Z) (* inside func(ctxt, idx) *)
| ADec            (* dispatch_atomic_dec(&da->da_thr_cnt) *)
| ASignal         (* dispatch_semaphore_signal(da->da_sema) *)
| AExit.

Record apply_state := ApplyState {
  da_index : Z;
  da_thr_cnt : Z;
  da_sema : Z;                    (* permits of the thread's semaphore *)
  ap_calls : list Z;
  ap_workers : list apply_pc;
  ap_returned : bool              (* dispatch_apply_f has returned *)
}.

Section apply.
Context (da_iterations : Z).
Context (borrow : bool).          (* worker 0 runs on the caller's thread, before it waits *)

(** _dispatch_apply2, one access at a time: da_index, da_thr_cnt, the call made if any and
    the next control point.  The signal is the only step that is not here. *)
Definition _dispatch_apply2 (pc : apply_pc) (s : apply_state) : option (Z * Z * list Z * apply_pc) :=
  match pc with
  | AInc =>
      let index := u64 (da_index s + 1) in
      let idx := u64 (index - 1) in
      if idx <? da_iterations then Some (index, da_thr_cnt s, [idx], ACall idx)
      else Some (index, da_thr_cnt s, [], ADec)
  | ACall _ => Some (da_index s, da_thr_cnt s, [], AInc)
  | ADec =>
      let cnt := u64 (da_thr_cnt s - 1) in
      Some (da_index s, cnt, [], if cnt =? 0 then ASignal else AExit)
  | ASignal | AExit => None
  end.

Inductive apply_step : apply_state -> apply_state -> Prop :=
| apply_step_worker s i pc index cnt calls pc' :
    ap_workers s !! i = Some pc -> _dispatch_apply2 pc s = Some (index, cnt, calls, pc') ->
    apply_step s (ApplyState index cnt (da_sema s) (ap_calls s ++ calls)
                    (<[i:=pc']> (ap_workers s)) (ap_returned s))
| apply_step_signal s i n :
    ap_workers s !! i = Some ASignal -> n = da_sema s + 1 -> sem_spec (da_sema s) n ->
    apply_step s (ApplyState (da_index s) (da_thr_cnt s) n (ap_calls s)
                    (<[i:=AExit]> (ap_workers s)) (ap_returned s))
| apply_step_wait s n :
    ap_returned s = false -> (borrow = true -> ap_workers s !! 0%nat = Some AExit) ->
    n = da_sema s - 1 -> sem_spec (da_sema s) n ->
    apply_step s (ApplyState (da_index s) (da_thr_cnt s) n (ap_calls s) (ap_workers s) true).

Definition apply_initial (s : apply_state) : Prop :=
  exists n, (0 < n)%nat /\ 0 < da_iterations /\ da_iterations + Z.of_nat n < UINT64_MAX /\
    s = ApplyState 0 (Z.of_nat n) 0 [] (replicate n AInc) false.

#[local] Instance apply_ts : TransitionSystem apply_state := {
  ts_init := apply_initial;
  ts_step := apply_step
}.

(** ** Invariant *)

(** Workers that found no index left. *)
Definition is_over (pc : apply_pc) : Z := match pc with ADec | ASignal | AExit => 1 | _ => 0 end.
(** Workers that da_thr_cnt counts. *)
Definition is_counted (pc : apply_pc) : Z := match pc with AInc | ACall _ | ADec => 1 | _ => 0 end.
Definition is_signalling (pc : apply_pc) : Z := match pc with ASignal => 1 | _ => 0 end.

Definition over s := zsum is_over (ap_workers s).
Definition counted s := zsum is_counted (ap_workers s).
Definition signalling s := zsum is_signalling (ap_workers s).
Definition started s := Z.of_nat (length (ap_calls s)).

Record apply_inv (s : apply_state) : Prop := {
  ai_size : 0 < da_iterations /\ 0 < Z.of_nat (length (ap_workers s)) /\
    da_iterations + Z.of_nat (length (ap_workers s)) < UINT64_MAX;
  ai_calls : ap_calls s = seqZ 0 (started s);
  ai_index : da_index s = started s + over s;
  ai_started : started s <= da_iterations;
  ai_over : 0 < over s -> started s = da_iterations;
  ai_cnt : da_thr_cnt s = counted s;
  ai_signal : da_sema s + signalling s + (if ap_returned s then 1 else 0) =
              (if da_thr_cnt s =? 0 then 1 else 0);
  ai_sema : 0 <= da_sema s
}.

Lemma over_range s : 0 <= over s <= Z.of_nat (length (ap_workers s)).
Proof. apply zsum_bound. intros []; simpl; lia. Qed.
Lemma counted_range s : 0 <= counted s <= Z.of_nat (length (ap_workers s)).
Proof. apply zsum_bound. intros []; simpl; lia. Qed.
Lemma signalling_range s : 0 <= signalling s <= Z.of_nat (length (ap_workers s)).
Proof. apply zsum_bound. intros []; simpl; lia. Qed.

Lemma apply_inv_worker s i pc index cnt calls pc' :
  apply_inv s -> ap_workers s !! i = Some pc -> _dispatch_apply2 pc s = Some (index, cnt, calls, pc') ->
  apply_inv (ApplyState index cnt (da_sema s) (ap_calls s ++ calls)
                    (<[i:=pc']> (ap_workers s)) (ap_returned s)).
Proof.
  intros Hinv Hi Hst. pose proof (over_range s) as Ho. pose proof (counted_range s) as Hc.
  pose proof (signalling_range s) as Hsg.
  assert (is_counted pc <= counted s) as Hpc
    by (apply (zsum_lookup_le _ _ i); [intros []; simpl; lia|done]).
  destruct Hinv as [Hsz Hcalls Hidx Hst' Hov Hcnt Hsig Hsem].
  assert (0 <= started s) by (unfold started; lia).
  unfold over, counted, signalling, started, UINT64_MAX in *.
  destruct pc as [|idx| | |]; simpl in Hst, Hpc; try done.
  - rewrite (u64_id (da_index s + 1)), u64_id in Hst by lia.
    replace (da_index s + 1 - 1) with (da_index s) in Hst by lia.
    destruct (Z.ltb_spec (da_index s) da_iterations) as [Hlt|Hge]; simplify_eq.
    + assert (zsum is_over (ap_workers s) = 0) as Hz by lia.
      split; unfold over, counted, signalling, started, UINT64_MAX; simpl;
        rewrite ?(zsum_insert _ _ _ _ _ Hi), ?length_insert, ?length_app; simpl; try lia.
      rewrite Hcalls at 1.
      replace (Z.of_nat (length (ap_calls s) + 1)) with (Z.of_nat (length (ap_calls s)) + 1) by lia.
      rewrite seqZ_app by lia. f_equal. unfold seqZ. change (Z.to_nat 1) with 1%nat. simpl. f_equal. lia.
    + split; unfold over, counted, signalling, started, UINT64_MAX; simpl;
        rewrite ?(zsum_insert _ _ _ _ _ Hi), ?length_insert, ?app_nil_r; simpl; try lia. done.
  - simplify_eq. split; unfold over, counted, signalling, started, UINT64_MAX; simpl;
      rewrite ?(zsum_insert _ _ _ _ _ Hi), ?length_insert, ?app_nil_r; simpl; try lia. done.
  - rewrite u64_id in Hst by lia. simplify_eq.
    split; unfold over, counted, signalling, started, UINT64_MAX; simpl;
      rewrite ?(zsum_insert _ _ _ _ _ Hi), ?length_insert, ?app_nil_r; repeat case_cmp; simpl in *;
      repeat case_match; cmp_hyps; try lia; done.
Qed.

Lemma apply_inv_step s s' : apply_inv s -> apply_step s s' -> apply_inv s'.
Proof.
  intros Hinv Hst.
  destruct Hst as [s i pc index cnt calls pc' Hi Hw|s i n Hi -> _|s n Hret _ -> Hspec].
  - by eapply apply_inv_worker.
  - destruct Hinv. unfold over, counted, signalling, started in *.
    split; unfold over, counted, signalling, started; simpl;
      rewrite ?(zsum_insert _ _ _ _ _ Hi), ?length_insert; simpl; try lia; done.
  - destruct Hinv. unfold over, counted, signalling, started in *. rewrite Hret in *.
    split; unfold over, counted, signalling, started; simpl; try lia; try done.
    inversion Hspec; lia.
Qed.

Lemma apply_inv_initial s : apply_initial s -> apply_inv s.
Proof.
  intros (n & Hn & Hit & Hsz & ->).
  split; unfold over, counted, signalling, started; simpl;
    rewrite ?zsum_replicate, ?length_replicate; simpl; try lia; try done.
  case_cmp; lia.
Qed.

Lemma apply_inv_reachable s : reachable s -> apply_inv s.
Proof. revert s. apply invariant_reachable; [apply apply_inv_initial|apply apply_inv_step]. Qed.

(** When the caller has returned, or is about to be able to, nobody uses da any more. *)
Lemma apply_finished s :
  apply_inv s -> da_thr_cnt s = 0 -> signalling s = 0 ->
  Forall (fun pc => pc = AExit) (ap_workers s) /\ started s = da_iterations.
Proof.
  intros Hinv Hcnt Hsig. pose proof (ai_cnt _ Hinv) as Hc.
  assert (Forall (fun pc => pc = AExit) (ap_workers s)) as Hall.
  { apply Forall_lookup_2. intros i pc Hi.
    assert (is_counted pc <= counted s)
      by (apply (zsum_lookup_le _ _ i); [intros []; simpl; lia|done]).
    assert (is_signalling pc <= signalling s)
      by (apply (zsum_lookup_le _ _ i); [intros []; simpl; lia|done]).
    destruct pc; simpl in *; done || lia. }
  split; [done|]. apply (ai_over _ Hinv).
  destruct (ai_size _ Hinv) as (_ & Hn & _). unfold over.
  destruct (ap_workers s) as [|pc l]; simpl in *; [lia|].
  apply Forall_cons in Hall as [-> _]. simpl.
  pose proof (zsum_nonneg is_over l ltac:(intros []; simpl; lia)). lia.
Qed.

Lemma serial_loop fuel idx :
  0 <= idx < da_iterations -> da_iterations < 2 ^ 64 -> (Z.to_nat (da_iterations - idx) <= fuel)%nat ->
  apply_serial_loop fuel idx da_iterations = seqZ idx (da_iterations - idx).
Proof.
  revert idx. induction fuel as [|n IH]; intros idx Hidx Hit Hf; [lia|]. simpl.
  rewrite u64_id by lia. rewrite (seqZ_cons idx) by lia. f_equal.
  case_cmp.
  - rewrite IH by lia. unfold seqZ. f_equal. f_equal. lia.
  - rewrite (seqZ_nil (Z.succ idx)); [done|lia].
Qed.

End apply.

(** C26: when dispatch_apply_f returns from the parallel case, the function has been called for
    exactly the indices of the serial loop, each once, every call has finished, and no worker will
    touch the structure on the caller's stack again. *)
Theorem apply_exactly_once iterations borrow s :
  @reachable _ (apply_ts iterations borrow) s -> ap_returned s = true ->
  ap_calls s = _dispatch_apply_serial iterations /\
  Forall (fun pc => pc = AExit) (ap_workers s).
Proof.
  intros Hinv%apply_inv_reachable Hret. pose proof (ai_signal _ _ Hinv) as Hsig. rewrite Hret in Hsig.
  pose proof (ai_sema _ _ Hinv). pose proof (signalling_range s).
  destruct (Z.eqb_spec (da_thr_cnt s) 0) as [Hz|]; [|lia].
  destruct (apply_finished _ s Hinv Hz ltac:(lia)) as [Hall Hst]. split; [|done].
  destruct (ai_size _ _ Hinv) as (? & ? & Hlt). unfold UINT64_MAX in Hlt.
  unfold _dispatch_apply_serial. rewrite serial_loop by lia.
  rewrite (ai_calls _ _ Hinv), Hst. f_equal. lia.
Qed.

Definition apply_stuck (borrow : bool) (iterations : Z) (s : apply_state) : Prop :=
  forall s', ~ apply_step iterations borrow s s'.

(** dispatch_apply_f does not deadlock: a state in which nothing can move is one in
    which it has returned. *)
Theorem apply_returns iterations borrow s :
  @reachable _ (apply_ts iterations borrow) s -> apply_stuck borrow iterations s ->
  ap_returned s = true.
Proof.
  intros Hinv%apply_inv_reachable Hst. destruct (ap_returned s) eqn:Hret; [done|]. exfalso.
  assert (forall i pc, ap_workers s !! i = Some pc -> pc = AExit) as Hexit.
  { intros i pc Hi. destruct pc; try done; exfalso.
    - destruct (_dispatch_apply2 iterations AInc s) as [[[[index cnt] calls] pc']|] eqn:Hw.
      + by eapply Hst, apply_step_worker.
      + simpl in Hw. by case_match.
    - by eapply Hst, apply_step_worker.
    - by eapply Hst, apply_step_worker.
    - eapply Hst, apply_step_signal; [done|done|constructor]. }
  assert (counted s = 0 /\ signalling s = 0) as [Hc Hs].
  { unfold counted, signalling. rewrite !zsum_zero; [done| |]; intros pc (i & Hi)%list_elem_of_lookup;
      by rewrite (Hexit i pc Hi). }
  pose proof (ai_signal _ _ Hinv) as Hsig. rewrite Hret, Hs, (ai_cnt _ _ Hinv), Hc in Hsig. simpl in Hsig.
  eapply Hst, apply_step_wait; [done| |done|].
  - intros _. destruct (ai_size _ _ Hinv) as (_ & Hn & _).
    destruct (lookup_lt_is_Some_2 (ap_workers s) 0 ltac:(lia)) as [pc Hpc]. by rewrite (Hexit 0%nat pc Hpc) in Hpc.
  - constructor. lia.
Qed.

(** the number of workers that dispatch_apply_f starts is between 2 and the number of iterations,
    of active processors and of DISPATCH_APPLY_MAX_CPUS, so the on-stack array of continuations is
    never overrun and no worker is idle from the start. *)
Theorem apply_plan_bounds iterations cc_max_active dq_width has_target n :
  in_u64 iterations -> in_u64 cc_max_active ->
  (apply_plan iterations cc_max_active dq_width has_target = ApplyPushed n \/
   apply_plan iterations cc_max_active dq_width has_target = ApplyBorrow n) ->
  2 <= n <= iterations /\ n <= cc_max_active /\ n <= DISPATCH_APPLY_MAX_CPUS /\ 2 < dq_width.
Proof.
  intros Hi Hc Hp. unfold apply_plan, DISPATCH_APPLY_MAX_CPUS in *. rewrite u64_id in Hp by lia.
  destruct (Z.eqb_spec iterations 0) as [|Hne]; [by destruct Hp|].
  set (cnt := if cc_max_active >? 256 then 256 else cc_max_active) in Hp.
  assert (0 <= cnt <= 256 /\ cnt <= cc_max_active) as [Hcnt Hcnt']
    by (unfold cnt; rewrite Z.gtb_ltb; case_cmp; lia).
  clearbody cnt. set (cnt2 := if iterations <? cnt then u32 iterations else cnt) in Hp.
  assert (cnt2 <= iterations /\ cnt2 <= cnt) as [H2 H2'].
  { unfold cnt2. case_cmp; [rewrite u32_id|]; lia. }
  clearbody cnt2. destruct (Z.leb_spec dq_width 2), (Z.leb_spec cnt2 1); simpl in Hp; try (by destruct Hp).
  destruct has_target, Hp; simplify_eq; lia.
Qed.

(** ** Concrete runs *)

Definition apply_exec (iterations : Z) (i : nat) (s : apply_state) : option apply_state :=
  pc ← ap_workers s !! i;
  match _dispatch_apply2 iterations pc s with
  | Some (index, cnt, calls, pc') =>
      Some (ApplyState index cnt (da_sema s) (ap_calls s ++ calls) (<[i:=pc']> (ap_workers s)) (ap_returned s))
  | None =>
      match pc with
      | ASignal => Some (ApplyState (da_index s) (da_thr_cnt s) (da_sema s + 1) (ap_calls s)
                           (<[i:=AExit]> (ap_workers s)) (ap_returned s))
      | _ => None
      end
  end.
Fixpoint apply_run (iterations : Z) (sched : list nat) (s : apply_state) : option apply_state :=
  match sched with
  | [] => Some s
  | i :: sched => s' ← apply_exec iterations i s; apply_run iterations sched s'
  end.

Lemma apply_run_rtc iterations borrow sched s s' :
  apply_run iterations sched s = Some s' -> rtc (apply_step iterations borrow) s s'.
Proof.
  revert s. induction sched as [|i sched IH]; intros s Hr; simpl in Hr; [by injection Hr as <-|].
  apply bind_Some in Hr as (s1 & Hs & Hr). eapply rtc_l; [|eauto].
  unfold apply_exec in Hs. apply bind_Some in Hs as (pc & Hi & Hs).
  destruct (_dispatch_apply2 iterations pc s) as [[[[index cnt] calls] pc']|] eqn:Hw.
  - injection Hs as <-. by eapply apply_step_worker.
  - destruct pc; try done. injection Hs as <-. eapply apply_step_signal; [done|done|constructor].
Qed.

(** Three indices, two workers. *)
Definition apply_ex0 : apply_state := ApplyState 0 2 0 [] [AInc; AInc] false.
Definition apply_ex_sched : list nat := [0; 1; 1; 1; 0; 0; 0; 1; 1; 1; 1]%nat.
Definition apply_ex_end : apply_state := ApplyState 5 0 0 [0; 1; 2] [AExit; AExit] true.

Lemma apply_ex_reachable : @reachable _ (apply_ts 3 true) apply_ex_end.
Proof.
  exists apply_ex0. split.
  - exists 2%nat. split_and!; [lia|lia|vm_compute; done|done].
  - apply (rtc_r _ (ApplyState 5 0 1 [0; 1; 2] [AExit; AExit] false)).
    + apply (apply_run_rtc 3 true apply_ex_sched). vm_compute. reflexivity.
    + apply (apply_step_wait 3 true (ApplyState 5 0 1 [0; 1; 2] [AExit; AExit] false) 0);
        [done|done|done|]. by apply (spec_take 1).
Qed.

Lemma apply_exactly_once_witness :
  ap_calls apply_ex_end = _dispatch_apply_serial 3 /\
  Forall (fun pc => pc = AExit) (ap_workers apply_ex_end).
Proof. apply (apply_exactly_once 3 true apply_ex_end apply_ex_reachable). reflexivity. Defined.

Lemma apply_returns_witness : ap_returned apply_ex_end = true.
Proof.
  apply (apply_returns 3 true apply_ex_end apply_ex_reachable).
  intros s' Hst. inversion Hst as [? i pc index cnt calls pc' Hi Hw|? i n Hi|? n Hr]; subst.
  - destruct i as [|[|i]]; simplify_eq/=.
  - destruct i as [|[|i]]; simplify_eq/=.
  - done.
Defined.

Lemma apply_plan_bounds_witness :
  apply_plan 1000 8 4 true = ApplyPushed 8 /\
  (2 <= 8 <= 1000 /\ 8 <= 8 /\ 8 <= DISPATCH_APPLY_MAX_CPUS /\ 2 < 4).
Proof.
  split; [reflexivity|]. apply (apply_plan_bounds 1000 8 4 true 8); [lia|lia|left; reflexivity].
Defined.
