(* ===== verification/DispatchObject.v ===== *)
(** * Objects: memory, reference counts, suspension

    Models object.c, object_internal.h, the continuation cache (continuation_cache.c and .h) and the
    thread-specific data they use.  The memory of libdispatch is a map from (address, field) to a
    machine word, with the set of live addresses: an access through a pointer to something
    freed is a [Fault].  Function pointers and vtables are words too; internal functions and
    vtables are named constants, client functions are positive numbers.

    Objects, queues and workers call each other in cycles (a release disposes, a dispose submits
    the finalizer, a submission wakes a worker), so every function that takes part in one is
    written with the recursive call as an argument: [dcall] names the calls, and DispatchQueue.v
    ties the knot.  Each function runs without interference from other threads; what
    concurrent threads may do to the shared words is the subject of MpscQueue.v, Semaphore.v and
    Group.v. *)

From S2P Require Import Prelude.
From stdpp Require Import base tactics list numbers gmap strings countable.
From Stdlib Require Import ZArith Lia.

Local Open Scope Z_scope.

(** ** Memory *)

Inductive fld :=
(* DISPATCH_STRUCT_HEADER *)
| do_vtable | do_next | do_ref_cnt | do_xref_cnt | do_suspend_cnt | do_targetq | do_ctxt | do_finalizer
(* DISPATCH_QUEUE_HEADER *)
| dq_running | dq_width | dq_items_tail | dq_items_head | dq_serialnum
(* struct dispatch_continuation_s *)
| dc_func | dc_ctxt | dc_group | dc_data0 | dc_data1
(* struct dispatch_root_queue_context_s *)
| dgq_kworkqueue | dgq_pending | dgq_thread_pool_size | dgq_thread_mediator
(* struct dispatch_semaphore_s *)
| dsema_value | dsema_orig | dsema_sent_ksignals | dsema_sem | dsema_group_waiters
| dsema_notify_head | dsema_notify_tail
(* struct dispatch_sema_notify_s *)
| dsn_next | dsn_queue | dsn_ctxt | dsn_func
(* struct dispatch_barrier_sync_slow2_s *)
| dbss2_dq | dbss2_func | dbss2_ctxt | dbss2_sema
(* static variables *)
| once_pred | callback_driven | safe_fork | main_q_handler | main_q_is_draining.

#[export] Instance fld_eq_dec : EqDecision fld.
Proof. solve_decision. Defined.

Definition all_flds : list fld :=
  [do_vtable; do_next; do_ref_cnt; do_xref_cnt; do_suspend_cnt; do_targetq; do_ctxt; do_finalizer;
   dq_running; dq_width; dq_items_tail; dq_items_head; dq_serialnum;
   dc_func; dc_ctxt; dc_group; dc_data0; dc_data1; dgq_kworkqueue; dgq_pending;
   dgq_thread_pool_size; dgq_thread_mediator;
   dsema_value; dsema_orig; dsema_sent_ksignals; dsema_sem; dsema_group_waiters;
   dsema_notify_head; dsema_notify_tail; dsn_next; dsn_queue; dsn_ctxt; dsn_func;
   dbss2_dq; dbss2_func; dbss2_ctxt; dbss2_sema; once_pred; callback_driven; safe_fork;
   main_q_handler; main_q_is_draining].

Fixpoint fld_index (f : fld) (l : list fld) : nat :=
  match l with [] => 0 | g :: l => if decide (f = g) then 0 else S (fld_index f l) end.

#[export] Program Instance fld_countable : Countable fld :=
  inj_countable' (fun f => fld_index f all_flds) (fun n => default do_vtable (all_flds !! n)) _.
Next Obligation. by intros []. Qed.

Record world := World {
  w_mem : gmap (Z * fld) Z;
  w_live : gset Z;
  w_brk : Z;                      (* the next address of the allocator *)
  w_queue_key : Z;                (* dispatch_queue_key, dispatch_sema4_key and *)
  w_sema4_key : Z;                (* dispatch_cache_key of the running thread *)
  w_cache_key : Z;
  w_serial : Z;                   (* _dispatch_queue_serial_numbers *)
  w_work : list Z;                (* work items requested from the workqueue: root queues *)
  w_log : list (Z * Z * Z)        (* client functions called: function, context, current queue *)
}.

Notation W := (M world).

Definition set_wmem m w := World m (w_live w) (w_brk w) (w_queue_key w) (w_sema4_key w) (w_cache_key w)
  (w_serial w) (w_work w) (w_log w).
Definition set_live l w := World (w_mem w) l (w_brk w) (w_queue_key w) (w_sema4_key w) (w_cache_key w)
  (w_serial w) (w_work w) (w_log w).
Definition set_queue_key q w := World (w_mem w) (w_live w) (w_brk w) q (w_sema4_key w) (w_cache_key w)
  (w_serial w) (w_work w) (w_log w).
Definition set_sema4_key s w := World (w_mem w) (w_live w) (w_brk w) (w_queue_key w) s (w_cache_key w)
  (w_serial w) (w_work w) (w_log w).
Definition set_cache_key c w := World (w_mem w) (w_live w) (w_brk w) (w_queue_key w) (w_sema4_key w) c
  (w_serial w) (w_work w) (w_log w).
Definition set_serial n w := World (w_mem w) (w_live w) (w_brk w) (w_queue_key w) (w_sema4_key w)
  (w_cache_key w) n (w_work w) (w_log w).
Definition set_work l w := World (w_mem w) (w_live w) (w_brk w) (w_queue_key w) (w_sema4_key w)
  (w_cache_key w) (w_serial w) l (w_log w).
Definition add_log e w := World (w_mem w) (w_live w) (w_brk w) (w_queue_key w) (w_sema4_key w)
  (w_cache_key w) (w_serial w) (w_work w) (w_log w ++ [e]).

Definition field (w : world) (a : Z) (f : fld) : Z := default 0 (w_mem w !! (a, f)).

Definition ld (a : Z) (f : fld) : W Z := fun w =>
  if decide (a ∈ w_live w) then Ret (field w a f) w else Fault w.
Definition st (a : Z) (f : fld) (v : Z) : W unit := fun w =>
  if decide (a ∈ w_live w) then Ret tt (set_wmem (<[(a, f):=v]> (w_mem w)) w) else Fault w.

(** calloc: a fresh block of zeroes; the callers in these files loop until it succeeds. *)
Definition calloc : W Z := fun w =>
  let a := w_brk w in
  Ret a (World (w_mem w) ({[a]} ∪ w_live w) (a + 4096) (w_queue_key w) (w_sema4_key w) (w_cache_key w)
           (w_serial w) (w_work w) (w_log w)).
Definition free (a : Z) : W unit := modify (fun w => set_live (w_live w ∖ {[a]}) w).

(** dispatch_atomic_add and dispatch_atomic_sub on an intptr_t or uintptr_t; they return the
    new value. *)
Definition atomic_add (a : Z) (f : fld) (n : Z) : W Z :=
  v ← ld a f; st a f (s64 (v + n));; mret (s64 (v + n)).
Definition atomic_cmpxchg (a : Z) (f : fld) (old new : Z) : W bool :=
  v ← ld a f; if v =? old then st a f new;; mret true else mret false.
Definition atomic_xchg (a : Z) (f : fld) (new : Z) : W Z := v ← ld a f; st a f new;; mret v.

(** ** Constants *)

Definition DISPATCH_OBJECT_GLOBAL_REFCNT : Z := 4294967295.
Definition DISPATCH_OBJECT_SUSPEND_LOCK : Z := 1.
Definition DISPATCH_OBJECT_SUSPEND_INTERVAL : Z := 2.
Definition DISPATCH_OBJECT_LISTLESS : Z := 0xffffffff89abcdef.
Definition DISPATCH_OBJ_ASYNC_BIT : Z := 1.
Definition DISPATCH_OBJ_BARRIER_BIT : Z := 2.
Definition DISPATCH_OBJ_GROUP_BIT : Z := 4.

(** Addresses of the vtables; all above the low page. *)
Definition _dispatch_queue_vtable : Z := 0x10001.
Definition _dispatch_queue_root_vtable : Z := 0x10002.
Definition _dispatch_semaphore_vtable : Z := 0x30000.
Definition _dispatch_source_kevent_vtable : Z := 0x20001.

Definition DISPATCH_OBJ_IS_VTABLE (v : Z) : bool := v >? 127.
Definition has_bit (v bit : Z) : bool := negb (Z.land v bit =? 0).

(** ** The calls of the cycle *)

Inductive dcall :=
| KFunc (f ctxt : Z)                (* through a function pointer *)
| KWakeup (o : Z)
| KRetain (o : Z)
| KRelease (o : Z)
| KDispatchRelease (o : Z)
| KDispose (o : Z)                  (* dx_dispose *)
| KPush (q head tail : Z)
| KAsync (q ctxt f : Z)
| KBarrierAsync (q ctxt f : Z)
| KSync (q ctxt f : Z)
| KBarrierSync (q ctxt f : Z)
| KInvoke (q : Z)
| KDrain (q : Z)
| KPop (dc : Z)
| KWorker (q : Z)
| KSemaWait (s : Z)
| KSemaSignal (s : Z)
| KGroupLeave (g : Z)
| KGroupWake (g : Z)
| KResume (o : Z)
| KSourceXrefRelease (ds : Z).

Section object.
Context (call : dcall -> W Z).

Definition DISPATCH_OBJECT_SUSPENDED (o : Z) : W bool :=
  v ← ld o do_suspend_cnt; mret (v >=? DISPATCH_OBJECT_SUSPEND_INTERVAL).
Definition _dispatch_trylock (o : Z) : W bool :=
  atomic_cmpxchg o do_suspend_cnt 0 DISPATCH_OBJECT_SUSPEND_LOCK.

Definition dispatch_retain (obj : Z) : W Z :=
  x ← ld obj do_xref_cnt;
  if x =? DISPATCH_OBJECT_GLOBAL_REFCNT then mret 0
  else
    v ← atomic_add obj do_xref_cnt 1;
    if v - 1 =? 0 then crash "Resurrection of an object" else mret 0.

Definition _dispatch_retain (obj : Z) : W Z :=
  x ← ld obj do_ref_cnt;
  if x =? DISPATCH_OBJECT_GLOBAL_REFCNT then mret 0
  else
    v ← atomic_add obj do_ref_cnt 1;
    if v - 1 =? 0 then crash "Resurrection of an object" else mret 0.

Definition _dispatch_release (obj : Z) : W Z :=
  x ← ld obj do_ref_cnt;
  if x =? DISPATCH_OBJECT_GLOBAL_REFCNT then mret 0
  else
    v ← atomic_add obj do_ref_cnt (-1);
    let oldval := v + 1 in
    if oldval >? 1 then mret 0
    else if oldval =? 1 then
      nxt ← ld obj do_next;
      if negb (nxt =? DISPATCH_OBJECT_LISTLESS) then crash "release while enqueued"
      else
        x ← ld obj do_xref_cnt;
        if negb (x =? 0) then crash "release while external references exist"
        else call (KDispose obj)
    else crash "over-release".

Definition dispatch_release (obj : Z) : W Z :=
  x ← ld obj do_xref_cnt;
  if x =? DISPATCH_OBJECT_GLOBAL_REFCNT then mret 0
  else
    v ← atomic_add obj do_xref_cnt (-1);
    let oldval := v + 1 in
    if oldval >? 1 then mret 0
    else if oldval =? 1 then
      vt ← ld obj do_vtable;
      if vt =? _dispatch_source_kevent_vtable then call (KSourceXrefRelease obj)
      else
        susp ← DISPATCH_OBJECT_SUSPENDED obj;
        if (susp : bool) then crash "Release of a suspended object"
        else call (KRelease obj)
    else crash "Over-release of an object".

(** The part of dispose that all objects share. *)
Definition _dispatch_dispose (obj : Z) : W Z :=
  tq ← ld obj do_targetq;
  func ← ld obj do_finalizer;
  ctxt ← ld obj do_ctxt;
  st obj do_vtable 0x200;;
  free obj;;
  (if negb (func =? 0) && negb (ctxt =? 0) then call (KAsync tq ctxt func) else mret 0);;
  call (KRelease tq).

Definition dispatch_get_context (obj : Z) : W Z := ld obj do_ctxt.
Definition dispatch_set_context (obj context : Z) : W Z :=
  r ← ld obj do_ref_cnt;
  if negb (r =? DISPATCH_OBJECT_GLOBAL_REFCNT) then st obj do_ctxt context;; mret 0 else mret 0.
Definition dispatch_set_finalizer_f (obj finalizer : Z) : W Z :=
  st obj do_finalizer finalizer;; mret 0.

Definition dispatch_suspend (obj : Z) : W Z :=
  r ← ld obj do_ref_cnt;
  if r =? DISPATCH_OBJECT_GLOBAL_REFCNT then mret 0
  else atomic_add obj do_suspend_cnt DISPATCH_OBJECT_SUSPEND_INTERVAL;; mret 0.

Definition dispatch_resume (obj : Z) : W Z :=
  r ← ld obj do_ref_cnt;
  if r =? DISPATCH_OBJECT_GLOBAL_REFCNT then mret 0
  else
    v ← atomic_add obj do_suspend_cnt (- DISPATCH_OBJECT_SUSPEND_INTERVAL);
    let prev := v + DISPATCH_OBJECT_SUSPEND_INTERVAL in
    if prev =? DISPATCH_OBJECT_SUSPEND_INTERVAL then call (KWakeup obj);; mret 0
    else if (prev =? DISPATCH_OBJECT_SUSPEND_LOCK) || (prev =? 0)
    then crash "Over-resume of an object"
    else mret 0.

(** ** The per-thread continuation cache *)

Definition _dispatch_continuation_alloc_cacheonly : W Z :=
  dc ← gets w_cache_key;
  if dc =? 0 then mret 0
  else next ← ld dc do_next; modify (set_cache_key next);; mret dc.

Definition _dispatch_continuation_alloc_from_heap : W Z := calloc.

Definition _dispatch_continuation_free (dc : Z) : W Z :=
  prev_dc ← gets w_cache_key;
  st dc do_next prev_dc;;
  modify (set_cache_key dc);; mret 0.

(** The loop of _dispatch_cache_cleanup2; [fuel] bounds the length of the cache list. *)
Fixpoint _dispatch_cache_cleanup2 (fuel : nat) (dc : Z) : W Z :=
  match fuel with
  | O => out_of_fuel
  | S n =>
      if dc =? 0 then mret 0
      else next_dc ← ld dc do_next; free dc;; _dispatch_cache_cleanup2 n next_dc
  end.

Definition _dispatch_force_cache_cleanup (fuel : nat) : W Z :=
  dc ← gets w_cache_key;
  if negb (dc =? 0) then modify (set_cache_key 0);; _dispatch_cache_cleanup2 fuel dc else mret 0.

End object.

(** ** Running the memory operations *)

Definition upd (w : world) (a : Z) (f : fld) (v : Z) : world := set_wmem (<[(a, f):=v]> (w_mem w)) w.

Lemma ld_bind {A} a f (k : Z -> W A) w : a ∈ w_live w -> (ld a f ≫= k) w = k (field w a f) w.
Proof. intros Ha. unfold ld, mbind, M_bind. by rewrite decide_True. Qed.
Lemma ld_run a f w : a ∈ w_live w -> ld a f w = Ret (field w a f) w.
Proof. intros Ha. unfold ld. by rewrite decide_True. Qed.
Lemma ld_fault {A} a f (k : Z -> W A) w : a ∉ w_live w -> (ld a f ≫= k) w = Fault w.
Proof. intros Ha. unfold ld, mbind, M_bind. by rewrite decide_False. Qed.
Lemma st_bind {A} a f v (k : unit -> W A) w : a ∈ w_live w -> (st a f v ≫= k) w = k tt (upd w a f v).
Proof. intros Ha. unfold st, mbind, M_bind. by rewrite decide_True. Qed.
Lemma st_fault {A} a f v (k : unit -> W A) w : a ∉ w_live w -> (st a f v ≫= k) w = Fault w.
Proof. intros Ha. unfold st, mbind, M_bind. by rewrite decide_False. Qed.
Lemma atomic_add_bind {A} a f n (k : Z -> W A) w :
  a ∈ w_live w -> (atomic_add a f n ≫= k) w =
    k (s64 (field w a f + n)) (upd w a f (s64 (field w a f + n))).
Proof.
  intros Ha. unfold atomic_add. rewrite bind_assoc, ld_bind by done.
  rewrite bind_assoc, st_bind by done. done.
Qed.
Lemma cmpxchg_bind {A} a f old new (k : bool -> W A) w :
  a ∈ w_live w -> (atomic_cmpxchg a f old new ≫= k) w =
    if field w a f =? old then k true (upd w a f new) else k false w.
Proof.
  intros Ha. unfold atomic_cmpxchg. rewrite bind_assoc, ld_bind by done.
  case_cmp; [rewrite bind_assoc, st_bind by done|]; done.
Qed.
Lemma xchg_bind {A} a f new (k : Z -> W A) w :
  a ∈ w_live w -> (atomic_xchg a f new ≫= k) w = k (field w a f) (upd w a f new).
Proof.
  intros Ha. unfold atomic_xchg. rewrite bind_assoc, ld_bind by done.
  by rewrite bind_assoc, st_bind.
Qed.

Lemma field_upd w a f v a' f' :
  field (upd w a f v) a' f' = if decide (a = a' /\ f = f') then v else field w a' f'.
Proof.
  unfold field, upd. simpl. rewrite lookup_insert. case_decide as H1; case_decide as H2; try done.
  - destruct H2. by simplify_eq.
  - destruct H1. by destruct H2 as [-> ->].
Qed.
Lemma live_upd w a f v : w_live (upd w a f v) = w_live w.
Proof. done. Qed.
Lemma upd_upd w a f v v' : upd (upd w a f v) a f v' = upd w a f v'.
Proof. unfold upd, set_wmem. simpl. by rewrite insert_insert_eq. Qed.
(** Writing back the value that is there. *)
Lemma upd_field w a f v : w_mem w !! (a, f) = Some v -> upd w a f v = w.
Proof. intros H. unfold upd. rewrite insert_id by done. by destruct w. Qed.

(** One step of a function: the operation at its head is run, its side condition
    (a live address) comes from the context. *)
Ltac w_step :=
  first [ rewrite bind_assoc
        | rewrite ld_bind by done | rewrite st_bind by done
        | rewrite atomic_add_bind by done | rewrite cmpxchg_bind by done | rewrite xchg_bind by done
        | rewrite gets_bind | rewrite modify_bind | rewrite ret_bind ].
Ltac w_steps := repeat w_step.

(** ** Reference counting *)

Section refs.
Context (call : dcall -> W Z) (obj : Z).

(** A history of _dispatch_retain (true) and _dispatch_release (false). *)
Fixpoint exec_refs (ops : list bool) : W Z :=
  match ops with
  | [] => mret 0
  | true :: ops => _dispatch_retain obj;; exec_refs ops
  | false :: ops => _dispatch_release call obj;; exec_refs ops
  end.

(** The count after a history in which no release drops the last reference. *)
Fixpoint refs_after (r : Z) (ops : list bool) : option Z :=
  match ops with
  | [] => Some r
  | true :: ops => refs_after (r + 1) ops
  | false :: ops => if r >? 1 then refs_after (r - 1) ops else None
  end.

Lemma field_mem w a f v : w_mem w !! (a, f) = Some v -> field w a f = v.
Proof. intros H. unfold field. by rewrite H. Qed.

Lemma retain_run w r :
  obj ∈ w_live w -> field w obj do_ref_cnt = r -> 0 < r < DISPATCH_OBJECT_GLOBAL_REFCNT - 1 ->
  _dispatch_retain obj w = Ret 0 (upd w obj do_ref_cnt (r + 1)).
Proof.
  unfold DISPATCH_OBJECT_GLOBAL_REFCNT. intros Hl Hr Hb. unfold _dispatch_retain. w_steps. rewrite Hr.
  unfold DISPATCH_OBJECT_GLOBAL_REFCNT. case_cmp; [lia|]. w_steps. rewrite Hr. wrap. case_cmp; [lia|done].
Qed.

Lemma release_run w r :
  obj ∈ w_live w -> field w obj do_ref_cnt = r -> 1 < r < DISPATCH_OBJECT_GLOBAL_REFCNT ->
  _dispatch_release call obj w = Ret 0 (upd w obj do_ref_cnt (r - 1)).
Proof.
  unfold DISPATCH_OBJECT_GLOBAL_REFCNT. intros Hl Hr Hb. unfold _dispatch_release. w_steps. rewrite Hr.
  unfold DISPATCH_OBJECT_GLOBAL_REFCNT. case_cmp; [lia|]. w_steps. rewrite Hr. wrap.
  rewrite (proj2 (Z.gtb_lt _ _)) by lia. done.
Qed.

(** Objects that are not counted, the static queues, have a count that stays. *)
Definition ref_inc (r : Z) : Z := if r =? DISPATCH_OBJECT_GLOBAL_REFCNT then r else r + 1.
Definition ref_dec (r : Z) : Z := if r =? DISPATCH_OBJECT_GLOBAL_REFCNT then r else r - 1.

Lemma global_upd w : field w obj do_ref_cnt = DISPATCH_OBJECT_GLOBAL_REFCNT ->
  upd w obj do_ref_cnt DISPATCH_OBJECT_GLOBAL_REFCNT = w.
Proof.
  intros H. apply upd_field. unfold field in H. destruct (w_mem w !! (obj, do_ref_cnt)); [by simpl in H; subst|done].
Qed.
Lemma retain_any w r :
  obj ∈ w_live w -> field w obj do_ref_cnt = r ->
  r = DISPATCH_OBJECT_GLOBAL_REFCNT \/ 0 < r < DISPATCH_OBJECT_GLOBAL_REFCNT - 1 ->
  _dispatch_retain obj w = Ret 0 (upd w obj do_ref_cnt (ref_inc r)).
Proof.
  unfold ref_inc. intros Hl Hr [->|Hb].
  - rewrite Z.eqb_refl, global_upd by done. unfold _dispatch_retain. w_steps. by rewrite Hr, Z.eqb_refl.
  - rewrite (proj2 (Z.eqb_neq r _)) by lia. by apply retain_run.
Qed.
Lemma release_any w r :
  obj ∈ w_live w -> field w obj do_ref_cnt = r ->
  r = DISPATCH_OBJECT_GLOBAL_REFCNT \/ 1 < r < DISPATCH_OBJECT_GLOBAL_REFCNT ->
  _dispatch_release call obj w = Ret 0 (upd w obj do_ref_cnt (ref_dec r)).
Proof.
  unfold ref_dec. intros Hl Hr [->|Hb].
  - rewrite Z.eqb_refl, global_upd by done. unfold _dispatch_release. w_steps. by rewrite Hr, Z.eqb_refl.
  - rewrite (proj2 (Z.eqb_neq r _)) by lia. by apply release_run.
Qed.

Lemma release_last w :
  obj ∈ w_live w -> field w obj do_ref_cnt = 1 -> field w obj do_next = DISPATCH_OBJECT_LISTLESS ->
  field w obj do_xref_cnt = 0 ->
  _dispatch_release call obj w = call (KDispose obj) (upd w obj do_ref_cnt 0).
Proof.
  intros Hl Hr Hn Hx. unfold _dispatch_release. w_steps. rewrite Hr. simpl. w_steps. rewrite Hr. simpl.
  rewrite ld_bind by done. rewrite field_upd, decide_False, Hn by (intros [? ?]; done). simpl.
  rewrite ld_bind by done. rewrite field_upd, decide_False, Hx by (intros [? ?]; done). done.
Qed.

Lemma exec_refs_run ops : forall w r r',
  obj ∈ w_live w -> w_mem w !! (obj, do_ref_cnt) = Some r -> 0 < r ->
  r + Z.of_nat (length ops) < DISPATCH_OBJECT_GLOBAL_REFCNT ->
  refs_after r ops = Some r' ->
  0 < r' /\ exec_refs ops w = Ret 0 (upd w obj do_ref_cnt r').
Proof.
  induction ops as [|[] ops IH]; intros w r r' Hl Hr Hpos Hb Ha; simpl in Ha, Hb.
  - injection Ha as <-. split; [done|]. by rewrite upd_field.
  - simpl. rewrite (bind_step _ _ w 0 _ (retain_run w r Hl (field_mem _ _ _ _ Hr) ltac:(lia))).
    destruct (IH (upd w obj do_ref_cnt (r + 1)) (r + 1) r') as [? ->]; try done; try lia.
    + unfold upd. simpl. by rewrite lookup_insert_eq.
    + by rewrite upd_upd.
  - rewrite Z.gtb_ltb in Ha. destruct (Z.ltb_spec 1 r); [|done]. simpl.
    rewrite (bind_step _ _ w 0 _ (release_run w r Hl (field_mem _ _ _ _ Hr) ltac:(lia))).
    destruct (IH (upd w obj do_ref_cnt (r - 1)) (r - 1) r') as [? ->]; try done; try lia.
    + unfold upd. simpl. by rewrite lookup_insert_eq.
    + by rewrite upd_upd.
Qed.

End refs.

(** C35: any history of internal retains and releases that keeps a reference changes
    nothing but the count and never disposes of the object; the release of the last reference of an
    object that is on no list and has no external reference disposes of it, and any
    further release is caught. *)
Theorem object_refs call obj w r ops r' :
  obj ∈ w_live w -> w_mem w !! (obj, do_ref_cnt) = Some r -> 0 < r ->
  r + Z.of_nat (length ops) < DISPATCH_OBJECT_GLOBAL_REFCNT -> refs_after r ops = Some r' ->
  exists w1, exec_refs call obj ops w = Ret 0 w1 /\ w1 = upd w obj do_ref_cnt r' /\
    (r' = 1 -> field w obj do_next = DISPATCH_OBJECT_LISTLESS -> field w obj do_xref_cnt = 0 ->
       _dispatch_release call obj w1 = call (KDispose obj) (upd w obj do_ref_cnt 0)) /\
    _dispatch_release call obj (upd w obj do_ref_cnt 0) =
      Crash "over-release" (upd w obj do_ref_cnt (-1)).
Proof.
  intros Hl Hr Hpos Hb Ha. destruct (exec_refs_run call obj ops w r r' Hl Hr Hpos Hb Ha) as [Hp Hrun].
  exists (upd w obj do_ref_cnt r'). split_and!; [done|done| |].
  - intros -> Hn Hx. rewrite release_last; rewrite ?field_upd.
    + by rewrite upd_upd.
    + done.
    + by rewrite decide_True.
    + by rewrite decide_False by (intros [? ?]; done).
    + by rewrite decide_False by (intros [? ?]; done).
  - unfold _dispatch_release. rewrite ld_bind by done. rewrite field_upd, decide_True by done. simpl.
    rewrite atomic_add_bind by done. rewrite field_upd, decide_True by done. simpl. by rewrite upd_upd.
Qed.

(** ** Suspension *)

Section suspend.
Context (call : dcall -> W Z) (obj : Z).

(** A history of dispatch_suspend (true) and dispatch_resume (false). *)
Fixpoint exec_suspends (ops : list bool) : W Z :=
  match ops with
  | [] => mret 0
  | true :: ops => dispatch_suspend obj;; exec_suspends ops
  | false :: ops => dispatch_resume call obj;; exec_suspends ops
  end.

(** The depth after a history in which the object stays suspended after each resume. *)
Fixpoint depth_after (n : Z) (ops : list bool) : option Z :=
  match ops with
  | [] => Some n
  | true :: ops => depth_after (n + 1) ops
  | false :: ops => if n >? 1 then depth_after (n - 1) ops else None
  end.

Definition suspendable (w : world) : Prop :=
  obj ∈ w_live w /\ field w obj do_ref_cnt <> DISPATCH_OBJECT_GLOBAL_REFCNT.

Lemma suspend_run w c :
  suspendable w -> field w obj do_suspend_cnt = c -> 0 <= c < 2 ^ 62 ->
  dispatch_suspend obj w = Ret 0 (upd w obj do_suspend_cnt (c + 2)).
Proof.
  intros [Hl Hg] Hc Hb. unfold dispatch_suspend. w_steps. case_cmp; [done|]. w_steps.
  rewrite Hc. unfold DISPATCH_OBJECT_SUSPEND_INTERVAL. by wrap.
Qed.

Lemma resume_run w c :
  suspendable w -> field w obj do_suspend_cnt = c -> 2 < c < 2 ^ 62 ->
  dispatch_resume call obj w = Ret 0 (upd w obj do_suspend_cnt (c - 2)).
Proof.
  intros [Hl Hg] Hc Hb. unfold dispatch_resume. w_steps. case_cmp; [done|]. w_steps. rewrite Hc.
  unfold DISPATCH_OBJECT_SUSPEND_INTERVAL, DISPATCH_OBJECT_SUSPEND_LOCK.
  change (c + - (2)) with (c - 2). wrap. repeat (case_cmp; try lia); done.
Qed.

Lemma suspendable_upd w v : suspendable w -> suspendable (upd w obj do_suspend_cnt v).
Proof. intros [Hl Hg]. split; [done|]. rewrite field_upd. by rewrite decide_False by (intros [? ?]; done). Qed.

Lemma exec_suspends_run lock ops : forall w n n',
  suspendable w -> w_mem w !! (obj, do_suspend_cnt) = Some (lock + 2 * n) -> 0 <= lock <= 1 ->
  0 < n \/ (n = 0 /\ head ops = Some true) -> 0 <= n -> n + Z.of_nat (length ops) < 2 ^ 60 ->
  depth_after n ops = Some n' ->
  0 < n' /\ exec_suspends ops w = Ret 0 (upd w obj do_suspend_cnt (lock + 2 * n')).
Proof.
  induction ops as [|[] ops IH]; intros w n n' Hs Hc Hlk Hn0 Hn Hb Ha; simpl in Ha, Hb.
  - injection Ha as <-. split; [naive_solver|]. by rewrite upd_field.
  - simpl. erewrite bind_step by (apply (suspend_run w (lock + 2 * n)); [done|by apply field_mem|lia]).
    destruct (IH (upd w obj do_suspend_cnt (lock + 2 * n + 2)) (n + 1) n') as [? ->]; try done; try lia.
    + by apply suspendable_upd.
    + unfold upd. simpl. rewrite lookup_insert_eq. f_equal. lia.
    + by rewrite upd_upd.
  - rewrite Z.gtb_ltb in Ha. destruct (Z.ltb_spec 1 n); [|done]. simpl.
    erewrite bind_step by (apply (resume_run w (lock + 2 * n)); [done|by apply field_mem|lia]).
    destruct (IH (upd w obj do_suspend_cnt (lock + 2 * n - 2)) (n - 1) n') as [? ->]; try done; try lia.
    + by apply suspendable_upd.
    + unfold upd. simpl. rewrite lookup_insert_eq. f_equal. lia.
    + by rewrite upd_upd.
Qed.

End suspend.

(** suspensions nest: however suspends and resumes are mixed, as long as fewer resumes than
    suspends have been made the object stays suspended, keeps its lock bit and is not woken; the
    resume that balances the first suspend wakes it exactly when nobody holds the lock, and one
    resume more is caught. *)
Theorem suspend_nests call obj w lock ops n :
  suspendable obj w -> w_mem w !! (obj, do_suspend_cnt) = Some lock -> 0 <= lock <= 1 ->
  head ops = Some true -> Z.of_nat (length ops) < 2 ^ 60 -> depth_after 0 ops = Some n ->
  0 < n /\ exec_suspends call obj ops w = Ret 0 (upd w obj do_suspend_cnt (lock + 2 * n)) /\
  DISPATCH_OBJECT_SUSPENDED obj (upd w obj do_suspend_cnt (lock + 2 * n)) =
    Ret true (upd w obj do_suspend_cnt (lock + 2 * n)) /\
  (n = 1 -> dispatch_resume call obj (upd w obj do_suspend_cnt (lock + 2 * n)) =
     if lock =? 0 then (call (KWakeup obj);; mret 0) w else Ret 0 w) /\
  dispatch_resume call obj w = Crash "Over-resume of an object" (upd w obj do_suspend_cnt (lock - 2)).
Proof.
  intros Hs Hc Hlk Hh Hb Ha.
  destruct (exec_suspends_run call obj lock ops w 0 n) as [Hn Hrun]; try done; try lia; [|naive_solver|].
  { rewrite Hc. f_equal. lia. }
  split; [done|]. split; [done|]. destruct Hs as [Hl Hg]. split_and!.
  - unfold DISPATCH_OBJECT_SUSPENDED. rewrite ld_bind by done. rewrite field_upd, decide_True by done.
    unfold DISPATCH_OBJECT_SUSPEND_INTERVAL. rewrite (proj2 (Z.geb_le _ _)) by lia. done.
  - intros ->. unfold dispatch_resume. rewrite ld_bind by done.
    rewrite field_upd, decide_False by (intros [? ?]; done). case_cmp; [done|].
    rewrite atomic_add_bind by done. rewrite field_upd, decide_True, upd_upd by done.
    unfold DISPATCH_OBJECT_SUSPEND_INTERVAL, DISPATCH_OBJECT_SUSPEND_LOCK.
    replace (lock + 2 * 1 + - (2)) with lock by lia. wrap. rewrite upd_field by done.
    repeat (case_cmp; try lia); simpl; done.
  - unfold dispatch_resume. rewrite ld_bind by done. case_cmp; [done|].
    rewrite atomic_add_bind by done. rewrite (field_mem _ _ _ _ Hc).
    unfold DISPATCH_OBJECT_SUSPEND_INTERVAL, DISPATCH_OBJECT_SUSPEND_LOCK.
    change (lock + - (2)) with (lock - 2). wrap. repeat (case_cmp; try lia); simpl; done.
Qed.

(** ** The continuation cache is a stack *)

(** The do_next list from [a] is [l], all of it live. *)
Fixpoint next_list (w : world) (a : Z) (l : list Z) : Prop :=
  match l with
  | [] => a = 0
  | x :: l => a = x /\ x <> 0 /\ x ∈ w_live w /\ next_list w (field w x do_next) l
  end.

Lemma next_list_frame w w' a l :
  (forall x, x ∈ l -> field w' x do_next = field w x do_next /\ (x ∈ w_live w -> x ∈ w_live w')) ->
  next_list w a l -> next_list w' a l.
Proof.
  revert a. induction l as [|x l IH]; intros a Hf Hl; simpl in *; [done|].
  destruct Hl as (-> & H0 & Hx & Hl). destruct (Hf x) as [Hn Hv]; [set_solver|].
  split_and!; try done; [auto|]. rewrite Hn. apply IH; [set_solver|done].
Qed.

Lemma cleanup_run l : forall w a n,
  next_list w a l -> NoDup l -> (length l < n)%nat ->
  _dispatch_cache_cleanup2 n a w = Ret 0 (set_live (w_live w ∖ list_to_set l) w).
Proof.
  induction l as [|x l IH]; intros w a [|n] Hl Hnd Hn; simpl in Hn; try lia.
  - simpl in Hl. subst a. simpl. replace (w_live w ∖ ∅) with (w_live w) by set_solver. by destruct w.
  - destruct Hl as (-> & H0 & Hx & Hl). inversion Hnd as [|? ? Hni Hnd']; subst.
    simpl. case_cmp; [done|]. w_steps. unfold free. w_steps.
    rewrite (IH (set_live (w_live w ∖ {[x]}) w) (field w x do_next) n); [| |done|lia].
    + unfold set_live. simpl. f_equal. f_equal. set_solver.
    + eapply next_list_frame; [|done]. intros y Hy. split; [done|]. simpl. intros. set_solver.
Qed.

(** the continuation cache of a thread is a stack: a freed continuation is the next one to be
    allocated, with the rest of the cache as before; and the cleanup at the end of a worker frees
    exactly the cached continuations, terminating after one turn for each. *)
Theorem continuation_cache w l dc fuel :
  next_list w (w_cache_key w) l -> NoDup l -> dc ∉ l -> dc <> 0 -> dc ∈ w_live w ->
  (length l < fuel)%nat ->
  (exists w1, _dispatch_continuation_free dc w = Ret 0 w1 /\
     next_list w1 (w_cache_key w1) (dc :: l) /\
     exists w2, _dispatch_continuation_alloc_cacheonly w1 = Ret dc w2 /\
       w_cache_key w2 = w_cache_key w /\ next_list w2 (w_cache_key w2) l) /\
  exists w3, _dispatch_force_cache_cleanup fuel w = Ret 0 w3 /\
    w_live w3 = w_live w ∖ list_to_set l /\ w_cache_key w3 = 0 /\ w_mem w3 = w_mem w.
Proof.
  intros Hl Hnd Hdc H0 Hlive Hf. split.
  - assert (next_list (set_cache_key dc (upd w dc do_next (w_cache_key w))) (w_cache_key w) l) as Hl1.
    { eapply next_list_frame; [|done]. intros x Hx. split; [|done]. unfold field. simpl.
      rewrite lookup_insert_ne; [done|]. intros [=]. by subst. }
    assert (field (set_cache_key dc (upd w dc do_next (w_cache_key w))) dc do_next = w_cache_key w) as Hd
      by (unfold field; simpl; by rewrite lookup_insert_eq).
    eexists. split; [unfold _dispatch_continuation_free; w_steps; done|]. split.
    + simpl. by rewrite Hd.
    + unfold _dispatch_continuation_alloc_cacheonly. w_steps. simpl. case_cmp; [done|].
      rewrite ld_bind by done. rewrite Hd. eexists. split; [done|]. split; [done|].
      simpl. eapply next_list_frame; [|exact Hl1]. done.
  - unfold _dispatch_force_cache_cleanup. w_steps. destruct (Z.eqb_spec (w_cache_key w) 0) as [Hz|Hne]; simpl.
    + destruct l as [|x l]; [|destruct Hl as (? & ? & _); congruence].
      exists w. split_and!; try done. set_solver.
    + w_steps. rewrite (cleanup_run l); [eexists; split; [done|]; done| |done|done].
      eapply next_list_frame; [|done]. done.
Qed.

(** ** Concrete values *)

(** A queue object at 4096 with two references, and two continuations in the thread's cache. *)
Definition obj_ex : world :=
  World (list_to_map [((4096, do_ref_cnt), 2); ((4096, do_suspend_cnt), 0);
                      ((4096, do_next), DISPATCH_OBJECT_LISTLESS); ((4096, do_xref_cnt), 0);
                      ((8192, do_next), 12288)])
    {[4096; 8192; 12288; 16384]} 20480 0 0 8192 10 [] [].

Definition no_call (c : dcall) : W Z := mret 0.

Lemma object_refs_witness :
  exists w1, exec_refs no_call 4096 [true; false; false] obj_ex = Ret 0 w1 /\
    w1 = upd obj_ex 4096 do_ref_cnt 1 /\
    (1 = 1 -> field obj_ex 4096 do_next = DISPATCH_OBJECT_LISTLESS ->
       field obj_ex 4096 do_xref_cnt = 0 ->
       _dispatch_release no_call 4096 w1 = no_call (KDispose 4096) (upd obj_ex 4096 do_ref_cnt 0)) /\
    _dispatch_release no_call 4096 (upd obj_ex 4096 do_ref_cnt 0) =
      Crash "over-release" (upd obj_ex 4096 do_ref_cnt (-1)).
Proof.
  apply (object_refs no_call 4096 obj_ex 2 [true; false; false] 1);
    [apply (bool_decide_unpack _); vm_compute; done|reflexivity|lia|vm_compute; done|reflexivity].
Defined.

Lemma suspend_nests_witness :
  exec_suspends no_call 4096 [true; true; false] obj_ex = Ret 0 (upd obj_ex 4096 do_suspend_cnt 2) /\
  dispatch_resume no_call 4096 obj_ex =
    Crash "Over-resume of an object" (upd obj_ex 4096 do_suspend_cnt (-2)).
Proof.
  assert (suspendable 4096 obj_ex) as Hs
    by (split; [apply (bool_decide_unpack _); vm_compute; done|vm_compute; done]).
  pose proof (suspend_nests no_call 4096 obj_ex 0 [true; true; false] 1 Hs eq_refl
    ltac:(lia) eq_refl ltac:(vm_compute; done) eq_refl) as (_ & H1 & _ & _ & H2).
  split; [exact H1|exact H2].
Defined.

Lemma continuation_cache_witness :
  exists w3, _dispatch_force_cache_cleanup 3 obj_ex = Ret 0 w3 /\
    w_live w3 = w_live obj_ex ∖ list_to_set [8192; 12288] /\ w_cache_key w3 = 0 /\
    w_mem w3 = w_mem obj_ex.
Proof.
  apply (continuation_cache obj_ex [8192; 12288] 16384 3).
  - split_and!; try done; apply (bool_decide_unpack _); vm_compute; done.
  - apply (bool_decide_unpack _); vm_compute; done.
  - apply (bool_decide_unpack _); vm_compute; done.
  - done.
  - apply (bool_decide_unpack _); vm_compute; done.
  - simpl. lia.
Defined.
