(* ===== verification/DispatchQueue.v ===== *)
(** * Queues

    Models queue.c on the memory of DispatchObject.v: root queues and their workers, serial and wide
    queues, asynchronous, synchronous and barrier submission, suspension, target queues, and the
    groups and semaphores of semaphore.c as the queue code uses them.

    A request for a worker thread is an entry of [w_work]; [_dispatch_worker_thread2] is what the
    thread runs.  A thread that has to block lets another worker run in its place, with its own
    thread-specific data.  Client functions are numbers: calling one is recorded in [w_log], and
    [client f ctxt] is the list of library calls that it makes. *)

From S2P Require Import Prelude DispatchObject.
From stdpp Require Import base tactics list numbers gmap strings.
From Stdlib Require Import ZArith Lia.

Local Open Scope Z_scope.

(** ** Static objects *)

Definition DISPATCH_ROOT_QUEUE_COUNT : nat := 6.
Definition _dispatch_root_queues (i : Z) : Z := 2048 + 16 * i.
Definition _dispatch_root_queue_contexts (i : Z) : Z := 2304 + 16 * i.
Definition _dispatch_thread_mediator (i : Z) : Z := 2560 + 16 * i.
Definition _dispatch_main_q : Z := 1024.
(** The predicate of _dispatch_queue_wakeup_global, _dispatch_program_is_probably_callback_driven,
    _dispatch_safe_fork, main_q_handler and main_q_is_draining. *)
Definition statics : Z := 1040.

Definition DISPATCH_QUEUE_PRIORITY_HIGH : Z := 2.
Definition DISPATCH_QUEUE_PRIORITY_DEFAULT : Z := 0.
Definition DISPATCH_QUEUE_PRIORITY_LOW : Z := -2.
Definition DISPATCH_QUEUE_OVERCOMMIT : Z := 2.
Definition MAX_THREAD_COUNT : Z := 255.

Definition root_queue_fields (i : Z) : list (Z * fld * Z) :=
  let q := _dispatch_root_queues i in
  [((q, do_vtable), _dispatch_queue_root_vtable); ((q, do_next), 0);
   ((q, do_ref_cnt), DISPATCH_OBJECT_GLOBAL_REFCNT); ((q, do_xref_cnt), DISPATCH_OBJECT_GLOBAL_REFCNT);
   ((q, do_suspend_cnt), DISPATCH_OBJECT_SUSPEND_LOCK); ((q, do_targetq), 0);
   ((q, do_ctxt), _dispatch_root_queue_contexts i); ((q, do_finalizer), 0);
   ((q, dq_running), 2); ((q, dq_width), 4294967295); ((q, dq_items_tail), 0); ((q, dq_items_head), 0);
   ((q, dq_serialnum), 4 + i)].

Definition root_context_fields (i : Z) : list (Z * fld * Z) :=
  let c := _dispatch_root_queue_contexts i in
  [((c, dgq_kworkqueue), 0); ((c, dgq_pending), 0); ((c, dgq_thread_pool_size), MAX_THREAD_COUNT);
   ((c, dgq_thread_mediator), _dispatch_thread_mediator i)].

Definition thread_mediator_fields (i : Z) : list (Z * fld * Z) :=
  let m := _dispatch_thread_mediator i in
  [((m, do_vtable), _dispatch_semaphore_vtable); ((m, do_next), 0);
   ((m, do_ref_cnt), DISPATCH_OBJECT_GLOBAL_REFCNT); ((m, do_xref_cnt), DISPATCH_OBJECT_GLOBAL_REFCNT)].

Definition main_queue_fields : list (Z * fld * Z) :=
  let q := _dispatch_main_q in
  [((q, do_vtable), _dispatch_queue_vtable); ((q, do_next), 0);
   ((q, do_ref_cnt), DISPATCH_OBJECT_GLOBAL_REFCNT); ((q, do_xref_cnt), DISPATCH_OBJECT_GLOBAL_REFCNT);
   ((q, do_suspend_cnt), DISPATCH_OBJECT_SUSPEND_LOCK); ((q, do_targetq), _dispatch_root_queues 3);
   ((q, do_ctxt), 0); ((q, do_finalizer), 0); ((q, dq_running), 1); ((q, dq_width), 1);
   ((q, dq_items_tail), 0); ((q, dq_items_head), 0); ((q, dq_serialnum), 1)].

Definition root_indices : list Z := [0; 1; 2; 3; 4; 5].

(** The library after libdispatch_init: the calling thread runs the main queue. *)
Definition libdispatch_init : world :=
  World (list_to_map (concat (root_queue_fields <$> root_indices) ++ concat (root_context_fields <$> root_indices)
           ++ concat (thread_mediator_fields <$> root_indices) ++ main_queue_fields ++ [((statics, safe_fork), 1)]))
    (list_to_set ((_dispatch_root_queues <$> root_indices) ++ (_dispatch_root_queue_contexts <$> root_indices) ++
       (_dispatch_thread_mediator <$> root_indices) ++ [_dispatch_main_q; statics]))
    65536 _dispatch_main_q 0 0 10 [] [].

(** Queue 3 is DISPATCH_ROOT_QUEUE_COUNT / 2, the target of the main queue. *)
Definition _dispatch_get_root_queue (priority : Z) (overcommit : bool) : Z :=
  if overcommit && (priority =? DISPATCH_QUEUE_PRIORITY_LOW) then _dispatch_root_queues 1
  else if overcommit && (priority =? DISPATCH_QUEUE_PRIORITY_DEFAULT) then _dispatch_root_queues 3
  else if overcommit && (priority =? DISPATCH_QUEUE_PRIORITY_HIGH) then _dispatch_root_queues 5
  else if priority =? DISPATCH_QUEUE_PRIORITY_LOW then _dispatch_root_queues 0
  else if priority =? DISPATCH_QUEUE_PRIORITY_DEFAULT then _dispatch_root_queues 2
  else if priority =? DISPATCH_QUEUE_PRIORITY_HIGH then _dispatch_root_queues 4
  else 0.

Definition dispatch_get_global_queue (priority flags : Z) : Z :=
  if has_bit flags (Z.lnot DISPATCH_QUEUE_OVERCOMMIT) then 0
  else _dispatch_get_root_queue priority (has_bit flags DISPATCH_QUEUE_OVERCOMMIT).

Definition dispatch_get_current_queue : W Z :=
  q ← gets w_queue_key; mret (if negb (q =? 0) then q else _dispatch_get_root_queue 0 true).

Definition dispatch_get_main_queue : Z := _dispatch_main_q.

(** ** Width *)

Record hw_config := HwConfig { cc_max_active : Z; cc_max_logical : Z; cc_max_physical : Z }.

(** [ret] is what sysconf(_SC_NPROCESSORS_ONLN) returns. *)
Definition _dispatch_queue_set_width_init (ret : Z) : hw_config :=
  let n := if ret <? 0 then 1 else u32 ret in HwConfig n n n.

Definition DISPATCH_QUEUE_WIDTH_ACTIVE_CPUS : Z := -1.
Definition DISPATCH_QUEUE_WIDTH_MAX_PHYSICAL_CPUS : Z := -2.
Definition DISPATCH_QUEUE_WIDTH_MAX_LOGICAL_CPUS : Z := -3.

(** The width stored for a request, two for each item that may run at once. *)
Definition width_of (hw : hw_config) (width : Z) : Z :=
  let w := s32 width in
  if (w =? 1) || (w =? 0) then 1
  else
    let tmp :=
      if w >? 0 then w
      else if w =? DISPATCH_QUEUE_WIDTH_MAX_PHYSICAL_CPUS then cc_max_physical hw
      else if w =? DISPATCH_QUEUE_WIDTH_ACTIVE_CPUS then cc_max_active hw
      else cc_max_logical hw in
    u32 (tmp * 2).

Definition dispatch_queue_set_width (hw : hw_config) (dq width : Z) : W Z :=
  r ← ld dq do_ref_cnt;
  if r =? DISPATCH_OBJECT_GLOBAL_REFCNT then mret 0
  else st dq dq_width (width_of hw width);; mret 0.

(** ** Creation *)

Definition _dispatch_queue_init (dq : Z) : W Z :=
  st dq do_vtable _dispatch_queue_vtable;;
  st dq do_next DISPATCH_OBJECT_LISTLESS;;
  st dq do_ref_cnt 1;;
  st dq do_xref_cnt 1;;
  st dq do_targetq (_dispatch_get_root_queue 0 true);;
  st dq dq_running 0;;
  st dq dq_width 1;;
  n ← gets w_serial;
  modify (set_serial (u64 (n + 1)));;
  st dq dq_serialnum n;; mret 0.

(** The label only sizes the allocation. *)
Definition dispatch_queue_create : W Z :=
  dq ← calloc; _dispatch_queue_init dq;; mret dq.

(** ** Functions by their address *)

Definition fn_set_target_queue2 : Z := -1.
Definition fn_async_f_redirect2 : Z := -2.
Definition fn_sync_f_slow2 : Z := -3.
Definition fn_barrier_sync_f_slow_invoke : Z := -4.
Definition fn_sigsuspend : Z := -5.

(** Library calls a client function can make. *)
Inductive api :=
| ApiAsync (q ctxt f : Z) | ApiSync (q ctxt f : Z)
| ApiBarrierAsync (q ctxt f : Z) | ApiBarrierSync (q ctxt f : Z)
| ApiSuspend (o : Z) | ApiResume (o : Z) | ApiRetain (o : Z) | ApiRelease (o : Z)
| ApiSetTarget (o q : Z) | ApiGroupAsync (g q ctxt f : Z) | ApiGroupNotify (g q ctxt f : Z).

(** The mediator value of _dispatch_queue_concurrent_drain_one, ~0ul. *)
Definition mediator : Z := UINT64_MAX.

Section queue.
Context (call : dcall -> W Z) (client : Z -> Z -> list api).
Context (loop_fuel : nat).     (* bounds the loops below *)

(** ** Pushing *)

Definition _dispatch_queue_push_list_slow (dq obj : Z) : W Z :=
  _dispatch_retain dq;;
  st dq dq_items_head obj;;
  call (KWakeup dq);;
  call (KRelease dq).

Definition _dispatch_queue_push_list (dq head tail : Z) : W Z :=
  st tail do_next 0;;
  prev ← atomic_xchg dq dq_items_tail tail;
  if negb (prev =? 0) then st prev do_next head;; mret 0
  else _dispatch_queue_push_list_slow dq head.

Definition _dispatch_async_f_slow (dq ctxt func : Z) : W Z :=
  dc ← _dispatch_continuation_alloc_from_heap;
  st dc do_vtable DISPATCH_OBJ_ASYNC_BIT;;
  st dc dc_func func;;
  st dc dc_ctxt ctxt;;
  call (KPush dq dc dc).

Definition dispatch_async_f (dq ctxt func : Z) : W Z :=
  dc ← _dispatch_continuation_alloc_cacheonly;
  if dc =? 0 then _dispatch_async_f_slow dq ctxt func
  else
    st dc do_vtable DISPATCH_OBJ_ASYNC_BIT;;
    st dc dc_func func;;
    st dc dc_ctxt ctxt;;
    call (KPush dq dc dc).

Definition _dispatch_barrier_async_f_slow (dq ctxt func : Z) : W Z :=
  dc ← _dispatch_continuation_alloc_from_heap;
  st dc do_vtable (Z.lor DISPATCH_OBJ_ASYNC_BIT DISPATCH_OBJ_BARRIER_BIT);;
  st dc dc_func func;;
  st dc dc_ctxt ctxt;;
  call (KPush dq dc dc).

Definition dispatch_barrier_async_f (dq ctxt func : Z) : W Z :=
  dc ← _dispatch_continuation_alloc_cacheonly;
  if dc =? 0 then _dispatch_barrier_async_f_slow dq ctxt func
  else
    st dc do_vtable (Z.lor DISPATCH_OBJ_ASYNC_BIT DISPATCH_OBJ_BARRIER_BIT);;
    st dc dc_func func;;
    st dc dc_ctxt ctxt;;
    call (KPush dq dc dc).

(** ** Waking *)

Definition _dispatch_rootq2wq_pri (idx : Z) : Z :=
  (* WORKQ_HIGH_PRIOQUEUE 0, WORKQ_DEFAULT_PRIOQUEUE 1, WORKQ_LOW_PRIOQUEUE 2 *)
  if (idx =? 0) || (idx =? 1) then 2 else if (idx =? 4) || (idx =? 5) then 0 else 1.

(** Every root queue gets its workqueue, named by its priority and overcommit bit. *)
Fixpoint root_queues_init_loop (idxs : list Z) : W Z :=
  match idxs with
  | [] => mret 0
  | i :: idxs =>
      st (_dispatch_root_queue_contexts i) dgq_kworkqueue (16 + 2 * _dispatch_rootq2wq_pri i + Z.land i 1);;
      root_queues_init_loop idxs
  end.
Definition _dispatch_root_queues_init : W Z := root_queues_init_loop root_indices.

(** A thread of its own for a root queue, when there are no workqueues. *)
Definition pool_thread_create (dq qc : Z) : W Z :=
  t_count ← ld qc dgq_thread_pool_size;
  if t_count =? 0 then mret 0
  else
    st qc dgq_thread_pool_size (t_count - 1);;
    modify (fun w => set_work (w_work w ++ [dq]) w);; mret 0.

Definition _dispatch_queue_wakeup_global (dq : Z) : W bool :=
  qc ← ld dq do_ctxt;
  tail ← ld dq dq_items_tail;
  if tail =? 0 then mret false
  else
    st statics safe_fork 0;;
    pred ← ld statics once_pred;
    (if pred =? 0 then st statics once_pred (-1);; _dispatch_root_queues_init else mret 0);;
    kq ← ld qc dgq_kworkqueue;
    if negb (kq =? 0) then
      ok ← atomic_cmpxchg qc dgq_pending 0 1;
      (* pthread_workqueue_additem_np *)
      (if (ok : bool) then modify (fun w => set_work (w_work w ++ [dq]) w) else mret tt);;
      mret false
    else
      m ← ld qc dgq_thread_mediator;
      r ← call (KSemaSignal m);
      if negb (r =? 0) then mret false
      else pool_thread_create dq qc;; mret false.

(** dx_probe by the vtable of the object. *)
Definition dx_probe (o : Z) : W bool :=
  vt ← ld o do_vtable;
  if vt =? _dispatch_queue_vtable then mret false
  else if vt =? _dispatch_queue_root_vtable then _dispatch_queue_wakeup_global o
  else mret true.

(** A run loop that drains the main queue is told of the item through main_q_handler, which is NULL
    in a program without one; the handler takes no argument. *)
Definition _dispatch_queue_wakeup_main : W Z :=
  h ← ld statics main_q_handler;
  if h =? 0 then mret 0
  else call (KFunc h 0);; st statics safe_fork 0;; mret 0.

Definition _dispatch_wakeup (dou : Z) : W Z :=
  susp ← DISPATCH_OBJECT_SUSPENDED dou;
  if (susp : bool) then mret 0
  else
    p ← dx_probe dou;
    tail ← ld dou dq_items_tail;
    if negb p && (tail =? 0) then mret 0
    else
      ok ← _dispatch_trylock dou;
      if negb ok then
        (if dou =? _dispatch_main_q then _dispatch_queue_wakeup_main else mret 0);; mret 0
      else
        _dispatch_retain dou;;
        tq ← ld dou do_targetq;
        call (KPush tq dou dou);;
        mret tq.

Definition _dispatch_queue_unlock (dq : Z) : W Z :=
  v ← atomic_add dq dq_running (-1);
  if negb (v =? 0) then mret 0 else call (KWakeup dq);; mret 0.

Definition _dispatch_queue_trylock (dq : Z) : W bool := atomic_cmpxchg dq dq_running 0 1.

(** ** Semaphores and groups *)

Definition dispatch_semaphore_create (value : Z) : W Z :=
  if value <? 0 then mret 0
  else
    dsema ← calloc;
    st dsema do_vtable _dispatch_semaphore_vtable;;
    st dsema do_next DISPATCH_OBJECT_LISTLESS;;
    st dsema do_ref_cnt 1;;
    st dsema do_xref_cnt 1;;
    st dsema do_targetq (dispatch_get_global_queue 0 0);;
    st dsema dsema_value value;;
    st dsema dsema_orig value;;
    mret dsema.

Definition _dispatch_get_thread_semaphore : W Z :=
  dsema ← gets w_sema4_key;
  dsema ← (if dsema =? 0 then dispatch_semaphore_create 0 else mret dsema);
  modify (set_sema4_key 0);; mret dsema.

Definition _dispatch_put_thread_semaphore (dsema : Z) : W Z :=
  old_sema ← gets w_sema4_key;
  modify (set_sema4_key dsema);;
  if negb (old_sema =? 0) then call (KDispatchRelease old_sema) else mret 0.

Definition dispatch_semaphore_signal (dsema : Z) : W Z :=
  v ← atomic_add dsema dsema_value 1;
  if v >? 0 then mret 0
  else
    _dispatch_retain dsema;;
    atomic_add dsema dsema_sent_ksignals 1;;
    atomic_add dsema dsema_sem 1;;          (* sem_post *)
    call (KRelease dsema);;
    mret 1.

(** The thread sleeps in sem_wait: another worker runs meanwhile, on its own thread. *)
Definition run_other_thread : W Z :=
  work ← gets w_work;
  match work with
  | [] => out_of_fuel                       (* it sleeps for ever *)
  | q :: work =>
      modify (set_work work);;
      qk ← gets w_queue_key; sk ← gets w_sema4_key; ck ← gets w_cache_key;
      modify (set_queue_key 0);; modify (set_sema4_key 0);; modify (set_cache_key 0);;
      call (KWorker q);;
      modify (set_queue_key qk);; modify (set_sema4_key sk);; modify (set_cache_key ck);; mret 0
  end.

(** _dispatch_semaphore_wait_slow with DISPATCH_TIME_FOREVER. *)
Fixpoint semaphore_wait_slow (fuel : nat) (dsema : Z) : W Z :=
  match fuel with
  | O => out_of_fuel
  | S n =>
      orig ← ld dsema dsema_sent_ksignals;
      if negb (orig =? 0) then st dsema dsema_sent_ksignals (orig - 1);; mret 0
      else
        k ← ld dsema dsema_sem;
        if k >? 0 then st dsema dsema_sem (k - 1);; semaphore_wait_slow n dsema
        else run_other_thread;; semaphore_wait_slow n dsema
  end.

Definition dispatch_semaphore_wait (dsema : Z) : W Z :=
  v ← atomic_add dsema dsema_value (-1);
  if v >=? 0 then mret 0 else semaphore_wait_slow loop_fuel dsema.

Definition dispatch_group_create : W Z := dispatch_semaphore_create LONG_MAX.

(** The notify blocks of _dispatch_group_wake. *)
Fixpoint group_wake_notify (fuel : nat) (dsema head : Z) : W Z :=
  match fuel with
  | O => out_of_fuel
  | S n =>
      if head =? 0 then mret 0
      else
        q ← ld head dsn_queue; c ← ld head dsn_ctxt; f ← ld head dsn_func;
        call (KAsync q c f);;
        call (KRelease q);;
        tmp ← ld head dsn_next;
        (if tmp =? 0
         then ok ← atomic_cmpxchg dsema dsema_notify_tail head 0;
              if (ok : bool) then mret 0 else out_of_fuel   (* spins on dsn_next *)
         else mret 0);;
        free head;;
        group_wake_notify n dsema tmp
  end.

Definition _dispatch_group_wake (dsema : Z) : W Z :=
  head ← atomic_xchg dsema dsema_notify_head 0;
  waiters ← atomic_xchg dsema dsema_group_waiters 0;
  let rval := u32 waiters in
  (if negb (rval =? 0) then atomic_add dsema dsema_sem rval;; mret 0 else mret 0);;
  group_wake_notify loop_fuel dsema head;;
  if negb (head =? 0) then call (KRelease dsema);; mret 0 else mret 0.

Definition dispatch_group_enter (dg : Z) : W Z := call (KSemaWait dg);; mret 0.

Definition dispatch_group_leave (dg : Z) : W Z :=
  call (KSemaSignal dg);;
  v ← ld dg dsema_value; o ← ld dg dsema_orig;
  if v =? o then call (KGroupWake dg);; mret 0 else mret 0.

Definition dispatch_group_notify_f (dg dq ctxt func : Z) : W Z :=
  dsn ← calloc;
  st dsn dsn_next 0;; st dsn dsn_queue dq;; st dsn dsn_ctxt ctxt;; st dsn dsn_func func;;
  _dispatch_retain dq;;
  prev ← atomic_xchg dg dsema_notify_tail dsn;
  if negb (prev =? 0) then st prev dsn_next dsn;; mret 0
  else
    _dispatch_retain dg;;
    st dg dsema_notify_head dsn;;
    v ← ld dg dsema_value; o ← ld dg dsema_orig;
    if v =? o then call (KGroupWake dg);; mret 0 else mret 0.

Definition dispatch_group_async_f (dg dq ctxt func : Z) : W Z :=
  _dispatch_retain dg;;
  dispatch_group_enter dg;;
  dc ← _dispatch_continuation_alloc_cacheonly;
  dc ← (if dc =? 0 then _dispatch_continuation_alloc_from_heap else mret dc);
  st dc do_vtable (Z.lor DISPATCH_OBJ_ASYNC_BIT DISPATCH_OBJ_GROUP_BIT);;
  st dc dc_func func;;
  st dc dc_ctxt ctxt;;
  st dc dc_group dg;;
  call (KPush dq dc dc).

Definition _dispatch_semaphore_dispose (dsema : Z) : W Z :=
  v ← ld dsema dsema_value; o ← ld dsema dsema_orig;
  if v <? o then crash "Semaphore/group object deallocated while in use"
  else _dispatch_dispose call dsema.

(** ** Synchronous submission *)

Definition _dispatch_barrier_sync_f_slow_invoke (dbss2 : Z) : W Z :=
  dq ← ld dbss2 dbss2_dq;
  f ← ld dbss2 dbss2_func; c ← ld dbss2 dbss2_ctxt; sema ← ld dbss2 dbss2_sema;
  (if dq =? dispatch_get_main_queue then call (KFunc f c) else dispatch_suspend dq);;
  call (KSemaSignal sema).

Definition _dispatch_barrier_sync_f_slow (dq ctxt func : Z) : W Z :=
  (* dbss2 and dbss are on the stack *)
  dbss2 ← calloc;
  st dbss2 dbss2_dq dq;; st dbss2 dbss2_func func;; st dbss2 dbss2_ctxt ctxt;;
  sema ← _dispatch_get_thread_semaphore;
  st dbss2 dbss2_sema sema;;
  dbss ← calloc;
  st dbss do_vtable DISPATCH_OBJ_BARRIER_BIT;; st dbss do_next 0;;
  st dbss dc_func fn_barrier_sync_f_slow_invoke;; st dbss dc_ctxt dbss2;;
  old_dq ← gets w_queue_key;
  call (KPush dq dbss dbss);;
  call (KSemaWait sema);;
  (if negb (dq =? dispatch_get_main_queue) then
     modify (set_queue_key dq);;
     call (KFunc func ctxt);;
     modify (set_queue_key old_dq);;
     dispatch_resume call dq
   else mret 0);;
  _dispatch_put_thread_semaphore sema;;
  free dbss;; free dbss2;; mret 0.

Definition dispatch_barrier_sync_f (dq ctxt func : Z) : W Z :=
  old_dq ← gets w_queue_key;
  tail ← ld dq dq_items_tail;
  slow ← (if negb (tail =? 0) then mret true
          else
            susp ← DISPATCH_OBJECT_SUSPENDED dq;
            if (susp : bool) then mret true
            else ok ← _dispatch_queue_trylock dq; mret (negb ok));
  if (slow : bool) then _dispatch_barrier_sync_f_slow dq ctxt func
  else
    modify (set_queue_key dq);;
    call (KFunc func ctxt);;
    modify (set_queue_key old_dq);;
    _dispatch_queue_unlock dq.

Definition _dispatch_sync_f_slow2 (ctxt : Z) : W Z :=
  dq ← gets w_queue_key;
  atomic_add dq dq_running 2;;
  call (KSemaSignal ctxt).

Definition _dispatch_sync_f_slow (dq : Z) : W Z :=
  tq ← ld dq do_targetq;
  if tq =? 0 then atomic_add dq dq_running 2;; mret 0
  else
    sema ← _dispatch_get_thread_semaphore;
    dss ← calloc;
    st dss do_vtable 0;; st dss do_next 0;;
    st dss dc_func fn_sync_f_slow2;; st dss dc_ctxt sema;;
    call (KPush dq dss dss);;
    call (KSemaWait sema);;
    _dispatch_put_thread_semaphore sema;;
    free dss;; mret 0.

Definition dispatch_sync_f (dq ctxt func : Z) : W Z :=
  width ← ld dq dq_width;
  if width =? 1 then call (KBarrierSync dq ctxt func)
  else
    tail ← ld dq dq_items_tail;
    susp ← DISPATCH_OBJECT_SUSPENDED dq;
    (if negb (tail =? 0) || susp then _dispatch_sync_f_slow dq
     else
       v ← atomic_add dq dq_running 2;
       let prev_cnt := v - 2 in
       if has_bit prev_cnt 1 then
         v ← atomic_add dq dq_running (-2);
         (if v =? 0 then call (KWakeup dq);; mret 0 else mret 0);;
         _dispatch_sync_f_slow dq
       else mret 0);;
    old_dq ← gets w_queue_key;
    modify (set_queue_key dq);;
    call (KFunc func ctxt);;
    modify (set_queue_key old_dq);;
    v ← atomic_add dq dq_running (-2);
    if v =? 0 then call (KWakeup dq);; mret 0 else mret 0.

(** ** Running *)

Definition _dispatch_continuation_pop (dou : Z) : W Z :=
  vt ← ld dou do_vtable;
  if DISPATCH_OBJ_IS_VTABLE vt then call (KInvoke dou)
  else
    (if has_bit vt DISPATCH_OBJ_ASYNC_BIT then _dispatch_continuation_free dou else mret 0);;
    dg ← (if has_bit vt DISPATCH_OBJ_GROUP_BIT then ld dou dc_group else mret 0);
    f ← ld dou dc_func; c ← ld dou dc_ctxt;
    call (KFunc f c);;
    if negb (dg =? 0) then call (KGroupLeave dg);; call (KRelease dg) else mret 0.

Definition _dispatch_queue_concurrent_drain_one (dq : Z) : W Z :=
  head ← atomic_xchg dq dq_items_head mediator;
  if head =? 0 then atomic_cmpxchg dq dq_items_head mediator 0;; mret 0
  else if head =? mediator then _dispatch_queue_wakeup_global dq;; mret 0
  else
    next ← ld head do_next;
    if next =? 0 then
      st dq dq_items_head 0;;
      ok ← atomic_cmpxchg dq dq_items_tail head 0;
      if (ok : bool) then mret head
      else out_of_fuel                      (* spins on do_next *)
    else
      st dq dq_items_head next;;
      _dispatch_queue_wakeup_global dq;;
      mret head.

(** The target queue at the end of the chain. *)
Fixpoint redirect_root (fuel : nat) (q : Z) : W Z :=
  match fuel with
  | O => out_of_fuel
  | S n => tq ← ld q do_targetq;
           tq2 ← ld tq do_targetq;
           if tq2 =? 0 then mret tq else redirect_root n tq
  end.

Definition _dispatch_async_f_redirect (dq other_dc : Z) : W Z :=
  f ← ld other_dc dc_func;
  if f =? fn_sync_f_slow2 then c ← ld other_dc dc_ctxt; call (KFunc f c)
  else
    atomic_add dq dq_running 2;;
    _dispatch_retain dq;;
    dc ← _dispatch_continuation_alloc_cacheonly;
    dc ← (if negb (dc =? 0) then mret 0 else _dispatch_continuation_alloc_from_heap);
    st dc do_vtable DISPATCH_OBJ_ASYNC_BIT;;
    st dc dc_func fn_async_f_redirect2;;
    st dc dc_ctxt dc;;
    st dc dc_data0 dq;;
    st dc dc_data1 other_dc;;
    root_dq ← redirect_root loop_fuel dq;
    call (KPush root_dq dc dc).

Definition _dispatch_async_f_redirect2 (dc : Z) : W Z :=
  other_dc ← ld dc dc_data1;
  dq ← ld dc dc_data0;
  old_dq ← gets w_queue_key;
  modify (set_queue_key dq);;
  call (KPop other_dc);;
  modify (set_queue_key old_dq);;
  v ← atomic_add dq dq_running (-2);
  (if v =? 0 then call (KWakeup dq);; mret 0 else mret 0);;
  call (KRelease dq).

(** The exit of the drain at [out:]: an item that was taken and not run is put back. *)
Definition drain_undo (dq dc next_dc : Z) : W Z :=
  ok ← (if negb (next_dc =? 0) then mret true else atomic_cmpxchg dq dq_items_tail 0 dc);
  if (ok : bool) then st dq dq_items_head dc;; mret 0
  else
    next_dc ← ld dq dq_items_head;
    if next_dc =? 0 then out_of_fuel        (* spins on dq_items_head *)
    else st dq dq_items_head dc;; st dc do_next next_dc;; mret 0.

(** What the loop body decides about the item [dc]: run it here, redirect it, or stop. *)
Inductive drain_action := DrainPop | DrainRedirect | DrainOut.

Definition drain_decide (dq dc orig_tq : Z) : W drain_action :=
  susp ← DISPATCH_OBJECT_SUSPENDED dq;
  if (susp : bool) then mret DrainOut
  else
    running ← ld dq dq_running; width ← ld dq dq_width;
    if running >? width then mret DrainOut
    else
      tq ← ld dq do_targetq;
      if negb (orig_tq =? tq) then mret DrainOut
      else if width =? 1 then mret DrainPop
      else
        vt ← ld dc do_vtable;
        if has_bit vt DISPATCH_OBJ_BARRIER_BIT then
          mret (if running >? 1 then DrainOut else DrainPop)
        else mret DrainRedirect.

(** The two nested loops of _dispatch_queue_drain; [dc] is NULL when the outer loop is
    about to look at the tail. *)
Fixpoint drain_loop (fuel : nat) (dq dc orig_tq : Z) : W Z :=
  match fuel with
  | O => out_of_fuel
  | S n =>
      if dc =? 0 then
        tail ← ld dq dq_items_tail;
        if tail =? 0 then mret 0
        else
          head ← ld dq dq_items_head;
          if head =? 0 then out_of_fuel     (* spins on dq_items_head *)
          else st dq dq_items_head 0;; drain_loop n dq head orig_tq
      else
        next_dc ← ld dc do_next;
        taken ← (if negb (next_dc =? 0) then mret true else atomic_cmpxchg dq dq_items_tail dc 0);
        if negb taken then out_of_fuel      (* spins on do_next *)
        else
          act ← drain_decide dq dc orig_tq;
          match act with
          | DrainOut => drain_undo dq dc next_dc
          | DrainPop => call (KPop dc);; drain_loop n dq next_dc orig_tq
          | DrainRedirect => _dispatch_async_f_redirect dq dc;; drain_loop n dq next_dc orig_tq
          end
  end.

Definition _dispatch_queue_drain (dq : Z) : W Z :=
  old_dq ← gets w_queue_key;
  orig_tq ← ld dq do_targetq;
  modify (set_queue_key dq);;
  drain_loop loop_fuel dq 0 orig_tq;;
  modify (set_queue_key old_dq);; mret 0.

Definition _dispatch_queue_serial_drain_till_empty (dq : Z) : W Z :=
  call (KDrain dq);; _dispatch_force_cache_cleanup loop_fuel.

Definition _dispatch_queue_invoke (dq : Z) : W Z :=
  tq ← ld dq do_targetq;
  susp ← DISPATCH_OBJECT_SUSPENDED dq;
  locked ← (if (susp : bool) then mret false else _dispatch_queue_trylock dq);
  tq ← (if (locked : bool) then
          call (KDrain dq);;
          tq' ← ld dq do_targetq;
          (* dx_invoke of a queue returns NULL *)
          let tq := if tq =? tq' then 0 else tq' in
          atomic_add dq dq_running (-1);;
          mret tq
        else mret 0);
  if locked && negb (tq =? 0) then call (KPush tq dq dq)
  else
    st dq do_next DISPATCH_OBJECT_LISTLESS;;
    v ← atomic_add dq do_suspend_cnt (- DISPATCH_OBJECT_SUSPEND_LOCK);
    (if v =? 0 then
       running ← ld dq dq_running;
       if running =? 0 then call (KWakeup dq);; mret 0 else mret 0
     else mret 0);;
    call (KRelease dq).

Definition _dispatch_set_target_queue2 (ctxt : Z) : W Z :=
  dq ← gets w_queue_key;
  prev_dq ← ld dq do_targetq;
  st dq do_targetq ctxt;;
  call (KRelease prev_dq).

Definition dispatch_set_target_queue (dou dq : Z) : W Z :=
  x ← ld dou do_xref_cnt;
  if x =? DISPATCH_OBJECT_GLOBAL_REFCNT then mret 0
  else _dispatch_retain dq;; call (KBarrierAsync dou dq fn_set_target_queue2).

Definition _dispatch_queue_dispose (dq : Z) : W Z :=
  cur ← gets w_queue_key;
  if dq =? cur then crash "Release of a queue by itself"
  else
    tail ← ld dq dq_items_tail;
    if negb (tail =? 0) then crash "Release of a queue while items are enqueued"
    else st dq dq_items_tail 0x200;; _dispatch_dispose call dq.

(** dx_dispose; root queues have none and are never disposed of. *)
Definition dx_dispose (obj : Z) : W Z :=
  vt ← ld obj do_vtable;
  if vt =? _dispatch_queue_vtable then _dispatch_queue_dispose obj
  else if vt =? _dispatch_semaphore_vtable then _dispatch_semaphore_dispose obj
  else fault.

Definition _dispatch_queue_cleanup2 : W Z :=
  atomic_add _dispatch_main_q dq_running (-1);;
  v ← atomic_add _dispatch_main_q do_suspend_cnt (- DISPATCH_OBJECT_SUSPEND_LOCK);
  (if v =? 0 then call (KWakeup _dispatch_main_q);; mret 0 else mret 0);;
  cb ← ld statics callback_driven;
  if negb (cb =? 0) then call (KAsync (_dispatch_get_root_queue 0 false) 0 fn_sigsuspend) else mret 0.

Definition _dispatch_queue_cleanup (ctxt : Z) : W Z :=
  if ctxt =? _dispatch_main_q then _dispatch_queue_cleanup2
  else crash "Premature thread exit while a dispatch queue is running".

(** The loop of _dispatch_worker_thread2. *)
Fixpoint worker_loop (fuel : nat) (dq : Z) : W Z :=
  match fuel with
  | O => out_of_fuel
  | S n =>
      item ← _dispatch_queue_concurrent_drain_one dq;
      if item =? 0 then mret 0 else call (KPop item);; worker_loop n dq
  end.

Definition _dispatch_worker_thread2 (dq : Z) : W Z :=
  qc ← ld dq do_ctxt;
  cur ← gets w_queue_key;
  if negb (cur =? 0) then crash "Premature thread recycling"
  else
    modify (set_queue_key dq);;
    st qc dgq_pending 0;;
    worker_loop loop_fuel dq;;
    modify (set_queue_key 0);;
    _dispatch_force_cache_cleanup loop_fuel.

(** ** Calls *)

Definition exec_api (a : api) : W Z :=
  match a with
  | ApiAsync q c f => call (KAsync q c f)
  | ApiSync q c f => call (KSync q c f)
  | ApiBarrierAsync q c f => call (KBarrierAsync q c f)
  | ApiBarrierSync q c f => call (KBarrierSync q c f)
  | ApiSuspend o => dispatch_suspend o
  | ApiResume o => call (KResume o)
  | ApiRetain o => dispatch_retain o
  | ApiRelease o => call (KDispatchRelease o)
  | ApiSetTarget o q => dispatch_set_target_queue o q
  | ApiGroupAsync g q c f => dispatch_group_async_f g q c f
  | ApiGroupNotify g q c f => dispatch_group_notify_f g q c f
  end.

Fixpoint exec_apis (l : list api) : W Z :=
  match l with [] => mret 0 | a :: l => exec_api a;; exec_apis l end.

(** A call through a function pointer. *)
Definition call_function (f ctxt : Z) : W Z :=
  if f =? fn_set_target_queue2 then _dispatch_set_target_queue2 ctxt
  else if f =? fn_async_f_redirect2 then _dispatch_async_f_redirect2 ctxt
  else if f =? fn_sync_f_slow2 then _dispatch_sync_f_slow2 ctxt
  else if f =? fn_barrier_sync_f_slow_invoke then _dispatch_barrier_sync_f_slow_invoke ctxt
  else if f =? fn_sigsuspend then out_of_fuel
  else if f >? 0 then
    q ← gets w_queue_key; modify (add_log (f, ctxt, q));; exec_apis (client f ctxt)
  else fault.

Definition dispatch_body (c : dcall) : W Z :=
  match c with
  | KFunc f ctxt => call_function f ctxt
  | KWakeup o => _dispatch_wakeup o
  | KRetain o => _dispatch_retain o
  | KRelease o => _dispatch_release call o
  | KDispatchRelease o => dispatch_release call o
  | KDispose o => dx_dispose o
  | KPush q h t => _dispatch_queue_push_list q h t
  | KAsync q c f => dispatch_async_f q c f
  | KBarrierAsync q c f => dispatch_barrier_async_f q c f
  | KSync q c f => dispatch_sync_f q c f
  | KBarrierSync q c f => dispatch_barrier_sync_f q c f
  | KInvoke q => _dispatch_queue_invoke q
  | KDrain q => _dispatch_queue_drain q
  | KPop dc => _dispatch_continuation_pop dc
  | KWorker q => _dispatch_worker_thread2 q
  | KSemaWait s => dispatch_semaphore_wait s
  | KSemaSignal s => dispatch_semaphore_signal s
  | KGroupLeave g => dispatch_group_leave g
  | KGroupWake g => _dispatch_group_wake g
  | KResume o => dispatch_resume call o
  | KSourceXrefRelease _ => fault          (* sources are not objects of this memory *)
  end.

End queue.

(** Fuel bounds the depth of calls and the turns of each loop. *)
Fixpoint exec (client : Z -> Z -> list api) (fuel : nat) (c : dcall) : W Z :=
  match fuel with
  | O => out_of_fuel
  | S n => dispatch_body (exec client n) client n c
  end.

(** Idle processors take the requested work items one after the other. *)
Fixpoint run_workers (client : Z -> Z -> list api) (fuel : nat) (turns : nat) : W Z :=
  match turns with
  | O => out_of_fuel
  | S n =>
      work ← gets w_work;
      match work with
      | [] => mret 0
      | _ :: _ => run_other_thread (exec client fuel);; run_workers client fuel n
      end
  end.
