(* ===== verification/SerialQueue.v ===== *)
(** * Serial queues from submission to completion

    What queue.c promises about a serial queue, proved of the functions of DispatchQueue.v: a drain
    runs the items in order, a worker that takes the queue leaves it idle, and work submitted with
    dispatch_async_f to an idle queue is run by the workers that the submission asks for. *)

From S2P Require Import Prelude DispatchObject DispatchQueue.
From stdpp Require Import base tactics list numbers gmap strings.
From Stdlib Require Import ZArith Lia.

Local Open Scope Z_scope.

(** ** Looking at a world after an update *)

Lemma field_cache_key c w a f : field (set_cache_key c w) a f = field w a f.
Proof. done. Qed.
Lemma field_queue_key c w a f : field (set_queue_key c w) a f = field w a f.
Proof. done. Qed.
Lemma field_work l w a f : field (set_work l w) a f = field w a f.
Proof. done. Qed.
Lemma field_log e w a f : field (add_log e w) a f = field w a f.
Proof. done. Qed.
Lemma field_upd_eq w a f v : field (upd w a f v) a f = v.
Proof. by rewrite field_upd, decide_True. Qed.
Lemma field_upd_ne w a f v a' f' : a <> a' \/ f <> f' -> field (upd w a f v) a' f' = field w a' f'.
Proof. intros H. rewrite field_upd, decide_False; [done|]. intros [-> ->]. by destruct H. Qed.

Create Rewrite HintDb wfield.
#[export] Hint Rewrite field_cache_key field_queue_key field_work field_log field_upd_eq : wfield.

(** Reads through the updates of the goal. *)
Ltac w_field := repeat first
  [ rewrite field_cache_key | rewrite field_queue_key | rewrite field_work | rewrite field_log | rewrite field_upd_eq
  | rewrite field_upd_ne by (first [by left | by right | left; congruence | right; congruence]) ].

(** ** The items of a queue *)

(** [l] is what dq_items_head leads to, ended by dq_items_tail. *)
Definition queue_items (w : world) (dq : Z) (l : list Z) : Prop :=
  next_list w (field w dq dq_items_head) l /\ field w dq dq_items_tail = default 0 (last l) /\
  NoDup l /\ dq ∉ l.

Section serial.
Context (client : Z -> Z -> list api) (dq : Z).

(** A continuation of dispatch_async_f whose function makes no library call. *)
Definition leaf_item (w : world) (x : Z) : Prop :=
  x <> dq /\ field w x do_vtable = DISPATCH_OBJ_ASYNC_BIT /\ 0 < field w x dc_func /\
  client (field w x dc_func) (field w x dc_ctxt) = [].

(** What running the item records. *)
Definition entry (w : world) (x : Z) : Z * Z * Z := (field w x dc_func, field w x dc_ctxt, dq).

(** What a drain leaves alone: everything but the do_next links and the two list words of the queue;
    the continuations of the items go to the cache of the thread. *)
Record drained (w w' : world) (l : list Z) : Prop := {
  dr_field : forall a f, f <> do_next -> (a <> dq \/ (f <> dq_items_tail /\ f <> dq_items_head)) ->
    field w' a f = field w a f;
  dr_next : forall a, a ∉ l -> field w' a do_next = field w a do_next;
  dr_live : w_live w' = w_live w;
  dr_queue : w_queue_key w' = w_queue_key w;
  dr_sema : w_sema4_key w' = w_sema4_key w;
  dr_work : w_work w' = w_work w;
  dr_serial : w_serial w' = w_serial w;
  dr_brk : w_brk w' = w_brk w;
  dr_log : w_log w' = w_log w ++ (entry w <$> l);
  dr_cache : forall cl, next_list w (w_cache_key w) cl -> NoDup (l ++ cl) ->
    (forall x, x ∈ l -> x <> 0 /\ x ∈ w_live w) -> next_list w' (w_cache_key w') (reverse l ++ cl)
}.

(** The queue is locked by the thread that drains it. *)
Record serial_ready (w : world) (tq : Z) : Prop := {
  sr_live : dq ∈ w_live w;
  sr_width : field w dq dq_width = 1;
  sr_running : field w dq dq_running = 1;
  sr_suspend : 0 <= field w dq do_suspend_cnt < 2;
  sr_target : field w dq do_targetq = tq
}.

Lemma call_leaf call f c w :
  0 < f -> client f c = [] ->
  call_function call client f c w = Ret 0 (add_log (f, c, w_queue_key w) w).
Proof.
  intros Hf Hc. unfold call_function, fn_set_target_queue2, fn_async_f_redirect2, fn_sync_f_slow2,
    fn_barrier_sync_f_slow_invoke, fn_sigsuspend.
  repeat (case_cmp; try lia). w_steps. by rewrite Hc.
Qed.

Lemma pop_leaf n w x :
  leaf_item w x -> x ∈ w_live w ->
  exec client (S (S n)) (KPop x) w =
    Ret 0 (add_log (field w x dc_func, field w x dc_ctxt, w_queue_key w)
             (set_cache_key x (upd w x do_next (w_cache_key w)))).
Proof.
  intros (Hne & Hvt & Hf & Hc) Hl.
  change (_dispatch_continuation_pop (exec client (S n)) x w =
    Ret 0 (add_log (field w x dc_func, field w x dc_ctxt, w_queue_key w)
             (set_cache_key x (upd w x do_next (w_cache_key w))))).
  unfold _dispatch_continuation_pop. w_step. rewrite Hvt. simpl.
  unfold _dispatch_continuation_free. w_steps. w_field.
  by erewrite bind_step by (by apply call_leaf).
Qed.

(** The decision for any item of a serial queue that is not disturbed. *)
Lemma decide_pop w x tq : serial_ready w tq -> drain_decide dq x tq w = Ret DrainPop w.
Proof.
  intros [Hl Hw Hr Hs Ht]. unfold drain_decide, DISPATCH_OBJECT_SUSPENDED, DISPATCH_OBJECT_SUSPEND_INTERVAL.
  w_steps. rewrite Z.geb_leb. case_cmp; [lia|]. w_steps. rewrite Hr, Hw. simpl. w_steps.
  rewrite Ht, Z.eqb_refl. done.
Qed.

Lemma serial_ready_frame w w' tq :
  (forall f, f <> do_next -> f <> dq_items_tail -> f <> dq_items_head -> field w' dq f = field w dq f) ->
  w_live w' = w_live w -> serial_ready w tq -> serial_ready w' tq.
Proof. intros Hf Hl [? ? ? ? ?]. split; rewrite ?Hl, ?Hf; done. Qed.

Lemma leaf_item_frame w w' x :
  (forall f, f <> do_next -> field w' x f = field w x f) -> leaf_item w x -> leaf_item w' x.
Proof. intros Hf (? & ? & ? & ?). unfold leaf_item. rewrite !Hf by done. done. Qed.

Lemma drained_trans w w1 w' l1 l2 :
  drained w w1 l1 -> drained w1 w' l2 -> drained w w' (l1 ++ l2).
Proof.
  intros H1 H2. split.
  - intros a f Hf Ha. rewrite (dr_field _ _ _ H2), (dr_field _ _ _ H1); done.
  - intros a Ha. rewrite (dr_next _ _ _ H2), (dr_next _ _ _ H1); [done|set_solver|set_solver].
  - rewrite (dr_live _ _ _ H2). apply (dr_live _ _ _ H1).
  - rewrite (dr_queue _ _ _ H2). apply (dr_queue _ _ _ H1).
  - rewrite (dr_sema _ _ _ H2). apply (dr_sema _ _ _ H1).
  - rewrite (dr_work _ _ _ H2). apply (dr_work _ _ _ H1).
  - rewrite (dr_serial _ _ _ H2). apply (dr_serial _ _ _ H1).
  - rewrite (dr_brk _ _ _ H2). apply (dr_brk _ _ _ H1).
  - rewrite (dr_log _ _ _ H2), (dr_log _ _ _ H1), fmap_app, <- app_assoc. do 2 f_equal.
    apply list_fmap_ext. intros i x _. unfold entry.
    rewrite !(dr_field _ _ _ H1) by (done || right; done). done.
  - intros cl Hcl Hnd Hx. rewrite reverse_app, <- app_assoc. apply (dr_cache _ _ _ H2).
    + apply (dr_cache _ _ _ H1); [done| |set_solver]. rewrite <- app_assoc in Hnd.
      revert Hnd. rewrite !NoDup_app. set_solver.
    + revert Hnd. apply NoDup_Permutation_proper. rewrite (reverse_Permutation l1). solve_Permutation.
    + intros x Hin. rewrite (dr_live _ _ _ H1). apply Hx. set_solver.
Qed.

(** Popping one item is a drain of that item. *)
Lemma drained_pop w x :
  x <> dq -> w_queue_key w = dq ->
  drained w (add_log (field w x dc_func, field w x dc_ctxt, w_queue_key w)
               (set_cache_key x (upd w x do_next (w_cache_key w)))) [x].
Proof.
  intros Hne Hq. split; try done.
  - intros a f Hf Ha. by w_field.
  - intros a Ha. w_field. apply field_upd_ne. left. set_solver.
  - simpl. unfold entry. by rewrite Hq.
  - intros cl Hcl Hnd Hx. destruct (Hx x ltac:(set_solver)). simpl. split_and!; try done. w_field.
    apply (next_list_frame w); [|done]. intros y Hy. split; [|done]. w_field. apply field_upd_ne. left.
    intros ->. simpl in Hnd. by apply NoDup_cons in Hnd as [Hni _].
Qed.
Lemma drained_tail w v : drained w (upd w dq dq_items_tail v) [].
Proof.
  split; try done.
  - intros a f Hf Ha. apply field_upd_ne. destruct Ha as [|[]]; [by left|by right].
  - intros a _. apply field_upd_ne. by right.
  - simpl. by rewrite app_nil_r.
  - intros cl Hcl _ _. apply (next_list_frame w); [|done]. intros x _. split; [|done]. by w_field.
Qed.

(** The inner loop, from the moment it holds the first item of [x :: l]. *)
Lemma drain_items n loops tq l : forall fuel w x,
  serial_ready w tq -> next_list w x (x :: l) -> NoDup (x :: l) -> dq ∉ x :: l ->
  (forall y, y ∈ x :: l -> leaf_item w y) ->
  field w dq dq_items_tail = default 0 (last (x :: l)) -> w_queue_key w = dq ->
  (length l + 2 <= fuel)%nat ->
  exists w', drain_loop (exec client (S (S n))) loops fuel dq x tq w = Ret 0 w' /\
    drained w w' (x :: l) /\ field w' dq dq_items_tail = 0 /\
    field w' dq dq_items_head = field w dq dq_items_head.
Proof.
  induction l as [|y l IH]; intros [|fuel] w x Hr Hnl Hnd Hdq Hleaf Ht Hq Hf; simpl in Hf; try lia;
    destruct (Hleaf x ltac:(set_solver)) as (Hxd & Hlf); destruct Hnl as (_ & Hx0 & Hxl & Hnext).
  - simpl in Hnext, Ht. destruct fuel as [|fuel]; [lia|].
    set (w1 := upd w dq dq_items_tail 0). assert (dq ∈ w_live w) by apply Hr.
    assert (serial_ready w1 tq) as Hr1
      by (apply (serial_ready_frame w); [|done|exact Hr]; intros; apply field_upd_ne; by right).
    assert (leaf_item w1 x) as Hl1
      by (apply (leaf_item_frame w); [|exact (Hleaf x ltac:(set_solver))]; intros; apply field_upd_ne; left; done).
    cbn [drain_loop]. case_cmp; [done|]. w_step. rewrite Hnext. cbn [Z.eqb negb]. w_step.
    rewrite Ht, Z.eqb_refl. cbn [negb].
    rewrite (bind_step _ _ _ _ _ (decide_pop w1 x tq Hr1)).
    rewrite (bind_step _ _ _ _ _ (pop_leaf n w1 x Hl1 Hxl)). cbn [Z.eqb].
    rewrite ld_bind by done. w_field. replace (field w1 dq dq_items_tail) with 0 by (unfold w1; by w_field). cbn [Z.eqb]. eexists. split; [done|]. split_and!.
    + apply (drained_trans w w1 _ [] [x]); [apply drained_tail|]. by apply drained_pop.
    + w_field. unfold w1. by w_field.
    + w_field. unfold w1. by w_field.
  - destruct Hnext as (Hy & Hy0 & Hyl & Hnext).
    set (w1 := add_log (field w x dc_func, field w x dc_ctxt, w_queue_key w)
                 (set_cache_key x (upd w x do_next (w_cache_key w)))).
    assert (drained w w1 [x]) as Hd1 by (by apply drained_pop).
    inversion Hnd as [|? ? Hxn Hnd']; subst.
    destruct (IH fuel w1 (field w x do_next)) as (w' & Hrun & Hd & Htl & Hhd); try done.
    + apply (serial_ready_frame w); [|apply (dr_live _ _ _ Hd1)|exact Hr].
      intros. apply (dr_field _ _ _ Hd1); [done|by right].
    + apply (next_list_frame w); [|by split_and!]. intros z Hz.
      split; [|by rewrite (dr_live _ _ _ Hd1)]. apply (dr_next _ _ _ Hd1). set_solver.
    + set_solver.
    + intros z Hz. apply (leaf_item_frame w); [|apply Hleaf; set_solver]. intros f Hf'.
      apply (dr_field _ _ _ Hd1); [done|]. left. apply (Hleaf z). set_solver.
    + unfold w1. by w_field.
    + lia.
    + exists w'. split_and!; [|by apply (drained_trans w w1 w' [x])|done|].
      * cbn [drain_loop]. case_cmp; [done|]. w_step.
        rewrite (proj2 (Z.eqb_neq (field w x do_next) 0)) by done. cbn [negb]. rewrite ret_bind. cbn [negb].
        rewrite (bind_step _ _ _ _ _ (decide_pop w x tq Hr)).
        by rewrite (bind_step _ _ _ _ _ (pop_leaf n w x (Hleaf x ltac:(set_solver)) Hxl)).
      * rewrite Hhd. unfold w1. by w_field.
Qed.

End serial.

(** ** Draining a serial queue *)

Lemma queue_items_nil w dq :
  field w dq dq_items_head = 0 -> field w dq dq_items_tail = 0 -> queue_items w dq [].
Proof. intros. split_and!; [done|done|apply NoDup_nil_2|set_solver]. Qed.

Section drain.
Context (client : Z -> Z -> list api) (dq : Z).

Lemma drained_key w q w' l : drained dq (set_queue_key q w) w' l ->
  drained dq w (set_queue_key (w_queue_key w) w') l.
Proof.
  intros H. split; simpl.
  - intros a f Hf Ha. rewrite field_queue_key, (dr_field _ _ _ _ H) by done. done.
  - intros a Ha. rewrite field_queue_key, (dr_next _ _ _ _ H) by done. done.
  - apply (dr_live _ _ _ _ H).
  - done.
  - apply (dr_sema _ _ _ _ H).
  - apply (dr_work _ _ _ _ H).
  - apply (dr_serial _ _ _ _ H).
  - apply (dr_brk _ _ _ _ H).
  - apply (dr_log _ _ _ _ H).
  - intros cl Hcl Hnd Hx. apply (next_list_frame w'); [done|]. apply (dr_cache _ _ _ _ H); [|done|done].
    by apply (next_list_frame w).
Qed.

Lemma drain_run w tq l n :
  serial_ready dq w tq -> queue_items w dq l -> (forall x, x ∈ l -> leaf_item client dq w x) ->
  (length l + 2 <= n)%nat ->
  exists w', exec client (S (S n)) (KDrain dq) w = Ret 0 w' /\ drained dq w w' l /\
    field w' dq dq_items_tail = 0 /\ field w' dq dq_items_head = 0.
Proof.
  intros Hr (Hnl & Ht & Hnd & Hdq) Hleaf Hn.
  change (exec client (S (S n)) (KDrain dq) w) with
    (_dispatch_queue_drain (exec client (S n)) (S n) dq w).
  unfold _dispatch_queue_drain. assert (dq ∈ w_live w) as Hl by apply Hr. w_steps.
  rewrite (sr_target _ _ _ Hr).
  destruct l as [|x l]; cbn [drain_loop].
  - simpl in Ht, Hnl. w_steps. cbn [Z.eqb]. rewrite bind_assoc, ld_bind by done. rewrite field_queue_key, Ht. cbn [Z.eqb].
    rewrite ret_bind, modify_bind. eexists. split; [done|]. rewrite !field_queue_key. split_and!; try done.
    apply (drained_key w dq).
    split; try done. simpl. by rewrite app_nil_r.
  - destruct Hnl as (Hhd & Hx0 & Hxl & Hnl). simpl in Hn. destruct n as [|n]; [lia|].
    assert (field w dq dq_items_tail <> 0) as Ht0.
    { rewrite Ht. assert (default 0 (last (x :: l)) ∈ x :: l) as Hin.
      { destruct (last (x :: l)) as [z|] eqn:Hz; [|by apply last_None in Hz].
        apply last_Some in Hz as [l' ->]. simpl. set_solver. }
      assert (forall a l', next_list w a l' -> 0 ∉ l') as Hnz.
      { clear. intros a l'. revert a. induction l' as [|z l' IH]; intros a Hl; [set_solver|].
        destruct Hl as (_ & ? & _ & Hl). apply IH in Hl. set_solver. }
      pose proof (Hnz x (x :: l) ltac:(by split_and!)). intros Hz. rewrite Hz in Hin. done. }
    w_steps. cbn [Z.eqb]. rewrite bind_assoc, ld_bind by done. rewrite field_queue_key. case_cmp; [done|].
    rewrite bind_assoc, ld_bind by done. rewrite field_queue_key, Hhd. case_cmp; [done|]. rewrite bind_assoc, st_bind by done.
    set (w1 := upd (set_queue_key dq w) dq dq_items_head 0).
    assert (forall a f, (a <> dq \/ f <> dq_items_head) -> field w1 a f = field w a f) as Hw1.
    { intros a f Ha. unfold w1. rewrite field_upd_ne; [done|]. destruct Ha; [left; congruence|right; congruence]. }
    destruct (drain_items client dq n (S (S n)) tq l (S n) w1 x) as (w' & Hrun & Hd & Htl & Hhd').
    + destruct Hr. split; rewrite ?Hw1 by (right; done); done.
    + apply (next_list_frame w); [|by split_and!]. intros z Hz. split; [|done]. apply Hw1. by right.
    + done.
    + done.
    + intros z Hz. apply (leaf_item_frame client dq w); [|by apply Hleaf]. intros f Hf.
      apply Hw1. left. apply (Hleaf z Hz).
    + rewrite Hw1 by (by right). done.
    + done.
    + lia.
    + erewrite bind_step by exact Hrun. rewrite modify_bind. eexists. split; [done|].
      rewrite !field_queue_key. split_and!; [|done|].
      * apply (drained_key w dq). destruct Hd as [Df Dn Dl Dq Ds Dw Dse Db Dlog Dc].
        clear Hrun. split; try done.
        -- intros a f Hf Ha. rewrite Df by done. rewrite Hw1 by naive_solver. done.
        -- intros a Ha. rewrite Dn by done. rewrite Hw1 by (by right). done.
        -- rewrite Dlog. f_equal. apply list_fmap_ext. intros i z _. unfold entry.
           rewrite !Hw1 by (by right). done.
        -- intros cl Hcl Hndl Hx. apply Dc; [|done|done]. apply (next_list_frame (set_queue_key dq w)); [|done].
           intros z _. split; [|done]. apply Hw1. by right.
      * rewrite Hhd'. unfold w1. by w_field.
Qed.

End drain.

(** A drain of a serial queue that nobody suspends or retargets runs every pending
    item, in the order of the list and on that queue, terminates, leaves the list empty and restores
    the thread's current queue; nothing else in memory changes but the links of the items. *)
Theorem serial_drain_fifo client dq w tq l n :
  serial_ready dq w tq -> queue_items w dq l -> (forall x, x ∈ l -> leaf_item client dq w x) ->
  (length l + 2 <= n)%nat ->
  exists w', exec client (S (S n)) (KDrain dq) w = Ret 0 w' /\
    w_log w' = w_log w ++ (entry dq w <$> l) /\ queue_items w' dq [] /\
    w_queue_key w' = w_queue_key w /\ w_live w' = w_live w /\ w_work w' = w_work w.
Proof.
  intros Hr Hq Hleaf Hn. destruct (drain_run client dq w tq l n Hr Hq Hleaf Hn) as (w' & Hrun & Hd & Ht & Hh).
  exists w'. destruct Hd as [Df Dn Dl Dq Ds Dw Dse Db Dlog Dc]. split_and!; try done.
  by apply queue_items_nil.
Qed.

(** A serial queue that a worker has just taken off its target queue: the lock bit is the one
    _dispatch_wakeup took, and one reference belongs to the list it was on. *)
Record serial_enqueued (w : world) (dq tq r : Z) : Prop := {
  se_live : dq ∈ w_live w;
  se_vtable : field w dq do_vtable = _dispatch_queue_vtable;
  se_width : field w dq dq_width = 1;
  se_running : field w dq dq_running = 0;
  se_suspend : field w dq do_suspend_cnt = 1;
  se_target : field w dq do_targetq = tq;
  se_refs : field w dq do_ref_cnt = r /\ (r = DISPATCH_OBJECT_GLOBAL_REFCNT \/ 1 < r < DISPATCH_OBJECT_GLOBAL_REFCNT)
}.

(** Waking an idle queue that has no items does nothing. *)
Lemma wakeup_empty call w dq :
  dq ∈ w_live w -> field w dq do_vtable = _dispatch_queue_vtable ->
  field w dq do_suspend_cnt = 0 -> field w dq dq_items_tail = 0 ->
  _dispatch_wakeup call dq w = Ret 0 w.
Proof.
  intros Hl Hv Hs Ht. unfold _dispatch_wakeup, DISPATCH_OBJECT_SUSPENDED, dx_probe. w_steps.
  rewrite Hs. cbn. w_steps. rewrite Hv. cbn. w_steps. by rewrite Ht.
Qed.

(** What invoking the queue does: the items [l] have run and the queue is idle. *)
Record invoked (dq : Z) (w w' : world) (r : Z) (l : list Z) : Prop := {
  iv_field : forall a f, f <> do_next -> a <> dq -> field w' a f = field w a f;
  iv_self : forall f, f ∉ [do_next; dq_items_tail; dq_items_head; do_suspend_cnt; do_ref_cnt] ->
    field w' dq f = field w dq f;
  iv_next : forall a, a ∉ l -> a <> dq -> field w' a do_next = field w a do_next;
  iv_live : w_live w' = w_live w;
  iv_queue : w_queue_key w' = w_queue_key w;
  iv_sema : w_sema4_key w' = w_sema4_key w;
  iv_work : w_work w' = w_work w;
  iv_brk : w_brk w' = w_brk w;
  iv_log : w_log w' = w_log w ++ (entry dq w <$> l);
  iv_cache : forall cl, next_list w (w_cache_key w) cl -> NoDup (l ++ cl) -> dq ∉ cl ->
    (forall x, x ∈ l -> x <> 0 /\ x ∈ w_live w) -> next_list w' (w_cache_key w') (reverse l ++ cl);
  iv_items : field w' dq dq_items_tail = 0 /\ field w' dq dq_items_head = 0;
  iv_suspend : field w' dq do_suspend_cnt = 0;
  iv_listless : field w' dq do_next = DISPATCH_OBJECT_LISTLESS;
  iv_refs : field w' dq do_ref_cnt = ref_dec r
}.

Lemma invoke_run client dq w tq r l n :
  serial_enqueued w dq tq r -> queue_items w dq l -> (forall x, x ∈ l -> leaf_item client dq w x) ->
  (length l + 2 <= n)%nat ->
  exists w', exec client (S (S (S n))) (KInvoke dq) w = Ret 0 w' /\ invoked dq w w' r l.
Proof.
  intros [Hl Hv Hw Hr Hs Ht [Hrf Hrr]] Hq Hleaf Hn.
  change (exec client (S (S (S n))) (KInvoke dq) w) with
    (_dispatch_queue_invoke (exec client (S (S n))) dq w).
  unfold _dispatch_queue_invoke, DISPATCH_OBJECT_SUSPENDED, _dispatch_queue_trylock. w_steps.
  rewrite Hs, Ht. change (1 >=? DISPATCH_OBJECT_SUSPEND_INTERVAL) with false. cbv iota.
  w_steps. rewrite Hr. change (0 =? 0) with true. cbv iota.
  set (w1 := upd w dq dq_running 1).
  assert (forall a f, f <> dq_running -> field w1 a f = field w a f) as Hw1
    by (intros; apply field_upd_ne; by right).
  destruct (drain_run client dq w1 tq l n) as (w2 & Hrun & Hd & Htl & Hhd); try done.
  { split; rewrite ?Hw1 by done; try done; [by unfold w1; w_field|by rewrite Hs]. }
  { destruct Hq as (Hnl & Hql & Hnd & Hndq). split_and!; try done.
    - rewrite Hw1 by done. apply (next_list_frame w); [|done]. intros. split; [by apply Hw1|done].
    - by rewrite Hw1. }
  { intros x Hx. apply (leaf_item_frame client dq w); [|by apply Hleaf]. intros f _.
    apply field_upd_ne. left. intros <-. by destruct (Hleaf dq Hx). }
  assert (forall a f, f <> do_next -> f <> dq_items_tail -> f <> dq_items_head -> f <> dq_running ->
    field w2 a f = field w a f) as Hw2
    by (intros; rewrite (dr_field _ _ _ _ Hd) by (done || by right); by apply Hw1).
  assert (dq ∈ w_live w2) as Hl2 by (rewrite (dr_live _ _ _ _ Hd); done).
  assert (field w2 dq dq_running = 1) as Hrun2.
  { rewrite (dr_field _ _ _ _ Hd) by (done || by right). unfold w1. by w_field. }
  erewrite bind_step by exact Hrun. w_steps.
  rewrite Hw2, Ht, Z.eqb_refl by done. rewrite Hrun2. change (s64 (1 + -1)) with 0.
  change (true && negb (0 =? 0)) with false. cbv iota.
  set (w3 := upd w2 dq dq_running 0). rewrite st_bind by done.
  set (w4 := upd w3 dq do_next DISPATCH_OBJECT_LISTLESS). rewrite atomic_add_bind by done.
  assert (field w4 dq do_suspend_cnt = 1) as Hs4
    by (unfold w4, w3; w_field; rewrite Hw2 by done; done).
  rewrite Hs4. change (s64 (1 + - DISPATCH_OBJECT_SUSPEND_LOCK)) with 0.
  set (w5 := upd w4 dq do_suspend_cnt 0). change (0 =? 0) with true. cbv iota. w_steps.
  assert (field w5 dq dq_running = 0) as Hr5 by (unfold w5, w4, w3; by w_field).
  rewrite Hr5. change (0 =? 0) with true. cbv iota.
  change (exec client (S (S n)) (KWakeup dq)) with (_dispatch_wakeup (exec client (S n)) dq).
  rewrite bind_assoc. erewrite bind_step.
  2: { apply wakeup_empty; [done| | |]; unfold w5, w4, w3; w_field; [|done|done].
       by rewrite Hw2. }
  rewrite ret_bind.
  change (exec client (S (S n)) (KRelease dq)) with (_dispatch_release (exec client (S n)) dq).
  rewrite (release_any _ _ _ r).
  - eexists. split; [done|].
    assert (forall a f, a <> dq \/ f ∉ [do_next; do_suspend_cnt; do_ref_cnt; dq_running] ->
      field (upd w5 dq do_ref_cnt (ref_dec r)) a f = field w2 a f) as Hlast.
    { intros a f Ha. unfold w5, w4, w3. rewrite !field_upd_ne; first done; set_solver. }
    split; try done.
    + intros a f Hf Ha. rewrite Hlast by (by left). rewrite (dr_field _ _ _ _ Hd) by (done || by left).
      apply field_upd_ne. by left.
    + intros f Hf. destruct (decide (f = dq_running)) as [->|]; [by w_field; rewrite Hr5|].
      rewrite Hlast by set_solver. apply Hw2; set_solver.
    + intros a Ha Hne. rewrite Hlast by (by left). rewrite (dr_next _ _ _ _ Hd) by done. by apply Hw1.
    + change (w_live w2 = w_live w). by rewrite (dr_live _ _ _ _ Hd).
    + change (w_queue_key w2 = w_queue_key w). by rewrite (dr_queue _ _ _ _ Hd).
    + change (w_sema4_key w2 = w_sema4_key w). by rewrite (dr_sema _ _ _ _ Hd).
    + change (w_work w2 = w_work w). by rewrite (dr_work _ _ _ _ Hd).
    + change (w_brk w2 = w_brk w). by rewrite (dr_brk _ _ _ _ Hd).
    + change (w_log w2 = w_log w ++ (entry dq w <$> l)). rewrite (dr_log _ _ _ _ Hd). f_equal.
      apply list_fmap_ext. intros i z _. unfold entry. by rewrite !Hw1.
    + intros cl Hcl Hnd Hndq Hx. apply (next_list_frame w2).
      { intros z Hz. split; [|done]. apply Hlast. left. intros ->.
        apply elem_of_app in Hz as [Hz|Hz]; [|done]. rewrite elem_of_reverse in Hz.
        by destruct (Hleaf dq Hz). }
      apply (dr_cache _ _ _ _ Hd); [|done|done]. apply (next_list_frame w); [|done].
      intros z _. split; [by apply Hw1|done].
    + rewrite !Hlast by set_solver. done.
    + w_field. unfold w5. by w_field.
    + w_field. unfold w5, w4. by w_field.
    + by w_field.
  - done.
  - unfold w5, w4, w3. w_field. by rewrite Hw2.
  - done.
Qed.

(** a worker that takes a serial queue runs all of its items in order and leaves
    the queue idle: unlocked, on no list, with the list's reference given back. *)
Theorem serial_invoke_runs_all client dq w tq r l n :
  serial_enqueued w dq tq r -> queue_items w dq l -> (forall x, x ∈ l -> leaf_item client dq w x) ->
  (length l + 2 <= n)%nat ->
  exists w', exec client (S (S (S n))) (KInvoke dq) w = Ret 0 w' /\
    w_log w' = w_log w ++ (entry dq w <$> l) /\ queue_items w' dq [] /\
    field w' dq dq_running = 0 /\ field w' dq do_suspend_cnt = 0 /\
    field w' dq do_next = DISPATCH_OBJECT_LISTLESS /\ field w' dq do_ref_cnt = ref_dec r /\
    w_work w' = w_work w /\ w_live w' = w_live w.
Proof.
  intros Hse Hq Hleaf Hn. destruct (invoke_run client dq w tq r l n Hse Hq Hleaf Hn) as (w' & Hrun & Hiv).
  exists w'. destruct Hiv as [If Is In Il Iq Ise Iw Ib Ilog Ic [It Ih] Isu Ili Ir]. split_and!; try done.
  - by apply queue_items_nil.
  - rewrite Is by set_solver. apply Hse.
Qed.

(** ** The root queue and its workers *)

(** Everything of a world but its memory. *)
Definition meta (w : world) :=
  (w_live w, w_brk w, w_queue_key w, w_sema4_key w, w_cache_key w, w_serial w, w_log w).

(** The static part of root queue [i] and of its context. *)
Record root_ok (w : world) (i : Z) : Prop := {
  ro_index : i ∈ root_indices;
  ro_live : _dispatch_root_queues i ∈ w_live w;
  ro_contexts : forall j, j ∈ root_indices -> _dispatch_root_queue_contexts j ∈ w_live w;
  ro_statics : statics ∈ w_live w;
  ro_vtable : field w (_dispatch_root_queues i) do_vtable = _dispatch_queue_root_vtable;
  ro_refs : field w (_dispatch_root_queues i) do_ref_cnt = DISPATCH_OBJECT_GLOBAL_REFCNT;
  ro_suspend : field w (_dispatch_root_queues i) do_suspend_cnt = DISPATCH_OBJECT_SUSPEND_LOCK;
  ro_ctxt : field w (_dispatch_root_queues i) do_ctxt = _dispatch_root_queue_contexts i;
  ro_kq : field w statics once_pred <> 0 ->
    field w (_dispatch_root_queue_contexts i) dgq_kworkqueue <> 0
}.

Lemma root_not_main i : i ∈ root_indices -> (_dispatch_root_queues i =? _dispatch_main_q) = false.
Proof. unfold root_indices. rewrite !elem_of_cons, elem_of_nil. intros Hi. destruct_or! Hi; by subst. Qed.

Lemma root_init_loop l : forall w,
  (forall j, j ∈ l -> _dispatch_root_queue_contexts j ∈ w_live w) ->
  exists w', root_queues_init_loop l w = Ret 0 w' /\ meta w' = meta w /\ w_work w' = w_work w /\
    (forall a f, f <> dgq_kworkqueue -> field w' a f = field w a f) /\
    (forall j, j ∈ l -> field w' (_dispatch_root_queue_contexts j) dgq_kworkqueue <> 0) /\
    (forall a, field w a dgq_kworkqueue <> 0 -> field w' a dgq_kworkqueue <> 0).
Proof.
  induction l as [|i l IH]; intros w Hl; simpl.
  - exists w. split_and!; try done. set_solver.
  - rewrite st_bind by (apply Hl; set_solver).
    set (v := 16 + _ + _). assert (v <> 0) as Hv.
    { unfold v, _dispatch_rootq2wq_pri. pose proof (Z.land_nonneg i 1).
      repeat case_match; lia. }
    destruct (IH (upd w (_dispatch_root_queue_contexts i) dgq_kworkqueue v)) as (w' & Hrun & Hm & Hw & Hf & Hk & Hk').
    { intros j Hj. apply Hl. set_solver. }
    exists w'. split_and!; try done.
    + intros a f Hne. rewrite Hf by done. apply field_upd_ne. right. congruence.
    + intros j Hj. apply elem_of_cons in Hj as [->|Hj]; [|by apply Hk]. apply Hk'. by rewrite field_upd_eq.
    + intros a Ha. apply Hk'. rewrite field_upd. by case_decide.
Qed.

(** Looking for work on a root queue that has some asks for a worker, unless one was already asked for. *)
Lemma wakeup_global_run call w i :
  root_ok w i -> field w (_dispatch_root_queues i) dq_items_tail <> 0 ->
  field w (_dispatch_root_queue_contexts i) dgq_pending = 0 ->
  exists w', _dispatch_queue_wakeup_global call (_dispatch_root_queues i) w = Ret false w' /\
    meta w' = meta w /\ w_work w' = w_work w ++ [_dispatch_root_queues i] /\ (forall j, root_ok w j -> root_ok w' j) /\
    field w' (_dispatch_root_queue_contexts i) dgq_pending = 1 /\
    (forall a f, f ∉ [dgq_kworkqueue; once_pred; safe_fork; dgq_pending] -> field w' a f = field w a f) /\
    (forall a, a <> _dispatch_root_queue_contexts i -> field w' a dgq_pending = field w a dgq_pending).
Proof.
  intros Hro Ht Hp. destruct Hro as [Hi Hl Hc Hst Hv Hr Hs Hx Hk]. unfold _dispatch_queue_wakeup_global.
  pose proof (Hc i Hi) as Hci. w_steps. case_cmp; [done|]. w_steps. rewrite Hx. set (w0 := upd w statics safe_fork 0).
  assert (forall a f, f <> safe_fork -> field w0 a f = field w a f) as Hw0 by (intros; apply field_upd_ne; right; congruence).
  (* the once-only initialisation *)
  assert (exists w1, (if field w0 statics once_pred =? 0
      then st statics once_pred (-1);; _dispatch_root_queues_init else mret 0) w0 = Ret 0 w1 /\
    meta w1 = meta w /\ w_work w1 = w_work w /\
    (forall j, root_ok w j -> field w1 (_dispatch_root_queue_contexts j) dgq_kworkqueue <> 0) /\
    (forall a f, f ∉ [dgq_kworkqueue; once_pred; safe_fork] -> field w1 a f = field w a f)) as (w1 & Hrun & Hm & Hwk & Hkq & Hf).
  { destruct (Z.eqb_spec (field w0 statics once_pred) 0) as [Hz|Hnz].
    - rewrite st_bind by done.
      destruct (root_init_loop root_indices (upd w0 statics once_pred (-1)) Hc) as (w1 & Hrun & Hm & Hwk & Hf & Hk1 & _).
      exists w1. split_and!; try done; [intros j Hj; by apply Hk1, Hj|].
      intros a f H1. rewrite Hf by set_solver. rewrite field_upd_ne by set_solver. apply Hw0. set_solver.
    - rewrite Hw0 in Hnz by done. exists w0. split_and!; try done; [intros j Hj; rewrite Hw0 by done; by apply Hj|].
      intros a f H1. apply Hw0. set_solver. }
  erewrite bind_step by exact Hrun. injection Hm as Hlive Hbrk Hqk Hsk Hck Hse Hlog.
  assert (field w1 (_dispatch_root_queue_contexts i) dgq_kworkqueue <> 0) as Hki by (by apply Hkq).
  rewrite <- Hlive in Hl, Hci, Hst. w_steps. case_cmp; [done|]. cbn [negb]. w_steps.
  rewrite Hf, Hp by set_solver. cbn [Z.eqb]. w_steps. eexists. split; [done|].
  assert (forall a f, f ∉ [dgq_kworkqueue; once_pred; safe_fork; dgq_pending] ->
    field (upd w1 (_dispatch_root_queue_contexts i) dgq_pending 1) a f = field w a f) as Hlast.
  { intros a f Hnf. rewrite field_upd_ne by set_solver. apply Hf. set_solver. }
  split_and!.
  - unfold meta. simpl. by rewrite Hlive, Hbrk, Hqk, Hsk, Hck, Hse, Hlog.
  - simpl. by rewrite Hwk.
  - intros j Hj. pose proof (Hkq j Hj). destruct Hj. split; simpl; rewrite ?Hlive; try done.
    1-4: rewrite field_work, Hlast by (clear; set_solver); done.
    intros _. by rewrite field_work, field_upd_ne by (by right).
  - by w_field.
  - intros a f Hnf. rewrite field_work. by apply Hlast.
  - intros a Ha. rewrite field_work, field_upd_ne by (left; congruence). apply Hf. set_solver.
Qed.

(** Pushing the first item of a root queue puts it on the list and asks for a worker. *)
Lemma push_root_run client n w i x :
  root_ok w i -> field w (_dispatch_root_queues i) dq_items_tail = 0 ->
  field w (_dispatch_root_queue_contexts i) dgq_pending = 0 ->
  x ∈ w_live w -> x <> 0 -> x <> _dispatch_root_queues i ->
  exists w', exec client (S (S n)) (KPush (_dispatch_root_queues i) x x) w = Ret 0 w' /\
    meta w' = meta w /\ w_work w' = w_work w ++ [_dispatch_root_queues i] /\ (forall j, root_ok w j -> root_ok w' j) /\
    field w' (_dispatch_root_queue_contexts i) dgq_pending = 1 /\
    field w' (_dispatch_root_queues i) dq_items_tail = x /\
    field w' (_dispatch_root_queues i) dq_items_head = x /\
    field w' x do_next = 0 /\
    (forall a f, a <> _dispatch_root_queues i -> f ∉ [dgq_kworkqueue; once_pred; safe_fork; dgq_pending; do_next] ->
       field w' a f = field w a f) /\
    (forall a, a <> x -> field w' a do_next = field w a do_next) /\
    (forall a, a <> _dispatch_root_queue_contexts i -> field w' a dgq_pending = field w a dgq_pending).
Proof.
  intros Hro Ht Hp Hxl Hx0 Hxr.
  change (exec client (S (S n)) (KPush (_dispatch_root_queues i) x x) w) with
    (_dispatch_queue_push_list (exec client (S n)) (_dispatch_root_queues i) x x w).
  set (rq := _dispatch_root_queues i) in *. set (qc := _dispatch_root_queue_contexts i) in *.
  pose proof Hro as [Hi Hl Hc Hst Hv Hr Hs Hxc Hk]. fold rq qc in Hl, Hv, Hr, Hs, Hxc, Hk.
  unfold _dispatch_queue_push_list. w_steps. w_field. rewrite Ht. cbn [Z.eqb negb].
  unfold _dispatch_queue_push_list_slow, _dispatch_retain. w_steps. w_field. rewrite Hr, Z.eqb_refl. w_steps.
  set (w1 := upd _ rq dq_items_head x).
  assert (forall a f, (a <> rq \/ f ∉ [dq_items_tail; dq_items_head]) -> (a <> x \/ f <> do_next) ->
    field w1 a f = field w a f) as Hw1.
  { intros a f Ha Hx. unfold w1. rewrite !field_upd_ne; first done; set_solver. }
  assert (forall j, root_ok w j -> root_ok w1 j) as Hall.
  { intros j []. split; try done; rewrite ?Hw1 by (right; clear; set_solver); done. }
  pose proof (Hall i Hro) as Hro1.
  destruct (wakeup_global_run (exec client n) w1 i) as (w2 & Hrun & Hm & Hwk & Hall2 & Hp2 & Hf2 & Hpp2); [done| | |].
  { fold rq. unfold w1. by w_field. }
  { fold qc. rewrite Hw1 by set_solver. done. }
  pose proof (Hall2 i Hro1) as Hro2. fold rq qc in Hrun, Hwk, Hp2. pose proof Hro2 as [_ Hl2 _ _ Hv2 Hr2 Hs2 _ _]. fold rq in Hl2, Hv2, Hr2, Hs2.
  change (exec client (S n) (KWakeup rq)) with (_dispatch_wakeup (exec client n) rq).
  change (exec client (S n) (KRelease rq)) with (_dispatch_release (exec client n) rq).
  assert (_dispatch_wakeup (exec client n) rq w1 = Ret 0 w2) as Hwake.
  { pose proof Hro1 as [_ Hl1 _ _ Hv1 _ Hs1 _ _]. fold rq in Hl1, Hv1, Hs1.
    unfold _dispatch_wakeup, DISPATCH_OBJECT_SUSPENDED, dx_probe, _dispatch_trylock. w_steps.
    rewrite Hs1. change (_ >=? _) with false. cbv iota. w_steps. rewrite Hv1. cbn [Z.eqb].
    change (_dispatch_queue_root_vtable =? _dispatch_queue_vtable) with false.
    change (_dispatch_queue_root_vtable =? _dispatch_queue_root_vtable) with true. cbv iota.
    erewrite bind_step by exact Hrun. w_steps.
    assert (field w2 rq dq_items_tail = x) as -> by (rewrite Hf2 by set_solver; unfold w1; by w_field).
    case_cmp; [done|]. cbn [negb andb]. w_steps. rewrite Hs2. cbn [Z.eqb negb]. unfold rq.
    rewrite root_not_main by done. done. }
  erewrite bind_step by exact Hwake. unfold _dispatch_release. rewrite ld_bind, Hr2, Z.eqb_refl by done.
  exists w2. split_and!; try done.
  - intros j Hj. by apply Hall2, Hall.
  - rewrite Hf2 by set_solver. unfold w1. by w_field.
  - rewrite Hf2 by set_solver. unfold w1. by w_field.
  - rewrite Hf2 by set_solver. unfold w1. by w_field.
  - intros a f Ha Hf. rewrite Hf2 by set_solver. apply Hw1; set_solver.
  - intros a Ha. rewrite Hf2 by set_solver. apply Hw1; set_solver.
  - intros a Ha. rewrite Hpp2 by done. apply Hw1; set_solver.
Qed.

(** ** Lists *)

Lemma next_list_elem w a l : next_list w a l -> forall x, x ∈ l -> x <> 0 /\ x ∈ w_live w.
Proof.
  revert a. induction l as [|y l IH]; intros a Hl x Hx; [set_solver|].
  destruct Hl as (_ & H0 & Hy & Hl). apply elem_of_cons in Hx as [->|Hx]; [done|]. by apply (IH _ Hl).
Qed.

Lemma last_Some_elem_of (l : list Z) x : last l = Some x -> x ∈ l.
Proof. intros [l' ->]%last_Some. set_solver. Qed.

(** Linking [dc] behind the last element of a list. *)
Lemma next_list_snoc w w' a l p dc :
  next_list w a l -> NoDup l -> last l = Some p ->
  (forall x, x ∈ l -> x <> p -> field w' x do_next = field w x do_next) ->
  field w' p do_next = dc -> field w' dc do_next = 0 -> dc <> 0 ->
  w_live w ⊆ w_live w' -> dc ∈ w_live w' -> next_list w' a (l ++ [dc]).
Proof.
  intros Hl Hnd Hp Hf Hpn Hdn H0 Hsub Hdc. revert a Hl Hnd Hp Hf.
  induction l as [|y l IH]; intros a Hl Hnd Hp Hf; [done|].
  destruct Hl as (-> & Hy0 & Hyl & Hl). inversion Hnd as [|? ? Hni Hnd']; subst.
  simpl. split_and!; [done|done|set_solver|]. destruct l as [|z l].
  - simpl in Hp. injection Hp as <-. simpl. done.
  - rewrite last_cons_cons in Hp. assert (y <> p) by (intros ->; apply Hni; by apply last_Some_elem_of).
    rewrite Hf by set_solver. apply IH; try done. intros x Hx. apply Hf. set_solver.
Qed.

(** ** Submitting *)

(** A serial queue with nothing to do, targeting root queue [i]. *)
Record serial_idle (w : world) (dq i r : Z) : Prop := {
  sd_live : dq ∈ w_live w;
  sd_nonnull : dq <> 0;
  sd_vtable : field w dq do_vtable = _dispatch_queue_vtable;
  sd_width : field w dq dq_width = 1;
  sd_running : field w dq dq_running = 0;
  sd_suspend : field w dq do_suspend_cnt = 0;
  sd_target : field w dq do_targetq = _dispatch_root_queues i;
  sd_refs : field w dq do_ref_cnt = r /\ (r = DISPATCH_OBJECT_GLOBAL_REFCNT \/ 0 < r < DISPATCH_OBJECT_GLOBAL_REFCNT - 2);
  sd_items : field w dq dq_items_tail = 0 /\ field w dq dq_items_head = 0
}.

(** Waking an idle queue that has items locks it, and pushes it on its target. *)
Lemma wakeup_take client n w dq tq r :
  dq ∈ w_live w -> field w dq do_vtable = _dispatch_queue_vtable -> field w dq do_suspend_cnt = 0 ->
  field w dq do_targetq = tq -> field w dq dq_items_tail <> 0 ->
  field w dq do_ref_cnt = r -> r = DISPATCH_OBJECT_GLOBAL_REFCNT \/ 0 < r < DISPATCH_OBJECT_GLOBAL_REFCNT - 1 ->
  exec client (S n) (KWakeup dq) w =
    (exec client n (KPush tq dq dq);; mret tq)
      (upd (upd w dq do_suspend_cnt DISPATCH_OBJECT_SUSPEND_LOCK) dq do_ref_cnt (ref_inc r)).
Proof.
  intros Hl Hv Hs Htq Htl Hr Hrb.
  change (exec client (S n) (KWakeup dq) w) with (_dispatch_wakeup (exec client n) dq w).
  unfold _dispatch_wakeup, DISPATCH_OBJECT_SUSPENDED, dx_probe, _dispatch_trylock. w_steps. rewrite Hs.
  change (0 >=? _) with false. cbv iota. w_steps. rewrite Hv.
  change (_dispatch_queue_vtable =? _dispatch_queue_vtable) with true. cbv iota. w_steps.
  case_cmp; [done|]. cbn [negb andb]. w_steps. rewrite Hs. cbn [Z.eqb negb].
  erewrite bind_step by (apply (retain_any dq _ r); [done|by w_field|done]).
  rewrite ld_bind by done. w_field. by rewrite Htq.
Qed.

(** On an idle root queue, this asks for a worker. *)
Lemma wakeup_serial_run client n w dq i r :
  root_ok w i -> field w (_dispatch_root_queues i) dq_items_tail = 0 ->
  field w (_dispatch_root_queue_contexts i) dgq_pending = 0 ->
  dq ∈ w_live w -> dq <> 0 -> dq <> _dispatch_root_queues i ->
  field w dq do_vtable = _dispatch_queue_vtable -> field w dq do_suspend_cnt = 0 ->
  field w dq do_targetq = _dispatch_root_queues i -> field w dq dq_items_tail <> 0 ->
  field w dq do_ref_cnt = r -> r = DISPATCH_OBJECT_GLOBAL_REFCNT \/ 0 < r < DISPATCH_OBJECT_GLOBAL_REFCNT - 1 ->
  exists w', exec client (S (S (S n))) (KWakeup dq) w = Ret (_dispatch_root_queues i) w' /\
    meta w' = meta w /\ w_work w' = w_work w ++ [_dispatch_root_queues i] /\ (forall j, root_ok w j -> root_ok w' j) /\
    field w' (_dispatch_root_queues i) dq_items_tail = dq /\
    field w' (_dispatch_root_queues i) dq_items_head = dq /\
    field w' dq do_next = 0 /\ field w' dq do_ref_cnt = ref_inc r /\ field w' dq do_suspend_cnt = 1 /\
    (forall f, f ∉ [dgq_kworkqueue; once_pred; safe_fork; dgq_pending; do_next; do_ref_cnt; do_suspend_cnt] ->
       field w' dq f = field w dq f) /\
    (forall a f, a <> _dispatch_root_queues i -> a <> dq ->
       f ∉ [dgq_kworkqueue; once_pred; safe_fork; dgq_pending] -> field w' a f = field w a f) /\
    (forall a, a <> _dispatch_root_queue_contexts i -> field w' a dgq_pending = field w a dgq_pending).
Proof.
  intros Hro Ht Hp Hl H0 Hne Hv Hs Htq Htl Hr Hrb.
  rewrite (wakeup_take client _ w dq (_dispatch_root_queues i) r) by (done || lia).
  set (w1 := upd w dq do_suspend_cnt DISPATCH_OBJECT_SUSPEND_LOCK). set (rq := _dispatch_root_queues i) in *.
  set (w2 := upd w1 dq do_ref_cnt (ref_inc r)).
  assert (forall a f, a <> dq \/ f ∉ [do_ref_cnt; do_suspend_cnt] -> field w2 a f = field w a f) as Hw2.
  { intros a f Ha. unfold w2, w1. rewrite !field_upd_ne; first done; set_solver. }
  assert (forall j, root_ok w j -> root_ok w2 j) as Hall2.
  { intros j [? ? ? ? Hvj ? ? ? ?]. assert (_dispatch_root_queues j <> dq) by (intros E; rewrite E, Hv in Hvj; done).
    split; try done; rewrite ?Hw2 by (by left); try done. rewrite !Hw2 by (right; clear; set_solver). done. }
  destruct (push_root_run client n w2 i dq) as (w3 & Hrun & Hm & Hwk & Hro3 & Hp3 & Htl3 & Hhd3 & Hn3 & Hf3 & Hnx3 & Hpp3);
    try done; try (rewrite Hw2 by set_solver; done).
  { by apply Hall2. }
  fold rq in Hrun. erewrite bind_step by exact Hrun. exists w3. split_and!; try done.
  - intros j Hj. by apply Hro3, Hall2.
  - rewrite Hf3 by set_solver. unfold w2. by w_field.
  - rewrite Hf3 by set_solver. unfold w2, w1. by w_field.
  - intros f Hf. rewrite Hf3 by set_solver. apply Hw2. set_solver.
  - intros a f Ha Had Hf. destruct (decide (f = do_next)) as [->|].
    + rewrite Hnx3 by done. apply Hw2. by left.
    + rewrite Hf3 by set_solver. apply Hw2. by left.
  - intros a Ha. rewrite Hpp3 by done. apply Hw2. right. clear. set_solver.
Qed.

(** The heap never hands out an address in use. *)
Definition fresh_heap (w : world) : Prop := 0 < w_brk w /\ forall a, a ∈ w_live w -> a < w_brk w.

(** The world after calloc. *)
Definition allocated (w : world) : world :=
  World (w_mem w) ({[w_brk w]} ∪ w_live w) (w_brk w + 4096) (w_queue_key w) (w_sema4_key w) (w_cache_key w)
    (w_serial w) (w_work w) (w_log w).

(** The item that dispatch_async_f makes when the cache of the thread is empty. *)
Definition async_item (w : world) (ctxt func : Z) : world :=
  upd (upd (upd (allocated w) (w_brk w) do_vtable DISPATCH_OBJ_ASYNC_BIT) (w_brk w) dc_func func)
    (w_brk w) dc_ctxt ctxt.

Lemma async_push client n w dq ctxt func :
  w_cache_key w = 0 ->
  exec client (S (S n)) (KAsync dq ctxt func) w =
    exec client (S n) (KPush dq (w_brk w) (w_brk w)) (async_item w ctxt func).
Proof.
  intros Hc. change (exec client (S (S n)) (KAsync dq ctxt func) w) with
    (dispatch_async_f (exec client (S n)) dq ctxt func w).
  unfold dispatch_async_f, _dispatch_continuation_alloc_cacheonly. rewrite bind_assoc, gets_bind, Hc.
  cbn [Z.eqb]. rewrite ret_bind. cbn [Z.eqb]. unfold _dispatch_async_f_slow, _dispatch_continuation_alloc_from_heap.
  change ((calloc ≫= ?k) w) with (k (w_brk w) (allocated w)). cbv beta.
  assert (w_brk w ∈ w_live (allocated w)) by (simpl; set_solver).
  by rewrite !st_bind.
Qed.

Lemma async_item_field w c f a g : a <> w_brk w -> field (async_item w c f) a g = field w a g.
Proof. intros Ha. unfold async_item. rewrite !field_upd_ne by (left; congruence). done. Qed.

(** The state between the first submission and the worker: [xs] are the items, in order. *)
Record submitted (w : world) (dq i r : Z) (xs : list Z) : Prop := {
  sb_root : root_ok w i;
  sb_heap : fresh_heap w;
  sb_enqueued : serial_enqueued w dq (_dispatch_root_queues i) (ref_inc r);
  sb_items : queue_items w dq xs;
  sb_some : xs <> [];
  sb_vtable : forall x, x ∈ xs -> field w x do_vtable = DISPATCH_OBJ_ASYNC_BIT;
  sb_list : field w (_dispatch_root_queues i) dq_items_tail = dq /\
            field w (_dispatch_root_queues i) dq_items_head = dq;
  sb_next : field w dq do_next = 0 /\ dq <> 0;
  sb_static : _dispatch_root_queues i ∉ xs /\ statics ∉ xs /\
              forall j, j ∈ root_indices -> _dispatch_root_queue_contexts j ∉ xs
}.

(** Function and context of the items. *)
Definition payload (w : world) (x : Z) : Z * Z := (field w x dc_ctxt, field w x dc_func).

(** What a submission leaves alone. *)
Record submission (w w' : world) (dc : Z) : Prop := {
  sm_live : w_live w' = {[dc]} ∪ w_live w;
  sm_fresh : dc ∉ w_live w;
  sm_keys : (w_queue_key w', w_sema4_key w', w_cache_key w') = (w_queue_key w, w_sema4_key w, w_cache_key w);
  sm_log : w_log w' = w_log w
}.

Lemma root_ok_frame w w' i :
  (w_live w ⊆ w_live w') ->
  (forall f, f ∉ [dq_items_tail; dq_items_head] ->
     field w' (_dispatch_root_queues i) f = field w (_dispatch_root_queues i) f) ->
  field w' statics once_pred = field w statics once_pred ->
  field w' (_dispatch_root_queue_contexts i) dgq_kworkqueue = field w (_dispatch_root_queue_contexts i) dgq_kworkqueue ->
  root_ok w i -> root_ok w' i.
Proof.
  intros Hl Hf Hp Hk []. split; try done; rewrite ?Hf, ?Hp, ?Hk by set_solver; try done; set_solver.
Qed.

(** A submission to a queue that has items only appends to them. *)
Record appended (w w' : world) (dq : Z) (xs : list Z) (ctxt func : Z) : Prop := {
  ap_heap : fresh_heap w';
  ap_items : queue_items w' dq (xs ++ [w_brk w]);
  ap_submission : submission w w' (w_brk w);
  ap_work : w_work w' = w_work w;
  ap_vtable : field w' (w_brk w) do_vtable = DISPATCH_OBJ_ASYNC_BIT;
  ap_payload : payload w' (w_brk w) = (ctxt, func);
  ap_frame : forall a g, a ∈ w_live w -> a <> dq \/ g ∉ [dq_items_tail; dq_items_head; do_ref_cnt] ->
    a ∉ xs \/ g <> do_next -> field w' a g = field w a g
}.

Lemma fresh_heap_alloc w w' :
  fresh_heap w -> w_brk w' = w_brk w + 4096 -> w_live w' = {[w_brk w]} ∪ w_live w -> fresh_heap w'.
Proof.
  intros [Hb Hh] Hb' Hl. split; [lia|]. rewrite Hl, Hb'.
  intros a [->%elem_of_singleton|Ha]%elem_of_union; [lia|]. apply Hh in Ha. lia.
Qed.

Lemma append_run client n w dq xs ctxt func :
  dq ∈ w_live w -> fresh_heap w -> queue_items w dq xs -> xs <> [] -> w_cache_key w = 0 ->
  exists w', exec client (S (S n)) (KAsync dq ctxt func) w = Ret 0 w' /\ appended w w' dq xs ctxt func /\
    field w' dq do_ref_cnt = field w dq do_ref_cnt.
Proof.
  intros Hl Hfh (Hnl & Hqt & Hnd & Hndq) Hxs Hc. rewrite async_push by done. pose proof Hfh as [Hb Hh].
  set (dc := w_brk w). set (w1 := async_item w ctxt func).
  destruct (last xs) as [p|] eqn:Hp; [|by apply last_None in Hp]. simpl in Hqt.
  assert (forall x, x ∈ xs -> x <> 0 /\ x ∈ w_live w) as Hxl by (by eapply next_list_elem).
  assert (p ∈ xs) as Hpx by (by apply last_Some_elem_of). destruct (Hxl p Hpx) as [Hp0 Hpl].
  assert (forall a, a ∈ w_live w -> a <> dc) as Hfr by (intros a Ha ->; apply Hh in Ha; lia).
  assert (forall a g, a ∈ w_live w -> field w1 a g = field w a g) as Hw1
    by (intros; apply async_item_field; by apply Hfr).
  assert (w_live w ⊆ w_live w1) as Hsub by apply union_subseteq_r.
  assert (dc ∈ w_live w1) as Hdcl by (apply elem_of_union_l; by apply elem_of_singleton).
  set (w2 := upd (upd (upd w1 dc do_next 0) dq dq_items_tail dc) p do_next dc).
  assert (exec client (S n) (KPush dq dc dc) w1 = Ret 0 w2) as Hrun.
  { change (exec client (S n) (KPush dq dc dc) w1) with (_dispatch_queue_push_list (exec client n) dq dc dc w1).
    assert (dq ∈ w_live w1) by (by apply Hsub). assert (p ∈ w_live w1) by (by apply Hsub). unfold _dispatch_queue_push_list. w_steps. w_field.
    rewrite Hw1, Hqt by done. case_cmp; [done|]. cbn [negb].
    by w_steps. }
  assert (forall a g, a ∈ w_live w -> (a <> dq \/ g <> dq_items_tail) -> (a <> p \/ g <> do_next) ->
    field w2 a g = field w a g) as Hw2.
  { intros a g Ha H1 H2. unfold w2. rewrite !field_upd_ne; [by apply Hw1|left|..]; [|naive_solver|naive_solver].
    symmetry. by apply Hfr. }
  assert (dq <> p) as Hdp by (intros He; apply Hndq; by rewrite He).
  pose proof (Hfr dq Hl) as Hdq. pose proof (Hfr p Hpl) as Hpd.
  assert (forall g, field w2 dc g = if decide (g = do_next) then 0 else field w1 dc g) as Hdc.
  { intros g. unfold w2. rewrite !(field_upd_ne _ _ _ _ dc) by (by left). rewrite field_upd.
    repeat case_decide; naive_solver. }
  exists w2. split; [done|]. split; [|by apply Hw2; [done|right|right]]. split.
  - by apply (fresh_heap_alloc w).
  - split_and!.
    + rewrite Hw2 by (done || (left; done) || (right; done)).
      apply (next_list_snoc w w2 _ xs p dc); try done.
      * intros x Hx Hxp. apply Hw2; [by apply Hxl|by right|by left].
      * unfold w2. by w_field.
      * unfold dc. lia.
    + rewrite last_snoc. simpl. unfold w2. rewrite field_upd_ne by (right; done). by w_field.
    + apply NoDup_app. split_and!; [done| |apply NoDup_singleton]. intros x Hx Hx'.
      apply list_elem_of_singleton in Hx' as ->. by apply (Hfr dc); [apply Hxl|].
    + by apply not_elem_of_app; split; [|apply not_elem_of_cons; split; [|apply not_elem_of_nil]].
  - split; try done. intros Hd. by apply (Hfr dc).
  - done.
  - rewrite Hdc, decide_False by done. unfold w1, async_item. by w_field.
  - unfold payload. rewrite !Hdc. rewrite !decide_False by done. unfold w1, async_item. w_field. done.
  - intros a g Ha H1 H2. rewrite !not_elem_of_cons in H1. apply Hw2; [done|naive_solver|].
    destruct H2 as [H2|]; [left; by intros ->|by right].
Qed.

(** A further submission appends to the list and wakes nobody. *)
Lemma async_more client n w dq i r xs ctxt func :
  submitted w dq i r xs -> w_cache_key w = 0 ->
  exists w', exec client (S (S n)) (KAsync dq ctxt func) w = Ret 0 w' /\
    submitted w' dq i r (xs ++ [w_brk w]) /\ submission w w' (w_brk w) /\ w_work w' = w_work w /\
    payload w' (w_brk w) = (ctxt, func) /\ (forall x, x ∈ xs -> payload w' x = payload w x).
Proof.
  intros [Hro Hfh Hse Hq Hxs Hvt Htl Hnx Hst] Hc. pose proof (se_live _ _ _ _ Hse) as Hl.
  destruct (append_run client n w dq xs ctxt func Hl Hfh Hq Hxs Hc) as (w' & Hrun & [Ah Ai As Aw Av Ap Af] & Hrc).
  exists w'. set (dc := w_brk w) in *. set (rq := _dispatch_root_queues i) in *. destruct Hq as (Hnl & _ & _ & Hndq).
  assert (forall x, x ∈ xs -> x <> 0 /\ x ∈ w_live w) as Hxl by (by eapply next_list_elem).
  assert (forall a, a ∈ w_live w -> a <> dc) as Hfr by (intros a Ha ->; by apply (sm_fresh _ _ _ As)).
  assert (w_live w ⊆ w_live w') as Hsub by (rewrite (sm_live _ _ _ As); apply union_subseteq_r).
  assert (forall x f, x ∈ xs -> f <> do_next -> field w' x f = field w x f) as Hxf.
  { intros x f Hx Hf. apply Af; [by apply Hxl|left; by intros ->|by right]. }
  pose proof Hro as [Hi Hrl Hcl Hsl Hrv _ _ _ _]. fold rq in Hrl, Hrv.
  assert (rq <> dq) as Hrd by (intros He; rewrite He, (se_vtable _ _ _ _ Hse) in Hrv; done).
  destruct Hst as (Hrx & Hsx & Hcx). split_and!; try done; [|intros x Hx; unfold payload; by rewrite !Hxf].
  split; try done.
  - revert Hro. apply root_ok_frame; [done|..].
    + intros f _. apply Af; [done|by left|by left].
    + apply Af; [done|right; clear; set_solver|by left].
    + apply Af; [by apply Hcl|right; clear; set_solver|by right].
  - destruct Hse. split; rewrite ?Hrc, ?Af by (done || (by left) || (right; clear; set_solver)); try done. by apply Hsub.
  - by destruct xs.
  - intros x [Hx| ->%list_elem_of_singleton]%elem_of_app; [|done]. rewrite Hxf by done. by apply Hvt.
  - rewrite !Af by (done || by left). done.
  - rewrite Af by (done || (by left) || (right; clear; set_solver)). done.
  - assert (forall a, a ∈ w_live w -> a ∉ xs -> a ∉ xs ++ [dc]) as Happ.
    { intros a Ha Hx. apply not_elem_of_app. split; [done|]. apply not_elem_of_cons. split; [by apply Hfr|apply not_elem_of_nil]. }
    split_and!; [by apply Happ|by apply Happ|]. intros j Hj. by apply Happ; [apply Hcl|apply Hcx].
Qed.

(** The root queue has nothing to do and no worker was asked for. *)
Definition root_idle (w : world) (i : Z) : Prop :=
  field w (_dispatch_root_queues i) dq_items_tail = 0 /\ field w (_dispatch_root_queues i) dq_items_head = 0 /\
  field w (_dispatch_root_queue_contexts i) dgq_pending = 0.

Lemma idle_not_root w dq i r : root_ok w i -> serial_idle w dq i r -> dq <> _dispatch_root_queues i.
Proof. intros [_ _ _ _ Hv _ _ _ _] [_ _ Hv' _ _ _ _ _ _] ->. by rewrite Hv in Hv'. Qed.

(** The push of the first item, up to the wakeup. *)
Lemma push_first_run client n w dq r dc :
  dq ∈ w_live w -> dc ∈ w_live w -> dq <> dc ->
  field w dq dq_items_tail = 0 -> field w dq do_ref_cnt = r ->
  r = DISPATCH_OBJECT_GLOBAL_REFCNT \/ 0 < r < DISPATCH_OBJECT_GLOBAL_REFCNT - 1 ->
  let w2 := upd (upd (upd (upd w dc do_next 0) dq dq_items_tail dc) dq do_ref_cnt (ref_inc r)) dq dq_items_head dc in
  exec client (S n) (KPush dq dc dc) w = (exec client n (KWakeup dq);; exec client n (KRelease dq)) w2.
Proof.
  intros Hl Hdl Hne Ht Hr Hb w2.
  change (exec client (S n) (KPush dq dc dc) w) with (_dispatch_queue_push_list (exec client n) dq dc dc w).
  unfold _dispatch_queue_push_list, _dispatch_queue_push_list_slow. w_steps.
  w_field. rewrite Ht. cbn [Z.eqb negb]. erewrite bind_step by (apply (retain_any dq _ r); [done|by w_field|done]).
  by rewrite st_bind.
Qed.

(** The first submission to an idle queue puts the queue on its root queue and asks for a worker. *)
Lemma async_first client n w dq i r ctxt func :
  root_ok w i -> root_idle w i -> serial_idle w dq i r -> fresh_heap w -> w_cache_key w = 0 ->
  exists w', exec client (S (S (S (S (S n))))) (KAsync dq ctxt func) w = Ret 0 w' /\
    submitted w' dq i r [w_brk w] /\ submission w w' (w_brk w) /\
    w_work w' = w_work w ++ [_dispatch_root_queues i] /\ payload w' (w_brk w) = (ctxt, func).
Proof.
  intros Hro (Hrt & Hrh & Hrp) Hid [Hb Hh] Hc. pose proof (idle_not_root _ _ _ _ Hro Hid) as Hdr.
  destruct Hid as [Hl H0 Hv Hw Hrun Hs Htq [Hr Hrb] [Ht Hhd]]. rewrite async_push by done.
  set (dc := w_brk w). set (w1 := async_item w ctxt func).
  assert (forall a, a ∈ w_live w -> a <> dc) as Hfr by (intros a Ha ->; apply Hh in Ha; lia).
  assert (w_live w ⊆ w_live w1) as Hsub by apply union_subseteq_r.
  assert (dc ∈ w_live w1) as Hdcl by (apply elem_of_union_l; by apply elem_of_singleton).
  assert (forall a g, a ∈ w_live w -> field w1 a g = field w a g) as Hw1
    by (intros; apply async_item_field; by apply Hfr).
  pose proof (Hfr dq Hl) as Hdq. pose proof Hro as [Hi Hrl Hcl Hsl _ _ _ _ _].
  rewrite (push_first_run client _ w1 dq r dc); [|by apply Hsub|done|done|by rewrite Hw1|by rewrite Hw1|lia].
  set (w2 := upd _ dq dq_items_head dc).
  assert (forall a g, a ∈ w_live w -> (a <> dq \/ g ∉ [dq_items_tail; dq_items_head; do_ref_cnt]) ->
    field w2 a g = field w a g) as Hw2.
  { intros a g Ha Hg. pose proof (Hfr a Ha). unfold w2.
    rewrite !field_upd_ne; [by apply Hw1|by left|..]; rewrite !not_elem_of_cons in Hg; naive_solver. }
  assert (root_ok w2 i) as Hro2.
  { revert Hro. apply root_ok_frame; [done|..]; intros; apply Hw2; try done; [by left|by right; set_solver|by apply Hcl|by right; set_solver]. }
  destruct (wakeup_serial_run client n w2 dq i (ref_inc r)) as
    (w3 & Hwake & Hm & Hwk & Hro3 & Htl3 & Hhd3 & Hn3 & Hr3 & Hs3 & Hf3 & Hg3 & _); try done.
  all: try (rewrite Hw2; [done|done|by left]).
  all: try (rewrite Hw2; [done|done|right; clear; set_solver]).
  { rewrite Hw2; [done|by apply Hcl|right; clear; set_solver]. }
  { by apply Hsub. }
  { unfold w2. w_field. unfold dc. lia. }
  { unfold w2. by w_field. }
  { unfold ref_inc. case_cmp; [by left|right; lia]. }
  specialize (Hro3 i Hro2). erewrite bind_step by exact Hwake. injection Hm as Hlive3 Hbrk3 Hqk3 Hsk3 Hck3 Hse3 Hlog3.
  change (exec client (S (S (S n))) (KRelease dq)) with (_dispatch_release (exec client (S (S n))) dq).
  rewrite (release_any _ dq w3 (ref_inc (ref_inc r))); [| |done|].
  2: { rewrite Hlive3. by apply Hsub. }
  2: { unfold ref_inc. repeat case_cmp; (by left) || (right; lia). }
  assert (ref_dec (ref_inc (ref_inc r)) = ref_inc r) as -> by (unfold ref_dec, ref_inc; repeat case_cmp; lia).
  set (w4 := upd w3 dq do_ref_cnt (ref_inc r)). exists w4. split; [done|].
  assert (forall g, g ∉ [dgq_kworkqueue; once_pred; safe_fork; dgq_pending] -> field w4 dc g = field w2 dc g) as Hdc.
  { intros g Hg. unfold w4. rewrite field_upd_ne by (by left). apply Hg3; [|done|done].
    intros He. by apply (Hfr (_dispatch_root_queues i)). }
  assert (forall g, g <> do_ref_cnt -> field w4 dq g = field w3 dq g) as Hdq4
    by (intros; apply field_upd_ne; right; congruence).
  split; [|split_and!; try done].
  - split.
    + revert Hro3. apply root_ok_frame; try done; intros; apply field_upd_ne; (by left) || (by right).
    + unfold fresh_heap. simpl. rewrite Hbrk3, Hlive3. simpl. fold dc. split; [lia|].
      intros a [->%elem_of_singleton|Ha]%elem_of_union; [unfold dc; lia|]. apply Hh in Ha. unfold dc. lia.
    + split; rewrite ?Hdq4 by done.
      * simpl. rewrite Hlive3. by apply Hsub.
      * rewrite Hf3, Hw2; [done|done|right|]; clear; set_solver.
      * rewrite Hf3, Hw2; [done|done|right|]; clear; set_solver.
      * rewrite Hf3, Hw2; [done|done|right|]; clear; set_solver.
      * done.
      * rewrite Hf3, Hw2; [done|done|right|]; clear; set_solver.
      * unfold w4. w_field. split; [done|]. unfold ref_inc. case_cmp; [by left|right; lia].
    + split_and!.
      * rewrite Hdq4, Hf3 by (done || clear; set_solver). unfold w2. w_field. simpl. split_and!; try done.
        -- unfold dc. lia.
        -- rewrite Hlive3. done.
        -- rewrite Hdc by (clear; set_solver). unfold w2. by w_field.
      * rewrite Hdq4, Hf3 by (done || clear; set_solver). unfold w2. by w_field.
      * apply NoDup_singleton.
      * by apply not_elem_of_cons; split; [|apply not_elem_of_nil].
    + done.
    + intros x ->%list_elem_of_singleton. rewrite Hdc by (clear; set_solver).
      unfold w2. w_field. unfold w1, async_item. by w_field.
    + split; unfold w4; rewrite field_upd_ne by (by right); done.
    + rewrite Hdq4 by done. done.
    + split_and!; [| |intros j Hj]; apply not_elem_of_cons; split; try apply not_elem_of_nil; by auto.
  - split; simpl; [by rewrite Hlive3|intros Hd; by apply (Hfr dc)|by rewrite Hqk3, Hsk3, Hck3|done].
  - unfold payload. rewrite !Hdc by (clear; set_solver). unfold w2. w_field. unfold w1, async_item. w_field. done.
Qed.

(** ** The worker *)

Lemma drain_one_last call w rq x :
  rq ∈ w_live w -> x ∈ w_live w -> x <> 0 -> x <> mediator -> rq <> x ->
  field w rq dq_items_head = x -> field w rq dq_items_tail = x -> field w x do_next = 0 ->
  _dispatch_queue_concurrent_drain_one call rq w =
    Ret x (upd (upd w rq dq_items_head 0) rq dq_items_tail 0).
Proof.
  intros Hl Hxl H0 Hm Hne Hh Ht Hn. unfold _dispatch_queue_concurrent_drain_one. w_steps. rewrite Hh.
  case_cmp; [done|]. case_cmp; [done|]. w_steps. w_field. rewrite Hn. cbn [Z.eqb]. w_steps. rewrite upd_upd.
  w_field. rewrite Ht, Z.eqb_refl. done.
Qed.

Lemma drain_one_empty call w rq :
  rq ∈ w_live w -> field w rq dq_items_head = 0 ->
  _dispatch_queue_concurrent_drain_one call rq w = Ret 0 (upd w rq dq_items_head 0).
Proof.
  intros Hl Hh. unfold _dispatch_queue_concurrent_drain_one. w_steps. rewrite Hh. cbn [Z.eqb]. w_steps.
  w_field. rewrite Z.eqb_refl. by rewrite upd_upd.
Qed.

(** The thread frees the continuations it has run. *)
Lemma cache_cleanup_run fuel w xs :
  next_list w (w_cache_key w) (reverse xs) -> NoDup xs -> (length xs < fuel)%nat ->
  _dispatch_force_cache_cleanup fuel w = Ret 0 (set_live (w_live w ∖ list_to_set xs) (set_cache_key 0 w)).
Proof.
  intros Hcl Hnd Hf. unfold _dispatch_force_cache_cleanup. rewrite gets_bind.
  destruct (Z.eqb_spec (w_cache_key w) 0) as [Hz|Hnz].
  - destruct (reverse xs) as [|y ys] eqn:Hrev; [|by destruct Hcl as (? & ? & _); congruence].
    apply (f_equal reverse) in Hrev. rewrite reverse_involutive in Hrev. subst xs. cbn [negb]. f_equal.
    destruct w as [m live b q s c sn wk lg]. simpl in *. subst c. unfold set_live, set_cache_key. simpl. f_equal.
    apply leibniz_equiv. set_solver.
  - cbn [negb]. rewrite modify_bind. rewrite (cleanup_run (reverse xs)).
    + simpl. do 2 f_equal. apply leibniz_equiv. by rewrite reverse_Permutation.
    + by apply (next_list_frame w).
    + revert Hnd. by rewrite reverse_Permutation.
    + rewrite length_reverse. lia.
Qed.

(** The worker that was asked for runs every item, in order, on the queue, and leaves both queues idle. *)
Lemma worker_run client n w dq i r xs :
  submitted w dq i r xs -> w_queue_key w = 0 -> w_cache_key w = 0 -> dq <> mediator ->
  r = DISPATCH_OBJECT_GLOBAL_REFCNT \/ 0 < r < DISPATCH_OBJECT_GLOBAL_REFCNT - 2 ->
  (forall x, x ∈ xs -> 0 < field w x dc_func /\ client (field w x dc_func) (field w x dc_ctxt) = []) ->
  (length xs + 2 <= n)%nat ->
  exists w', exec client (S (S (S (S (S n))))) (KWorker (_dispatch_root_queues i)) w = Ret 0 w' /\
    w_log w' = w_log w ++ (entry dq w <$> xs) /\ w_live w' = w_live w ∖ list_to_set xs /\
    root_ok w' i /\ root_idle w' i /\ serial_idle w' dq i r /\
    w_work w' = w_work w /\ w_cache_key w' = 0 /\ w_brk w' = w_brk w.
Proof.
  intros [Hro Hfh Hse Hq Hxs Hvt [Hrt Hrh] [Hnx H0] (Hrx & Hsx & Hcx)] Hqk Hck Hmed Hrb Hleaf Hn.
  set (rq := _dispatch_root_queues i) in *. set (qc := _dispatch_root_queue_contexts i) in *.
  change (exec client (S (S (S (S (S n))))) (KWorker rq) w) with
    (_dispatch_worker_thread2 (exec client (S (S (S (S n))))) (S (S (S (S n)))) rq w).
  pose proof Hro as [Hi Hrl Hcl Hsl Hrv _ _ Hctx _]. fold rq qc in Hrl, Hrv, Hctx.
  pose proof (se_live _ _ _ _ Hse) as Hl. pose proof (Hcl i Hi) as Hqc. fold qc in Hqc.
  assert (rq <> dq) as Hrd by (intros He; rewrite He, (se_vtable _ _ _ _ Hse) in Hrv; done).
  unfold _dispatch_worker_thread2. w_steps. rewrite Hqk, Hctx. cbn [Z.eqb negb]. w_steps.
  set (w1 := upd (set_queue_key rq w) qc dgq_pending 0).
  assert (forall a f, f <> dgq_pending -> field w1 a f = field w a f) as Hw1.
  { intros a f Hf. unfold w1. rewrite field_upd_ne by (right; congruence). done. }
  cbn [worker_loop]. rewrite bind_assoc.
  erewrite bind_step by (apply (drain_one_last _ w1 rq dq); try done; rewrite Hw1; done).
  case_cmp; [done|]. set (w2 := upd (upd w1 rq dq_items_head 0) rq dq_items_tail 0).
  assert (forall a f, f <> dgq_pending -> a <> rq \/ f ∉ [dq_items_tail; dq_items_head] ->
    field w2 a f = field w a f) as Hw2.
  { intros a f Hf Ha. unfold w2. rewrite !field_upd_ne; [by apply Hw1|..]; rewrite !not_elem_of_cons in Ha; naive_solver. }
  assert (serial_enqueued w2 dq rq (ref_inc r)) as Hse2
    by (destruct Hse; split; rewrite ?Hw2 by (done || by left); done).
  destruct Hq as (Hnl & Hqt & Hnd & Hndq).
  assert (next_list w2 (field w2 dq dq_items_head) xs) as Hnl2.
  { rewrite Hw2 by (done || by left). apply (next_list_frame w); [|done]. intros x Hx.
    split; [|done]. apply Hw2; [done|]. left. by intros ->. }
  pose proof (next_list_elem _ _ _ Hnl2) as Hxl.
  destruct (invoke_run client dq w2 rq (ref_inc r) xs n) as (w3 & Hrun & Hiv); [done| |intros x Hx|done|].
  { split_and!; try done. by rewrite Hw2 by (done || by left). }
  { assert (x <> rq) by (by intros ->). destruct (Hleaf x Hx).
    split; [by intros ->|]. rewrite !Hw2 by (done || by left). split; [by apply Hvt|done]. }
  assert (exec client (S (S (S (S n)))) (KPop dq) w2 = Ret 0 w3) as Hpop.
  { change (exec client (S (S (S (S n)))) (KPop dq) w2) with
      (_dispatch_continuation_pop (exec client (S (S (S n)))) dq w2).
    unfold _dispatch_continuation_pop. rewrite ld_bind by done. rewrite (se_vtable _ _ _ _ Hse2).
    change (DISPATCH_OBJ_IS_VTABLE _dispatch_queue_vtable) with true. cbv iota. exact Hrun. }
  rewrite bind_assoc. erewrite bind_step by exact Hpop.
  destruct Hiv as [If Is In Il Iq Ise Iw Ib Ilog Ic [It Ih] Isu Ili Ir].
  assert (rq ∈ w_live w3) as Hrl3 by (by rewrite Il).
  cbn [worker_loop]. rewrite bind_assoc.
  erewrite bind_step by (apply drain_one_empty; [done|]; rewrite If by done; unfold w2; by w_field).
  cbn [Z.eqb]. rewrite ret_bind, modify_bind.
  set (w4 := set_queue_key 0 (upd w3 rq dq_items_head 0)).
  assert (next_list w4 (w_cache_key w4) (reverse xs)) as Hcl4.
  { apply (next_list_frame w3); [intros x _; split; [|done]; unfold w4; by w_field|].
    rewrite <- (app_nil_r (reverse xs)). apply Ic; try done.
    - by rewrite app_nil_r.
    - apply not_elem_of_nil. }
  assert (forall a f, f <> do_next -> a <> dq -> a <> rq \/ f ∉ [dq_items_tail; dq_items_head] ->
    f <> dgq_pending -> field w4 a f = field w a f) as Hw4.
  { intros a f Hf Ha Har Hp. unfold w4. rewrite field_queue_key, field_upd_ne; [|rewrite !not_elem_of_cons in Har; naive_solver].
    rewrite If by done. by apply Hw2. }
  assert (forall a f, f ∉ [do_next; dq_items_tail; dq_items_head; do_suspend_cnt; do_ref_cnt] ->
    field w4 a f = field w2 a f) as Hw34.
  { intros a f Hf. unfold w4. rewrite field_queue_key, field_upd_ne; [|right; rewrite !not_elem_of_cons in Hf; naive_solver].
    destruct (decide (a = dq)) as [->|]; [by apply Is|]. apply If; [|done]. rewrite !not_elem_of_cons in Hf. naive_solver. }
  assert (forall a f, f ∉ [do_next; dq_items_tail; dq_items_head; do_suspend_cnt; do_ref_cnt; dgq_pending] ->
    field w4 a f = field w a f) as Hst4.
  { intros a f Hf. rewrite !not_elem_of_cons in Hf. rewrite Hw34 by (rewrite !not_elem_of_cons; naive_solver).
    apply Hw2; [naive_solver|]. right. rewrite !not_elem_of_cons. naive_solver. }
  set (w5 := set_live (w_live w4 ∖ list_to_set xs) (set_cache_key 0 w4)).
  rewrite (cache_cleanup_run _ w4 xs) by (done || lia). exists w5. split; [done|].
  assert (forall a f, field w5 a f = field w4 a f) as Hf5 by done.
  assert (w_live w5 = w_live w ∖ list_to_set xs) as Hlive5 by (unfold w5; simpl; by rewrite Il).
  assert (forall a, a ∈ w_live w -> a ∉ xs -> a ∈ w_live w5) as Hl5
    by (intros; rewrite Hlive5; apply elem_of_difference; by rewrite elem_of_list_to_set).
  split_and!.
  - unfold w5. simpl. rewrite Ilog. f_equal. apply list_fmap_ext. intros j x Hx%list_elem_of_lookup_2. unfold entry.
    rewrite !Hw2 by (done || left; by intros ->). done.
  - done.
  - destruct Hro as [? ? ? ? ? ? ? ? ?]. split; try done; try (by apply Hl5);
      rewrite ?Hf5, ?Hw4 by (done || (left; done) || (right; clear; set_solver)); try done.
    + intros j Hj. apply Hl5; auto.
    + rewrite !Hst4 by (clear; set_solver). done.
  - split_and!; rewrite Hf5; [|unfold w4; by w_field|].
    + unfold w4. w_field. rewrite If by done. unfold w2. by w_field.
    + rewrite Hw34 by (clear; set_solver). unfold w2. w_field. unfold w1. by w_field.
  - destruct Hse. split; rewrite ?Hf5, ?Hst4 by (clear; set_solver); try done; [by apply Hl5| | |].
    { unfold w4. w_field. exact Isu. }
    2: { unfold w4. w_field. done. }
    unfold w4. w_field. rewrite Ir. split; [unfold ref_dec, ref_inc; repeat case_cmp; lia|done].
  - unfold w5. simpl. by rewrite Iw.
  - done.
  - unfold w5. simpl. by rewrite Ib.
Qed.

(** ** From submission to completion *)

(** A client that submits the (context, function) pairs one after the other. *)
Fixpoint submit (client : Z -> Z -> list api) (fuel : nat) (dq : Z) (l : list (Z * Z)) : W Z :=
  match l with
  | [] => mret 0
  | (ctxt, func) :: l => exec client fuel (KAsync dq ctxt func);; submit client fuel dq l
  end.

(** The facts a sequence of submissions that allocates [ys] leaves. *)
Record submissions (w w' : world) (ys : list Z) : Prop := {
  sn_live : w_live w' = list_to_set ys ∪ w_live w;
  sn_fresh : forall y, y ∈ ys -> y ∉ w_live w;
  sn_keys : (w_queue_key w', w_sema4_key w', w_cache_key w') = (w_queue_key w, w_sema4_key w, w_cache_key w);
  sn_log : w_log w' = w_log w
}.

Lemma submissions_cons w w1 w2 dc ys :
  submission w w1 dc -> submissions w1 w2 ys -> submissions w w2 (dc :: ys).
Proof.
  intros [Hl Hf Hk Hg] [Hl' Hf' Hk' Hg']. split; [| |congruence|congruence].
  - rewrite Hl', Hl. simpl. set_solver.
  - rewrite Hl in Hf'. intros y [->|Hy]%elem_of_cons; [done|]. apply Hf' in Hy. set_solver.
Qed.

Lemma submit_run client n dq i r l : forall w xs,
  submitted w dq i r xs -> w_cache_key w = 0 ->
  exists w' ys, submit client (S (S n)) dq l w = Ret 0 w' /\ submitted w' dq i r (xs ++ ys) /\
    submissions w w' ys /\ w_work w' = w_work w /\ payload w' <$> xs ++ ys = (payload w <$> xs) ++ l.
Proof.
  induction l as [|[c f] l IH]; intros w xs Hs Hc; cbn [submit].
  - exists w, []. rewrite !app_nil_r. split_and!; try done. split; set_solver.
  - destruct (async_more client n w dq i r xs c f Hs Hc) as (w1 & Hrun & Hs1 & Hm & Hwk & Hp & Hpx).
    erewrite bind_step by exact Hrun. assert (w_cache_key w1 = 0) as Hc1 by (destruct Hm as [_ _ Hk _]; congruence).
    destruct (IH w1 _ Hs1 Hc1) as (w2 & ys & Hrun2 & Hs2 & Hm2 & Hwk2 & Hp2).
    exists w2, (w_brk w :: ys). rewrite <- app_assoc in Hs2, Hp2. simpl in Hs2, Hp2.
    split_and!; try done; [by eapply submissions_cons|congruence|].
    rewrite Hp2, fmap_app. simpl. rewrite Hp, <- app_assoc. simpl. f_equal.
    apply list_fmap_ext. intros j x Hx%list_elem_of_lookup_2. by apply Hpx.
Qed.

(** The worker of the first request, on a thread of its own. *)
Lemma run_other_run client n w dq i r xs work :
  submitted w dq i r xs -> w_work w = _dispatch_root_queues i :: work -> dq <> mediator ->
  r = DISPATCH_OBJECT_GLOBAL_REFCNT \/ 0 < r < DISPATCH_OBJECT_GLOBAL_REFCNT - 2 ->
  (forall x, x ∈ xs -> 0 < field w x dc_func /\ client (field w x dc_func) (field w x dc_ctxt) = []) ->
  (length xs + 2 <= n)%nat ->
  exists w', run_other_thread (exec client (S (S (S (S (S n)))))) w = Ret 0 w' /\
    w_log w' = w_log w ++ (entry dq w <$> xs) /\ w_live w' = w_live w ∖ list_to_set xs /\
    root_ok w' i /\ root_idle w' i /\ serial_idle w' dq i r /\ w_work w' = work /\ w_brk w' = w_brk w /\
    (w_queue_key w', w_sema4_key w', w_cache_key w') = (w_queue_key w, w_sema4_key w, w_cache_key w).
Proof.
  intros Hs Hwk Hm Hr Hleaf Hn.
  set (w1 := set_cache_key 0 (set_sema4_key 0 (set_queue_key 0 (set_work work w)))).
  assert (submitted w1 dq i r xs) as Hs1.
  { destruct Hs as [Hro Hh Hse (Hq & Ht & Hnd & Hni) ? ? ? ? ?]. split; try done.
    - revert Hro. by apply root_ok_frame.
    - by destruct Hse.
    - split_and!; try done. by apply (next_list_frame w). }
  destruct (worker_run client n w1 dq i r xs Hs1) as
    (w2 & Hrun & Hlog & Hlive & Hro & Hri & Hid & Hwk2 & Hck & Hbrk); try done.
  unfold run_other_thread. w_steps. rewrite Hwk. w_steps. erewrite bind_step by exact Hrun. w_steps.
  eexists. split; [done|]. split_and!; try done.
  - revert Hro. by apply root_ok_frame.
  - by destruct Hid.
Qed.

(** Idle processors serve the one request there is. *)
Lemma run_workers_run client n w dq i r xs :
  submitted w dq i r xs -> w_work w = [_dispatch_root_queues i] -> dq <> mediator ->
  r = DISPATCH_OBJECT_GLOBAL_REFCNT \/ 0 < r < DISPATCH_OBJECT_GLOBAL_REFCNT - 2 ->
  (forall x, x ∈ xs -> 0 < field w x dc_func /\ client (field w x dc_func) (field w x dc_ctxt) = []) ->
  (length xs + 2 <= n)%nat ->
  exists w', run_workers client (S (S (S (S (S n))))) 2 w = Ret 0 w' /\
    w_log w' = w_log w ++ (entry dq w <$> xs) /\ w_live w' = w_live w ∖ list_to_set xs /\
    root_ok w' i /\ root_idle w' i /\ serial_idle w' dq i r /\ w_work w' = [] /\ w_brk w' = w_brk w /\
    (w_queue_key w', w_sema4_key w', w_cache_key w') = (w_queue_key w, w_sema4_key w, w_cache_key w).
Proof.
  intros Hs Hwk Hm Hr Hleaf Hn.
  destruct (run_other_run client n w dq i r xs [] Hs Hwk Hm Hr Hleaf Hn) as (w' & Hrun & Hlog & Hlive & Hro & Hri & Hid & Hwk' & Hbrk & Hk).
  exists w'. split_and!; try done. cbn [run_workers]. rewrite gets_bind, Hwk.
  erewrite bind_step by exact Hrun. cbn [run_workers]. by rewrite gets_bind, Hwk'.
Qed.

(** C1: work submitted to an idle serial queue with dispatch_async_f is run exactly once and in the order
    of submission, on that queue, by the worker that the first submission asks for; afterwards the
    queue and its root queue are idle again, every continuation has been freed and the references
    are what they were.  The functions are any that make no library call. *)
Theorem serial_async_completes client w dq i r l n :
  root_ok w i -> root_idle w i -> serial_idle w dq i r -> fresh_heap w -> w_cache_key w = 0 ->
  w_work w = [] -> dq <> mediator -> l <> [] ->
  (forall c f, (c, f) ∈ l -> 0 < f /\ client f c = []) -> (length l + 7 <= n)%nat ->
  exists w', (submit client n dq l;; run_workers client n 2) w = Ret 0 w' /\
    w_log w' = w_log w ++ ((fun cf => (cf.2, cf.1, dq)) <$> l) /\
    serial_idle w' dq i r /\ root_ok w' i /\ root_idle w' i /\ w_work w' = [] /\ w_live w' = w_live w /\
    (w_queue_key w', w_sema4_key w', w_cache_key w') = (w_queue_key w, w_sema4_key w, w_cache_key w).
Proof.
  intros Hro Hri Hid Hfh Hc Hwk Hm Hl Hleaf Hn. destruct l as [|[c f] l]; [done|]. simpl in Hn.
  assert (n = S (S (S (S (S (n - 5)))))) as -> by lia. cbn [submit]. pose proof (sd_refs _ _ _ _ Hid) as [_ Hr].
  destruct (async_first client (n - 5) w dq i r c f Hro Hri Hid Hfh Hc) as (w1 & Hrun & Hs1 & Hm1 & Hwk1 & Hp1).
  rewrite bind_assoc. erewrite bind_step by exact Hrun.
  destruct (submit_run client (S (S (S (n - 5)))) dq i r l w1 [w_brk w] Hs1) as (w2 & ys & Hrun2 & Hs2 & Hm2 & Hwk2 & Hp2).
  { destruct Hm1 as [_ _ Hk _]. congruence. }
  change ([w_brk w] ++ ys) with (w_brk w :: ys) in Hs2, Hp2.
  change ((payload w1 <$> [w_brk w]) ++ l) with (payload w1 (w_brk w) :: l) in Hp2. rewrite Hp1 in Hp2. erewrite bind_step by exact Hrun2.
  assert (length (w_brk w :: ys) = S (length l)) as Hlen
    by (apply (f_equal length) in Hp2; rewrite length_fmap in Hp2; done).
  destruct (submissions_cons _ _ _ _ _ Hm1 Hm2) as [Hlive Hfresh Hkeys Hlog].
  assert (forall x, x ∈ w_brk w :: ys -> (field w2 x dc_ctxt, field w2 x dc_func) ∈ (c, f) :: l) as Hpay.
  { intros x Hx. rewrite <- Hp2. change ((field w2 x dc_ctxt, field w2 x dc_func)) with (payload w2 x).
    by apply list_elem_of_fmap_2. }
  destruct (run_workers_run client (n - 5) w2 dq i r _ Hs2) as
    (w3 & Hrun3 & Hlog3 & Hlive3 & Hro3 & Hri3 & Hid3 & Hwk3 & _ & Hk3); try done.
  { rewrite Hwk2, Hwk1, Hwk. done. }
  { intros x Hx. apply Hleaf. by apply Hpay. }
  { simpl in *. lia. }
  exists w3. split_and!; try done.
  - rewrite Hlog3, Hlog. f_equal. rewrite <- Hp2, <- list_fmap_compose. done.
  - rewrite Hlive3, Hlive. apply leibniz_equiv. set_solver.
  - congruence.
Qed.

(** ** Suspended queues *)

(** invoking a suspended queue runs nothing: the items stay as they are, the lock that put the
    queue on its target is given back, and so is the reference, so that a resume can wake it again. *)
Theorem suspended_invoke_runs_nothing client dq w c r l n :
  dq ∈ w_live w -> queue_items w dq l ->
  field w dq do_suspend_cnt = c -> 3 <= c < 2 ^ 62 ->
  field w dq do_ref_cnt = r -> 1 < r < DISPATCH_OBJECT_GLOBAL_REFCNT ->
  exists w', exec client (S (S n)) (KInvoke dq) w = Ret 0 w' /\
    w_log w' = w_log w /\ queue_items w' dq l /\ field w' dq do_suspend_cnt = c - 1 /\
    field w' dq dq_running = field w dq dq_running /\
    field w' dq do_next = DISPATCH_OBJECT_LISTLESS /\ field w' dq do_ref_cnt = r - 1 /\ w_work w' = w_work w.
Proof.
  intros Hl (Hnl & Hqt & Hnd & Hni) Hc Hcb Hr Hrb.
  change (exec client (S (S n)) (KInvoke dq) w) with (_dispatch_queue_invoke (exec client (S n)) dq w).
  unfold _dispatch_queue_invoke, DISPATCH_OBJECT_SUSPENDED. w_steps. rewrite Hc.
  unfold DISPATCH_OBJECT_SUSPEND_INTERVAL, DISPATCH_OBJECT_SUSPEND_LOCK.
  rewrite (proj2 (Z.geb_le _ _)) by lia. w_steps. cbn [andb negb]. w_steps. w_field. rewrite Hc.
  change (c + - (1)) with (c - 1). wrap. case_cmp; [lia|]. w_steps.
  change (exec client (S n) (KRelease dq)) with (_dispatch_release (exec client n) dq).
  rewrite (release_run _ dq _ r); [|done|by w_field|done]. eexists. split; [done|]. w_field.
  split_and!; try done. unfold queue_items. w_field. split_and!; try done.
  apply (next_list_frame w); [|done]. intros x Hx. split; [|done]. by w_field.
Qed.

(** ** Synchronous calls *)

(** Dispatch_sync_f on an idle serial queue calls the function once, on the calling thread
    and with the queue as its current queue, before it returns; the queue is left idle, nothing is
    allocated and no worker is asked for. *)
Theorem sync_idle_inline client w dq i r ctxt func n :
  serial_idle w dq i r -> 0 < func -> client func ctxt = [] ->
  exists w', exec client (S (S (S n))) (KSync dq ctxt func) w = Ret 0 w' /\
    w_log w' = w_log w ++ [(func, ctxt, dq)] /\ serial_idle w' dq i r /\
    w_queue_key w' = w_queue_key w /\ w_work w' = w_work w /\ w_live w' = w_live w /\ w_brk w' = w_brk w.
Proof.
  intros [Hl H0 Hv Hw Hrun Hs Htq Hr [Ht Hh]] Hf Hc.
  change (exec client (S (S (S n))) (KSync dq ctxt func) w) with
    (dispatch_sync_f (exec client (S (S n))) dq ctxt func w).
  unfold dispatch_sync_f. w_steps. rewrite Hw. change (1 =? 1) with true. cbv iota.
  change (exec client (S (S n)) (KBarrierSync dq ctxt func) w) with
    (dispatch_barrier_sync_f (exec client (S n)) dq ctxt func w).
  unfold dispatch_barrier_sync_f, DISPATCH_OBJECT_SUSPENDED, _dispatch_queue_trylock. w_steps. rewrite Ht.
  change (0 =? 0) with true. cbn [negb]. cbv iota. w_steps. rewrite Hs. change (0 >=? _) with false. cbv iota.
  w_steps. rewrite Hrun. change (0 =? 0) with true. cbv iota. w_steps. cbn [negb]. w_steps.
  change (exec client (S n) (KFunc func ctxt)) with (call_function (exec client n) client func ctxt).
  erewrite bind_step by (by apply call_leaf). w_steps.
  unfold _dispatch_queue_unlock. w_steps. w_field. change (s64 (1 + -1)) with 0. change (0 =? 0) with true.
  cbn [negb]. cbv iota. change (exec client (S n) (KWakeup dq)) with (_dispatch_wakeup (exec client n) dq).
  erewrite bind_step by (apply wakeup_empty; [done|..]; w_field; done).
  eexists. split; [done|]. split_and!; try done. split; w_field; done.
Qed.

(** ** Concrete values *)

(** A library with one client queue, as dispatch_queue_create leaves it, with references 1. *)
Definition sq_create : world :=
  match dispatch_queue_create libdispatch_init with Ret _ w => w | _ => libdispatch_init end.
Definition no_api (f ctxt : Z) : list api := [].
Definition sq_pair : world :=
  match submit no_api 20 65536 [(7, 1); (8, 2)] sq_create with Ret _ w => w | _ => libdispatch_init end.

Lemma sq_pair_items : queue_items sq_pair 65536 [69632; 73728].
Proof.
  split_and!; [simpl; split_and!| |repeat constructor; set_solver|set_solver].
  all: try (vm_compute; done).
  all: apply (bool_decide_unpack _); vm_compute; done.
Qed.

Ltac decide_now := apply (bool_decide_unpack _); vm_compute; done.

Lemma sq_pair_leaf w : (forall a f, f <> dq_running -> field w a f = field sq_pair a f) ->
  forall x, x ∈ [69632; 73728] -> leaf_item no_api 65536 w x.
Proof.
  intros Hw x Hx. unfold leaf_item. rewrite !Hw by done. rewrite !elem_of_cons in Hx.
  destruct Hx as [->|[->|Hx%elem_of_nil]]; [| |done]; split_and!; vm_compute; done.
Qed.

Lemma serial_drain_fifo_witness :
  exists w', exec no_api 6 (KDrain 65536) (upd sq_pair 65536 dq_running 1) = Ret 0 w' /\
    w_log w' = [(1, 7, 65536); (2, 8, 65536)] /\ queue_items w' 65536 [] /\
    w_queue_key w' = _dispatch_main_q /\ w_live w' = w_live sq_pair /\ w_work w' = w_work sq_pair.
Proof.
  apply (serial_drain_fifo no_api 65536 (upd sq_pair 65536 dq_running 1) 2096 [69632; 73728] 4).
  - split; [decide_now|vm_compute; done..].
  - destruct sq_pair_items as (Hnl & Ht & Hnd & Hni). by split_and!.
  - apply sq_pair_leaf. intros a f Hf. apply field_upd_ne. right. congruence.
  - simpl. lia.
Defined.

Lemma serial_invoke_runs_all_witness :
  exists w', exec no_api 7 (KInvoke 65536) sq_pair = Ret 0 w' /\
    w_log w' = [(1, 7, 65536); (2, 8, 65536)] /\ queue_items w' 65536 [] /\
    field w' 65536 dq_running = 0 /\ field w' 65536 do_suspend_cnt = 0 /\
    field w' 65536 do_next = DISPATCH_OBJECT_LISTLESS /\ field w' 65536 do_ref_cnt = 1 /\
    w_work w' = w_work sq_pair /\ w_live w' = w_live sq_pair.
Proof.
  apply (serial_invoke_runs_all no_api 65536 sq_pair 2096 2 [69632; 73728] 4).
  - split; [decide_now|vm_compute; done..|split; [vm_compute; done|by right]].
  - exact sq_pair_items.
  - by apply sq_pair_leaf.
  - simpl. lia.
Defined.

Lemma sq_create_idle : serial_idle sq_create 65536 3 1.
Proof. split; [decide_now|done|vm_compute; done..|split; [vm_compute; done|by right]|vm_compute; done]. Qed.

Lemma serial_async_completes_witness :
  exists w', (submit no_api 10 65536 [(7, 1); (8, 2); (9, 1)];; run_workers no_api 10 2) sq_create = Ret 0 w' /\
    w_log w' = [(1, 7, 65536); (2, 8, 65536); (1, 9, 65536)] /\
    serial_idle w' 65536 3 1 /\ root_ok w' 3 /\ root_idle w' 3 /\ w_work w' = [] /\ w_live w' = w_live sq_create /\
    (w_queue_key w', w_sema4_key w', w_cache_key w') = (_dispatch_main_q, 0, 0).
Proof.
  apply (serial_async_completes no_api sq_create 65536 3 1 [(7, 1); (8, 2); (9, 1)] 10).
  - split; [unfold root_indices; set_solver|decide_now| |decide_now|vm_compute; done..].
    intros j Hj. unfold root_indices in Hj. rewrite !elem_of_cons, elem_of_nil in Hj.
    destruct_or! Hj; try done; subst j; decide_now.
  - split_and!; vm_compute; done.
  - exact sq_create_idle.
  - split; [done|]. intros a Ha. revert a Ha. change (set_Forall (fun a => a < 69632) (w_live sq_create)). decide_now.
  - done.
  - done.
  - done.
  - done.
  - intros c f Hin. rewrite !elem_of_cons, elem_of_nil in Hin. split; [|done]. destruct_or! Hin; try done; simplify_eq; done.
  - simpl. lia.
Defined.

Lemma suspended_invoke_runs_nothing_witness :
  exists w', exec no_api 2 (KInvoke 65536) (upd sq_pair 65536 do_suspend_cnt 3) = Ret 0 w' /\
    w_log w' = [] /\ queue_items w' 65536 [69632; 73728] /\ field w' 65536 do_suspend_cnt = 2 /\
    field w' 65536 dq_running = 0 /\ field w' 65536 do_next = DISPATCH_OBJECT_LISTLESS /\
    field w' 65536 do_ref_cnt = 1 /\ w_work w' = w_work sq_pair.
Proof.
  apply (suspended_invoke_runs_nothing no_api 65536 (upd sq_pair 65536 do_suspend_cnt 3) 3 2 [69632; 73728] 0).
  - decide_now.
  - destruct sq_pair_items as (Hnl & Ht & Hnd & Hni). by split_and!.
  - vm_compute; done.
  - lia.
  - vm_compute; done.
  - done.
Defined.

Lemma sync_idle_inline_witness :
  exists w', exec no_api 3 (KSync 65536 7 1) sq_create = Ret 0 w' /\
    w_log w' = [(1, 7, 65536)] /\ serial_idle w' 65536 3 1 /\
    w_queue_key w' = _dispatch_main_q /\ w_work w' = [] /\ w_live w' = w_live sq_create /\ w_brk w' = 69632.
Proof. apply (sync_idle_inline no_api sq_create 65536 3 1 7 1 0); [exact sq_create_idle|done|done]. Defined.
