(* ===== verification/WideQueue.v ===== *)
(** * Root queues, widths, barriers and redirection

    Which root queue a priority names, how the width of a queue bounds what runs at once, how
    barriers are ordered against other items, and what _dispatch_async_f_redirect does with an item of
    a wide queue. *)

From S2P Require Import Prelude DispatchObject DispatchQueue SerialQueue.
From stdpp Require Import base tactics list numbers gmap strings.
From Stdlib Require Import ZArith Lia.

Local Open Scope Z_scope.

(** ** Root queues *)

Definition priorities : list Z := [DISPATCH_QUEUE_PRIORITY_LOW; DISPATCH_QUEUE_PRIORITY_DEFAULT; DISPATCH_QUEUE_PRIORITY_HIGH].

Lemma flags_known flags : 0 <= flags ->
  has_bit flags (Z.lnot DISPATCH_QUEUE_OVERCOMMIT) = false <-> flags = 0 \/ flags = DISPATCH_QUEUE_OVERCOMMIT.
Proof.
  intros Hf. unfold has_bit, DISPATCH_QUEUE_OVERCOMMIT. rewrite negb_false_iff, Z.eqb_eq. split.
  - intros H. change (Z.land flags (Z.lnot 2)) with (Z.ldiff flags 2) in H.
    assert (forall k, 0 <= k -> k <> 1 -> Z.testbit flags k = false) as Hk.
    { intros k Hk Hk1. assert (Z.testbit (Z.ldiff flags 2) k = false) as Hb by (rewrite H; apply Z.testbit_0_l).
      rewrite Z.ldiff_spec in Hb. assert (Z.testbit 2 k = false) as H2.
      { change 2 with (2 ^ 1). by apply Z.pow2_bits_false. }
      rewrite H2 in Hb. by rewrite andb_true_r in Hb. }
    destruct (Z.testbit flags 1) eqn:H1; [right|left]; apply Z.bits_inj'; intros k Hk0.
    + destruct (decide (k = 1)) as [->|]; [by rewrite H1|]. rewrite Hk by done.
      change 2 with (2 ^ 1). by rewrite Z.pow2_bits_false.
    + rewrite Z.testbit_0_l. destruct (decide (k = 1)) as [->|]; [done|]. by apply Hk.
  - intros [->| ->]; done.
Qed.

(** dispatch_get_global_queue finds a root queue exactly for the three priorities and with no flag but
    DISPATCH_QUEUE_OVERCOMMIT, a different one for each combination, and the workers of the queue
    it finds get the workqueue of that priority and overcommit bit. *)
Theorem global_queue_lookup priority flags :
  0 <= flags ->
  (dispatch_get_global_queue priority flags <> 0 <->
     priority ∈ priorities /\ (flags = 0 \/ flags = DISPATCH_QUEUE_OVERCOMMIT)) /\
  (forall priority' flags', 0 <= flags' -> dispatch_get_global_queue priority flags <> 0 ->
     dispatch_get_global_queue priority' flags' = dispatch_get_global_queue priority flags ->
     priority' = priority /\ flags' = flags) /\
  (dispatch_get_global_queue priority flags <> 0 ->
     exists i, i ∈ root_indices /\ dispatch_get_global_queue priority flags = _dispatch_root_queues i /\
       _dispatch_rootq2wq_pri i = 1 - priority / 2 /\ Z.land i 1 = flags / 2).
Proof.
  assert (forall p f, 0 <= f -> dispatch_get_global_queue p f <> 0 ->
    p ∈ priorities /\ (f = 0 \/ f = DISPATCH_QUEUE_OVERCOMMIT)) as Hdom.
  { intros p f Hf. unfold dispatch_get_global_queue.
    destruct (has_bit f (Z.lnot DISPATCH_QUEUE_OVERCOMMIT)) eqn:Hb; [done|]. intros Hne. apply flags_known in Hb; [|done].
    split; [|done]. revert Hne. unfold _dispatch_get_root_queue, priorities. rewrite !elem_of_cons.
    repeat case_cmp; rewrite ?andb_false_r; try naive_solver. }
  assert (forall p f, p ∈ priorities /\ (f = 0 \/ f = DISPATCH_QUEUE_OVERCOMMIT) ->
    (p, f) ∈ [(-2, 0); (-2, 2); (0, 0); (0, 2); (2, 0); (2, 2)]) as Hpf.
  { intros p f [Hp Hf]. unfold priorities in Hp. rewrite !elem_of_cons, elem_of_nil in Hp.
    destruct_or! Hp; try done; destruct Hf; subst; clear; set_solver. }
  intros Hf. split_and!.
  - split; [by apply Hdom|]. intros H%Hpf. rewrite !elem_of_cons, elem_of_nil in H.
    destruct_or! H; try done; simplify_eq; done.
  - intros p' f' Hf' Hne Heq. assert (dispatch_get_global_queue p' f' <> 0) as Hne' by congruence.
    apply Hdom, Hpf in Hne, Hne'; try done. rewrite !elem_of_cons, elem_of_nil in Hne, Hne'.
    destruct_or! Hne; destruct_or! Hne'; simplify_eq; done.
  - intros Hne. apply Hdom, Hpf in Hne; [|done]. rewrite !elem_of_cons, elem_of_nil in Hne.
    destruct_or! Hne; simplify_eq;
      [exists 0|exists 1|exists 2|exists 3|exists 4|exists 5]; (split; [unfold root_indices; set_solver|done]).
Qed.

(** ** Width *)

(** The stored width is one for a serial queue, and otherwise two for each item that may run at
    once: with [k] items of the queue running, a drain hands out a further ordinary item exactly when fewer
    than the requested number run, and runs a barrier exactly when none does. *)
Theorem width_bounds_concurrency hw width dq w dc tq k :
  2 <= width < 2 ^ 31 -> dq ∈ w_live w -> dc ∈ w_live w ->
  field w dq dq_width = width_of hw width -> field w dq dq_running = 1 + 2 * k -> 0 <= k ->
  field w dq do_suspend_cnt < DISPATCH_OBJECT_SUSPEND_INTERVAL -> field w dq do_targetq = tq ->
  drain_decide dq dc tq w =
    Ret (if k >=? width then DrainOut
         else if has_bit (field w dc do_vtable) DISPATCH_OBJ_BARRIER_BIT
              then if k =? 0 then DrainPop else DrainOut
              else DrainRedirect) w.
Proof.
  unfold DISPATCH_OBJECT_SUSPEND_INTERVAL. intros Hw Hl Hdl Hdw Hr Hk Hs Ht.
  assert (width_of hw width = 2 * width) as Hwid.
  { unfold width_of. wrap. repeat (case_cmp; try lia); cbn [orb]; wrap; lia. }
  unfold drain_decide, DISPATCH_OBJECT_SUSPENDED, DISPATCH_OBJECT_SUSPEND_INTERVAL. w_steps.
  assert (field w dq do_suspend_cnt >=? 2 = false) as -> by (rewrite Z.geb_leb; by apply Z.leb_gt).
  w_steps. rewrite Hdw, Hwid, Hr.
  rewrite Z.gtb_ltb, Z.geb_leb. destruct (Z.ltb_spec (2 * width) (1 + 2 * k)), (Z.leb_spec width k); try lia; [done|].
  w_steps. rewrite Ht, Z.eqb_refl. cbn [negb]. case_cmp; [lia|]. w_steps.
  destruct (has_bit _ _); [|done]. rewrite Z.gtb_ltb. destruct (Z.ltb_spec 1 (1 + 2 * k)), (Z.eqb_spec k 0); done || lia.
Qed.

(** ** Redirection *)

(** A chain of target queues from [q] to the root queue [rq]. *)
Fixpoint target_chain (w : world) (q : Z) (l : list Z) (rq : Z) : Prop :=
  q ∈ w_live w /\
  match l with
  | [] => field w q do_targetq = rq /\ rq ∈ w_live w /\ field w rq do_targetq = 0
  | q' :: l => field w q do_targetq = q' /\ (exists t, field w q' do_targetq = t /\ t <> 0) /\ target_chain w q' l rq
  end.

Lemma redirect_root_run w rq l : forall q fuel,
  target_chain w q l rq -> (length l < fuel)%nat -> redirect_root fuel q w = Ret rq w.
Proof.
  induction l as [|q' l IH]; intros q [|fuel] Hc Hf; simpl in Hf; try lia; destruct Hc as [Hl Hc].
  - destruct Hc as (Ht & Hrl & Hr). cbn [redirect_root]. w_steps. rewrite Ht. w_steps. rewrite Hr. done.
  - destruct Hc as (Ht & (t & Htt & Hne) & Hc). cbn [redirect_root]. w_steps. rewrite Ht.
    assert (q' ∈ w_live w) by (destruct l; apply Hc). w_steps. rewrite Htt. case_cmp; [done|]. apply IH; [done|lia].
Qed.

Lemma target_chain_frame w w' rq l : w_live w ⊆ w_live w' ->
  (forall a, a ∈ w_live w -> field w' a do_targetq = field w a do_targetq) ->
  forall q, target_chain w q l rq -> target_chain w' q l rq.
Proof.
  intros Hl Hf. induction l as [|q' l IH]; intros q [Hq Hc]; (split; [by apply Hl|]).
  - destruct Hc as (? & ? & ?). rewrite !Hf by done. split_and!; try done. by apply Hl.
  - destruct Hc as (? & ? & Hc). assert (q' ∈ w_live w) by (destruct l; apply Hc).
    rewrite !Hf by done. split_and!; try done. by apply IH.
Qed.

(** C34: _dispatch_async_f_redirect takes a continuation from the cache of the thread
    only to forget it: when the cache is not empty the function goes on with a null pointer and
    faults, before the item is handed to a worker. *)
Theorem redirect_faults_with_cache call loop_fuel w dq other_dc r :
  dq ∈ w_live w -> other_dc ∈ w_live w -> field w other_dc dc_func <> fn_sync_f_slow2 ->
  field w dq do_ref_cnt = r -> 0 < r < DISPATCH_OBJECT_GLOBAL_REFCNT - 1 ->
  w_cache_key w <> 0 -> w_cache_key w ∈ w_live w -> 0 ∉ w_live w ->
  exists w', _dispatch_async_f_redirect call loop_fuel dq other_dc w = Fault w'.
Proof.
  intros Hl Hol Hf Hr Hrb Hc Hcl H0. unfold _dispatch_async_f_redirect. w_steps. case_cmp; [done|]. w_steps.
  erewrite bind_step by (apply (retain_run dq _ r); [done|by w_field|done]).
  unfold _dispatch_continuation_alloc_cacheonly. w_steps. simpl. case_cmp; [done|]. w_steps.
  case_cmp; [done|]. cbn [negb]. w_steps. rewrite st_fault by done. by eexists.
Qed.

(** with an empty cache the item is wrapped in a new continuation and pushed on the root queue at
    the end of the chain of targets, and the queue counts one more running item and
    one more reference. *)
Theorem redirect_pushes_on_root call loop_fuel w dq other_dc r running l rq :
  target_chain w dq l rq -> other_dc ∈ w_live w -> field w other_dc dc_func <> fn_sync_f_slow2 ->
  field w dq do_ref_cnt = r -> 0 < r < DISPATCH_OBJECT_GLOBAL_REFCNT - 1 ->
  field w dq dq_running = running -> 0 <= running < 2 ^ 62 ->
  w_cache_key w = 0 -> fresh_heap w -> (length l < loop_fuel)%nat ->
  exists w', _dispatch_async_f_redirect call loop_fuel dq other_dc w = call (KPush rq (w_brk w) (w_brk w)) w' /\
    field w' (w_brk w) do_vtable = DISPATCH_OBJ_ASYNC_BIT /\ field w' (w_brk w) dc_func = fn_async_f_redirect2 /\
    field w' (w_brk w) dc_ctxt = w_brk w /\ field w' (w_brk w) dc_data0 = dq /\
    field w' (w_brk w) dc_data1 = other_dc /\
    field w' dq dq_running = running + 2 /\ field w' dq do_ref_cnt = r + 1 /\
    (forall a f, a <> w_brk w -> a <> dq -> field w' a f = field w a f) /\ w_log w' = w_log w.
Proof.
  intros Hch Hol Hf Hr Hrb Hrun Hrunb Hc [Hb Hh] Hn. assert (dq ∈ w_live w) as Hl by (destruct l; apply Hch).
  assert (dq <> w_brk w) as Hne by (apply Hh in Hl; lia).
  unfold _dispatch_async_f_redirect. w_steps. case_cmp; [done|]. w_steps.
  erewrite bind_step by (apply (retain_run dq _ r); [done|by w_field|done]).
  unfold _dispatch_continuation_alloc_cacheonly, _dispatch_continuation_alloc_from_heap. w_steps.
  rewrite Hrun. wrap. set (w1 := upd (upd w dq dq_running (running + 2)) dq do_ref_cnt (r + 1)).
  change (w_cache_key w1) with (w_cache_key w). rewrite Hc. cbn [Z.eqb]. rewrite ret_bind. cbn [Z.eqb negb].
  change ((calloc ≫= ?k) w1) with (k (w_brk w) (allocated w1)). cbv beta.
  set (dc := w_brk w) in *. assert (dc ∈ w_live (allocated w1)) as Hdl by (apply elem_of_union_l; by apply elem_of_singleton).
  w_steps. set (w2 := upd _ dc dc_data1 other_dc).
  assert (forall a f, a <> dc -> a <> dq \/ f ∉ [dq_running; do_ref_cnt] -> field w2 a f = field w a f) as Hw2.
  { intros a f Ha Had. unfold w2. rewrite !field_upd_ne by (left; congruence).
    change (field (allocated w1) a f) with (field w1 a f). unfold w1. rewrite !not_elem_of_cons in Had.
    rewrite !field_upd_ne by naive_solver. done. }
  erewrite bind_step by (eapply (redirect_root_run w2 rq l); [|done]; revert Hch; apply target_chain_frame;
    [apply union_subseteq_r|intros a Ha; apply Hw2; [intros ->; apply Hh in Ha; unfold dc in Ha; lia|right; set_solver]]).
  exists w2. split_and!; try done; try (unfold w2; by w_field).
  - unfold w2. rewrite !field_upd_ne by (by left). change (field (allocated w1) dq dq_running) with (field w1 dq dq_running).
    unfold w1. by w_field.
  - unfold w2. rewrite !field_upd_ne by (by left). change (field (allocated w1) dq do_ref_cnt) with (field w1 dq do_ref_cnt).
    unfold w1. by w_field.
  - intros a f Ha Hd. apply Hw2; [done|by left].
Qed.

(** ** Concrete values *)

Lemma global_queue_lookup_witness :
  dispatch_get_global_queue 2 2 <> 0 /\
  exists i, i ∈ root_indices /\ dispatch_get_global_queue 2 2 = _dispatch_root_queues i /\
    _dispatch_rootq2wq_pri i = 0 /\ Z.land i 1 = 1.
Proof.
  destruct (global_queue_lookup 2 2 ltac:(lia)) as (H1 & _ & H3). split; [|apply H3]; apply H1.
  all: split; [unfold priorities; set_solver|right; done].
Defined.

(** The queue of [sq_pair] with a width of three, its drain under way and two items running. *)
Definition wq_ex : world := upd (upd sq_pair 65536 dq_width 6) 65536 dq_running 5.

Lemma width_bounds_concurrency_witness :
  drain_decide 65536 69632 2096 wq_ex = Ret DrainRedirect wq_ex.
Proof.
  apply (width_bounds_concurrency (HwConfig 4 4 4) 3 65536 wq_ex 69632 2096 2);
    [lia|decide_now|decide_now|vm_compute; done|vm_compute; done|lia|vm_compute; done|vm_compute; done].
Defined.

Lemma redirect_faults_with_cache_witness :
  exists w', _dispatch_async_f_redirect (exec no_api 9) 9 65536 69632 (set_cache_key 73728 wq_ex) = Fault w'.
Proof.
  apply (redirect_faults_with_cache (exec no_api 9) 9 (set_cache_key 73728 wq_ex) 65536 69632 2);
    try decide_now; vm_compute; done.
Defined.

Lemma redirect_pushes_on_root_witness :
  exists w', _dispatch_async_f_redirect (exec no_api 9) 9 65536 69632 wq_ex =
      exec no_api 9 (KPush 2096 77824 77824) w' /\
    field w' 77824 do_vtable = DISPATCH_OBJ_ASYNC_BIT /\ field w' 77824 dc_func = fn_async_f_redirect2 /\
    field w' 77824 dc_ctxt = 77824 /\ field w' 77824 dc_data0 = 65536 /\ field w' 77824 dc_data1 = 69632 /\
    field w' 65536 dq_running = 7 /\ field w' 65536 do_ref_cnt = 3 /\
    (forall a f, a <> 77824 -> a <> 65536 -> field w' a f = field wq_ex a f) /\ w_log w' = [].
Proof.
  apply (redirect_pushes_on_root (exec no_api 9) 9 wq_ex 65536 69632 2 5 [] 2096); try (vm_compute; done).
  - split; [done|]. intros a Ha. revert a Ha. change (set_Forall (fun a => a < 77824) (w_live wq_ex)). decide_now.
  - simpl. lia.
Defined.
