(* ===== verification/MainQueue.v ===== *)
(** * The main queue, dispatch_main and fork

    The calling thread holds the main queue from libdispatch_init on: work submitted to it waits
    until the thread gives the queue up in dispatch_main, after which the main queue is a serial
    queue like any other, or until a run loop on that thread drains it (the entry points for Qt of
    queue.c; a program without Qt has no handler).  Also models dispatch_atfork_child of queue.c, which makes the library
    unusable in the child of a process that had already asked for a worker. *)

From S2P Require Import Prelude DispatchObject DispatchQueue SerialQueue.
From stdpp Require Import base tactics list numbers gmap strings.
From Stdlib Require Import ZArith Lia.

Local Open Scope Z_scope.

(** ** Operations *)

(** dispatch_main on Linux, up to the loop in which the thread pauses for ever with its signals
    blocked: what a thread-specific destructor would do is done by hand. *)
Definition dispatch_main (call : dcall -> W Z) (loop_fuel : nat) : W Z :=
  st statics callback_driven 1;;
  p ← gets w_queue_key;
  (if negb (p =? 0) then _dispatch_queue_cleanup call p else mret 0);;
  p ← gets w_sema4_key;
  (if negb (p =? 0) then call (KRelease p) else mret 0);;
  p ← gets w_cache_key;
  if negb (p =? 0) then _dispatch_cache_cleanup2 loop_fuel p else mret 0.

(** The interface of a run loop.  Only the first handler is kept. *)
Definition _dispatch_register_signal_handler_4QT (handler : Z) : W Z :=
  h ← ld statics main_q_handler;
  if negb (h =? 0) then mret 0 else st statics main_q_handler handler;; mret 0.

Definition _dispatch_queue_set_mainq_drain_state (arg : Z) : W unit := st statics main_q_is_draining arg.

Definition _dispatch_main_queue_callback_4QT (call : dcall -> W Z) (loop_fuel : nat) : W Z :=
  d ← ld statics main_q_is_draining;
  if negb (d =? 0) then mret 0
  else
    _dispatch_queue_set_mainq_drain_state 1;;
    _dispatch_queue_serial_drain_till_empty call loop_fuel _dispatch_main_q;;
    _dispatch_queue_set_mainq_drain_state 0;; mret 0.

(** The pointer dispatch_atfork_child puts in place of the items. *)
Definition atfork_crash : Z := 0x100.

Definition poison (q : Z) : W unit := st q dq_items_head atfork_crash;; st q dq_items_tail atfork_crash.

Fixpoint poison_roots (l : list Z) : W Z :=
  match l with [] => mret 0 | i :: l => poison (_dispatch_root_queues i);; poison_roots l end.

(** [mgr_q] is the address of _dispatch_mgr_q, an object of source_kevent.c. *)
Definition dispatch_atfork_child (mgr_q : Z) : W Z :=
  safe ← ld statics safe_fork;
  if negb (safe =? 0) then mret 0
  else
    poison _dispatch_main_q;;
    poison mgr_q;;
    poison_roots root_indices.

(** ** A queue that its thread holds *)

(** [dq] is held: running and locked, with the items [xs] waiting, and it targets root queue [i]. *)
Record held (w : world) (dq i : Z) (xs : list Z) : Prop := {
  hd_live : dq ∈ w_live w;
  hd_nonnull : dq <> 0;
  hd_vtable : field w dq do_vtable = _dispatch_queue_vtable;
  hd_width : field w dq dq_width = 1;
  hd_running : field w dq dq_running = 1;
  hd_suspend : field w dq do_suspend_cnt = DISPATCH_OBJECT_SUSPEND_LOCK;
  hd_target : field w dq do_targetq = _dispatch_root_queues i;
  hd_refs : field w dq do_ref_cnt = DISPATCH_OBJECT_GLOBAL_REFCNT;
  hd_items : queue_items w dq xs;
  hd_async : forall x, x ∈ xs -> field w x do_vtable = DISPATCH_OBJ_ASYNC_BIT
}.

(** What waking a held main queue does: the handler, if there is one, is called. *)
Definition notice (w : world) : list (Z * Z * Z) :=
  let h := field w statics main_q_handler in if h =? 0 then [] else [(h, 0, w_queue_key w)].
Definition notified (w : world) : world :=
  let h := field w statics main_q_handler in
  if h =? 0 then w else upd (add_log (h, 0, w_queue_key w) w) statics safe_fork 0.

(** The handler of the run loop only posts an event. *)
Definition handler_ok (client : Z -> Z -> list api) (w : world) : Prop :=
  let h := field w statics main_q_handler in h = 0 \/ (0 < h /\ client h 0 = []).

Lemma notified_field w a f : f <> safe_fork -> field (notified w) a f = field w a f.
Proof. intros Hf. unfold notified. case_cmp; [done|]. by rewrite field_upd_ne by (right; congruence). Qed.
Lemma notified_meta w :
  w_live (notified w) = w_live w /\ w_brk (notified w) = w_brk w /\ w_work (notified w) = w_work w /\
  (w_queue_key (notified w), w_sema4_key (notified w), w_cache_key (notified w)) = (w_queue_key w, w_sema4_key w, w_cache_key w) /\
  w_log (notified w) = w_log w ++ notice w.
Proof. unfold notified, notice. case_cmp; split_and!; try done. by rewrite app_nil_r. Qed.

Lemma wakeup_main_held client n w :
  _dispatch_main_q ∈ w_live w -> statics ∈ w_live w -> handler_ok client w ->
  field w _dispatch_main_q do_vtable = _dispatch_queue_vtable ->
  field w _dispatch_main_q do_suspend_cnt = DISPATCH_OBJECT_SUSPEND_LOCK ->
  field w _dispatch_main_q dq_items_tail <> 0 ->
  exec client (S (S n)) (KWakeup _dispatch_main_q) w = Ret 0 (notified w).
Proof.
  intros Hl Hst Hh Hv Hs Ht.
  change (exec client (S (S n)) (KWakeup _dispatch_main_q) w) with (_dispatch_wakeup (exec client (S n)) _dispatch_main_q w).
  unfold _dispatch_wakeup, DISPATCH_OBJECT_SUSPENDED, dx_probe, _dispatch_trylock.
  w_steps. rewrite Hs. change (DISPATCH_OBJECT_SUSPEND_LOCK >=? _) with false. cbv iota. w_steps. rewrite Hv.
  change (_dispatch_queue_vtable =? _dispatch_queue_vtable) with true. cbv iota. w_steps.
  case_cmp; [done|]. cbn [negb andb]. w_steps. rewrite Hs. change (DISPATCH_OBJECT_SUSPEND_LOCK =? 0) with false. cbv iota. cbn [negb]. rewrite Z.eqb_refl.
  unfold _dispatch_queue_wakeup_main, notified. w_steps. unfold handler_ok in Hh. case_cmp; [done|]. destruct Hh as [|[Hp Hc]]; [done|].
  change (exec client (S n) (KFunc (field w statics main_q_handler) 0)) with
    (call_function (exec client n) client (field w statics main_q_handler) 0).
  w_steps. erewrite bind_step by (by apply call_leaf). by w_steps.
Qed.

(** The first item of the main queue while it is held. *)
Lemma async_held_first client n w ctxt func :
  held w _dispatch_main_q 3 [] -> fresh_heap w -> w_cache_key w = 0 -> statics ∈ w_live w -> handler_ok client w ->
  exists w', exec client (S (S (S (S n)))) (KAsync _dispatch_main_q ctxt func) w = Ret 0 (notified w') /\
    appended w w' _dispatch_main_q [] ctxt func /\
    field w' _dispatch_main_q do_ref_cnt = field w _dispatch_main_q do_ref_cnt.
Proof.
  set (dq := _dispatch_main_q). intros [Hl H0 Hv Hw Hrun Hs Htq Hr (_ & Ht & _) _] Hfh Hc Hst Hok. rewrite async_push by done.
  pose proof Hfh as [Hb Hh]. simpl in Ht.
  set (dc := w_brk w). set (w1 := async_item w ctxt func).
  assert (forall a, a ∈ w_live w -> a <> dc) as Hfr by (intros a Ha ->; apply Hh in Ha; lia).
  assert (forall a g, a ∈ w_live w -> field w1 a g = field w a g) as Hw1
    by (intros; apply async_item_field; by apply Hfr).
  assert (w_live w ⊆ w_live w1) as Hsub by apply union_subseteq_r.
  assert (dc ∈ w_live w1) as Hdcl by (apply elem_of_union_l; by apply elem_of_singleton).
  pose proof (Hfr dq Hl) as Hdq. pose proof (Hsub dq Hl) as Hl1.
  rewrite (push_first_run client _ w1 dq DISPATCH_OBJECT_GLOBAL_REFCNT dc);
    [|done|done|done|by rewrite Hw1|by rewrite Hw1|by left].
  set (w2 := upd _ dq dq_items_head dc).
  assert (forall a g, a ∈ w_live w -> a <> dq \/ g ∉ [dq_items_tail; dq_items_head; do_ref_cnt] -> field w2 a g = field w a g) as Hw2.
  { intros a g Ha Hg. rewrite !not_elem_of_cons in Hg. pose proof (Hfr a Ha). unfold w2.
    rewrite !field_upd_ne; [by apply Hw1|by left|..]; naive_solver. }
  erewrite bind_step.
  2: { apply (wakeup_main_held client n w2); try done; [by apply Hsub|..].
       - unfold handler_ok. rewrite Hw2 by (done || by left). done.
       - rewrite Hw2; [done|done|right; clear; set_solver].
       - rewrite Hw2; [done|done|right; clear; set_solver].
       - unfold w2. fold dq. w_field. unfold dc. lia. }
  change (exec client (S (S n)) (KRelease dq)) with (_dispatch_release (exec client (S n)) dq).
  destruct (notified_meta w2) as (Nl & _). unfold _dispatch_release.
  rewrite ld_bind, notified_field by (done || by rewrite Nl).
  assert (field w2 dq do_ref_cnt = DISPATCH_OBJECT_GLOBAL_REFCNT) as Hr2 by (unfold w2; by w_field).
  rewrite Hr2, Z.eqb_refl. exists w2. split; [done|]. split; [|congruence]. split.
  - by apply (fresh_heap_alloc w).
  - unfold queue_items, w2. w_field. simpl. split_and!; try done; [unfold dc; lia|by w_field|repeat constructor; clear; set_solver|].
    by rewrite list_elem_of_singleton.
  - split; try done. intros Hd. by apply (Hfr dc).
  - done.
  - unfold w2, w1, async_item. by w_field.
  - unfold payload, w2, w1, async_item. by w_field.
  - intros a g Ha Hg _. by apply Hw2.
Qed.

Lemma held_appended w w' dq i xs ctxt func :
  held w dq i xs -> appended w w' dq xs ctxt func -> field w' dq do_ref_cnt = field w dq do_ref_cnt ->
  held w' dq i (xs ++ [w_brk w]).
Proof.
  intros [Hl H0 Hv Hw Hrun Hs Htq Hr Hq Ha] [Ah Ai As Aw Av Ap Af] Hrc. destruct Hq as (Hnl & _ & _ & Hndq).
  pose proof (next_list_elem _ _ _ Hnl) as Hxl.
  split; rewrite ?Hrc, ?Af by (done || (by left) || (right; clear; set_solver)); try done.
  - rewrite (sm_live _ _ _ As). by apply elem_of_union_r.
  - intros x [Hx| ->%list_elem_of_singleton]%elem_of_app; [|done].
    rewrite Af; [by apply Ha|by apply Hxl|left; by intros ->|by right].
Qed.

(** Further items only wait. *)
Lemma submit_held client n dq i l : forall w xs,
  held w dq i xs -> xs <> [] -> fresh_heap w -> w_cache_key w = 0 ->
  exists w' ys, submit client (S (S n)) dq l w = Ret 0 w' /\ held w' dq i (xs ++ ys) /\
    fresh_heap w' /\ submissions w w' ys /\ w_work w' = w_work w /\
    payload w' <$> xs ++ ys = (payload w <$> xs) ++ l /\
    (forall a g, a ∈ w_live w -> a <> dq -> a ∉ xs -> field w' a g = field w a g).
Proof.
  induction l as [|[c f] l IH]; intros w xs Hh Hxs Hfh Hc; cbn [submit].
  - exists w, []. rewrite !app_nil_r. split_and!; try done. split; set_solver.
  - destruct (append_run client n w dq xs c f (hd_live _ _ _ _ Hh) Hfh (hd_items _ _ _ _ Hh) Hxs Hc) as (w1 & Hrun & Hap & Hrc).
    pose proof (held_appended _ _ _ _ _ _ _ Hh Hap Hrc) as Hh1. destruct Hap as [Ah Ai As Aw Av Ap Af].
    erewrite bind_step by exact Hrun. pose proof (sm_keys _ _ _ As) as Hk.
    destruct (IH w1 _ Hh1 ltac:(by destruct xs) Ah ltac:(congruence)) as (w2 & ys & Hrun2 & Hh2 & Hfh2 & Hm2 & Hwk2 & Hp2 & Hfr2).
    exists w2, (w_brk w :: ys). rewrite <- app_assoc in Hh2, Hp2. simpl in Hh2, Hp2.
    split_and!; try done; [by eapply submissions_cons|congruence| |].
    + rewrite Hp2, fmap_app. simpl. rewrite Ap, <- app_assoc. simpl. f_equal.
      apply list_fmap_ext. intros j x Hx%list_elem_of_lookup_2. destruct (hd_items _ _ _ _ Hh) as (Hnl & _ & _ & Hndq).
      pose proof (next_list_elem _ _ _ Hnl x Hx) as [_ Hxl]. assert (x <> dq) by (by intros ->).
      unfold payload. rewrite !Af by (done || (by left) || (by right)). done.
    + intros a g Ha Hne Hax. rewrite Hfr2, Af; try done; [by left|by left|..].
      * rewrite (sm_live _ _ _ As). by apply elem_of_union_r.
      * apply not_elem_of_app. split; [done|]. apply not_elem_of_cons. split; [|apply not_elem_of_nil].
        intros ->. by apply (sm_fresh _ _ _ As).
Qed.

(** ** Giving the queue up *)

(** A submission to an idle root queue. *)
Lemma async_root_run client n w i ctxt func :
  root_ok w i -> root_idle w i -> fresh_heap w -> w_cache_key w = 0 ->
  exists w', exec client (S (S (S n))) (KAsync (_dispatch_root_queues i) ctxt func) w = Ret 0 w' /\
    fresh_heap w' /\ submission w w' (w_brk w) /\ w_work w' = w_work w ++ [_dispatch_root_queues i] /\
    (forall j, root_ok w j -> root_ok w' j) /\
    (forall a f, a ∈ w_live w -> a <> _dispatch_root_queues i ->
       f ∉ [dgq_kworkqueue; once_pred; safe_fork; dgq_pending] -> field w' a f = field w a f) /\
    (forall a, a ∈ w_live w -> a <> _dispatch_root_queue_contexts i -> field w' a dgq_pending = field w a dgq_pending).
Proof.
  intros Hro (Ht & Hh & Hp) Hfh Hc. rewrite async_push by done. pose proof Hfh as [Hb Hbl].
  set (dc := w_brk w). set (w1 := async_item w ctxt func). pose proof Hro as [Hi Hrl Hcl _ _ _ _ _ _].
  assert (forall a, a ∈ w_live w -> a <> dc) as Hfr by (intros a Ha ->; apply Hbl in Ha; lia).
  assert (forall a g, a ∈ w_live w -> field w1 a g = field w a g) as Hw1
    by (intros; apply async_item_field; by apply Hfr).
  assert (w_live w ⊆ w_live w1) as Hsub by apply union_subseteq_r.
  assert (dc ∈ w_live w1) as Hdcl by (apply elem_of_union_l; by apply elem_of_singleton).
  assert (forall j, root_ok w j -> root_ok w1 j) as Hall.
  { intros j Hj. pose proof Hj as [? ? Hcj ? _ _ _ _ _]. revert Hj. apply root_ok_frame; [done|..]; intros; apply Hw1; auto. }
  destruct (push_root_run client n w1 i dc) as
    (w2 & Hrun & Hm & Hwk & Hro2 & _ & _ & _ & _ & Hf & Hn & Hpp); try done.
  { by apply Hall. }
  { by rewrite Hw1. }
  { rewrite Hw1; auto. }
  { unfold dc. lia. }
  { symmetry. by apply Hfr. }
  injection Hm as Hlive Hbrk Hqk Hsk Hck Hse Hlog. exists w2. split_and!; try done.
  - by apply (fresh_heap_alloc w).
  - split; simpl in *; [done|intros Hd; by apply (Hfr dc)|congruence|done].
  - intros j Hj. by apply Hro2, Hall.
  - intros a f Ha Hne Hnf. destruct (decide (f = do_next)) as [->|Hdn].
    + rewrite Hn by (by apply Hfr). by apply Hw1.
    + rewrite Hf; [by apply Hw1|done|]. rewrite !not_elem_of_cons in *. naive_solver.
  - intros a Ha Hne. rewrite Hpp by done. by apply Hw1.
Qed.

Definition static_addrs : list Z :=
  (_dispatch_root_queues <$> root_indices) ++ (_dispatch_root_queue_contexts <$> root_indices) ++ [statics].

Lemma main_not_static : _dispatch_main_q ∉ static_addrs.
Proof. apply (bool_decide_unpack _). vm_compute. done. Qed.

(** The state of a program whose main thread holds the main queue, with [xs] waiting, and which
    has not yet used the root queues that dispatch_main needs. *)
Record main_thread (w : world) (xs : list Z) : Prop := {
  mt_held : held w _dispatch_main_q 3 xs;
  mt_heap : fresh_heap w;
  mt_keys : (w_queue_key w, w_sema4_key w, w_cache_key w) = (_dispatch_main_q, 0, 0);
  mt_roots : root_ok w 3 /\ root_ok w 2;
  mt_idle : root_idle w 3 /\ root_idle w 2;
  mt_work : w_work w = [];
  mt_static : forall a, a ∈ static_addrs -> a ∈ w_live w /\ a ∉ xs
}.

(** What dispatch_main does before it wakes the main queue. *)
Definition main_unlocked (w : world) : world :=
  upd (upd (upd w statics callback_driven 1) _dispatch_main_q dq_running 0) _dispatch_main_q do_suspend_cnt 0.

Lemma main_unlocked_field w a f :
  f ∉ [callback_driven; dq_running; do_suspend_cnt] -> field (main_unlocked w) a f = field w a f.
Proof. rewrite !not_elem_of_cons. intros Hf. unfold main_unlocked. rewrite !field_upd_ne; naive_solver. Qed.
Lemma main_unlocked_other w a f :
  a <> statics -> a <> _dispatch_main_q -> field (main_unlocked w) a f = field w a f.
Proof. intros. unfold main_unlocked. by rewrite !field_upd_ne by (left; congruence). Qed.

Lemma main_unlocked_root w j : root_ok w j -> root_ok (main_unlocked w) j.
Proof.
  intros Hj. pose proof Hj as [Hi _ _ _ _ _ _ _ _].
  assert (_dispatch_root_queues j <> statics /\ _dispatch_root_queues j <> _dispatch_main_q) as [? ?].
  { clear Hj. unfold root_indices in Hi. rewrite !elem_of_cons, elem_of_nil in Hi. destruct_or! Hi; by subst. }
  revert Hj. apply root_ok_frame; [done|..].
  - intros f _. by apply main_unlocked_other.
  - apply main_unlocked_field. clear. set_solver.
  - apply main_unlocked_field. clear. set_solver.
Qed.

Lemma main_thread_cleanup call w xs m :
  main_thread w xs ->
  dispatch_main call m w =
    (((call (KWakeup _dispatch_main_q);; mret 0);;
      cb ← ld statics callback_driven;
      if negb (cb =? 0) then call (KAsync (_dispatch_root_queues 2) 0 fn_sigsuspend) else mret 0);;
     p ← gets w_sema4_key;
     (if negb (p =? 0) then call (KRelease p) else mret 0);;
     p ← gets w_cache_key;
     if negb (p =? 0) then _dispatch_cache_cleanup2 m p else mret 0) (main_unlocked w).
Proof.
  intros [Hhd _ Hk [[_ _ _ Hst _ _ _ _ _] _] _ _ _]. injection Hk as Hqk _ _.
  destruct Hhd as [Hl _ _ _ Hrun Hs _ _ _ _]. unfold dispatch_main. w_steps. simpl. rewrite Hqk.
  change (negb (_dispatch_main_q =? 0)) with true. cbv iota. unfold _dispatch_queue_cleanup.
  rewrite Z.eqb_refl. unfold _dispatch_queue_cleanup2.
  rewrite bind_assoc, atomic_add_bind by done. w_field. rewrite Hrun. change (s64 (1 + -1)) with 0.
  rewrite bind_assoc, atomic_add_bind by done. w_field. rewrite Hs.
  change (s64 (DISPATCH_OBJECT_SUSPEND_LOCK + - DISPATCH_OBJECT_SUSPEND_LOCK)) with 0. cbn [Z.eqb].
  rewrite !bind_assoc. reflexivity.
Qed.

(** The words that looking for a worker changes. *)
Definition worker_words : list fld := [dgq_kworkqueue; once_pred; safe_fork; dgq_pending].

Lemma static_root j : j ∈ root_indices -> _dispatch_root_queues j ∈ static_addrs /\ _dispatch_root_queue_contexts j ∈ static_addrs.
Proof. intros Hj. unfold static_addrs. rewrite !elem_of_app. split; [left|right; left]; by apply list_elem_of_fmap_2. Qed.
Lemma static_statics : statics ∈ static_addrs.
Proof. unfold static_addrs. set_solver. Qed.

(** Work for another root queue does not touch what waits on this one. *)
Lemma submitted_frame w w' dq i r xs :
  submitted w dq i r xs -> root_ok w' i -> fresh_heap w' -> w_live w ⊆ w_live w' ->
  (forall a f, a = dq \/ a = _dispatch_root_queues i \/ a ∈ xs -> f ∉ worker_words -> field w' a f = field w a f) ->
  submitted w' dq i r xs.
Proof.
  intros [_ _ [El Ev Ew Er Es Et Erf] (Hnl & Ht & Hnd & Hni) Hxs Hvt Htl Hnx Hst] Hro Hfh Hl Hf.
  assert (forall f, f ∉ worker_words -> field w' dq f = field w dq f) as Hdq by (intros; apply Hf; auto).
  assert (forall f, f ∉ worker_words -> field w' (_dispatch_root_queues i) f = field w (_dispatch_root_queues i) f) as Hrq
    by (intros; apply Hf; auto).
  split; rewrite ?Hdq, ?Hrq by (clear; unfold worker_words; set_solver); try done.
  - split; rewrite ?Hdq by (clear; unfold worker_words; set_solver); try done. by apply Hl.
  - split_and!; rewrite ?Hdq by (clear; unfold worker_words; set_solver); try done. apply (next_list_frame w); [|done].
    intros x Hx. split; [apply Hf; [by auto|clear; unfold worker_words; set_solver]|auto].
  - intros x Hx. rewrite Hf; [by apply Hvt|by auto|clear; unfold worker_words; set_solver].
Qed.

(** The state in which a queue with the items [xs] was put on its idle root queue. *)
Lemma woken_submitted w w' dq i r xs :
  root_ok w' i -> fresh_heap w' -> w_live w' = w_live w -> dq ∈ w_live w -> dq <> 0 -> xs <> [] ->
  field w dq do_vtable = _dispatch_queue_vtable -> field w dq dq_width = 1 -> field w dq dq_running = 0 ->
  field w dq do_targetq = _dispatch_root_queues i -> queue_items w dq xs ->
  (forall x, x ∈ xs -> field w x do_vtable = DISPATCH_OBJ_ASYNC_BIT) ->
  (forall a, a ∈ static_addrs -> a ∉ xs) ->
  field w' (_dispatch_root_queues i) dq_items_tail = dq -> field w' (_dispatch_root_queues i) dq_items_head = dq ->
  field w' dq do_next = 0 -> field w' dq do_ref_cnt = ref_inc r -> field w' dq do_suspend_cnt = 1 ->
  ref_inc r = DISPATCH_OBJECT_GLOBAL_REFCNT \/ 1 < ref_inc r < DISPATCH_OBJECT_GLOBAL_REFCNT ->
  (forall f, f ∉ worker_words ++ [do_next; do_ref_cnt; do_suspend_cnt] -> field w' dq f = field w dq f) ->
  (forall a f, a <> _dispatch_root_queues i -> a <> dq -> f ∉ worker_words -> field w' a f = field w a f) ->
  submitted w' dq i r xs.
Proof.
  intros Hro Hfh Hlive Hl H0 Hxs Hv Hw Hrun Htq (Hnl & Hqt & Hnd & Hndq) Hvt Hst Ht Hh Hn Hr Hs Hrb Hdq Hf.
  assert (forall x f, x ∈ xs -> f ∉ worker_words -> field w' x f = field w x f) as Hx.
  { intros x f Hx. apply Hf; [|by intros ->]. intros ->. apply (Hst (_dispatch_root_queues i)); [|done].
    by apply static_root, (ro_index _ _ Hro). }
  split; rewrite ?Hdq by (clear; unfold worker_words; set_solver); try done.
  - split; rewrite ?Hdq by (clear; unfold worker_words; set_solver); try done. by rewrite Hlive.
  - split_and!; rewrite ?Hdq by (clear; unfold worker_words; set_solver); try done. apply (next_list_frame w); [|done].
    intros x Hxx. split; [apply Hx; [done|clear; unfold worker_words; set_solver]|by rewrite Hlive].
  - intros x Hxx. rewrite Hx; [by apply Hvt|done|clear; unfold worker_words; set_solver].
  - split_and!; [..|intros j Hj]; apply Hst; [by apply static_root, (ro_index _ _ Hro)|apply static_statics|by apply static_root].
Qed.

(** Once it is unlocked, the main queue goes to its root queue, and the items are as they were. *)
Lemma main_wakes client n w xs :
  main_thread w xs -> xs <> [] ->
  exists w', exec client (S (S (S n))) (KWakeup _dispatch_main_q) (main_unlocked w) = Ret (_dispatch_root_queues 3) w' /\
    submitted w' _dispatch_main_q 3 DISPATCH_OBJECT_GLOBAL_REFCNT xs /\ meta w' = meta w /\
    w_work w' = [_dispatch_root_queues 3] /\ root_ok w' 2 /\ root_idle w' 2 /\ field w' statics callback_driven = 1 /\
    (forall x, x ∈ xs -> payload w' x = payload w x).
Proof.
  intros [[Hl H0 Hv Hw Hrun Hs Htq Hr Hq Hvt] Hfh Hk [Hro3 Hro2] [(Ht3 & Hh3 & Hp3) (Ht2 & Hh2 & Hp2)] Hwk Hst] Hxs.
  set (w1 := main_unlocked w). pose proof (main_unlocked_root w) as Hall. fold w1 in Hall. pose proof Hq as (Hnl & Hqt & Hnd & Hndq).
  assert (forall a f, f ∉ [callback_driven; dq_running; do_suspend_cnt] -> field w1 a f = field w a f) as Hw1
    by (intros; by apply main_unlocked_field).
  destruct (wakeup_serial_run client n w1 _dispatch_main_q 3 DISPATCH_OBJECT_GLOBAL_REFCNT) as
    (w2 & Hwake & Hm & Hwk2 & Hall2 & Htl & Hhd & Hnx & Hrc & Hsc & Hf2 & Hg2 & Hpp2);
    try done; try (rewrite Hw1 by (clear; set_solver); done).
  { by apply Hall. }
  { unfold w1, main_unlocked. by w_field. }
  { rewrite Hw1, Hqt by (clear; set_solver). destruct (last xs) as [p|] eqn:Hp; [|by apply last_None in Hp].
    by apply (next_list_elem _ _ _ Hnl), last_Some_elem_of. }
  { by left. }
  pose proof Hm as Hm'. injection Hm' as Hlive Hbrk _ _ _ _ _.
  assert (forall x, x ∈ xs -> x <> _dispatch_root_queues 3 /\ x <> _dispatch_main_q) as Hne.
  { intros x Hx. split; intros ->; [|done]. destruct (static_root 3 (ro_index _ _ Hro3)) as [Hs3 _]. by apply (Hst _ Hs3). }
  exists w2. split_and!; try done.
  - apply (woken_submitted w1); try done; try (by rewrite !Hw1 by (clear; set_solver)); auto.
    + destruct Hfh. split; [by rewrite Hbrk|]. by rewrite Hlive, Hbrk.
    + unfold w1, main_unlocked. by w_field.
    + split_and!; rewrite ?Hw1 by (clear; set_solver); try done. apply (next_list_frame w); [|done].
      intros x _. split; [apply Hw1; clear; set_solver|done].
    + intros x Hx. rewrite Hw1 by (clear; set_solver). by apply Hvt.
    + intros a Ha. by apply Hst.
  - rewrite Hwk2. change (w_work w1) with (w_work w). by rewrite Hwk.
  - by apply Hall2, Hall.
  - unfold root_idle. rewrite Hpp2 by done. rewrite !Hg2 by (done || (clear; set_solver)).
    rewrite !Hw1 by (clear; set_solver). done.
  - rewrite Hg2 by (done || (clear; set_solver)). unfold w1, main_unlocked. by w_field.
  - intros x Hx. destruct (Hne x Hx). unfold payload. rewrite !Hg2 by (done || (clear; set_solver)). by rewrite !Hw1 by (clear; set_solver).
Qed.

(** dispatch_main hands the main queue to its root queue and asks for a worker; the items are
    as they were. *)
Lemma dispatch_main_run client n m w xs :
  main_thread w xs -> xs <> [] ->
  exists w', dispatch_main (exec client (S (S (S n)))) m w = Ret 0 w' /\
    submitted w' _dispatch_main_q 3 DISPATCH_OBJECT_GLOBAL_REFCNT xs /\ w_log w' = w_log w /\
    w_work w' = [_dispatch_root_queues 3; _dispatch_root_queues 2] /\
    (forall x, x ∈ xs -> payload w' x = payload w x).
Proof.
  intros Hmt Hxs. rewrite (main_thread_cleanup _ w xs) by done.
  destruct (main_wakes client n w xs Hmt Hxs) as (w2 & Hwake & Hsb & Hm & Hwk2 & Hro2 & Hri2 & Hcb & Hp2).
  injection Hm as Hlive Hbrk Hqk Hsk Hck Hse Hlog. pose proof (mt_keys _ _ Hmt) as Hk. injection Hk as Kq Ks Kc.
  destruct (async_root_run client n w2 2 0 fn_sigsuspend Hro2 Hri2 (sb_heap _ _ _ _ _ Hsb)) as
    (w3 & Hrun3 & Hfh3 & Hm3 & Hwk3 & Hall3 & Hf3 & _); [congruence|].
  pose proof (sm_keys _ _ _ Hm3) as Hk3. injection Hk3 as K3q K3s K3c.
  pose proof (next_list_elem _ _ _ (proj1 (sb_items _ _ _ _ _ Hsb))) as Hxl. pose proof (sb_root _ _ _ _ _ Hsb) as Hro3.
  destruct (static_root 2 (ro_index _ _ Hro2)) as [Hs2 _].
  assert (forall x, x ∈ xs -> x <> _dispatch_root_queues 2) as Hne by (intros x Hx ->; by apply (mt_static _ _ Hmt _ Hs2)).
  exists w3. split; [|split_and!].
  - rewrite bind_assoc. erewrite (bind_step _ _ _ _ w2) by (erewrite bind_step by exact Hwake; done).
    rewrite bind_assoc, ld_bind, Hcb by apply Hro3. cbn [Z.eqb negb]. erewrite bind_step by exact Hrun3.
    rewrite gets_bind, K3s, Hsk, Ks. cbn [Z.eqb negb]. rewrite ret_bind, gets_bind, K3c, Hck. by rewrite Kc.
  - apply (submitted_frame w2); auto.
    + rewrite (sm_live _ _ _ Hm3). apply union_subseteq_r.
    + intros a f Ha Hf. apply Hf3; [| |done]; destruct Ha as [->|[->|Ha]].
      * by apply (se_live _ _ _ _ (sb_enqueued _ _ _ _ _ Hsb)).
      * apply Hro3.
      * by apply Hxl.
      * done.
      * done.
      * by apply Hne.
  - rewrite (sm_log _ _ _ Hm3). done.
  - by rewrite Hwk3, Hwk2.
  - intros x Hx. rewrite <- Hp2 by done. unfold payload. by rewrite !Hf3 by ((by apply Hxl) || (by apply Hne) || (clear; set_solver)).
Qed.

Lemma main_thread_frame w w' xs xs' :
  main_thread w xs -> held w' _dispatch_main_q 3 xs' -> fresh_heap w' ->
  (w_queue_key w', w_sema4_key w', w_cache_key w') = (w_queue_key w, w_sema4_key w, w_cache_key w) ->
  w_work w' = w_work w -> (forall a, a ∈ static_addrs -> a ∈ w_live w') ->
  (forall a f, a ∈ static_addrs -> f ∉ [safe_fork; main_q_is_draining; main_q_handler] -> field w' a f = field w a f) ->
  (forall a, a ∈ static_addrs -> a ∉ xs') -> main_thread w' xs'.
Proof.
  intros [Hhd Hfh Hk [Hro3 Hro2] [Hi3 Hi2] Hwk Hst] Hhd' Hfh' Hk' Hwk' Hl Hfs Hni.
  pose proof static_root as Hj. pose proof static_statics as Hss.
  assert (forall j, root_ok w j -> root_ok w' j) as Hall.
  { intros j [Ji Jl Jc Js Jv Jr Jsu Jx Jk]. pose proof (Hj j Ji) as [? ?].
    split; rewrite ?Hfs by (done || (clear; set_solver)); auto. intros k Hk1. by apply Hl, Hj. }
  assert (forall j, root_ok w j -> root_idle w j -> root_idle w' j) as Hidle.
  { intros j Hroj. pose proof (Hj j (ro_index _ _ Hroj)) as [? ?]. unfold root_idle.
    rewrite !Hfs by (done || (clear; set_solver)). done. }
  split; try done; [congruence|by auto|by auto|congruence|by auto].
Qed.

Lemma notified_held w dq i xs : dq <> statics -> held w dq i xs -> held (notified w) dq i xs.
Proof.
  intros Hd [Hl H0 Hv Hw Hrun Hs Htq Hr (Hnl & Ht & Hnd & Hndq) Ha]. destruct (notified_meta w) as (Nl & _).
  split; rewrite ?notified_field by done; rewrite ?Nl; try done.
  - split_and!; rewrite ?notified_field by done; try done. apply (next_list_frame w); [|done].
    intros x _. rewrite notified_field, Nl by done. done.
  - intros x Hx. rewrite notified_field by done. by apply Ha.
Qed.

(** The program submits [l] to the main queue: the handler hears of the first item, no worker is asked for. *)
Lemma submit_main client n l w :
  main_thread w [] -> handler_ok client w -> l <> [] ->
  exists w' ys, submit client (S (S (S (S n)))) _dispatch_main_q l w = Ret 0 w' /\ main_thread w' ys /\
    payload w' <$> ys = l /\ w_log w' = w_log w ++ notice w /\
    (forall y, y ∈ ys -> y ∉ w_live w) /\ w_live w' = list_to_set ys ∪ w_live w /\
    (forall f, f <> safe_fork -> field w' statics f = field w statics f).
Proof.
  intros Hmt Hok Hl. destruct l as [|[c f] l]; [done|]. clear Hl. pose proof Hmt as [Hhd Hfh Hk Hro Hi Hwk Hst].
  injection Hk as Kq Ks Kc. pose proof static_statics as Hss.
  cbn [submit]. destruct (async_held_first client n w c f Hhd Hfh Kc (proj1 (Hst _ Hss)) Hok) as (w1 & Hrun1 & Hap & Hrc).
  erewrite bind_step by exact Hrun1. pose proof (held_appended _ _ _ _ _ _ _ Hhd Hap Hrc) as Hhd1. simpl in Hhd1.
  apply notified_held in Hhd1; [|done]. destruct Hap as [Ah Ai [Asl Asf Ask Asg] Aw Av Ap Af].
  destruct (notified_meta w1) as (Nl & Nb & Nw & Nk & Ng).
  assert (forall a, a ∈ static_addrs -> a ∈ w_live w /\ a <> _dispatch_main_q) as Hsl.
  { intros a Ha. split; [by apply Hst|]. intros ->. by apply main_not_static. }
  destruct (submit_held client (S (S n)) _dispatch_main_q 3 l (notified w1) [w_brk w] Hhd1 ltac:(done)) as
    (w2 & ys & Hrun2 & Hhd2 & Hfh2 & [Sl Sf Sk Sg] & Hwk2 & Hp2 & Hf2).
  { destruct Ah. split; [by rewrite Nb|]. by rewrite Nl, Nb. }
  { congruence. }
  change ([w_brk w] ++ ys) with (w_brk w :: ys) in *.
  assert (payload (notified w1) (w_brk w) = (c, f)) as Hp1 by (rewrite <- Ap; unfold payload; by rewrite !notified_field).
  assert (forall a g, a ∈ static_addrs -> g <> safe_fork -> field w2 a g = field w a g) as Hfs.
  { intros a g Ha Hg. destruct (Hsl a Ha) as [Hal Ham]. assert (a <> w_brk w) by (intros ->; done).
    rewrite Hf2; [|rewrite Nl, Asl; by apply elem_of_union_r|done|by rewrite list_elem_of_singleton].
    rewrite notified_field by done. apply Af; [done|by left|left; apply not_elem_of_nil]. }
  assert (forall y, y ∈ w_brk w :: ys -> y ∉ w_live w) as Hfresh.
  { rewrite Nl, Asl in Sf. intros y [->|Hy]%elem_of_cons; [done|]. apply Sf in Hy. clear -Hy. set_solver. }
  assert (w_live w2 = list_to_set (w_brk w :: ys) ∪ w_live w) as Hlive.
  { rewrite Sl, Nl, Asl. clear. simpl. apply leibniz_equiv. set_solver. }
  exists w2, (w_brk w :: ys). split_and!; try done.
  - apply (main_thread_frame w w2 [] _); try done.
    + congruence.
    + congruence.
    + intros a Ha. rewrite Hlive. apply elem_of_union_r. by apply Hst.
    + intros a g Ha Hg. apply Hfs; [done|]. rewrite !not_elem_of_cons in Hg. by destruct Hg.
    + intros a Ha Hy. by apply (Hfresh a Hy), Hst.
  - rewrite Hp2. simpl. by rewrite Hp1.
  - rewrite Sg, Ng, Asg. f_equal. unfold notice. injection Ask as Aq _ _.
    rewrite Af by (apply (Hsl _ Hss) || (by left) || (left; apply not_elem_of_nil)). by rewrite Aq.
  - intros g Hg. by apply Hfs.
Qed.

(** C29: work submitted to the main queue waits while the main thread runs: no worker is asked for, and a
    run loop, if there is one, hears of it once.  dispatch_main gives the queue up, and then the worker
    of the default overcommit root queue runs every item once, in the order of submission, on the
    main queue.  From then on the main queue is an idle serial queue like any other.  The
    functions are any that make no library call. *)
Theorem main_queue_runs_after_main client w l n :
  main_thread w [] -> handler_ok client w -> l <> [] ->
  (forall c f, (c, f) ∈ l -> 0 < f /\ client f c = []) -> (length l + 7 <= n)%nat ->
  exists w1 w2 w3,
    submit client n _dispatch_main_q l w = Ret 0 w1 /\ w_log w1 = w_log w ++ notice w /\ w_work w1 = [] /\
    dispatch_main (exec client n) n w1 = Ret 0 w2 /\ w_log w2 = w_log w1 /\
    w_work w2 = [_dispatch_root_queues 3; _dispatch_root_queues 2] /\
    run_other_thread (exec client n) w2 = Ret 0 w3 /\
    w_log w3 = w_log w2 ++ ((fun cf => (cf.2, cf.1, _dispatch_main_q)) <$> l) /\
    serial_idle w3 _dispatch_main_q 3 DISPATCH_OBJECT_GLOBAL_REFCNT /\ root_ok w3 3 /\ root_idle w3 3 /\
    w_work w3 = [_dispatch_root_queues 2].
Proof.
  intros Hmt Hok Hl Hleaf Hn. assert (n = S (S (S (S (S (n - 5)))))) as -> by lia.
  destruct (submit_main client (S (n - 5)) l w Hmt Hok Hl) as (w1 & ys & Hrun1 & Hmt1 & Hp1 & Hlog1 & _).
  assert (length ys = length l) as Hlen by (by rewrite <- Hp1, length_fmap).
  assert (ys <> []) as Hys by (intros ->; by rewrite <- Hp1 in Hl).
  destruct (dispatch_main_run client (S (S (n - 5))) (S (S (S (S (S (n - 5)))))) w1 ys Hmt1 Hys) as (w2 & Hrun2 & Hs2 & Hlog2 & Hwk2 & Hp2).
  assert (payload w2 <$> ys = l) as Hpl.
  { rewrite <- Hp1. apply list_fmap_ext. intros j x Hx%list_elem_of_lookup_2. by apply Hp2. }
  assert (forall x, x ∈ ys -> (field w2 x dc_ctxt, field w2 x dc_func) ∈ l) as Hpay.
  { intros x Hx. rewrite <- Hpl. change ((field w2 x dc_ctxt, field w2 x dc_func)) with (payload w2 x).
    by apply list_elem_of_fmap_2. }
  destruct (run_other_run client (n - 5) w2 _dispatch_main_q 3 DISPATCH_OBJECT_GLOBAL_REFCNT ys [_dispatch_root_queues 2] Hs2) as
    (w3 & Hrun3 & Hlog3 & _ & Hro3 & Hri3 & Hid3 & Hwk3 & _); try done.
  { by left. }
  { intros x Hx. by apply Hleaf, Hpay. }
  { lia. }
  exists w1, w2, w3. split_and!; try done.
  - by apply (mt_work _ _ Hmt1).
  - rewrite Hlog3. f_equal. rewrite <- Hpl, <- list_fmap_compose. done.
Qed.

(** ** A run loop on the main thread *)

Lemma drain_main_run client n w xs :
  main_thread w xs ->
  (forall x, x ∈ xs -> 0 < field w x dc_func /\ client (field w x dc_func) (field w x dc_ctxt) = []) ->
  (length xs + 2 <= n)%nat ->
  exists w', _dispatch_queue_serial_drain_till_empty (exec client (S (S n))) (S (S n)) _dispatch_main_q w = Ret 0 w' /\
    main_thread w' [] /\ w_log w' = w_log w ++ (entry _dispatch_main_q w <$> xs) /\
    w_live w' = w_live w ∖ list_to_set xs /\
    (forall a f, a ∉ _dispatch_main_q :: xs -> field w' a f = field w a f).
Proof.
  intros Hmt Hleaf Hn. pose proof Hmt as [Hhd Hfh Hk Hro Hi Hwk Hst]. injection Hk as Kq Ks Kc.
  destruct Hhd as [Hl H0 Hv Hw Hrun Hs Htq Hr Hq Ha]. pose proof Hq as (Hnl & _ & Hnd & Hndq).
  destruct (drain_run client _dispatch_main_q w (_dispatch_root_queues 3) xs n) as (w1 & Hex & Hd & Ht & Hhe); try done.
  { split; try done. rewrite Hs. done. }
  { intros x Hx. split; [by intros ->|]. destruct (Hleaf x Hx). split_and!; try done. by apply Ha. }
  destruct Hd as [Df Dn Dl Dq Ds Dw Dse Db Dlog Dc].
  assert (next_list w1 (w_cache_key w1) (reverse xs)) as Hcl.
  { rewrite <- (app_nil_r (reverse xs)). apply Dc; [by rewrite Kc|by rewrite app_nil_r|]. by apply (next_list_elem _ _ _ Hnl). }
  unfold _dispatch_queue_serial_drain_till_empty. erewrite bind_step by exact Hex.
  rewrite (cache_cleanup_run _ w1 xs) by (done || lia). eexists. split; [done|].
  set (w2 := set_live _ _). assert (w_live w2 = w_live w ∖ list_to_set xs) as Hl2 by (unfold w2; simpl; by rewrite Dl).
  assert (forall a f, a ∉ _dispatch_main_q :: xs -> field w2 a f = field w a f) as Hf2.
  { intros a f Hna. rewrite not_elem_of_cons in Hna. destruct Hna as [Hne Hx]. change (field w1 a f = field w a f).
    destruct (decide (f = do_next)) as [->|]; [by apply Dn|]. apply Df; [done|by left]. }
  assert (forall f, f ∉ [do_next; dq_items_tail; dq_items_head] -> field w2 _dispatch_main_q f = field w _dispatch_main_q f) as Hm2.
  { intros f Hf. rewrite !not_elem_of_cons in Hf. change (field w1 _dispatch_main_q f = field w _dispatch_main_q f). apply Df; naive_solver. }
  split_and!; try done. apply (main_thread_frame w w2 xs []); try done.
  - split; rewrite ?Hm2 by (clear; set_solver); try done; [|by apply queue_items_nil|by intros x Hx%elem_of_nil].
    rewrite Hl2. apply elem_of_difference. by rewrite elem_of_list_to_set.
  - destruct Hfh as [Hb Hb']. split; [change (0 < w_brk w1); by rewrite Db|]. intros a Ha2. change (a < w_brk w1).
    rewrite Db. apply Hb'. rewrite Hl2 in Ha2. by apply elem_of_difference in Ha2 as [? _].
  - change ((w_queue_key w1, w_sema4_key w1, 0) = (w_queue_key w, w_sema4_key w, w_cache_key w)). congruence.
  - intros a Has. destruct (Hst a Has). rewrite Hl2. apply elem_of_difference. by rewrite elem_of_list_to_set.
  - intros a f Has _. apply Hf2. apply not_elem_of_cons. split; [|by apply Hst]. intros ->. by apply main_not_static.
  - intros a _. apply not_elem_of_nil.
Qed.

(** Static variables of the run loop are not part of what the main thread relies on. *)
Lemma main_thread_static w xs f v :
  f ∈ [main_q_is_draining; main_q_handler] -> main_thread w xs -> main_thread (upd w statics f v) xs.
Proof.
  intros Hf Hmt. assert (forall a g, g ∉ [main_q_is_draining; main_q_handler] -> field (upd w statics f v) a g = field w a g) as Hw.
  { intros a g Hg. apply field_upd_ne. right. intros ->. by apply Hg. }
  pose proof Hmt as [[Hl H0 Hv Hw' Hrun Hs Htq Hr (Hnl & Ht & Hnd & Hndq) Ha] Hfh Hk Hro Hi Hwk Hst].
  apply (main_thread_frame w _ xs); try done; [|by intros; apply Hst| |by intros; apply Hst].
  - split; rewrite ?Hw by (clear; set_solver); try done.
    + split_and!; rewrite ?Hw by (clear; set_solver); try done. apply (next_list_frame w); [|done].
      intros x _. split; [apply Hw; clear; set_solver|done].
    + intros x Hx. rewrite Hw by (clear; set_solver). by apply Ha.
  - intros a g _ Hg. apply Hw. rewrite !not_elem_of_cons in *. naive_solver.
Qed.

Lemma callback_run client n w xs :
  main_thread w xs -> field w statics main_q_is_draining = 0 ->
  (forall x, x ∈ xs -> 0 < field w x dc_func /\ client (field w x dc_func) (field w x dc_ctxt) = []) ->
  (length xs + 2 <= n)%nat ->
  exists w', _dispatch_main_queue_callback_4QT (exec client (S (S n))) (S (S n)) w = Ret 0 w' /\
    main_thread w' [] /\ w_log w' = w_log w ++ (entry _dispatch_main_q w <$> xs) /\
    w_live w' = w_live w ∖ list_to_set xs /\
    field w' statics main_q_is_draining = 0 /\ field w' statics main_q_handler = field w statics main_q_handler.
Proof.
  intros Hmt Hd Hleaf Hn. pose proof static_statics as Hss.
  pose proof (mt_static _ _ Hmt _ Hss) as [Hsl Hsx].
  assert (forall x, x ∈ xs -> x <> statics) as Hxs by (intros x Hx ->; done).
  unfold _dispatch_main_queue_callback_4QT, _dispatch_queue_set_mainq_drain_state. rewrite ld_bind, Hd by done. cbn [Z.eqb negb].
  rewrite st_bind by done. set (w1 := upd w statics main_q_is_draining 1).
  assert (forall a f, a <> statics -> field w1 a f = field w a f) as Hw1 by (intros; apply field_upd_ne; left; congruence).
  assert (main_thread w1 xs) as Hmt1 by (apply main_thread_static; [clear; set_solver|done]).
  destruct (drain_main_run client n w1 xs Hmt1) as (w2 & Hrun & Hmt2 & Hlog & Hlive & Hf); [|done|].
  { intros x Hx. rewrite !Hw1 by (by apply Hxs). by apply Hleaf. }
  erewrite bind_step by exact Hrun. pose proof (mt_static _ _ Hmt2 _ Hss) as [Hsl2 _]. rewrite st_bind by done.
  eexists. split; [done|]. split_and!; try done.
  - apply main_thread_static; [clear; set_solver|done].
  - simpl. rewrite Hlog. f_equal. apply list_fmap_ext. intros j x Hx%list_elem_of_lookup_2. unfold entry.
    by rewrite !Hw1 by (by apply Hxs).
  - by w_field.
  - rewrite field_upd_ne by (by right). rewrite Hf; [apply field_upd_ne; by right|]. apply not_elem_of_cons. split; [done|].
    by intros Hx%Hxs.
Qed.

(** C30: a run loop that registered a handler hears once of a batch of work for the main queue, however much
    there is and although a second handler is refused; its callback then runs every item once, in the
    order of submission, on the thread that holds the main queue, frees the continuations and
    leaves the queue held and empty, so that the next batch is announced in the same way.  A
    callback inside a callback does nothing. *)
Theorem run_loop_drains_main client w l h h' n :
  main_thread w [] -> field w statics main_q_handler = 0 -> field w statics main_q_is_draining = 0 ->
  0 < h -> client h 0 = [] -> l <> [] -> (forall c f, (c, f) ∈ l -> 0 < f /\ client f c = []) -> (length l + 4 <= n)%nat ->
  exists w1 w2,
    (_dispatch_register_signal_handler_4QT h;; _dispatch_register_signal_handler_4QT h';; submit client n _dispatch_main_q l) w = Ret 0 w1 /\
    w_log w1 = w_log w ++ [(h, 0, _dispatch_main_q)] /\ w_work w1 = [] /\
    _dispatch_main_queue_callback_4QT (exec client n) n w1 = Ret 0 w2 /\
    w_log w2 = w_log w1 ++ ((fun cf => (cf.2, cf.1, _dispatch_main_q)) <$> l) /\
    main_thread w2 [] /\ handler_ok client w2 /\ w_live w2 = w_live w /\
    (forall v, v <> 0 -> _dispatch_main_queue_callback_4QT (exec client n) n (upd w1 statics main_q_is_draining v) =
       Ret 0 (upd w1 statics main_q_is_draining v)).
Proof.
  intros Hmt Hh Hd Hh0 Hhc Hl Hleaf Hn. assert (n = S (S (S (S (n - 4))))) as -> by lia.
  pose proof static_statics as Hss.
  pose proof (mt_static _ _ Hmt _ Hss) as [Hsl _]. unfold _dispatch_register_signal_handler_4QT.
  rewrite bind_assoc, ld_bind, Hh by done. cbn [Z.eqb negb]. rewrite bind_assoc, st_bind by done. rewrite ret_bind, bind_assoc, ld_bind by done.
  w_field. case_cmp; [lia|]. cbn [negb]. rewrite ret_bind. set (w0 := upd w statics main_q_handler h).
  assert (main_thread w0 []) as Hmt0 by (apply main_thread_static; [clear; set_solver|done]).
  assert (field w0 statics main_q_handler = h) as Hh1 by (unfold w0; by w_field).
  destruct (submit_main client (n - 4) l w0 Hmt0) as (w1 & ys & Hrun1 & Hmt1 & Hp1 & Hlog1 & Hfresh & Hlive & Hf1); [|done|].
  { right. by rewrite Hh1. }
  assert (length ys = length l) as Hlen by (by rewrite <- Hp1, length_fmap).
  assert (field w1 statics main_q_is_draining = 0) as Hd1 by (rewrite Hf1 by done; unfold w0; by w_field).
  destruct (callback_run client (S (S (n - 4))) w1 ys Hmt1 Hd1) as (w2 & Hrun2 & Hmt2 & Hlog2 & Hlive2 & Hd2 & Hh2).
  { intros x Hx. apply Hleaf. rewrite <- Hp1. change ((field w1 x dc_ctxt, field w1 x dc_func)) with (payload w1 x).
    by apply list_elem_of_fmap_2. }
  { lia. }
  exists w1, w2. split_and!; try done.
  - rewrite Hlog1. unfold notice. rewrite Hh1. case_cmp; [lia|]. pose proof (mt_keys _ _ Hmt0) as Hk. injection Hk as Kq _ _. change (w_queue_key w0) with (w_queue_key w). by rewrite Kq.
  - by apply (mt_work _ _ Hmt1).
  - rewrite Hlog2. f_equal. rewrite <- Hp1, <- list_fmap_compose. done.
  - right. rewrite Hh2, Hf1, Hh1 by done. done.
  - rewrite Hlive2, Hlive. change (w_live w0) with (w_live w). clear -Hfresh. apply leibniz_equiv. set_solver.
  - intros v Hv. unfold _dispatch_main_queue_callback_4QT. rewrite ld_bind by (apply (mt_static _ _ Hmt1 _ Hss)).
    w_field. case_cmp; done.
Qed.

(** ** Fork *)

(** The memory effect of [poison]: the queues of [qs] have the marker for their items. *)
Record poisoned (w w' : world) (qs : list Z) : Prop := {
  po_meta : meta w' = meta w;
  po_work : w_work w' = w_work w;
  po_tail : forall q, q ∈ qs -> field w' q dq_items_tail = atfork_crash /\ field w' q dq_items_head = atfork_crash;
  po_field : forall a f, f ∉ [dq_items_head; dq_items_tail] \/ a ∉ qs -> field w' a f = field w a f
}.

Lemma poison_run {A} q (k : unit -> W A) w :
  q ∈ w_live w -> exists w', (poison q ≫= k) w = k tt w' /\ poisoned w w' [q].
Proof.
  intros Hl. unfold poison. rewrite bind_assoc, !st_bind by done. eexists. split; [done|]. split; try done.
  - intros q' ->%list_elem_of_singleton. by w_field.
  - intros a f Ha. rewrite !field_upd_ne; [done|..]; destruct Ha as [Ha|Ha]; rewrite !not_elem_of_cons in Ha; naive_solver.
Qed.

Lemma poisoned_trans w w1 w2 qs1 qs2 :
  poisoned w w1 qs1 -> poisoned w1 w2 qs2 -> poisoned w w2 (qs1 ++ qs2).
Proof.
  intros [M1 W1 T1 F1] [M2 W2 T2 F2]. split; [congruence|congruence| |].
  - intros q Hq. destruct (decide (q ∈ qs2)); [by apply T2|]. rewrite !F2 by (by right). apply T1. set_solver.
  - intros a f Ha. rewrite F2, F1; [done|..]; destruct Ha; [by left|right; set_solver|by left|right; set_solver].
Qed.

Lemma poison_roots_run l : forall w,
  (forall i, i ∈ l -> _dispatch_root_queues i ∈ w_live w) ->
  exists w', poison_roots l w = Ret 0 w' /\ poisoned w w' (_dispatch_root_queues <$> l).
Proof.
  induction l as [|i l IH]; intros w Hl; cbn [poison_roots].
  - exists w. split; [done|]. split; try done. intros q Hq. by apply elem_of_nil in Hq.
  - destruct (poison_run (_dispatch_root_queues i) (fun _ => poison_roots l) w) as (w1 & -> & Hp); [apply Hl; set_solver|].
    pose proof (po_meta _ _ _ Hp) as Hm. injection Hm as Hlive _ _ _ _ _ _.
    destruct (IH w1) as (w2 & Hrun & Hp2); [intros j Hj; rewrite Hlive; apply Hl; set_solver|].
    exists w2. split; [done|]. by apply (poisoned_trans w w1 w2 [_] _).
Qed.

(** The queues that a child cannot use. *)
Definition static_queues : list Z := _dispatch_main_q :: (_dispatch_root_queues <$> root_indices).

Lemma atfork_run mgr_q w :
  statics ∈ w_live w -> mgr_q ∈ w_live w -> (forall q, q ∈ static_queues -> q ∈ w_live w) ->
  field w statics safe_fork = 0 ->
  exists w', dispatch_atfork_child mgr_q w = Ret 0 w' /\ poisoned w w' (_dispatch_main_q :: mgr_q :: (_dispatch_root_queues <$> root_indices)).
Proof.
  intros Hst Hm Hq Hs. unfold dispatch_atfork_child. rewrite ld_bind, Hs by done. cbn [Z.eqb negb].
  destruct (poison_run _dispatch_main_q (fun _ => poison mgr_q;; poison_roots root_indices) w) as (w1 & -> & Hp1).
  { apply Hq. unfold static_queues. set_solver. }
  pose proof (po_meta _ _ _ Hp1) as Hm1. injection Hm1 as Hl1 _ _ _ _ _ _.
  destruct (poison_run mgr_q (fun _ => poison_roots root_indices) w1) as (w2 & -> & Hp2); [by rewrite Hl1|].
  pose proof (po_meta _ _ _ Hp2) as Hm2. injection Hm2 as Hl2 _ _ _ _ _ _.
  destruct (poison_roots_run root_indices w2) as (w3 & -> & Hp3).
  { intros i Hi. rewrite Hl2, Hl1. apply Hq. unfold static_queues. apply list_elem_of_further. by apply list_elem_of_fmap_2. }
  exists w3. split; [done|]. apply (poisoned_trans w w1 w3 [_] _ Hp1). by apply (poisoned_trans w1 w2 w3 [_] _).
Qed.

(** A push on a poisoned queue goes through the marker. *)
Lemma push_poisoned client n w q x :
  q ∈ w_live w -> x ∈ w_live w -> atfork_crash ∉ w_live w -> field w q dq_items_tail = atfork_crash ->
  exists w', exec client (S n) (KPush q x x) w = Fault w'.
Proof.
  intros Hq Hx Hc Ht.
  change (exec client (S n) (KPush q x x) w) with (_dispatch_queue_push_list (exec client n) q x x w).
  unfold _dispatch_queue_push_list. w_steps. rewrite field_upd_ne, Ht by (by right). cbn [Z.eqb negb].
  eexists. by apply st_fault.
Qed.

Lemma bind_faults {A B} (m : W A) (k : A -> W B) w :
  (exists w', m w = Fault w') -> exists w', (m ≫= k) w = Fault w'.
Proof. intros [w' Hm]. exists w'. unfold mbind, M_bind. by rewrite Hm. Qed.

Section poisoned_submission.
Context (client : Z -> Z -> list api) (n : nat) (w : world) (c f : Z).
Context (Hfh : fresh_heap w) (Hcr : atfork_crash ∉ w_live w) (Hbc : atfork_crash < w_brk w) (Hck : w_cache_key w = 0).

Lemma item_crash : atfork_crash ∉ w_live (async_item w c f).
Proof. intros [Hx%elem_of_singleton|Hx]%elem_of_union; [lia|done]. Qed.
Lemma item_fresh a : a ∈ w_live w -> a <> w_brk w /\ a ∈ w_live (async_item w c f).
Proof. intros Ha. split; [intros ->; apply Hfh in Ha; lia|by apply elem_of_union_r]. Qed.
Lemma item_live : w_brk w ∈ w_live (async_item w c f).
Proof. apply elem_of_union_l. by apply elem_of_singleton. Qed.

Lemma async_poisoned q :
  q ∈ w_live w -> field w q dq_items_tail = atfork_crash ->
  exists w', exec client (S (S n)) (KAsync q c f) w = Fault w'.
Proof.
  intros Hq Ht. destruct (item_fresh q Hq) as [Hne Hl]. rewrite async_push by done.
  apply push_poisoned; [done|apply item_live|apply item_crash|]. by rewrite async_item_field.
Qed.

(** An idle serial queue is woken by the item, and the push on its root queue faults. *)
Lemma async_serial_poisoned dq i r :
  serial_idle w dq i r -> dq <> _dispatch_root_queues i -> _dispatch_root_queues i ∈ w_live w ->
  field w (_dispatch_root_queues i) dq_items_tail = atfork_crash ->
  exists w', exec client (S (S (S (S n)))) (KAsync dq c f) w = Fault w'.
Proof.
  intros [Dl D0 Dv Dw Drun Ds Dtq [Dr Drb] [Dt Dh]] Hdr Hrl Hrt. destruct (item_fresh dq Dl) as [Hne Hl].
  destruct (item_fresh _ Hrl) as [Hrne Hrl']. rewrite async_push by done. pose proof Hfh as [Hb _].
  set (w1 := async_item w c f). assert (forall g, field w1 dq g = field w dq g) as Hd1 by (intros; by apply async_item_field).
  rewrite (push_first_run client _ w1 dq r (w_brk w)); [|done|apply item_live|done|by rewrite Hd1|by rewrite Hd1|lia].
  apply bind_faults. set (w2 := upd _ dq dq_items_head (w_brk w)).
  assert (forall g, g ∉ [dq_items_tail; dq_items_head; do_ref_cnt] -> field w2 dq g = field w dq g) as Hd2.
  { intros g Hg. rewrite !not_elem_of_cons in Hg. unfold w2. rewrite !field_upd_ne; [by apply Hd1|by left|..]; right; naive_solver. }
  rewrite (wakeup_take client _ w2 dq (_dispatch_root_queues i) (ref_inc r));
    try (rewrite Hd2 by (clear; set_solver); done).
  - apply bind_faults. apply push_poisoned; [done|done|apply item_crash|].
    unfold w2. rewrite !field_upd_ne by (left; congruence). unfold w1. by rewrite async_item_field.
  - done.
  - unfold w2. w_field. lia.
  - unfold w2. by w_field.
  - unfold ref_inc. case_cmp; [by left|right; lia].
Qed.
End poisoned_submission.


(** ** Concrete values *)

Lemma init_root_ok j : j ∈ root_indices -> root_ok libdispatch_init j /\ root_idle libdispatch_init j.
Proof.
  intros Hj. split.
  - split; [done| |intros k Hk|by decide_now|..]; unfold root_indices in *; rewrite !elem_of_cons, elem_of_nil in *.
    + destruct_or! Hj; try done; subst; decide_now.
    + destruct_or! Hk; try done; subst; decide_now.
    + destruct_or! Hj; try done; subst; vm_compute; done.
    + destruct_or! Hj; try done; subst; vm_compute; done.
    + destruct_or! Hj; try done; subst; vm_compute; done.
    + destruct_or! Hj; try done; subst; vm_compute; done.
    + intros H. by vm_compute in H.
  - unfold root_indices in *. rewrite !elem_of_cons, elem_of_nil in Hj.
    destruct_or! Hj; try done; subst; split_and!; vm_compute; done.
Qed.

Lemma init_main_thread : main_thread libdispatch_init [].
Proof.
  destruct (init_root_ok 3), (init_root_ok 2); [unfold root_indices; set_solver..|].
  split; try done.
  - split; try (vm_compute; done); [by apply queue_items_nil|by intros x Hx%elem_of_nil].
  - split; [done|]. change (set_Forall (fun a => a < 65536) (w_live libdispatch_init)). decide_now.
  - intros a Ha. split; [|apply not_elem_of_nil]. revert a Ha.
    apply Forall_forall. decide_now.
Qed.

Lemma main_queue_runs_after_main_witness :
  exists w1 w2 w3,
    submit no_api 9 _dispatch_main_q [(7, 1); (8, 2)] libdispatch_init = Ret 0 w1 /\ w_log w1 = [] /\ w_work w1 = [] /\
    dispatch_main (exec no_api 9) 9 w1 = Ret 0 w2 /\ w_log w2 = w_log w1 /\
    w_work w2 = [_dispatch_root_queues 3; _dispatch_root_queues 2] /\
    run_other_thread (exec no_api 9) w2 = Ret 0 w3 /\
    w_log w3 = w_log w2 ++ [(1, 7, _dispatch_main_q); (2, 8, _dispatch_main_q)] /\
    serial_idle w3 _dispatch_main_q 3 DISPATCH_OBJECT_GLOBAL_REFCNT /\ root_ok w3 3 /\ root_idle w3 3 /\
    w_work w3 = [_dispatch_root_queues 2].
Proof.
  apply (main_queue_runs_after_main no_api libdispatch_init [(7, 1); (8, 2)] 9);
    [exact init_main_thread|by left|done| |simpl; lia].
  intros c f Hin. rewrite !elem_of_cons, elem_of_nil in Hin. split; [|done]. destruct_or! Hin; try done; simplify_eq; done.
Defined.

Lemma run_loop_drains_main_witness :
  exists w1 w2,
    (_dispatch_register_signal_handler_4QT 5;; _dispatch_register_signal_handler_4QT 6;;
     submit no_api 6 _dispatch_main_q [(7, 1); (8, 2)]) libdispatch_init = Ret 0 w1 /\
    w_log w1 = [(5, 0, _dispatch_main_q)] /\ w_work w1 = [] /\
    _dispatch_main_queue_callback_4QT (exec no_api 6) 6 w1 = Ret 0 w2 /\
    w_log w2 = w_log w1 ++ [(1, 7, _dispatch_main_q); (2, 8, _dispatch_main_q)] /\
    main_thread w2 [] /\ handler_ok no_api w2 /\ w_live w2 = w_live libdispatch_init /\
    (forall v, v <> 0 -> _dispatch_main_queue_callback_4QT (exec no_api 6) 6 (upd w1 statics main_q_is_draining v) =
       Ret 0 (upd w1 statics main_q_is_draining v)).
Proof.
  apply (run_loop_drains_main no_api libdispatch_init [(7, 1); (8, 2)] 5 6 6);
    [exact init_main_thread|vm_compute; done|vm_compute; done|done|done|done| |simpl; lia].
  intros c f Hin. rewrite !elem_of_cons, elem_of_nil in Hin. split; [|done]. destruct_or! Hin; try done; simplify_eq; done.
Defined.

(** A process whose queue 65536 has run an item, and whose manager queue is at 2816. *)
Definition fork_ex : world :=
  match (submit no_api 20 65536 [(7, 1)];; run_workers no_api 20 2) sq_create with
  | Ret _ w => set_live ({[2816]} ∪ w_live w) w
  | _ => libdispatch_init
  end.

Lemma fork_ex_idle : serial_idle fork_ex 65536 3 1.
Proof. split; [decide_now|done|vm_compute; done..|split; [vm_compute; done|by right]|vm_compute; done]. Qed.

