(* ===== verification/PoolThread.v ===== *)
(** * The threads of a root queue that has no workqueue

    Without pthread workqueues (LIBDISPATCH_DISABLE_KWQ) a root queue has a pool of threads of its
    own: a wakeup signals the mediator semaphore and, when no thread was waiting, starts one if the
    pool allows it.  Models _dispatch_worker_thread of queue.c, which such a thread runs, with its timed wait
    on the mediator. *)

From S2P Require Import Prelude DispatchObject DispatchQueue SerialQueue.
From stdpp Require Import base tactics list numbers gmap strings.
From Stdlib Require Import ZArith Lia.

Local Open Scope Z_scope.

(** ** Operations *)

Section pool.
Context (call : dcall -> W Z).
Context (others : W unit).     (* what the other threads do while this one sleeps *)
Context (loop_fuel : nat).

(** sem_timedwait: whether the semaphore was taken before the time was over. *)
Definition sem_timedwait (dsema : Z) : W bool :=
  others;;
  k ← ld dsema dsema_sem;
  if k >? 0 then st dsema dsema_sem (k - 1);; mret true else mret false.

(** _dispatch_semaphore_wait_slow with a time limit. *)
Fixpoint semaphore_timedwait_slow (fuel : nat) (dsema : Z) : W Z :=
  match fuel with
  | O => out_of_fuel
  | S n =>
      orig ← ld dsema dsema_sent_ksignals;
      if negb (orig =? 0) then st dsema dsema_sent_ksignals (orig - 1);; mret 0
      else
        ok ← sem_timedwait dsema;
        if (ok : bool) then semaphore_timedwait_slow n dsema
        else
          orig ← ld dsema dsema_value;
          if orig <? 0 then st dsema dsema_value (orig + 1);; mret (-1)
          else
            (* a signal came in between: its post is taken *)
            k ← ld dsema dsema_sem;
            if k >? 0 then st dsema dsema_sem (k - 1);; semaphore_timedwait_slow n dsema
            else out_of_fuel                (* sem_wait sleeps *)
  end.

Definition semaphore_timedwait (dsema : Z) : W Z :=
  v ← atomic_add dsema dsema_value (-1);
  if v >=? 0 then mret 0 else semaphore_timedwait_slow loop_fuel dsema.

(** The loop of _dispatch_worker_thread. *)
Fixpoint worker_thread_loop (fuel : nat) (dq qc : Z) : W Z :=
  match fuel with
  | O => out_of_fuel
  | S n =>
      call (KWorker dq);;
      m ← ld qc dgq_thread_mediator;
      r ← semaphore_timedwait m;
      if r =? 0 then worker_thread_loop n dq qc else mret 0
  end.

Definition _dispatch_worker_thread (dq : Z) : W Z :=
  qc ← ld dq do_ctxt;
  worker_thread_loop loop_fuel dq qc;;
  atomic_add qc dgq_thread_pool_size 1;;
  tail ← ld dq dq_items_tail;
  if negb (tail =? 0) then _dispatch_queue_wakeup_global call dq;; mret 0 else mret 0.

End pool.

(** The calls of a process whose root queues have thread pools. *)
Definition pool_call (client : Z -> Z -> list api) (others : W unit) (fuel : nat) (c : dcall) : W Z :=
  match c with
  | KWorker q => _dispatch_worker_thread (exec client fuel) others fuel q
  | _ => exec client fuel c
  end.

(** ** A root queue with an idle pool *)

(** Root queue [i] has no items and no workqueue; nobody waits on its mediator and [t] threads may
    be started. *)
Record pool_root (w : world) (i t : Z) : Prop := {
  pr_index : i ∈ root_indices;
  pr_live : _dispatch_root_queues i ∈ w_live w /\ _dispatch_root_queue_contexts i ∈ w_live w /\
            _dispatch_thread_mediator i ∈ w_live w /\ statics ∈ w_live w;
  pr_vtable : field w (_dispatch_root_queues i) do_vtable = _dispatch_queue_root_vtable;
  pr_refs : field w (_dispatch_root_queues i) do_ref_cnt = DISPATCH_OBJECT_GLOBAL_REFCNT;
  pr_suspend : field w (_dispatch_root_queues i) do_suspend_cnt = DISPATCH_OBJECT_SUSPEND_LOCK;
  pr_ctxt : field w (_dispatch_root_queues i) do_ctxt = _dispatch_root_queue_contexts i;
  pr_items : field w (_dispatch_root_queues i) dq_items_tail = 0 /\ field w (_dispatch_root_queues i) dq_items_head = 0;
  pr_once : field w statics once_pred <> 0;
  pr_workqueue : field w (_dispatch_root_queue_contexts i) dgq_kworkqueue = 0;
  pr_mediator : field w (_dispatch_root_queue_contexts i) dgq_thread_mediator = _dispatch_thread_mediator i;
  pr_pool : field w (_dispatch_root_queue_contexts i) dgq_thread_pool_size = t;
  pr_value : field w (_dispatch_thread_mediator i) dsema_value = 0 /\
             field w (_dispatch_thread_mediator i) dsema_sent_ksignals = 0 /\
             field w (_dispatch_thread_mediator i) dsema_sem = 0
}.

Lemma root_addr_ne i : i ∈ root_indices ->
  _dispatch_root_queues i <> _dispatch_root_queue_contexts i /\ _dispatch_root_queues i <> _dispatch_thread_mediator i /\
  _dispatch_root_queues i <> statics /\ _dispatch_root_queue_contexts i <> _dispatch_thread_mediator i /\
  _dispatch_root_queue_contexts i <> statics /\ _dispatch_thread_mediator i <> statics.
Proof.
  unfold root_indices. rewrite !elem_of_cons, elem_of_nil. intros Hi.
  unfold _dispatch_root_queues, _dispatch_root_queue_contexts, _dispatch_thread_mediator, statics. lia.
Qed.

(** The state after a submission: the item is on the list, the mediator has the signal that the
    thread will find, and a thread was taken from the pool. *)
Definition pool_requested (w : world) (i t dc : Z) : world :=
  let rq := _dispatch_root_queues i in
  set_work (w_work w ++ [rq])
    (upd (upd (upd (upd (upd (upd w dc do_next 0) rq dq_items_tail dc) rq dq_items_head dc)
       statics safe_fork 0) (_dispatch_thread_mediator i) dsema_value 1)
       (_dispatch_root_queue_contexts i) dgq_thread_pool_size (t - 1)).

Lemma push_pool_run client n w i t dc :
  pool_root w i t -> 0 < t -> dc ∈ w_live w -> dc <> 0 ->
  dc ∉ [_dispatch_root_queues i; _dispatch_root_queue_contexts i; _dispatch_thread_mediator i; statics] ->
  exec client (S (S (S n))) (KPush (_dispatch_root_queues i) dc dc) w = Ret 0 (pool_requested w i t dc).
Proof.
  intros [Hi (Hl & Hc & Hm & Hst) Hv Hr Hs Hx [Ht Hh] Ho Hk Hmd Hp (Hval & _ & _)] Ht0 Hdl Hd0 Hdn.
  pose proof (root_addr_ne i Hi) as (N1 & N2 & N3 & N4 & N5 & N6). pose proof (root_not_main i Hi) as Hnm. unfold pool_requested.
  set (rq := _dispatch_root_queues i) in *. set (qc := _dispatch_root_queue_contexts i) in *. set (md := _dispatch_thread_mediator i) in *.
  rewrite !not_elem_of_cons in Hdn. destruct Hdn as (M1 & M2 & M3 & M4 & _).
  change (exec client (S (S (S n))) (KPush rq dc dc) w) with (_dispatch_queue_push_list (exec client (S (S n))) rq dc dc w).
  unfold _dispatch_queue_push_list. w_steps. w_field. rewrite Ht. cbn [Z.eqb negb].
  unfold _dispatch_queue_push_list_slow, _dispatch_retain. w_steps. w_field. rewrite Hr, Z.eqb_refl. w_steps.
  change (exec client (S (S n)) (KWakeup rq)) with (_dispatch_wakeup (exec client (S n)) rq).
  unfold _dispatch_wakeup, DISPATCH_OBJECT_SUSPENDED, dx_probe, _dispatch_trylock. w_steps. w_field.
  rewrite Hs. change (DISPATCH_OBJECT_SUSPEND_LOCK >=? _) with false. cbv iota. w_steps. w_field. rewrite Hv.
  change (_dispatch_queue_root_vtable =? _dispatch_queue_vtable) with false.
  change (_dispatch_queue_root_vtable =? _dispatch_queue_root_vtable) with true. cbv iota.
  rewrite Hnm. unfold _dispatch_queue_wakeup_global. w_steps. w_field. rewrite (proj2 (Z.eqb_neq dc 0) Hd0). w_steps. w_field.
  rewrite (proj2 (Z.eqb_neq _ 0) Ho). rewrite ret_bind, Hx. fold qc. w_steps. w_field. rewrite Hk. cbn [Z.eqb negb]. w_steps.
  w_field. rewrite Hmd. fold md.
  change (exec client (S n) (KSemaSignal md)) with (dispatch_semaphore_signal (exec client n) md).
  unfold dispatch_semaphore_signal. w_steps. w_field. rewrite Hval. change (s64 (0 + 1)) with 1. cbn [Z.gtb Z.compare]. cbv iota. w_steps.
  cbn [Z.eqb negb]. unfold pool_thread_create. w_steps. w_field. rewrite Hp.
  rewrite (proj2 (Z.eqb_neq t 0)) by lia. w_steps. w_field. rewrite (proj2 (Z.eqb_neq dc 0) Hd0). cbn [negb andb]. w_steps. w_field.
  rewrite Hs. change (DISPATCH_OBJECT_SUSPEND_LOCK =? 0) with false. cbn [negb]. w_steps.
  change (exec client (S (S n)) (KRelease rq)) with (_dispatch_release (exec client (S n)) rq).
  unfold _dispatch_release. w_steps. w_field. by rewrite Hr, Z.eqb_refl.
Qed.

(** ** A turn of the thread *)

(** What a turn leaves alone. *)
Record turn (w w' : world) (rq : Z) (entries : list (Z * Z * Z)) (freed : gset Z) : Prop := {
  tn_log : w_log w' = w_log w ++ entries;
  tn_live : w_live w' = w_live w ∖ freed;
  tn_keys : (w_queue_key w', w_sema4_key w', w_cache_key w') = (w_queue_key w, w_sema4_key w, w_cache_key w);
  tn_rest : (w_work w', w_brk w') = (w_work w, w_brk w);
  tn_items : field w' rq dq_items_tail = 0 /\ field w' rq dq_items_head = 0;
  tn_field : forall a f, f ∉ [dgq_pending; do_next; dq_items_tail; dq_items_head] -> field w' a f = field w a f
}.

Section turns.
Context (client : Z -> Z -> list api) (n : nat) (w : world) (rq qc : Z).
Context (Hl : rq ∈ w_live w) (Hc : qc ∈ w_live w) (Hne : rq <> qc).
Context (Hctx : field w rq do_ctxt = qc) (Hq : w_queue_key w = 0) (Hk : w_cache_key w = 0).

Lemma worker_none :
  field w rq dq_items_head = 0 -> field w rq dq_items_tail = 0 ->
  exists w', exec client (S (S n)) (KWorker rq) w = Ret 0 w' /\ turn w w' rq [] ∅.
Proof.
  intros Hh Ht. change (exec client (S (S n)) (KWorker rq) w) with (_dispatch_worker_thread2 (exec client (S n)) (S n) rq w).
  unfold _dispatch_worker_thread2. w_steps. rewrite Hctx, Hq. cbn [Z.eqb negb]. w_steps.
  cbn [worker_loop]. rewrite bind_assoc. erewrite bind_step by (apply drain_one_empty; [done|by w_field]).
  cbn [Z.eqb]. rewrite ret_bind, modify_bind. unfold _dispatch_force_cache_cleanup. rewrite gets_bind. simpl. rewrite Hk. cbn [Z.eqb negb].
  eexists. split; [done|]. split; simpl; try done.
  - by rewrite app_nil_r.
  - apply leibniz_equiv. set_solver.
  - by rewrite Hq, Hk.
  - w_field. done.
  - intros a f Hf. rewrite !not_elem_of_cons in Hf. rewrite field_queue_key, !field_upd_ne by (right; naive_solver). done.
Qed.

Lemma worker_one dc :
  field w rq dq_items_head = dc -> field w rq dq_items_tail = dc -> field w dc do_next = 0 ->
  leaf_item client rq w dc -> dc ∈ w_live w -> dc <> 0 -> dc <> mediator ->
  exists w', exec client (S (S (S (S n)))) (KWorker rq) w = Ret 0 w' /\
    turn w w' rq [(field w dc dc_func, field w dc dc_ctxt, rq)] {[dc]}.
Proof.
  intros Hh Ht Hn Hleaf Hdl Hd0 Hdm. pose proof Hleaf as [Hdr _].
  change (exec client (S (S (S (S n)))) (KWorker rq) w) with
    (_dispatch_worker_thread2 (exec client (S (S (S n)))) (S (S (S n))) rq w).
  unfold _dispatch_worker_thread2. w_steps. rewrite Hctx, Hq. cbn [Z.eqb negb]. w_steps. set (w1 := upd _ qc dgq_pending 0).
  assert (forall a f, f <> dgq_pending -> field w1 a f = field w a f) as Hw1.
  { intros a f Hf. unfold w1. rewrite field_upd_ne by (right; congruence). done. }
  cbn [worker_loop]. rewrite bind_assoc.
  erewrite bind_step by (apply (drain_one_last _ w1 rq dc); try done; rewrite ?Hw1 by done; done).
  rewrite (proj2 (Z.eqb_neq dc 0) Hd0). set (w2 := upd (upd w1 rq dq_items_head 0) rq dq_items_tail 0).
  assert (forall f, f <> dgq_pending -> field w2 dc f = field w dc f) as Hd2.
  { intros f Hf. unfold w2. rewrite !field_upd_ne by (left; congruence). by apply Hw1. }
  rewrite bind_assoc. erewrite bind_step.
  2: { apply (pop_leaf client rq (S n) w2 dc); [|done]. destruct Hleaf as (? & ? & ? & ?). unfold leaf_item. by rewrite !Hd2. }
  cbn [worker_loop]. rewrite bind_assoc.
  erewrite bind_step by (apply drain_one_empty; [done|]; unfold w2; by w_field).
  cbn [Z.eqb]. rewrite ret_bind, modify_bind. set (w3 := set_queue_key 0 _).
  rewrite (cache_cleanup_run _ w3 [dc]).
  - eexists. split; [done|]. split; try done.
    + simpl. rewrite !Hd2 by done. done.
    + simpl. apply leibniz_equiv. set_solver.
    + simpl. by rewrite Hq, Hk.
    + change (field w3 rq dq_items_tail = 0 /\ field w3 rq dq_items_head = 0). unfold w3, w2. w_field. done.
    + intros a f Hf. rewrite !not_elem_of_cons in Hf.
      change (field w3 a f = field w a f). unfold w3, w2. destruct Hf as (? & ? & ? & ? & _). w_field. by apply Hw1.
  - unfold w3. simpl. split_and!; try done. w_field. done.
  - apply NoDup_singleton.
  - simpl. lia.
Qed.
End turns.

(** ** The life of a thread *)

Lemma timedwait_take others fuel w md v :
  md ∈ w_live w -> field w md dsema_value = v -> 0 < v < 2 ^ 62 ->
  semaphore_timedwait others fuel md w = Ret 0 (upd w md dsema_value (v - 1)).
Proof.
  intros Hl Hv Hb. unfold semaphore_timedwait. w_steps. rewrite Hv. change (v + -1) with (v - 1). wrap.
  rewrite (proj2 (Z.geb_le _ _)) by lia. done.
Qed.

Lemma timedwait_timeout fuel w md :
  md ∈ w_live w -> field w md dsema_value = 0 -> field w md dsema_sent_ksignals = 0 -> field w md dsema_sem = 0 ->
  semaphore_timedwait (mret tt) (S fuel) md w = Ret (-1) (upd w md dsema_value 0).
Proof.
  intros Hl Hv Hs Hk. unfold semaphore_timedwait. w_steps. rewrite Hv. change (s64 (0 + -1)) with (-1).
  cbn [Z.geb Z.compare]. cbv iota. cbn [semaphore_timedwait_slow]. w_steps. w_field. rewrite Hs. cbn [Z.eqb negb].
  unfold sem_timedwait. rewrite bind_assoc, ret_bind, bind_assoc, ld_bind by done. w_field. rewrite Hk. cbn [Z.gtb Z.compare]. cbv iota.
  rewrite ret_bind, ld_bind by done. w_field. cbn [Z.ltb Z.compare]. cbv iota. w_steps. by rewrite upd_upd.
Qed.

Definition pool_addrs (i : Z) : list Z :=
  [_dispatch_root_queues i; _dispatch_root_queue_contexts i; _dispatch_thread_mediator i; statics].
(** The words that a submission and the thread that serves it change. *)
Definition pool_words : list fld :=
  [dgq_pending; do_next; dq_items_tail; dq_items_head; dsema_value; dgq_thread_pool_size; safe_fork].

Lemma pool_root_frame w w' i t :
  pool_root w i t -> (forall a, a ∈ pool_addrs i -> a ∈ w_live w') ->
  (forall a f, a ∈ pool_addrs i -> f ∉ pool_words -> field w' a f = field w a f) ->
  field w' (_dispatch_root_queues i) dq_items_tail = 0 -> field w' (_dispatch_root_queues i) dq_items_head = 0 ->
  field w' (_dispatch_thread_mediator i) dsema_value = 0 ->
  field w' (_dispatch_root_queue_contexts i) dgq_thread_pool_size = t -> pool_root w' i t.
Proof.
  intros [Hi _ Hv Hr Hs Hx _ Ho Hk Hmd _ (_ & Hsent & Hsem)] Hl Hf Ht Hh Hval Hp.
  split; rewrite ?Hf by (clear; unfold pool_addrs, pool_words; set_solver); try done.
  - split_and!; apply Hl; clear; unfold pool_addrs; set_solver.
  - rewrite (Hf _ dsema_sent_ksignals), (Hf _ dsema_sem) by (clear; unfold pool_addrs, pool_words; set_solver). done.
Qed.

Section serve.
Context (client : Z -> Z -> list api) (n : nat) (i t : Z).
Let rq := _dispatch_root_queues i.
Let qc := _dispatch_root_queue_contexts i.
Let md := _dispatch_thread_mediator i.

(** The loop of a thread that starts on a root queue with one item: it runs the item, finds the
    signal of the submission, finds no further item, and waits until its time is over. *)
Lemma worker_thread_loop_run w m fuel dc :
  (forall a, a ∈ pool_addrs i -> a ∈ w_live w) -> i ∈ root_indices -> dc ∉ pool_addrs i ->
  dc ∈ w_live w -> dc <> 0 -> dc <> mediator ->
  field w rq do_ctxt = qc -> field w qc dgq_thread_mediator = md ->
  field w rq dq_items_head = dc -> field w rq dq_items_tail = dc -> field w dc do_next = 0 ->
  leaf_item client rq w dc -> field w md dsema_value = 1 -> field w md dsema_sent_ksignals = 0 -> field w md dsema_sem = 0 ->
  w_queue_key w = 0 -> w_cache_key w = 0 ->
  exists w', worker_thread_loop (exec client (S (S (S (S n))))) (mret tt) (S fuel) (S (S m)) rq qc w = Ret 0 w' /\
    w_log w' = w_log w ++ [(field w dc dc_func, field w dc dc_ctxt, rq)] /\
    w_live w' = w_live w ∖ {[dc]} /\ (w_work w', w_brk w') = (w_work w, w_brk w) /\
    field w' rq dq_items_tail = 0 /\ field w' rq dq_items_head = 0 /\ field w' md dsema_value = 0 /\
    (forall a f, f ∉ [dgq_pending; do_next; dq_items_tail; dq_items_head; dsema_value] -> field w' a f = field w a f).
Proof.
  intros Hl Hi Hdn Hdl Hd0 Hdm Hx Hmd Hh Ht Hn Hleaf Hval Hsent Hsem Hqk Hck.
  pose proof (root_addr_ne i Hi) as (N1 & N2 & N3 & N4 & N5 & N6). fold rq qc md in N1, N2, N3, N4, N5, N6.
  assert (rq ∈ pool_addrs i /\ qc ∈ pool_addrs i /\ md ∈ pool_addrs i) as (A1 & A2 & A3)
    by (clear; unfold pool_addrs; set_solver).
  assert (forall a, a ∈ pool_addrs i -> a ∈ w_live w ∖ {[dc]}) as Hl'.
  { intros a Ha. apply elem_of_difference. split; [by apply Hl|]. rewrite elem_of_singleton. by intros ->. }
  destruct (worker_one client n w rq qc) with dc as (w1 & Hr1 & [T1l T1v T1k T1r [T1t T1h] T1f]); auto.
  cbn [worker_thread_loop]. erewrite bind_step by exact Hr1.
  rewrite ld_bind by (rewrite T1v; auto). rewrite T1f, Hmd by (clear; set_solver).
  erewrite bind_step by (apply (timedwait_take _ _ w1 md 1); [rewrite T1v; auto|rewrite T1f by (clear; set_solver); done|lia]).
  cbn [Z.eqb]. change (1 - 1) with 0. set (w2 := upd w1 md dsema_value 0).
  assert (forall a f, f <> dsema_value -> field w2 a f = field w1 a f) as Hw2 by (intros; apply field_upd_ne; right; congruence).
  injection T1k as K1q K1s K1c.
  destruct (worker_none client (S (S n)) w2 rq qc) as (w3 & Hr3 & [T3l T3v T3k T3r [T3t T3h] T3f]); try (rewrite Hw2 by done; done).
  { change (rq ∈ w_live w1). rewrite T1v. auto. }
  { change (qc ∈ w_live w1). rewrite T1v. auto. }
  { done. }
  { rewrite Hw2, T1f by (done || (clear; set_solver)). done. }
  { change (w_queue_key w1 = 0). congruence. }
  { change (w_cache_key w1 = 0). congruence. }
  erewrite bind_step by exact Hr3. rewrite difference_empty_L in T3v. change (w_live w2) with (w_live w1) in T3v. rewrite T1v in T3v.
  rewrite ld_bind by (rewrite T3v; auto).
  assert (forall a f, f ∉ [dgq_pending; do_next; dq_items_tail; dq_items_head; dsema_value] -> field w3 a f = field w a f) as Hf3.
  { intros a f Hf. rewrite !not_elem_of_cons in Hf. rewrite T3f, Hw2, T1f; [done|..]; rewrite ?not_elem_of_cons; naive_solver. }
  rewrite Hf3, Hmd by (clear; set_solver).
  erewrite bind_step.
  2: { apply timedwait_timeout; [rewrite T3v; by auto|..].
       - rewrite T3f by (clear; set_solver). unfold w2. by w_field.
       - rewrite Hf3 by (clear; set_solver). done.
       - rewrite Hf3 by (clear; set_solver). done. }
  cbn [Z.eqb]. eexists. split; [done|]. split_and!.
  - simpl. rewrite T3l, app_nil_r. simpl. by rewrite T1l.
  - done.
  - simpl. simpl in T3r. congruence.
  - w_field. done.
  - w_field. done.
  - by w_field.
  - intros a f Hf. rewrite field_upd_ne; [by apply Hf3|]. rewrite !not_elem_of_cons in Hf. right. naive_solver.
Qed.

(** The thread gives itself back to the pool. *)
Lemma worker_thread_run w0 w dc :
  pool_root w0 i t -> 0 < t <= MAX_THREAD_COUNT ->
  (forall a, a ∈ pool_addrs i -> a ∈ w_live w) -> dc ∉ pool_addrs i -> dc ∈ w_live w -> dc <> 0 -> dc <> mediator ->
  (forall a f, a ∈ pool_addrs i -> f ∉ pool_words -> field w a f = field w0 a f) ->
  field w rq dq_items_head = dc -> field w rq dq_items_tail = dc -> field w dc do_next = 0 ->
  leaf_item client rq w dc -> field w md dsema_value = 1 -> field w qc dgq_thread_pool_size = t - 1 ->
  w_queue_key w = 0 -> w_cache_key w = 0 ->
  exists w', _dispatch_worker_thread (exec client (S (S (S (S n))))) (mret tt) (S (S (S (S n)))) rq w = Ret 0 w' /\
    pool_root w' i t /\ w_log w' = w_log w ++ [(field w dc dc_func, field w dc dc_ctxt, rq)] /\
    w_live w' = w_live w ∖ {[dc]} /\ (w_work w', w_brk w') = (w_work w, w_brk w).
Proof.
  intros Hpr Htb Hl Hdn Hdl Hd0 Hdm Hf Hh Ht Hn Hleaf Hval Hps Hqk Hck.
  pose proof Hpr as [Hi _ _ _ _ Hx _ _ _ Hmd _ (_ & Hsent & Hsem)]. fold rq qc md in Hx, Hmd, Hsent, Hsem.
  pose proof (root_addr_ne i Hi) as (N1 & N2 & N3 & N4 & N5 & N6). fold rq qc md in N1, N2, N3, N4, N5, N6.
  assert (rq ∈ pool_addrs i /\ qc ∈ pool_addrs i /\ md ∈ pool_addrs i) as (A1 & A2 & A3)
    by (clear; unfold pool_addrs; set_solver).
  assert (field w rq do_ctxt = qc) as Hxw by (rewrite Hf; [done|done|clear; unfold pool_words; set_solver]).
  destruct (worker_thread_loop_run w (S (S n)) (S (S (S n))) dc) as (w1 & Hrun & Hlog & Hlive & Hrest & Ht1 & Hh1 & Hv1 & Hf1);
    try done; try (rewrite Hf; [done|done|clear; unfold pool_words; set_solver]).
  assert (forall a, a ∈ pool_addrs i -> a ∈ w_live w1) as Hl1.
  { intros a Ha. rewrite Hlive. apply elem_of_difference. split; [by apply Hl|]. rewrite elem_of_singleton. by intros ->. }
  unfold _dispatch_worker_thread. rewrite ld_bind, Hxw by auto. erewrite bind_step by exact Hrun.
  rewrite atomic_add_bind by auto. rewrite Hf1, Hps by (clear; set_solver).
  replace (s64 (t - 1 + 1)) with t by (unfold MAX_THREAD_COUNT in Htb; wrap; lia).
  rewrite ld_bind by (simpl; auto). w_field. rewrite Ht1. cbn [Z.eqb negb].
  eexists. split; [done|]. split_and!; try done. apply (pool_root_frame w0); try done; fold rq md qc; try (w_field; done).
  intros a f Ha Hp. assert (f <> dgq_thread_pool_size) by (intros ->; apply Hp; clear; unfold pool_words; set_solver).
  w_field. rewrite Hf1; [by apply Hf|]. revert Hp. clear. unfold pool_words. set_solver.
Qed.
End serve.

(** C31: without workqueues a submission to an idle root queue takes one thread from the pool; that thread runs the
    work exactly once on the root queue, waits for more until its time is over, and goes back to
    the pool: afterwards the pool, the mediator, the queue and the heap are as before, so that no
    thread is ever lost. *)
Theorem pool_thread_serves client w i t c f n :
  pool_root w i t -> 0 < t <= MAX_THREAD_COUNT -> fresh_heap w -> w_brk w < mediator -> w_cache_key w = 0 -> w_work w = [] ->
  0 < f -> client f c = [] ->
  exists w1 w2,
    exec client (S (S (S (S n)))) (KAsync (_dispatch_root_queues i) c f) w = Ret 0 w1 /\
    field w1 (_dispatch_root_queue_contexts i) dgq_thread_pool_size = t - 1 /\
    w_work w1 = [_dispatch_root_queues i] /\ w_log w1 = w_log w /\
    run_other_thread (pool_call client (mret tt) (S (S (S (S n))))) w1 = Ret 0 w2 /\
    w_log w2 = w_log w ++ [(f, c, _dispatch_root_queues i)] /\
    pool_root w2 i t /\ w_work w2 = [] /\ w_live w2 = w_live w /\
    (w_queue_key w2, w_sema4_key w2, w_cache_key w2) = (w_queue_key w, w_sema4_key w, w_cache_key w).
Proof.
  intros Hpr Ht [Hb Hh] Hbm Hc Hwk Hf Hcl. rewrite async_push by done. pose proof Hpr as [Hi (Hl & Hcx & Hm & Hst) _ _ _ _ _ _ _ _ Hp _].
  pose proof (root_addr_ne i Hi) as (N1 & N2 & N3 & N4 & N5 & N6).
  set (dc := w_brk w). set (w0 := async_item w c f).
  assert (forall a, a ∈ pool_addrs i -> a ∈ w_live w) as Hpl.
  { intros a Ha. unfold pool_addrs in Ha. rewrite !elem_of_cons, elem_of_nil in Ha. destruct_or! Ha; by subst. }
  assert (dc ∉ pool_addrs i) as Hdn by (intros Hd%Hpl; apply Hh in Hd; unfold dc in Hd; lia).
  assert (forall a, a ∈ pool_addrs i -> a <> dc) as Hne by (intros a Ha ->; done).
  assert (forall a g, a ∈ pool_addrs i -> field w0 a g = field w a g) as Hw0 by (intros; apply async_item_field; by apply Hne).
  assert (forall a, a ∈ pool_addrs i -> a ∈ w_live w0) as Hl0 by (intros a Ha; apply elem_of_union_r; by apply Hpl).
  assert (dc ∈ w_live w0) as Hdl by (apply elem_of_union_l; by apply elem_of_singleton).
  assert (_dispatch_root_queues i ∈ pool_addrs i /\ _dispatch_root_queue_contexts i ∈ pool_addrs i /\
    _dispatch_thread_mediator i ∈ pool_addrs i /\ statics ∈ pool_addrs i) as (A1 & A2 & A3 & A4) by (clear; unfold pool_addrs; set_solver).
  pose proof (Hne _ A1). pose proof (Hne _ A2). pose proof (Hne _ A3). pose proof (Hne _ A4).
  assert (pool_root w0 i t) as Hpr0.
  { destruct Hpr. apply (pool_root_frame w); try done; [by intros; apply Hw0|..]; rewrite Hw0 by done; naive_solver. }
  rewrite (push_pool_run client n w0 i t dc) by (done || (unfold dc; lia)).
  set (w1 := pool_requested w0 i t dc).
  assert (w_work w1 = [_dispatch_root_queues i]) as Hwk1 by (unfold w1, pool_requested; simpl; by rewrite Hwk).
  set (w2 := set_cache_key 0 (set_sema4_key 0 (set_queue_key 0 (set_work [] w1)))).
  assert (forall g, field w2 dc g = if decide (g = do_next) then 0 else field w0 dc g) as Hdc.
  { intros g. unfold w2, w1, pool_requested. change (field (set_cache_key ?a ?x) dc g) with (field x dc g).
    change (field (set_sema4_key ?a ?x) dc g) with (field x dc g). w_field. rewrite field_upd. repeat case_decide; naive_solver. }
  destruct (worker_thread_run client n i t w0 w2 dc) as (w3 & Hrun & Hpr3 & Hlog3 & Hlive3 & Hrest3); try done.
  all: try (unfold w2, w1, pool_requested; change (field (set_cache_key ?a ?x)) with (field x);
    change (field (set_sema4_key ?a ?x)) with (field x); w_field; done).
  { unfold dc. lia. }
  { unfold dc. lia. }
  { intros a g Ha Hg. unfold pool_words in Hg. rewrite !not_elem_of_cons in Hg. destruct Hg as (? & ? & ? & ? & ? & ? & ? & _).
    unfold w2, w1, pool_requested. change (field (set_cache_key ?a ?x)) with (field x).
    change (field (set_sema4_key ?a ?x)) with (field x). w_field. done. }
  { split; [done|]. rewrite !Hdc. rewrite !decide_False by done. unfold w0, async_item. w_field. done. }
  rewrite !Hdc, !decide_False in Hlog3 by done. unfold w0, async_item in Hlog3. fold dc in Hlog3.
  rewrite !(field_upd_ne _ _ dc_ctxt) in Hlog3 by (by right). rewrite !field_upd_eq in Hlog3.
  exists w1, (set_cache_key (w_cache_key w) (set_sema4_key (w_sema4_key w) (set_queue_key (w_queue_key w) w3))).
  injection Hrest3 as Hwk3 Hbrk3. split_and!; try done.
  - unfold w1, pool_requested. by w_field.
  - unfold run_other_thread. w_steps. rewrite Hwk1. w_steps. fold w2.
    erewrite bind_step by exact Hrun. w_steps. done.
  - destruct Hpr3. split; done.
  - simpl. rewrite Hlive3. apply leibniz_equiv. simpl. fold dc. assert (dc ∉ w_live w) by (intros Hd%Hh; unfold dc in Hd; lia). set_solver.
Qed.

(** ** Concrete values *)

(** The library after _dispatch_root_queues_init with LIBDISPATCH_DISABLE_KWQ: no root queue has a workqueue. *)
Definition pool_ex : world := upd libdispatch_init statics once_pred (-1).

Lemma pool_ex_root : pool_root pool_ex 2 MAX_THREAD_COUNT.
Proof. split; try (vm_compute; done). decide_now. Qed.

Lemma pool_thread_serves_witness :
  exists w1 w2,
    exec no_api 4 (KAsync (_dispatch_root_queues 2) 7 1) pool_ex = Ret 0 w1 /\
    field w1 (_dispatch_root_queue_contexts 2) dgq_thread_pool_size = 254 /\
    w_work w1 = [_dispatch_root_queues 2] /\ w_log w1 = [] /\
    run_other_thread (pool_call no_api (mret tt) 4) w1 = Ret 0 w2 /\
    w_log w2 = [(1, 7, _dispatch_root_queues 2)] /\
    pool_root w2 2 MAX_THREAD_COUNT /\ w_work w2 = [] /\ w_live w2 = w_live pool_ex /\
    (w_queue_key w2, w_sema4_key w2, w_cache_key w2) = (_dispatch_main_q, 0, 0).
Proof.
  apply (pool_thread_serves no_api pool_ex 2 MAX_THREAD_COUNT 7 1 0); try done; [exact pool_ex_root|].
  split; [done|]. change (set_Forall (fun a => a < 65536) (w_live pool_ex)). decide_now.
Defined.
