(* ===== verification/Workqueue.v ===== *)
(** * POSIX workqueues: attributes, item lists, overcommit workers

    Models api.c and the shared and overcommit parts of posix/manager.c of libpthread_workqueue.  A
    workqueue is the list of its items; the arrays ocwq and wqlist map a priority to a workqueue, and
    their masks have a bit for every non-empty one.  Everything a thread does while it holds ocwq_mtx
    is one step.  A waiter can wake at any time: pthread_cond_timedwait returns when it is
    signalled, when it times out, or spuriously. *)

From S2P Require Import Prelude.
From stdpp Require Import base tactics list numbers gmap strings.
From Stdlib Require Import ZArith Lia.

Local Open Scope Z_scope.

(** ** Attributes and creation *)

Definition WORKQ_HIGH_PRIOQUEUE : Z := 0.
Definition WORKQ_DEFAULT_PRIOQUEUE : Z := 1.
Definition WORKQ_LOW_PRIOQUEUE : Z := 2.
Definition WORKQ_BG_PRIOQUEUE : Z := 3.
Definition WORKQ_NUM_PRIOQUEUE : Z := 4.
Definition PTHREAD_WORKQUEUE_SIG : Z := 0xBEBEBEBE.
Definition PTHREAD_WORKQUEUE_ATTR_SIG : Z := 0xBEBEBEBE.
Definition EINVAL : Z := 22.
Definition ENOMEM : Z := 12.

Record pthread_workqueue_attr := WqAttr { attr_sig : Z; attr_queueprio : Z; attr_overcommit : Z }.

Definition pthread_workqueue_attr_init_np (attr : pthread_workqueue_attr) : Z * pthread_workqueue_attr :=
  (0, WqAttr PTHREAD_WORKQUEUE_ATTR_SIG WORKQ_DEFAULT_PRIOQUEUE 0).
Definition pthread_workqueue_attr_destroy_np (attr : pthread_workqueue_attr) : Z :=
  if attr_sig attr =? PTHREAD_WORKQUEUE_ATTR_SIG then 0 else EINVAL.
(** The getters store through a pointer only when they return 0. *)
Definition pthread_workqueue_attr_getovercommit_np (attr : pthread_workqueue_attr) : Z * option Z :=
  if attr_sig attr =? PTHREAD_WORKQUEUE_ATTR_SIG then (0, Some (attr_overcommit attr)) else (EINVAL, None).
Definition pthread_workqueue_attr_setovercommit_np (attr : pthread_workqueue_attr) (ocomm : Z) :
    Z * pthread_workqueue_attr :=
  if attr_sig attr =? PTHREAD_WORKQUEUE_ATTR_SIG then (0, WqAttr (attr_sig attr) (attr_queueprio attr) ocomm)
  else (EINVAL, attr).
Definition pthread_workqueue_attr_getqueuepriority_np (attr : pthread_workqueue_attr) : Z * option Z :=
  if attr_sig attr =? PTHREAD_WORKQUEUE_ATTR_SIG then (0, Some (attr_queueprio attr)) else (EINVAL, None).
Definition pthread_workqueue_attr_setqueuepriority_np (attr : pthread_workqueue_attr) (qprio : Z) :
    Z * pthread_workqueue_attr :=
  if attr_sig attr =? PTHREAD_WORKQUEUE_ATTR_SIG then
    if (qprio =? WORKQ_HIGH_PRIOQUEUE) || (qprio =? WORKQ_DEFAULT_PRIOQUEUE) ||
       (qprio =? WORKQ_LOW_PRIOQUEUE) || (qprio =? WORKQ_BG_PRIOQUEUE)
    then (0, WqAttr (attr_sig attr) qprio (attr_overcommit attr)) else (EINVAL, attr)
  else (EINVAL, attr).

(** struct _pthread_workqueue; its item list is kept with the array it is in. *)
Record workqueue := WorkQ { wq_sig : Z; wq_queueprio : Z; wq_overcommit : Z }.

(** What pthread_workqueue_create_np fills in before manager_workqueue_create; [mem] is false when calloc
    fails. *)
Definition pthread_workqueue_create_np (attr : option pthread_workqueue_attr) (mem : bool) : Z * option workqueue :=
  let bad := match attr with
             | Some a => negb (attr_sig a =? PTHREAD_WORKQUEUE_ATTR_SIG) ||
                         (attr_queueprio a <? 0) || (attr_queueprio a >=? WORKQ_NUM_PRIOQUEUE)
             | None => false
             end in
  if (bad : bool) then (EINVAL, None)
  else if negb mem then (ENOMEM, None)
  else match attr with
       | None => (0, Some (WorkQ PTHREAD_WORKQUEUE_SIG WORKQ_DEFAULT_PRIOQUEUE 0))
       | Some a => (0, Some (WorkQ PTHREAD_WORKQUEUE_SIG (attr_queueprio a) (attr_overcommit a)))
       end.

Definition valid_workq (workq : workqueue) : bool := wq_sig workq =? PTHREAD_WORKQUEUE_SIG.

(** ** Item lists and masks *)

(** struct work: function and argument; a null function asks a worker to exit. *)
Notation work := (Z * Z)%type.
(** ocwq or wqlist: the items of the workqueues that exist. *)
Notation queues := (gmap nat (list work)).

Definition wqlist_index_bit (idx : nat) : Z := Z.shiftl 1 (Z.of_nat idx).

(** ffs: one more than the lowest bit that is set, 0 if there is none. *)
Fixpoint ffs_from (fuel i : nat) (mask : Z) : nat :=
  match fuel with
  | O => 0
  | S n => if Z.testbit mask (Z.of_nat i) then S i else ffs_from n (S i) mask
  end.
Definition ffs (mask : Z) : nat := ffs_from 32 0 mask.

(** mask & ~bit; under the lock of the queue the loop around it is left after one turn. *)
Definition reset_queue_mask (mask : Z) (idx : nat) : Z := Z.land mask (Z.lnot (wqlist_index_bit idx)).

(** The removal of the first item, with the mask. *)
Definition remove_head (idx : nat) (qs : queues) (mask : Z) : option (work * queues * Z) :=
  match qs !! idx with
  | Some (w :: l) =>
      Some (w, <[idx:=l]> qs, match l with [] => reset_queue_mask mask idx | _ => mask end)
  | _ => None
  end.

(** The manager's table of workqueues; it aborts when the priority is taken. *)
Definition manager_workqueue_create (workq : workqueue) (oc wql : queues) : option (queues * queues) :=
  let prio := Z.to_nat (wq_queueprio workq) in
  if negb (wq_overcommit workq =? 0) then
    match oc !! prio with None => Some (<[prio:=[]]> oc, wql) | Some _ => None end
  else
    match wql !! prio with None => Some (oc, <[prio:=[]]> wql) | Some _ => None end.

(** A mask that describes its array. *)
Definition mask_ok (qs : queues) (mask : Z) : Prop :=
  0 <= mask /\ (forall i, Z.testbit mask (Z.of_nat i) = true <-> exists w l, qs !! i = Some (w :: l)).
Definition queues_ok (qs : queues) : Prop := forall i l, qs !! i = Some l -> (i < 4)%nat.

Lemma bit_testbit idx i : Z.testbit (wqlist_index_bit idx) (Z.of_nat i) = bool_decide (i = idx).
Proof.
  unfold wqlist_index_bit. rewrite Z.shiftl_1_l. case_bool_decide as H.
  - subst. apply Z.pow2_bits_true. lia.
  - apply Z.pow2_bits_false. lia.
Qed.

Lemma mask_reset qs mask idx w :
  mask_ok qs mask -> qs !! idx = Some [w] -> mask_ok (<[idx:=[]]> qs) (reset_queue_mask mask idx).
Proof.
  intros [H0 Hm] Hi. unfold reset_queue_mask. split.
  - apply Z.land_nonneg. by left.
  - intros i. rewrite Z.land_spec, Z.lnot_spec, bit_testbit by lia. case_bool_decide as Hd; simpl.
    + subst. rewrite andb_false_r, lookup_insert_eq. naive_solver.
    + rewrite andb_true_r, lookup_insert_ne by done. apply Hm.
Qed.
Lemma mask_shrink qs mask idx w w' l :
  mask_ok qs mask -> qs !! idx = Some (w :: w' :: l) -> mask_ok (<[idx:=w' :: l]> qs) mask.
Proof.
  intros [H0 Hm] Hi. split; [done|]. intros i. rewrite Hm. destruct (decide (i = idx)) as [->|].
  - rewrite lookup_insert_eq, Hi. naive_solver.
  - by rewrite lookup_insert_ne.
Qed.
Lemma mask_set qs mask idx l w :
  mask_ok qs mask -> mask_ok (<[idx:=l ++ [w]]> qs) (Z.lor mask (wqlist_index_bit idx)).
Proof.
  intros [H0 Hm]. split.
  - apply Z.lor_nonneg. split; [done|]. unfold wqlist_index_bit. apply Z.shiftl_nonneg. lia.
  - intros i. rewrite Z.lor_spec, bit_testbit, orb_true_iff, bool_decide_eq_true, Hm.
    destruct (decide (i = idx)) as [->|].
    + rewrite lookup_insert_eq. split; [|naive_solver]. intros _. destruct l; simpl; eauto.
    + rewrite lookup_insert_ne by done. naive_solver.
Qed.
(** Appending to a queue that is not empty needs no change of the mask. *)
Lemma mask_keep qs mask idx v l w :
  mask_ok qs mask -> qs !! idx = Some (v :: l) -> mask_ok (<[idx:=(v :: l) ++ [w]]> qs) mask.
Proof.
  intros [H0 Hm] Hi. split; [done|]. intros i. rewrite Hm. destruct (decide (i = idx)) as [->|].
  - rewrite lookup_insert_eq, Hi. simpl. naive_solver.
  - by rewrite lookup_insert_ne.
Qed.

Lemma remove_head_inv idx qs mask w qs' mask' :
  remove_head idx qs mask = Some (w, qs', mask') -> mask_ok qs mask ->
  exists l, qs !! idx = Some (w :: l) /\ qs' = <[idx:=l]> qs /\ mask_ok qs' mask'.
Proof.
  unfold remove_head. intros Hr Hm. destruct (qs !! idx) as [[|v l]|] eqn:Hi; simplify_eq.
  exists l. split_and!; [done|done|]. destruct l; [by eapply mask_reset|by eapply mask_shrink].
Qed.

Lemma ffs_from_spec fuel : forall i mask,
  match ffs_from fuel i mask with
  | O => forall j, (i <= j < i + fuel)%nat -> Z.testbit mask (Z.of_nat j) = false
  | S j => (i <= j < i + fuel)%nat /\ Z.testbit mask (Z.of_nat j) = true /\
           forall k, (i <= k < j)%nat -> Z.testbit mask (Z.of_nat k) = false
  end.
Proof.
  induction fuel as [|n IH]; intros i mask; simpl; [lia|].
  destruct (Z.testbit mask (Z.of_nat i)) eqn:Hb; [split_and!; [lia|lia|done|lia]|].
  specialize (IH (S i) mask). destruct (ffs_from n (S i) mask) as [|j].
  - intros j Hj. destruct (decide (j = i)) as [->|]; [done|]. apply IH. lia.
  - destruct IH as (Hr & Hj & Hk). split_and!; [lia|lia|done|]. intros k Hki.
    destruct (decide (k = i)) as [->|]; [done|]. apply Hk. lia.
Qed.

(** The first set bit is the most urgent queue that has items. *)
Lemma ffs_mask qs mask :
  queues_ok qs -> mask_ok qs mask ->
  match ffs mask with
  | O => forall i l, qs !! i = Some l -> l = []
  | S j => (exists w l, qs !! j = Some (w :: l)) /\ forall k l, (k < j)%nat -> qs !! k = Some l -> l = []
  end.
Proof.
  intros Hq [H0 Hm]. unfold ffs. pose proof (ffs_from_spec 32 0 mask) as Hs.
  assert (forall i l, qs !! i = Some l -> Z.testbit mask (Z.of_nat i) = false -> l = []) as He.
  { intros i l Hi Hb. destruct l as [|w l]; [done|]. assert (Z.testbit mask (Z.of_nat i) = true) by (apply Hm; eauto).
    congruence. }
  destruct (ffs_from 32 0 mask) as [|j].
  - intros i l Hi. apply (He i); [done|]. apply Hs. apply Hq in Hi. lia.
  - destruct Hs as (Hr & Hj & Hk). split; [by apply Hm|]. intros k l Hkj Hl. apply (He k); [done|]. apply Hk. lia.
Qed.

(** ** Overcommit workers *)

Inductive oc_pc :=
| OcScan                                  (* holds ocwq_mtx at the head of the loop *)
| OcRun (idx : nat) (w : work)            (* calls the function, without the lock *)
| OcWait                                  (* in pthread_cond_timedwait *)
| OcExit.

Record oc_state := OcState {
  ocwq : queues;
  ocwq_mask : Z;
  ocwq_idle_threads : Z;
  ocwq_signal_count : Z;
  oc_threads : list oc_pc;
  oc_added : list (nat * work);           (* what was added and what was started, in order *)
  oc_started : list (nat * work)
}.

(** One step of overcommit_worker_main for thread [i]. *)
Definition overcommit_worker_main (i : nat) (s : oc_state) : option oc_state :=
  let set pc := <[i:=pc]> (oc_threads s) in
  match oc_threads s !! i with
  | Some OcScan =>
      let idx := ffs (ocwq_mask s) in
      let taken := match idx with O => None | S j => remove_head j (ocwq s) (ocwq_mask s) end in
      match idx, taken with
      | S j, Some (w, qs, mask) =>
          Some (OcState qs mask (ocwq_idle_threads s) (ocwq_signal_count s) (set (OcRun j w))
                  (oc_added s) (oc_started s ++ [(j, w)]))
      | _, _ =>
          Some (OcState (ocwq s) (ocwq_mask s) (u32 (ocwq_idle_threads s + 1)) (ocwq_signal_count s) (set OcWait)
                  (oc_added s) (oc_started s))
      end
  | Some (OcRun _ _) =>
      Some (OcState (ocwq s) (ocwq_mask s) (ocwq_idle_threads s) (ocwq_signal_count s) (set OcScan)
              (oc_added s) (oc_started s))
  | Some OcWait =>
      if ocwq_signal_count s >? 0 then
        Some (OcState (ocwq s) (ocwq_mask s) (ocwq_idle_threads s) (u32 (ocwq_signal_count s - 1)) (set OcScan)
                (oc_added s) (oc_started s))
      else
        Some (OcState (ocwq s) (ocwq_mask s) (u32 (ocwq_idle_threads s - 1)) (ocwq_signal_count s) (set OcExit)
                (oc_added s) (oc_started s))
  | Some OcExit | None => None
  end.

(** manager_workqueue_additem on an overcommit workqueue; pthread_create is taken to succeed. *)
Definition manager_workqueue_additem_overcommit (idx : nat) (w : work) (s : oc_state) : option oc_state :=
  match ocwq s !! idx with
  | None => None
  | Some l =>
      let qs := <[idx:=l ++ [w]]> (ocwq s) in
      let mask := Z.lor (ocwq_mask s) (wqlist_index_bit idx) in
      if ocwq_idle_threads s >? 0 then
        Some (OcState qs mask (u32 (ocwq_idle_threads s - 1)) (u32 (ocwq_signal_count s + 1)) (oc_threads s)
                (oc_added s ++ [(idx, w)]) (oc_started s))
      else
        Some (OcState qs mask (ocwq_idle_threads s) (ocwq_signal_count s) (oc_threads s ++ [OcScan])
                (oc_added s ++ [(idx, w)]) (oc_started s))
  end.

(** The process never has 2^32 threads. *)
Inductive oc_step : oc_state -> oc_state -> Prop :=
| oc_step_worker s i s' : overcommit_worker_main i s = Some s' -> oc_step s s'
| oc_step_add s idx w s' :
    manager_workqueue_additem_overcommit idx w s = Some s' ->
    Z.of_nat (length (oc_threads s')) < 2 ^ 32 -> oc_step s s'.

(** After manager_init and the creation of the workqueues. *)
Definition oc_initial (s : oc_state) : Prop :=
  queues_ok (ocwq s) /\ (forall i l, ocwq s !! i = Some l -> l = []) /\
  s = OcState (ocwq s) 0 0 0 [] [] [].

#[export] Instance oc_ts : TransitionSystem oc_state := { ts_init := oc_initial; ts_step := oc_step }.

Definition is_scanning (pc : oc_pc) : Z := match pc with OcScan => 1 | _ => 0 end.
Definition is_waiting (pc : oc_pc) : Z := match pc with OcWait => 1 | _ => 0 end.
Definition scanning s := zsum is_scanning (oc_threads s).
Definition waiting s := zsum is_waiting (oc_threads s).

(** The items of queue [idx] in a history. *)
Definition of_queue (idx : nat) (l : list (nat * work)) : list work :=
  omap (fun iw => if decide (iw.1 = idx) then Some iw.2 else None) l.

Lemma of_queue_app idx l1 l2 : of_queue idx (l1 ++ l2) = of_queue idx l1 ++ of_queue idx l2.
Proof. apply omap_app. Qed.
Lemma of_queue_one idx i w : of_queue idx [(i, w)] = if decide (i = idx) then [w] else [].
Proof. unfold of_queue. simpl. by case_decide. Qed.

Lemma of_queue_cons idx i w l : of_queue idx ((i, w) :: l) = (if decide (i = idx) then [w] else []) ++ of_queue idx l.
Proof. unfold of_queue. simpl. by case_decide. Qed.

(** Histories with the same items in every queue have the same length. *)
Lemma of_queue_length l1 l2 : (forall i, of_queue i l1 = of_queue i l2) -> length l1 = length l2.
Proof.
  revert l2. induction l1 as [|[i w] l1 IH]; intros l2 Heq.
  - destruct l2 as [|[j v] l2]; [done|]. specialize (Heq j). rewrite of_queue_cons, decide_True in Heq by done. done.
  - assert ((i, w) ∈ l2) as Hin.
    { specialize (Heq i). rewrite of_queue_cons, decide_True in Heq by done.
      assert (w ∈ of_queue i l2) as Hw by (rewrite <- Heq; left). unfold of_queue in Hw.
      apply list_elem_of_omap in Hw as ([j v] & Hj & Hd). simpl in Hd. case_decide; by simplify_eq. }
    (* the first item of queue [i] in l2 *)
    assert (exists l3 v l4, l2 = l3 ++ (i, v) :: l4 /\ of_queue i l3 = []) as (l3 & v & l4 & -> & H3).
    { clear -Hin. induction l2 as [|[j u] l2 IH]; [by apply elem_of_nil in Hin|].
      destruct (decide (j = i)) as [->|Hne]; [by exists [], u, l2|].
      apply elem_of_cons in Hin as [?|Hin]; [by simplify_eq|]. destruct (IH Hin) as (l3 & v & l4 & -> & H3).
      exists ((j, u) :: l3), v, l4. split; [done|]. rewrite of_queue_cons, decide_False by done. done. }
    rewrite length_app. simpl. rewrite Nat.add_succ_r, <- length_app. f_equal. apply IH. intros k.
    specialize (Heq k). rewrite of_queue_app, !of_queue_cons in Heq. rewrite of_queue_app.
    destruct (decide (i = k)) as [->|]; [|done]. rewrite H3 in Heq. rewrite H3. by injection Heq.
Qed.

(** Number of items that wait to be started. *)
Definition oc_pending (s : oc_state) : Z := Z.of_nat (length (oc_added s)) - Z.of_nat (length (oc_started s)).

Record oc_inv (s : oc_state) : Prop := {
  oi_queues : queues_ok (ocwq s);
  oi_mask : mask_ok (ocwq s) (ocwq_mask s);
  oi_fifo : forall i, of_queue i (oc_added s) = of_queue i (oc_started s) ++ default [] (ocwq s !! i);
  oi_range : forall i w, (i, w) ∈ oc_added s -> is_Some (ocwq s !! i);
  oi_size : Z.of_nat (length (oc_threads s)) < 2 ^ 32;
  oi_idle : 0 <= ocwq_idle_threads s /\ 0 <= ocwq_signal_count s /\
            ocwq_idle_threads s + ocwq_signal_count s = waiting s;
  oi_served : oc_pending s <= scanning s + ocwq_signal_count s
}.

Lemma zsum_le_length {A} (f : A -> Z) l : (forall x, 0 <= f x <= 1) -> 0 <= zsum f l <= Z.of_nat (length l).
Proof. intros Hf. induction l as [|x l IH]; simpl; [lia|]. specialize (Hf x). lia. Qed.

Lemma scanning_range s : 0 <= scanning s <= Z.of_nat (length (oc_threads s)).
Proof. apply zsum_le_length. intros []; simpl; lia. Qed.
Lemma waiting_range s : 0 <= waiting s <= Z.of_nat (length (oc_threads s)).
Proof. apply zsum_le_length. intros []; simpl; lia. Qed.

(** Items on no list have all been started. *)
Lemma oc_pending_zero s : oc_inv s -> (forall i l, ocwq s !! i = Some l -> l = []) -> oc_pending s = 0.
Proof.
  intros [Hq Hm Hf Hr _ _ _] He. unfold oc_pending.
  assert (length (oc_added s) = length (oc_started s)) as ->; [|lia].
  assert (forall i, of_queue i (oc_added s) = of_queue i (oc_started s)) as Hall.
  { intros i. rewrite Hf. destruct (ocwq s !! i) eqn:Hi; simpl; [|by rewrite app_nil_r].
    rewrite (He _ _ Hi). by rewrite app_nil_r. }
  by apply of_queue_length.
Qed.

(** A step that changes one thread and the two counters. *)
Lemma oc_inv_thread s i pc pc' idle sig :
  oc_inv s -> oc_threads s !! i = Some pc -> 0 <= idle -> 0 <= sig ->
  (idle + sig) - (ocwq_idle_threads s + ocwq_signal_count s) = is_waiting pc' - is_waiting pc ->
  oc_pending s <= scanning s + is_scanning pc' - is_scanning pc + sig ->
  oc_inv (OcState (ocwq s) (ocwq_mask s) idle sig (<[i:=pc']> (oc_threads s)) (oc_added s) (oc_started s)).
Proof.
  intros [Hq Hm Hf Hr Hsz (Hi0 & Hs0 & Hw) Hp] Hi Hidle Hsig Hsum Hserve.
  split; simpl; try done; unfold waiting, scanning, oc_pending in *; simpl;
    rewrite ?length_insert, ?(zsum_insert _ _ _ _ pc' Hi); try done; try lia.
Qed.

Lemma fifo_remove (qs : queues) added started j w l :
  (forall i, of_queue i added = of_queue i started ++ default [] (qs !! i)) -> qs !! j = Some (w :: l) ->
  forall i, of_queue i added = of_queue i (started ++ [(j, w)]) ++ default [] (<[j:=l]> qs !! i).
Proof.
  intros Hf Hj i. rewrite Hf, of_queue_app, of_queue_one, <- app_assoc. f_equal. case_decide.
  - subst. by rewrite lookup_insert_eq, Hj.
  - by rewrite lookup_insert_ne.
Qed.
Lemma fifo_add (qs : queues) added started j w l :
  (forall i, of_queue i added = of_queue i started ++ default [] (qs !! i)) -> qs !! j = Some l ->
  forall i, of_queue i (added ++ [(j, w)]) = of_queue i started ++ default [] (<[j:=l ++ [w]]> qs !! i).
Proof.
  intros Hf Hj i. rewrite of_queue_app, of_queue_one, Hf, <- app_assoc. f_equal. case_decide.
  - subst. by rewrite lookup_insert_eq, Hj.
  - by rewrite lookup_insert_ne, app_nil_r.
Qed.
Lemma queues_ok_insert (qs : queues) j l l' : queues_ok qs -> qs !! j = Some l -> queues_ok (<[j:=l']> qs).
Proof.
  intros Hq Hj i k. destruct (decide (i = j)) as [->|]; [intros _; by eapply Hq|].
  rewrite lookup_insert_ne by done. apply Hq.
Qed.
Lemma lookup_insert_is_Some_keep (qs : queues) i j l : is_Some (qs !! i) -> is_Some (<[j:=l]> qs !! i).
Proof. intros H. destruct (decide (j = i)) as [->|]; [by rewrite lookup_insert_eq|by rewrite lookup_insert_ne]. Qed.

Lemma oc_inv_worker s i s' : oc_inv s -> overcommit_worker_main i s = Some s' -> oc_inv s'.
Proof.
  intros Hinv Hst. pose proof Hinv as [Hq Hm Hf Hr Hsz (Hi0 & Hs0 & Hw) Hp].
  unfold overcommit_worker_main in Hst. destruct (oc_threads s !! i) as [pc|] eqn:Hi; [|done].
  pose proof (scanning_range s) as Hscan. pose proof (waiting_range s) as Hwait.
  destruct pc; simplify_eq.
  - destruct (ffs (ocwq_mask s)) as [|j] eqn:Hffs; [|destruct (remove_head j _ _) as [[[w qs] mask]|] eqn:Hrm];
      simplify_eq.
    2: { destruct (remove_head_inv _ _ _ _ _ _ Hrm Hm) as (l & Hj & -> & Hm').
         assert (1 <= scanning s) as H1 by (apply (zsum_lookup_le is_scanning _ _ _) in Hi; [done|by intros []]).
         split; simpl; try done.
         - by eapply queues_ok_insert.
         - by apply fifo_remove.
         - intros k v Hk. by apply lookup_insert_is_Some_keep, (Hr k v).
         - by rewrite length_insert.
         - unfold waiting in *. simpl. rewrite (zsum_insert _ _ _ _ _ Hi). simpl. lia.
         - unfold oc_pending, scanning in *. simpl. rewrite (zsum_insert _ _ _ _ _ Hi), length_app. simpl. lia. }
    all: assert (forall k l, ocwq s !! k = Some l -> l = []) as Hempty.
    1: { pose proof (ffs_mask _ _ Hq Hm) as Hfm. by rewrite Hffs in Hfm. }
    2: { pose proof (ffs_mask _ _ Hq Hm) as Hfm. rewrite Hffs in Hfm. destruct Hfm as [(w & l & Hj) _].
         unfold remove_head in Hrm. by rewrite Hj in Hrm. }
    all: assert (1 <= scanning s) as H1 by (apply (zsum_lookup_le is_scanning _ _ _) in Hi; [done|by intros []]).
    all: assert (waiting s + 1 <= Z.of_nat (length (oc_threads s))) by
      (pose proof (zsum_le_length (fun pc => is_waiting pc + is_scanning pc) (oc_threads s) ltac:(intros []; simpl; lia)) as Hb;
       rewrite zsum_add in Hb; unfold waiting, scanning in *; lia).
    all: apply (oc_inv_thread s i OcScan); try done; rewrite ?u32_id by lia; simpl; try lia.
    all: rewrite (oc_pending_zero s) by done; lia.
  - apply (oc_inv_thread s i (OcRun idx w)); try done; simpl; lia.
  - assert (1 <= waiting s) as H1 by (apply (zsum_lookup_le is_waiting _ _ _) in Hi; [done|by intros []]).
    rewrite Z.gtb_ltb in Hst. destruct (Z.ltb_spec 0 (ocwq_signal_count s)); simplify_eq;
      apply (oc_inv_thread s i OcWait); try done; rewrite ?u32_id by lia; simpl; lia.
Qed.

Lemma oc_inv_add s idx w s' :
  oc_inv s -> manager_workqueue_additem_overcommit idx w s = Some s' ->
  Z.of_nat (length (oc_threads s')) < 2 ^ 32 -> oc_inv s'.
Proof.
  intros [Hq Hm Hf Hr Hsz (Hi0 & Hs0 & Hw) Hp] Hst Hsz'. pose proof (waiting_range s) as Hwait.
  unfold manager_workqueue_additem_overcommit in Hst. destruct (ocwq s !! idx) as [l|] eqn:Hi; [|done].
  rewrite Z.gtb_ltb in Hst.
  assert (forall k v, (k, v) ∈ oc_added s ++ [(idx, w)] -> is_Some (<[idx:=l ++ [w]]> (ocwq s) !! k)) as Hr'.
  { intros k v [Hk|Hk%list_elem_of_singleton]%elem_of_app.
    - by apply lookup_insert_is_Some_keep, (Hr k v).
    - simplify_eq. by rewrite lookup_insert_eq. }
  destruct (Z.ltb_spec 0 (ocwq_idle_threads s)); simplify_eq; simpl in *; split; simpl; try done;
    try (by eapply queues_ok_insert); try (by apply mask_set); try (by apply fifo_add); rewrite ?u32_id by lia;
    unfold waiting, scanning, oc_pending in *; simpl; rewrite ?zsum_app, ?length_app; simpl; try lia.
Qed.

Lemma oc_inv_reachable s : reachable s -> oc_inv s.
Proof.
  apply invariant_reachable.
  - intros t (Hq & He & ->). split; simpl; try done.
    + split; [done|]. intros i. rewrite Z.bits_0. split; [done|]. intros (w & l & Hi). by apply He in Hi.
    + intros i. simpl. destruct (ocwq t !! i) as [l|] eqn:Hi; [|done]. simpl. by rewrite (He _ _ Hi).
    + intros i w Hin. by apply elem_of_nil in Hin.
  - intros t t' Hinv Hst. destruct Hst as [s1 i s2 Hst|s1 idx w s2 Hst Hsz]; [exact (oc_inv_worker _ _ _ Hinv Hst)|exact (oc_inv_add _ _ _ _ Hinv Hst Hsz)].
Qed.

(** The promise of an overcommit workqueue: at every moment there are at least as many threads about
    to look for work (a worker at the head of its loop, or a waiter with a signal on its way) as
    items that were not started, so no item ever waits for the function of another one to return;
    and the idle and signal counts together are the number of sleeping workers. *)
Theorem overcommit_never_waits s :
  reachable s ->
  oc_pending s <= scanning s + ocwq_signal_count s /\
  ocwq_idle_threads s + ocwq_signal_count s = waiting s /\ 0 <= ocwq_idle_threads s.
Proof. intros Hr. destruct (oc_inv_reachable s Hr) as [_ _ _ _ _ (? & ? & ?) ?]. done. Qed.

(** the items of every overcommit workqueue are started once each and in the order they were added, and a
    worker that looks for work takes the oldest item of the most urgent queue that has one. *)
Theorem overcommit_order s i s' :
  reachable s -> overcommit_worker_main i s = Some s' ->
  (forall idx, of_queue idx (oc_added s) = of_queue idx (oc_started s) ++ default [] (ocwq s !! idx)) /\
  (oc_threads s !! i = Some OcScan ->
     match ffs (ocwq_mask s) with
     | O => (forall idx l, ocwq s !! idx = Some l -> l = []) /\ oc_started s' = oc_started s
     | S j => (forall k l, (k < j)%nat -> ocwq s !! k = Some l -> l = []) /\
              exists w l, ocwq s !! j = Some (w :: l) /\ oc_started s' = oc_started s ++ [(j, w)] /\
                ocwq s' !! j = Some l
     end).
Proof.
  intros Hr Hst. destruct (oc_inv_reachable s Hr) as [Hq Hm Hf _ _ _ _]. split; [done|]. intros Hi.
  pose proof (ffs_mask _ _ Hq Hm) as Hffs. unfold overcommit_worker_main in Hst. rewrite Hi in Hst.
  destruct (ffs (ocwq_mask s)) as [|j]; [by simplify_eq|]. destruct Hffs as [(w & l & Hj) Hk]. split; [done|].
  exists w, l. split; [done|]. unfold remove_head in Hst. rewrite Hj in Hst. simplify_eq. simpl.
  by rewrite lookup_insert_eq.
Qed.

(** An initialised attribute gives back what was set in it, rejects a priority outside the four
    levels and leaves the attribute alone then; and pthread_workqueue_create_np makes a valid workqueue
    of exactly that priority and overcommit flag, with an index inside the tables. *)
Theorem workqueue_attributes attr0 prio ocomm :
  let attr := (pthread_workqueue_attr_init_np attr0).2 in
  let '(rc, attr1) := pthread_workqueue_attr_setqueuepriority_np attr prio in
  let '(rc', attr2) := pthread_workqueue_attr_setovercommit_np attr1 ocomm in
  rc' = 0 /\ pthread_workqueue_attr_getovercommit_np attr2 = (0, Some ocomm) /\
  pthread_workqueue_attr_destroy_np attr2 = 0 /\
  (rc = 0 <-> 0 <= prio < WORKQ_NUM_PRIOQUEUE) /\ (rc <> 0 -> rc = EINVAL /\ attr1 = attr) /\
  pthread_workqueue_attr_getqueuepriority_np attr2 = (0, Some (if rc =? 0 then prio else WORKQ_DEFAULT_PRIOQUEUE)) /\
  exists wq, pthread_workqueue_create_np (Some attr2) true = (0, Some wq) /\ valid_workq wq = true /\
    wq_queueprio wq = attr_queueprio attr2 /\ wq_overcommit wq = ocomm /\ (Z.to_nat (wq_queueprio wq) < 4)%nat.
Proof.
  unfold pthread_workqueue_attr_setqueuepriority_np, WORKQ_NUM_PRIOQUEUE. simpl.
  assert ((prio =? WORKQ_HIGH_PRIOQUEUE) || (prio =? WORKQ_DEFAULT_PRIOQUEUE) ||
    (prio =? WORKQ_LOW_PRIOQUEUE) || (prio =? WORKQ_BG_PRIOQUEUE) = true <-> 0 <= prio < 4) as Hb.
  { rewrite !orb_true_iff, !Z.eqb_eq. unfold WORKQ_HIGH_PRIOQUEUE, WORKQ_DEFAULT_PRIOQUEUE, WORKQ_LOW_PRIOQUEUE,
      WORKQ_BG_PRIOQUEUE. lia. }
  destruct (_ || _ || _ || _) eqn:Ht; simpl; split_and!; try done; try naive_solver.
  - destruct Hb as [Hb _]. specialize (Hb eq_refl).
    exists (WorkQ PTHREAD_WORKQUEUE_SIG prio ocomm). split_and!; try done; [|simpl; lia].
    unfold pthread_workqueue_create_np. simpl. rewrite Z.geb_leb. unfold WORKQ_NUM_PRIOQUEUE.
    destruct (Z.ltb_spec prio 0), (Z.leb_spec 4 prio); simpl; done || lia.
Qed.

(** ** Concrete values *)

Inductive oc_action := OcAdd (idx : nat) (w : work) | OcTurn (i : nat).

Fixpoint oc_run (acts : list oc_action) (s : oc_state) : option oc_state :=
  match acts with
  | [] => Some s
  | OcAdd idx w :: acts =>
      s' ← manager_workqueue_additem_overcommit idx w s;
      if Z.of_nat (length (oc_threads s')) <? 2 ^ 32 then oc_run acts s' else None
  | OcTurn i :: acts => s' ← overcommit_worker_main i s; oc_run acts s'
  end.

Lemma oc_run_reachable acts : forall s s', oc_run acts s = Some s' -> rtc oc_step s s'.
Proof.
  induction acts as [|[idx w|i] acts IH]; intros s s' Hr; simpl in Hr; [by simplify_eq|..].
  - apply bind_Some in Hr as (s1 & H1 & Hr). destruct (Z.ltb_spec (Z.of_nat (length (oc_threads s1))) (2 ^ 32)); [|done].
    eapply rtc_l; [by eapply oc_step_add|]. by apply IH.
  - apply bind_Some in Hr as (s1 & H1 & Hr). eapply rtc_l; [by eapply oc_step_worker|]. by apply IH.
Qed.

Definition oc_ex0 : oc_state := OcState (list_to_map [(0%nat, []); (1%nat, [])]) 0 0 0 [] [] [].
(** A worker of one item goes idle, a second item arrives and then a more urgent one. *)
Definition oc_ex_acts : list oc_action :=
  [OcAdd 1 (10, 1); OcTurn 0; OcTurn 0; OcTurn 0; OcAdd 1 (10, 2); OcAdd 0 (20, 3); OcTurn 0].
Definition oc_ex : oc_state := default oc_ex0 (oc_run oc_ex_acts oc_ex0).

Lemma oc_ex0_initial : oc_initial oc_ex0.
Proof.
  split_and!; [| |done]; intros i l Hi; apply elem_of_list_to_map_2 in Hi; rewrite !elem_of_cons, elem_of_nil in Hi;
    destruct_or! Hi; try done; simplify_eq; done || lia.
Qed.
Lemma oc_ex_reachable : reachable oc_ex.
Proof. exists oc_ex0. split; [apply oc_ex0_initial|]. apply (oc_run_reachable oc_ex_acts). vm_compute. done. Qed.

Lemma overcommit_never_waits_witness :
  oc_pending oc_ex = 2 /\ oc_pending oc_ex <= scanning oc_ex + ocwq_signal_count oc_ex /\
  ocwq_idle_threads oc_ex + ocwq_signal_count oc_ex = waiting oc_ex /\ 0 <= ocwq_idle_threads oc_ex.
Proof. split; [vm_compute; done|]. exact (overcommit_never_waits oc_ex oc_ex_reachable). Defined.

(** The worker takes the urgent item first. *)
Lemma overcommit_order_witness :
  exists s', overcommit_worker_main 0 oc_ex = Some s' /\ oc_started s' = [(1%nat, (10, 1)); (0%nat, (20, 3))].
Proof.
  destruct (overcommit_worker_main 0 oc_ex) as [s'|] eqn:Hs; [|vm_compute in Hs; done].
  exists s'. split; [done|]. destruct (overcommit_order oc_ex 0 s' oc_ex_reachable Hs) as [_ H].
  specialize (H ltac:(vm_compute; done)). change (ffs (ocwq_mask oc_ex)) with 1%nat in H.
  destruct H as (_ & w & l & Hj & Hst & _). change (ocwq oc_ex !! 0%nat) with (Some [((20, 3) : work)]) in Hj.
  injection Hj as <- <-. exact Hst.
Defined.
