(* ===== verification/WorkerPool.v ===== *)
(** * The worker pool of POSIX workqueues

    Models the non-overcommit part of posix/manager.c: workers that scan the workqueues without a
    lock, sleep on a condition and count themselves in the scoreboard, the submission that wakes
    them, and the manager that grows and shrinks the pool.  A step is one atomic access, or
    one critical section of a queue's spin lock.  [PWQ_SPIN_THREADS] is the environment setting. *)

From S2P Require Import Prelude Workqueue.
From stdpp Require Import base tactics list numbers gmap strings.
From Stdlib Require Import ZArith Lia.

Local Open Scope Z_scope.

(** An item with the index of the queue it came from. *)
Notation item := (nat * work)%type.

Inductive wk_pc :=
| WkStart                        (* atomic_dec(&pending_thread_create) *)
| WkScan | WkScanAt (j : nat)    (* worker_main: wqlist_scan(_, 1): the mask, then queue j *)
| WkSpin                         (* wqlist_scan_spin: atomic_inc_nv(&current_threads_spinning) *)
| WkSpinScan | WkSpinAt (j : nat) | WkSpinPost (w : item) | WkSpinDec (w : option item)
| WkLock                         (* wqlist_scan_wait: takes wqlist_mtx *)
| WkWaitScan | WkWaitAt (j : nat) | WkCond     (* holds the mutex; WkCond calls pthread_cond_wait *)
| WkSleep                        (* in pthread_cond_wait *)
| WkUnlock (w : item) | WkWaitPost (w : item) | WkCheck (w : item)
| WkExitCount                    (* atomic_dec(&scoreboard.count) *)
| WkExit
| WkBusy (w : item)              (* atomic_dec(&scoreboard.idle) *)
| WkCall (w : item)              (* witem->func(witem->func_arg) *)
| WkDone (w : item).             (* atomic_inc(&scoreboard.idle) *)

#[export] Instance wk_pc_eq_dec : EqDecision wk_pc.
Proof. solve_decision. Defined.

Record wp_state := WpState {
  wqlist : queues;
  wqlist_mask : Z;
  sb_idle : Z;
  sb_count : Z;
  pending_thread_create : Z;
  current_threads_spinning : Z;
  sb_sem : Z;                     (* posts to the manager *)
  wqlist_mtx : option nat;        (* the worker that holds it *)
  wp_threads : list wk_pc;
  wp_failed : Z;                  (* how often pthread_create failed *)
  wp_adding : Z;                  (* clients between the insertion and the signal *)
  wp_added : list item;
  wp_taken : list item
}.

Definition set_pc (i : nat) (pc : wk_pc) (s : wp_state) : wp_state :=
  WpState (wqlist s) (wqlist_mask s) (sb_idle s) (sb_count s) (pending_thread_create s)
    (current_threads_spinning s) (sb_sem s) (wqlist_mtx s) (<[i:=pc]> (wp_threads s)) (wp_failed s) (wp_adding s)
    (wp_added s) (wp_taken s).
Definition set_counts (idle count pending : Z) (s : wp_state) : wp_state :=
  WpState (wqlist s) (wqlist_mask s) idle count pending (current_threads_spinning s) (sb_sem s) (wqlist_mtx s)
    (wp_threads s) (wp_failed s) (wp_adding s) (wp_added s) (wp_taken s).
Definition set_spinning (n : Z) (s : wp_state) : wp_state :=
  WpState (wqlist s) (wqlist_mask s) (sb_idle s) (sb_count s) (pending_thread_create s) n (sb_sem s) (wqlist_mtx s)
    (wp_threads s) (wp_failed s) (wp_adding s) (wp_added s) (wp_taken s).
Definition set_adding (n : Z) (s : wp_state) : wp_state :=
  WpState (wqlist s) (wqlist_mask s) (sb_idle s) (sb_count s) (pending_thread_create s) (current_threads_spinning s)
    (sb_sem s) (wqlist_mtx s) (wp_threads s) (wp_failed s) n (wp_added s) (wp_taken s).
Definition set_mtx (m : option nat) (s : wp_state) : wp_state :=
  WpState (wqlist s) (wqlist_mask s) (sb_idle s) (sb_count s) (pending_thread_create s)
    (current_threads_spinning s) (sb_sem s) m (wp_threads s) (wp_failed s) (wp_adding s) (wp_added s) (wp_taken s).
(** Force the manager thread to wake up if we are the last idle one. *)
Definition post_if_last (s : wp_state) : wp_state :=
  WpState (wqlist s) (wqlist_mask s) (sb_idle s) (sb_count s) (pending_thread_create s)
    (current_threads_spinning s) (if sb_idle s =? 1 then sb_sem s + 1 else sb_sem s) (wqlist_mtx s)
    (wp_threads s) (wp_failed s) (wp_adding s) (wp_added s) (wp_taken s).

(** ** Scanning *)

(** The part of wqlist_scan under the spin lock of queue [j]. *)
Definition scan_queue (skip_thread_exit_events : bool) (j : nat) (s : wp_state) : option (work * wp_state) :=
  match wqlist s !! j with
  | Some (w :: _) =>
      if skip_thread_exit_events && (w.1 =? 0) then None
      else
        '(w, qs, mask) ← remove_head j (wqlist s) (wqlist_mask s);
        Some (w, WpState qs mask (sb_idle s) (sb_count s) (pending_thread_create s) (current_threads_spinning s)
                   (sb_sem s) (wqlist_mtx s) (wp_threads s) (wp_failed s) (wp_adding s) (wp_added s) (wp_taken s ++ [(j, w)]))
  | _ => None
  end.

(** wqlist_scan in two steps: [read] is where it continues with the queue of the first bit of
    the mask; [found] and [none] are where the caller goes on. *)
Definition scan_mask (i : nat) (read : nat -> wk_pc) (none : wp_state) (s : wp_state) : option wp_state :=
  match ffs (wqlist_mask s) with O => Some none | S j => Some (set_pc i (read j) s) end.
Definition scan_at (i : nat) (skip : bool) (j : nat) (found : item -> wk_pc) (none : wp_state) (s : wp_state) :
    option wp_state :=
  match scan_queue skip j s with Some (w, s') => Some (set_pc i (found (j, w)) s') | None => Some none end.

Section pool.
Context (PWQ_SPIN_THREADS : Z).

(** One step of worker [i]: worker_main, wqlist_scan_spin and wqlist_scan_wait. *)
Definition worker_main (i : nat) (s : wp_state) : option wp_state :=
  match wp_threads s !! i with
  | Some WkStart =>
      Some (set_pc i WkScan (set_counts (sb_idle s) (sb_count s) (u32 (pending_thread_create s - 1)) s))
  | Some WkScan => scan_mask i WkScanAt (set_pc i WkSpin s) s
  | Some (WkScanAt j) => scan_at i true j WkBusy (set_pc i WkSpin s) s
  | Some WkSpin =>
      let n := u32 (current_threads_spinning s + 1) in
      Some (set_pc i (if n <=? PWQ_SPIN_THREADS then WkSpinScan else WkSpinDec None) (set_spinning n s))
  | Some WkSpinScan => scan_mask i WkSpinAt s s
  | Some (WkSpinAt j) => scan_at i true j WkSpinPost (set_pc i WkSpinScan s) s
  | Some (WkSpinPost w) => Some (set_pc i (WkSpinDec (Some w)) (post_if_last s))
  | Some (WkSpinDec ow) =>
      Some (set_pc i (match ow with Some w => WkBusy w | None => WkLock end)
              (set_spinning (u32 (current_threads_spinning s - 1)) s))
  | Some WkLock =>
      match wqlist_mtx s with None => Some (set_pc i WkWaitScan (set_mtx (Some i) s)) | Some _ => None end
  | Some WkWaitScan => scan_mask i WkWaitAt (set_pc i WkCond s) s
  | Some (WkWaitAt j) => scan_at i false j WkUnlock (set_pc i WkCond s) s
  | Some WkCond => Some (set_pc i WkSleep (set_mtx None s))
  | Some WkSleep => None                 (* until it is signalled *)
  | Some (WkUnlock w) => Some (set_pc i (WkWaitPost w) (set_mtx None s))
  | Some (WkWaitPost w) => Some (set_pc i (WkCheck w) (post_if_last s))
  | Some (WkCheck w) =>
      if w.2.1 =? 0
      then Some (set_pc i WkExitCount (set_counts (u32 (sb_idle s - 1)) (sb_count s) (pending_thread_create s) s))
      else Some (set_pc i (WkBusy w) s)
  | Some WkExitCount =>
      Some (set_pc i WkExit (set_counts (sb_idle s) (u32 (sb_count s - 1)) (pending_thread_create s) s))
  | Some WkExit | None => None
  | Some (WkBusy w) =>
      Some (set_pc i (WkCall w) (set_counts (u32 (sb_idle s - 1)) (sb_count s) (pending_thread_create s) s))
  | Some (WkCall w) => Some (set_pc i (WkDone w) s)
  | Some (WkDone w) =>
      Some (set_pc i WkScan (set_counts (u32 (sb_idle s + 1)) (sb_count s) (pending_thread_create s) s))
  end.

(** pthread_cond_signal(&wqlist_has_work): one sleeping worker, if there is one, goes for the mutex again. *)
Definition cond_signal (victim : option nat) (s : wp_state) : option wp_state :=
  match victim with
  | Some i => match wp_threads s !! i with Some WkSleep => Some (set_pc i WkLock s) | _ => None end
  | None => if decide (WkSleep ∈ wp_threads s) then None else Some s
  end.

(** The insertion at the tail; [always] for worker_stop, which sets the bit in any case and signals under
    the mutex. *)
Definition insert_tail (always : bool) (idx : nat) (w : work) (s : wp_state) : option wp_state :=
  match wqlist s !! idx with
  | None => None
  | Some l =>
      let mask := match l with
                  | [] => Z.lor (wqlist_mask s) (wqlist_index_bit idx)
                  | _ => if always then Z.lor (wqlist_mask s) (wqlist_index_bit idx) else wqlist_mask s
                  end in
      Some (WpState (<[idx:=l ++ [w]]> (wqlist s)) mask (sb_idle s) (sb_count s) (pending_thread_create s)
              (current_threads_spinning s) (sb_sem s) (wqlist_mtx s) (wp_threads s) (wp_failed s)
              (if always then wp_adding s else wp_adding s + 1) (wp_added s ++ [(idx, w)]) (wp_taken s))
  end.

(** manager_workqueue_additem, in two steps: the insertion, and the signal if a worker is idle. *)
Definition manager_workqueue_additem (idx : nat) (w : work) (s : wp_state) : option wp_state :=
  insert_tail false idx w s.
Definition additem_signal (victim : option nat) (s : wp_state) : option wp_state :=
  if wp_adding s >? 0 then
    let s := set_adding (wp_adding s - 1) s in
    if sb_idle s >? 0 then cond_signal victim s else Some s
  else None.

(** worker_start; [ok] is whether pthread_create succeeds. *)
Definition worker_start (ok : bool) (s : wp_state) : wp_state :=
  let s1 := set_counts (u32 (sb_idle s + 1)) (u32 (sb_count s + 1)) (u32 (pending_thread_create s + 1)) s in
  if ok then
    WpState (wqlist s1) (wqlist_mask s1) (sb_idle s1) (sb_count s1) (pending_thread_create s1)
      (current_threads_spinning s1) (sb_sem s1) (wqlist_mtx s1) (wp_threads s1 ++ [WkStart]) (wp_failed s1) (wp_adding s1)
      (wp_added s1) (wp_taken s1)
  else
    WpState (wqlist s1) (wqlist_mask s1) (u32 (sb_idle s1 - 1)) (u32 (sb_count s1 - 1)) (pending_thread_create s1)
      (current_threads_spinning s1) (sb_sem s1) (wqlist_mtx s1) (wp_threads s1) (wp_failed s1 + 1) (wp_adding s1)
      (wp_added s1) (wp_taken s1).

(** The first workqueue of the table. *)
Fixpoint first_queue (fuel i : nat) (qs : queues) : option nat :=
  match fuel with
  | O => None
  | S n => match qs !! i with Some _ => Some i | None => first_queue n (S i) qs end
  end.
Definition PTHREAD_WORKQUEUE_MAX : nat := 31.

(** worker_stop, under wqlist_mtx: an item with a null function for the first workqueue there is. *)
Definition worker_stop (victim : option nat) (s : wp_state) : option wp_state :=
  match wqlist_mtx s with
  | Some _ => None
  | None =>
      i ← first_queue PTHREAD_WORKQUEUE_MAX 0 (wqlist s);
      s' ← insert_tail true i (0, 0) s;
      cond_signal victim s'
  end.

(** Clients add items with a function.  The manager can start and stop workers at any time; when it
    does is [manager_main] below.  The counters never reach 2^32. *)
Inductive wp_step : wp_state -> wp_state -> Prop :=
| wp_worker s i s' : worker_main i s = Some s' -> wp_step s s'
| wp_spurious s i : wp_threads s !! i = Some WkSleep -> wp_step s (set_pc i WkLock s)
| wp_add s idx w s' : w.1 <> 0 -> manager_workqueue_additem idx w s = Some s' -> wp_step s s'
| wp_signal s victim s' : additem_signal victim s = Some s' -> wp_step s s'
| wp_start s ok :
    Z.of_nat (length (wp_threads s)) + wp_failed s + 1 < 2 ^ 32 -> wp_step s (worker_start ok s)
| wp_stop s victim s' : worker_stop victim s = Some s' -> wp_step s s'.

(** After manager_init and the creation of the workqueues. *)
Definition wp_initial (s : wp_state) : Prop :=
  queues_ok (wqlist s) /\ (forall i l, wqlist s !! i = Some l -> l = []) /\
  s = WpState (wqlist s) 0 0 0 0 0 0 None [] 0 0 [] [].

#[local] Instance wp_ts : TransitionSystem wp_state := { ts_init := wp_initial; ts_step := wp_step }.

(** ** Invariant *)

Definition is_live (pc : wk_pc) : Z := match pc with WkExit => 0 | _ => 1 end.
(** Counted as idle: everything but a worker that runs a function, or is on its way out. *)
Definition is_idle (pc : wk_pc) : Z :=
  match pc with WkCall _ | WkDone _ | WkExitCount | WkExit => 0 | _ => 1 end.
Definition is_starting (pc : wk_pc) : Z := match pc with WkStart => 1 | _ => 0 end.

(** The part of the state the invariant speaks of. *)
Definition core (s : wp_state) :=
  (wqlist s, wqlist_mask s, (sb_idle s, sb_count s, pending_thread_create s), wp_threads s, wp_failed s,
   (wp_added s, wp_taken s)).

Record wp_inv (s : wp_state) : Prop := {
  wi_queues : queues_ok (wqlist s);
  wi_mask : mask_ok (wqlist s) (wqlist_mask s);
  wi_fifo : forall i, of_queue i (wp_added s) = of_queue i (wp_taken s) ++ default [] (wqlist s !! i);
  wi_size : 0 <= wp_failed s /\ Z.of_nat (length (wp_threads s)) + wp_failed s < 2 ^ 32;
  wi_count : sb_count s = zsum is_live (wp_threads s);
  wi_idle : sb_idle s = zsum is_idle (wp_threads s);
  wi_pending : pending_thread_create s = zsum is_starting (wp_threads s) + wp_failed s
}.

Lemma wp_inv_core s s' : core s' = core s -> wp_inv s -> wp_inv s'.
Proof.
  intros Hc [? ? ? ? ? ? ?]. injection Hc as Hq Hm Hi Hn Hp Ht Hf Ha Hk.
  split; rewrite ?Hq, ?Hm, ?Hi, ?Hn, ?Hp, ?Ht, ?Hf, ?Ha, ?Hk; done.
Qed.

Lemma sums_range (l : list wk_pc) :
  0 <= zsum is_starting l <= zsum is_idle l /\ zsum is_idle l <= zsum is_live l <= Z.of_nat (length l).
Proof. induction l as [|pc l IH]; simpl; [lia|]. destruct pc; simpl; lia. Qed.

(** A step that changes the program counter of one worker and the counters accordingly. *)
Lemma wp_inv_thread s i pc pc' idle count pending s' :
  wp_inv s -> wp_threads s !! i = Some pc ->
  core s' = core (set_pc i pc' (set_counts idle count pending s)) ->
  idle = sb_idle s + is_idle pc' - is_idle pc -> count = sb_count s + is_live pc' - is_live pc ->
  pending = pending_thread_create s + is_starting pc' - is_starting pc ->
  wp_inv s'.
Proof.
  intros [Hq Hm Hf Hsz Hc Hid Hp] Hi Hcore Hdi Hdc Hdp. eapply wp_inv_core; [exact Hcore|].
  split; simpl; try done; rewrite ?length_insert, ?(zsum_insert _ _ _ _ pc' Hi); lia.
Qed.

(** ... and no counter. *)
Lemma wp_inv_move s i pc pc' s' :
  wp_inv s -> wp_threads s !! i = Some pc -> core s' = core (set_pc i pc' s) ->
  is_idle pc' = is_idle pc -> is_live pc' = is_live pc -> is_starting pc' = is_starting pc -> wp_inv s'.
Proof. intros Hinv Hi Hc H1 H2 H3. eapply (wp_inv_thread s i pc pc'); [done|done|exact Hc|lia..]. Qed.

Lemma wp_inv_scan s i skip j w s' pc pc' :
  wp_inv s -> wp_threads s !! i = Some pc -> scan_queue skip j s = Some (w, s') ->
  is_idle pc' = is_idle pc -> is_live pc' = is_live pc -> is_starting pc' = is_starting pc ->
  wp_inv (set_pc i pc' s').
Proof.
  intros [Hq Hm Hf Hsz Hc Hid Hp] Hi Hs H1 H2 H3. unfold scan_queue in Hs.
  destruct (wqlist s !! j) as [[|v l]|] eqn:Hj; try done. destruct (skip && _); [done|].
  apply bind_Some in Hs as ([[w' qs] mask] & Hrm & Heq). simplify_eq.
  destruct (remove_head_inv _ _ _ _ _ _ Hrm Hm) as (l' & Hj' & -> & Hm').
  split; simpl; try done; rewrite ?length_insert, ?(zsum_insert _ _ _ _ pc' Hi); try lia.
  - by eapply queues_ok_insert.
  - by apply fifo_remove.
Qed.

Lemma wp_inv_worker s i s' : wp_inv s -> worker_main i s = Some s' -> wp_inv s'.
Proof.
  intros Hinv Hst. pose proof Hinv as [Hq Hm Hf Hsz Hc Hid Hp]. unfold worker_main in Hst.
  destruct (wp_threads s !! i) as [pc|] eqn:Hi; [|done].
  pose proof (sums_range (wp_threads s)) as Hr.
  assert (is_idle pc <= zsum is_idle (wp_threads s)) as Hri by (eapply (zsum_lookup_le is_idle); [by intros []|done]).
  assert (is_live pc <= zsum is_live (wp_threads s)) as Hrl by (eapply (zsum_lookup_le is_live); [by intros []|done]).
  assert (is_starting pc <= zsum is_starting (wp_threads s)) as Hrs by (eapply (zsum_lookup_le is_starting); [by intros []|done]).
  assert (zsum is_idle (wp_threads s) + (1 - is_idle pc) <= Z.of_nat (length (wp_threads s))) as Hbusy.
  { pose proof (zsum_lookup_le (fun pc => 1 - is_idle pc) _ _ _ ltac:(by intros []) Hi) as H1. cbv beta in H1.
    pose proof (zsum_add is_idle (fun pc => 1 - is_idle pc) (wp_threads s)) as H2.
    rewrite (zsum_ext _ (fun _ => 1)) in H2 by (intros x _; simpl; lia). rewrite zsum_const in H2. lia. }
  destruct pc; unfold scan_mask, scan_at in Hst; simpl in *;
    try (destruct (ffs (wqlist_mask s)); simplify_eq);
    try (destruct (scan_queue _ j s) as [[w s1]|] eqn:Hsc; simplify_eq; [by eapply wp_inv_scan|]);
    try (case_match; simplify_eq); simplify_eq; try done.
  all: rewrite ?u32_id by lia.
  all: try (eapply (wp_inv_thread s i); [done|done|reflexivity|simpl..]; repeat case_match; simpl; lia).
Qed.

Lemma wp_inv_signal s victim s' : wp_inv s -> cond_signal victim s = Some s' -> wp_inv s'.
Proof.
  intros Hinv Hs. unfold cond_signal in Hs. destruct victim as [i|]; [|by case_decide; simplify_eq].
  destruct (wp_threads s !! i) as [[]|] eqn:Hi; simplify_eq.
  by eapply (wp_inv_move s i WkSleep).
Qed.

Lemma wp_inv_insert s always idx w s' : wp_inv s -> insert_tail always idx w s = Some s' -> wp_inv s'.
Proof.
  intros [Hq Hm Hf Hsz Hc Hid Hp] Hs. unfold insert_tail in Hs. destruct (wqlist s !! idx) as [l|] eqn:Hi; [|done].
  simplify_eq. split; simpl; try done.
  - by eapply queues_ok_insert.
  - destruct l as [|v l]; [by apply (mask_set _ _ _ [])|]. destruct always; [by apply mask_set|by apply mask_keep].
  - by apply fifo_add.
Qed.

Lemma wp_inv_start s ok :
  wp_inv s -> Z.of_nat (length (wp_threads s)) + wp_failed s + 1 < 2 ^ 32 -> wp_inv (worker_start ok s).
Proof.
  intros [Hq Hm Hf Hsz Hc Hid Hp] Hb. pose proof (sums_range (wp_threads s)) as Hr.
  unfold worker_start. simpl. rewrite !(u32_id (_ + 1)) by lia.
  destruct ok; split; simpl; rewrite ?zsum_app, ?length_app; simpl; try done; rewrite ?u32_id by lia; lia.
Qed.

Lemma wp_inv_reachable s : reachable s -> wp_inv s.
Proof.
  apply invariant_reachable.
  - intros t (Hq & He & ->). split; simpl; try done.
    + split; [done|]. intros i. rewrite Z.bits_0. split; [done|]. intros (w & l & Hi). by apply He in Hi.
    + intros i. simpl. destruct (wqlist t !! i) as [l|] eqn:Hi; [|done]. simpl. by rewrite (He _ _ Hi).
  - intros t t' Hinv Hst. destruct Hst as [s1 i s2 Hst|s1 i Hi|s1 idx w s2 _ Hst|s1 victim s2 Hst|s1 ok Hb|s1 victim s2 Hst].
    + by eapply wp_inv_worker.
    + by eapply (wp_inv_move s1 i WkSleep).
    + by eapply wp_inv_insert.
    + unfold additem_signal in Hst. case_match; [|done]. case_match.
      * eapply wp_inv_signal; [|done]. by apply (wp_inv_core s1).
      * simplify_eq. by apply (wp_inv_core s1).
    + by apply wp_inv_start.
    + unfold worker_stop in Hst. destruct (wqlist_mtx s1); [done|].
      apply bind_Some in Hst as (i & _ & Hst). apply bind_Some in Hst as (s3 & Hins & Hst).
      eapply wp_inv_signal; [|done]. by eapply wp_inv_insert.
Qed.

End pool.

(** ** The manager *)

Definition WORKER_IDLE_SECONDS_THRESHOLD : Z := 15.

(** [cpu_count] decides how many idle workers are kept. *)
Definition worker_idle_threshold_per_cpu (cpu_count : Z) : Z :=
  if (cpu_count =? 0) || (cpu_count =? 1) || (cpu_count =? 2) || (cpu_count =? 4) then 2
  else if cpu_count =? 6 then 4
  else if (cpu_count =? 8) || (cpu_count =? 12) then 6
  else if (cpu_count =? 16) || (cpu_count =? 24) then 8
  else if (cpu_count =? 32) || (cpu_count =? 64) then 12
  else cpu_count / 4.

Record pool_config := PoolConfig { cpu_count : Z; worker_max : Z; worker_idle_threshold : Z; worker_min : Z }.

(** [ncpu] is what sysconf returns, [limit] what get_process_limit returns. *)
Definition manager_init (PWQ_ACTIVE_CPU ncpu limit : Z) : pool_config :=
  let cpus := if PWQ_ACTIVE_CPU >? 0 then PWQ_ACTIVE_CPU else u32 ncpu in
  PoolConfig cpus limit
    (if PWQ_ACTIVE_CPU >? 0 then PWQ_ACTIVE_CPU else worker_idle_threshold_per_cpu cpus) 2.

(** What one turn of the loop does: start a worker, or stop so many. *)
Inductive manager_action := ManagerStart | ManagerStop (n : nat) | ManagerNone.

(** One turn of the loop of manager_main after it has woken up.  The scoreboard is read without a
    lock, so every read is an argument: [idle k] and [count k] are the k-th of the turn.
    [runnable] is what threads_runnable finds, 0 if it fails; [timed_out] says that sem_timedwait
    returned ETIMEDOUT; the result has the new worker_idle_seconds_accumulated. *)
Definition manager_main (cfg : pool_config) (idle count : nat -> Z) (pending runnable runqueue_length : Z)
    (timed_out : bool) (accumulated : Z) : Z * manager_action :=
  if (idle 0%nat =? 0) && (count 0%nat >? 0) && (pending =? 0) then
    if count 1%nat <? worker_idle_threshold cfg then (accumulated, ManagerStart)
    else if count 2%nat <? worker_max cfg then
      if runnable <=? cpu_count cfg then
        if runqueue_length <=? cpu_count cfg then
          if idle 1%nat =? 0 then (accumulated, ManagerStart) else (accumulated, ManagerNone)
        else (accumulated, ManagerNone)
      else (accumulated, ManagerNone)
    else (accumulated, ManagerNone)
  else if timed_out then
    let acc := if idle 2%nat >? worker_idle_threshold cfg then u32 (accumulated + idle 3%nat) else 0 in
    let max_threads_to_stop := acc / WORKER_IDLE_SECONDS_THRESHOLD in
    if max_threads_to_stop >? 0 then
      let idle_surplus_threads := u32 (idle 4%nat - worker_idle_threshold cfg) in
      let n := if max_threads_to_stop >? idle_surplus_threads then idle_surplus_threads else max_threads_to_stop in
      let stops := List.filter (fun i => idle (5 + i)%nat >? worker_idle_threshold cfg) (seq 0 (Z.to_nat n)) in
      (0, ManagerStop (length stops))
    else (acc, ManagerNone)
  else (accumulated, ManagerNone).

Definition manager_peek_idle (cfg : pool_config) (idle : Z) : Z :=
  if idle >? worker_min cfg then idle - worker_min cfg else idle.
Definition manager_peek (cfg : pool_config) (key : string) (idle oc_idle : Z) : option Z :=
  if String.eqb key "combined_idle" then Some (u64 (manager_peek_idle cfg idle + oc_idle))
  else if String.eqb key "idle" then Some (manager_peek_idle cfg idle)
  else if String.eqb key "ocomm_idle" then Some oc_idle
  else None.                                (* abort() *)

Lemma filter_const (b : bool) (l : list nat) : length (List.filter (fun _ => b) l) = if b then length l else 0%nat.
Proof. induction l; simpl; destruct b; simpl; auto. Qed.

(** while the scoreboard does not change during the turn, the manager starts a worker
    only when none is idle and none is being created, keeping the pool within the process limit or the
    threshold, and stops only workers above the threshold, at most one for every 15 accumulated
    idle seconds. *)
Theorem manager_keeps_bounds cfg idle count pending runnable runq timed_out acc :
  0 <= idle <= count -> count < 2 ^ 31 -> 0 <= acc < 2 ^ 31 -> 0 <= worker_idle_threshold cfg < 2 ^ 31 ->
  match (manager_main cfg (fun _ => idle) (fun _ => count) pending runnable runq timed_out acc).2 with
  | ManagerStart => idle = 0 /\ pending = 0 /\ 0 < count /\
      count + 1 <= Z.max (worker_idle_threshold cfg) (worker_max cfg)
  | ManagerStop n => timed_out = true /\ (0 < n)%nat /\
      worker_idle_threshold cfg <= idle - Z.of_nat n /\ Z.of_nat n * WORKER_IDLE_SECONDS_THRESHOLD <= acc + idle
  | ManagerNone => True
  end.
Proof.
  intros Hi Hc Ha Ht. unfold manager_main, WORKER_IDLE_SECONDS_THRESHOLD.
  destruct ((idle =? 0) && (count >? 0) && (pending =? 0)) eqn:Hg.
  - rewrite !andb_true_iff, Z.gtb_ltb in Hg. destruct Hg as [[? ?] ?]. repeat case_match; simpl; cmp_hyps; try done; lia.
  - destruct timed_out; [|done]. rewrite !Z.gtb_ltb. destruct (Z.ltb_spec (worker_idle_threshold cfg) idle) as [Hlt|Hge].
    + rewrite u32_id by lia. pose proof (Z.div_mod (acc + idle) 15). pose proof (Z.mod_pos_bound (acc + idle) 15).
      case_cmp; simpl; [|done]. rewrite filter_const, length_seq, u32_id by lia. case_cmp; (split_and!; [done|lia|lia|lia]).
    + simpl. done.
Qed.

(** The turns of a manager that only ever times out, with [idle] idle workers all the time. *)
Fixpoint idle_turns (cfg : pool_config) (idle count : Z) (turns : nat) (acc : Z) : list manager_action :=
  match turns with
  | O => []
  | S n =>
      let '(acc', act) := manager_main cfg (fun _ => idle) (fun _ => count) 0 0 0 true acc in
      act :: idle_turns cfg idle count n acc'
  end.

(** a surplus of idle workers does not last: within 15 turns of one second the manager asks at
    least one of them to stop. *)
Theorem manager_ramps_down cfg idle count :
  0 <= worker_idle_threshold cfg < idle -> idle <= count -> count < 2 ^ 31 ->
  exists n, (0 < n)%nat /\ ManagerStop n ∈ idle_turns cfg idle count 15 0.
Proof.
  intros Hi Hc Hb.
  assert (forall turns acc, 0 <= acc < 15 -> 15 <= acc + Z.of_nat turns * idle -> (turns <= 15)%nat ->
    exists n, (0 < n)%nat /\ ManagerStop n ∈ idle_turns cfg idle count turns acc) as Hgen.
  { induction turns as [|k IH]; intros acc Ha Hs Hk; [lia|]. cbn [idle_turns].
    unfold manager_main. rewrite (proj2 (Z.eqb_neq idle 0)) by lia. cbn [andb].
    rewrite !Z.gtb_ltb, (proj2 (Z.ltb_lt _ idle)) by lia. rewrite u32_id by lia. unfold WORKER_IDLE_SECONDS_THRESHOLD.
    destruct (Z.ltb_spec 0 ((acc + idle) / 15)) as [Hp|Hn].
    - rewrite filter_const, length_seq. rewrite u32_id by lia. eexists. split; [|left]. case_cmp; lia.
    - pose proof (Z.div_mod (acc + idle) 15). pose proof (Z.mod_pos_bound (acc + idle) 15).
      destruct (IH (acc + idle)) as (n & Hn0 & Hin); [lia|lia|lia|]. exists n. split; [done|]. by right. }
  apply Hgen; lia.
Qed.

(** ** Schedules *)

Inductive wp_action :=
| DoWorker (i : nat) | DoAdd (idx : nat) (w : work) | DoSignal (victim : option nat)
| DoStart (ok : bool) | DoStop (victim : option nat).

Definition wp_do (spin : Z) (a : wp_action) (s : wp_state) : option wp_state :=
  match a with
  | DoWorker i => worker_main spin i s
  | DoAdd idx w => if w.1 =? 0 then None else manager_workqueue_additem idx w s
  | DoSignal victim => additem_signal victim s
  | DoStart ok => if Z.of_nat (length (wp_threads s)) + wp_failed s + 1 <? 2 ^ 32 then Some (worker_start ok s) else None
  | DoStop victim => worker_stop victim s
  end.
Fixpoint wp_run (spin : Z) (acts : list wp_action) (s : wp_state) : option wp_state :=
  match acts with
  | [] => Some s
  | a :: acts => s' ← wp_do spin a s; wp_run spin acts s'
  end.

Lemma wp_run_reachable spin acts : forall s s', wp_run spin acts s = Some s' -> rtc (wp_step spin) s s'.
Proof.
  induction acts as [|a acts IH]; intros s s' Hr; simpl in Hr; [by simplify_eq|].
  apply bind_Some in Hr as (s1 & H1 & Hr). eapply rtc_l; [|by apply IH]. destruct a; simpl in H1.
  - by eapply wp_worker.
  - destruct (Z.eqb_spec w.1 0); [done|]. by eapply wp_add.
  - by eapply wp_signal.
  - destruct (Z.ltb_spec (Z.of_nat (length (wp_threads s)) + wp_failed s + 1) (2 ^ 32)); simplify_eq. by apply wp_start.
  - by eapply wp_stop.
Qed.

(** One workqueue of default priority. *)
Definition wp_ex0 : wp_state := WpState (list_to_map [(1%nat, [])]) 0 0 0 0 0 0 None [] 0 0 [] [].

Lemma wp_ex0_initial : wp_initial wp_ex0.
Proof.
  split_and!; [| |done]; intros i l Hi; apply elem_of_list_to_map_2 in Hi; rewrite !elem_of_cons, elem_of_nil in Hi;
    destruct_or! Hi; try done; simplify_eq; done || lia.
Qed.

Lemma wp_run_ex spin acts s : wp_run spin acts wp_ex0 = Some s -> @reachable _ (wp_ts spin) s.
Proof. intros Hr. exists wp_ex0. split; [apply wp_ex0_initial|by eapply wp_run_reachable]. Qed.

(** ** What the pool promises *)

Section promises.
Context (PWQ_SPIN_THREADS : Z).
Let wp_system : TransitionSystem wp_state := wp_ts PWQ_SPIN_THREADS.
#[local] Existing Instance wp_system.

(** The scoreboard is exact at every moment: count is the number of workers that exist, idle the
    number of those that do not run a function, and the items of each workqueue are
    taken once each and in the order they were added. *)
Theorem pool_scoreboard s :
  reachable s ->
  sb_count s = zsum is_live (wp_threads s) /\ sb_idle s = zsum is_idle (wp_threads s) /\
  forall i, of_queue i (wp_added s) = of_queue i (wp_taken s) ++ default [] (wqlist s !! i).
Proof. intros Hr. destruct (wp_inv_reachable PWQ_SPIN_THREADS s Hr) as [_ _ ? _ ? ? _]. done. Qed.

(** a worker whose creation failed is never taken out of pending_thread_create, so after one
    failure the manager never starts another worker, however long all of them are busy. *)
Theorem failed_create_stops_growth s cfg count runnable runq timed_out acc :
  reachable s -> 0 < wp_failed s ->
  (manager_main cfg (fun _ => sb_idle s) count (pending_thread_create s) runnable runq timed_out acc).2 <> ManagerStart.
Proof.
  intros Hr Hf. destruct (wp_inv_reachable PWQ_SPIN_THREADS s Hr) as [_ _ _ _ _ _ Hp].
  pose proof (sums_range (wp_threads s)) as Hs. unfold manager_main.
  rewrite (proj2 (Z.eqb_neq (pending_thread_create s) 0)) by lia. rewrite andb_false_r.
  repeat case_match; done.
Qed.

End promises.

(** ** Concrete values *)

(** A worker finds no work and is about to sleep when an item is added: the signal
    comes too early. *)
Definition wp_race : list wp_action :=
  [DoStart true; DoWorker 0; DoWorker 0; DoWorker 0; DoWorker 0; DoWorker 0; DoWorker 0;
   DoAdd 1 (7, 70); DoSignal None; DoWorker 0].
Definition wp_lost : wp_state := default wp_ex0 (wp_run 0 wp_race wp_ex0).


Lemma manager_keeps_bounds_witness :
  (manager_main (PoolConfig 4 100 2 2) (fun _ => 9) (fun _ => 12) 0 0 0 true 30).2 = ManagerStop 2 /\
  2 <= 9 - 2 /\ 2 * 15 <= 30 + 9.
Proof.
  pose proof (manager_keeps_bounds (PoolConfig 4 100 2 2) 9 12 0 0 0 true 30
    ltac:(lia) ltac:(lia) ltac:(lia) ltac:(simpl; lia)) as H. vm_compute in H. split; [vm_compute; done|].
  destruct H as (_ & _ & ? & ?). done.
Defined.

Lemma manager_ramps_down_witness :
  exists n, (0 < n)%nat /\ ManagerStop n ∈ idle_turns (PoolConfig 4 100 2 2) 3 5 15 0.
Proof. apply (manager_ramps_down (PoolConfig 4 100 2 2) 3 5); [simpl; lia|lia|lia]. Defined.

Definition wp_failed_ex : wp_state := default wp_ex0 (wp_run 0 [DoStart true; DoStart false; DoWorker 0] wp_ex0).
Lemma wp_failed_ex_reachable : @reachable _ (wp_ts 0) wp_failed_ex.
Proof. apply (wp_run_ex 0 [DoStart true; DoStart false; DoWorker 0]). vm_compute. done. Qed.

Lemma pool_scoreboard_witness :
  sb_count wp_lost = 1 /\ sb_idle wp_lost = 1 /\ of_queue 1 (wp_added wp_lost) = [(7, 70)].
Proof.
  destruct (pool_scoreboard 0 wp_lost) as (Hc & Hi & Hq); [apply (wp_run_ex 0 wp_race); vm_compute; done|].
  split_and!; [exact Hc|exact Hi|exact (Hq 1%nat)].
Defined.

Lemma failed_create_stops_growth_witness :
  (manager_main (PoolConfig 4 100 2 2) (fun _ => sb_idle wp_failed_ex) (fun _ => 1)
     (pending_thread_create wp_failed_ex) 0 0 false 0).2 <> ManagerStart.
Proof.
  apply (failed_create_stops_growth 0 wp_failed_ex); [exact wp_failed_ex_reachable|vm_compute; done].
Defined.
