(* ===== verification/ProcInfo.v ===== *)
(** * What the pool knows about the machine: /proc

    Models linux/load.c, linux/thread_info.c and get_process_limit and get_runqueue_length of posix/manager.c
    (src/libpthread_workqueue/src): the text of /proc/stat and of /proc/self/task/<tid>/stat is scanned for the length of the run
    queue and for the number of running threads, on which the manager decides whether a worker may be started.

    Text is a list of bytes.  The files, the directory and the contents of uninitialised memory are
    parameters.  The functions of the C library that the code calls (strstr, atoi and sscanf with the format of the code) are
    modelled as far as the code uses them; a read past the end of an array is [None] or [PastEnd]. *)

From S2P Require Import Prelude WorkerPool.
From stdpp Require Import base tactics list numbers strings sets.
From Stdlib Require Import ZArith Lia.

Local Open Scope Z_scope.

(** ** Text *)

Notation bytes := (list Z).
Fixpoint str (s : string) : bytes :=
  match s with EmptyString => [] | String c s => Z.of_N (Ascii.N_of_ascii c) :: str s end.

Definition isspace (c : Z) : bool := (c =? 32) || ((9 <=? c) && (c <=? 13)).
Definition isdigit (c : Z) : bool := (48 <=? c) && (c <=? 57).

(** ** strstr and atoi on an array *)

Inductive search_result := Found (rest : bytes) | NotFound | PastEnd.

(** Whether the array starts with [pat]. *)
Fixpoint prefix_at (pat buf : bytes) : option bool :=
  match pat, buf with
  | [], _ => Some true
  | _ :: _, [] => None
  | p :: pat, c :: buf => if p =? c then prefix_at pat buf else Some false
  end.
Fixpoint strstr (buf pat : bytes) : search_result :=
  match buf with
  | [] => PastEnd
  | c :: rest =>
      match prefix_at pat buf with
      | None => PastEnd
      | Some true => Found buf
      | Some false => if c =? 0 then NotFound else strstr rest pat
      end
  end.

Fixpoint skip_spaces (buf : bytes) : bytes :=
  match buf with c :: rest => if isspace c then skip_spaces rest else buf | [] => [] end.
(** The number that the digits at the front make; the first other byte ends it. *)
Fixpoint strtol_digits (buf : bytes) (acc : Z) : option Z :=
  match buf with
  | [] => None
  | c :: rest => if isdigit c then strtol_digits rest (acc * 10 + (c - 48)) else Some acc
  end.
Definition clamp_long (z : Z) : Z := Z.max (- 2 ^ 63) (Z.min (2 ^ 63 - 1) z).
Definition atoi (buf : bytes) : option Z :=
  match skip_spaces buf with
  | [] => None
  | c :: rest =>
      if c =? 45 then n ← strtol_digits rest 0; Some (s32 (clamp_long (- n)))
      else if c =? 43 then n ← strtol_digits rest 0; Some (s32 (clamp_long n))
      else n ← strtol_digits (c :: rest) 0; Some (s32 (clamp_long n))
  end.

(** ** linux/load.c *)

(** The result of open and read of /proc/stat. *)
Inductive stat_file := StatOpenFails | StatReadFails | StatRead (content : bytes).
Definition STAT_BUF : nat := Z.to_nat 16384.

(** [garbage] is what buf holds before the read; None is a read past its end. *)
Definition linux_get_runqueue_length (garbage : bytes) (f : stat_file) : option Z :=
  match f with
  | StatOpenFails => Some 1
  | StatReadFails => Some 1
  | StatRead content =>
      let data := take (STAT_BUF - 1) content in
      let buf := data ++ drop (length data) garbage in
      runqsz ← match strstr buf (str "procs_running") with
               | Found p => n ← atoi (drop 14 p); Some (u32 n)
               | NotFound => Some 0
               | PastEnd => None
               end;
      Some (if runqsz =? 0 then 1 else runqsz)
  end.
Definition get_runqueue_length : bytes -> stat_file -> option Z := linux_get_runqueue_length.

(** getrlimit(RLIMIT_NPROC): the hard limit, None when it fails. *)
Definition DEFAULT_PROCESS_LIMIT : Z := 100.
Definition get_process_limit (rlim_max : option Z) : Z :=
  match rlim_max with None => DEFAULT_PROCESS_LIMIT | Some m => u32 m end.

(** ** linux/thread_info.c *)

(** A C string: the bytes before the first 0. *)
Fixpoint c_str (buf : bytes) : bytes :=
  match buf with c :: rest => if c =? 0 then [] else c :: c_str rest | [] => [] end.

(** The conversions of sscanf: the value and the rest of the string. *)
Fixpoint scan_digits (s : bytes) (acc : Z) : Z * bytes :=
  match s with c :: rest => if isdigit c then scan_digits rest (acc * 10 + (c - 48)) else (acc, s) | [] => (acc, []) end.
Definition scan_number (s : bytes) : option (Z * bytes) :=
  match s with c :: _ => if isdigit c then Some (scan_digits s 0) else None | [] => None end.
Definition scan_d (s : bytes) : option (Z * bytes) :=
  match skip_spaces s with
  | c :: rest =>
      if c =? 45 then '(n, rest) ← scan_number rest; Some (- n, rest)
      else if c =? 43 then scan_number rest else scan_number (c :: rest)
  | [] => None
  end.
Fixpoint scan_word (s : bytes) : bytes * bytes :=
  match s with
  | c :: rest => if isspace c then ([], s) else let '(w, rest) := scan_word rest in (c :: w, rest)
  | [] => ([], [])
  end.
Definition scan_s (s : bytes) : option (bytes * bytes) :=
  match scan_word (skip_spaces s) with ([], _) => None | (w, rest) => Some (w, rest) end.
Definition scan_c (s : bytes) : option Z := match s with c :: _ => Some c | [] => None end.

(** sscanf(thread_data, percent-d percent-s percent-c, with spaces between them): Some when it returns 3. *)
Definition sscanf_stat (s : bytes) : option (Z * bytes * Z) :=
  '(pid, s) ← scan_d s;
  '(dummy, s) ← scan_s (skip_spaces s);
  state ← scan_c (skip_spaces s);
  Some (pid, dummy, state).

Definition MAX_RESULT_SIZE : nat := Z.to_nat 4096.

(** What open, fcntl and read do. *)
Inductive task_file := OpenFails | FcntlFails | ReadFails | ReadData (data : bytes).

Section files.
Context (file : bytes -> task_file).

(** The return value and the new contents of [result]; only a read of no bytes is an error. *)
Definition _read_file (path result : bytes) : Z * bytes :=
  match file path with
  | OpenFails => (-1, result)
  | FcntlFails => (-1, result)
  | ReadFails => (0, result)
  | ReadData data =>
      let data := take MAX_RESULT_SIZE data in
      if bool_decide (data = []) then (-1, result) else (0, data ++ drop (length data) result)
  end.

Definition task_path : bytes := str "/proc/self/task".
Definition thread_path (name : bytes) : bytes := task_path ++ str "/" ++ name ++ str "/stat".

(** The loop over the directory: running and total counts. *)
Fixpoint count_threads (names : list bytes) (running_count total_count : Z) : Z * Z :=
  match names with
  | [] => (running_count, total_count)
  | name :: names =>
      let thread_data := replicate (S MAX_RESULT_SIZE) 0 in
      let '(rv, thread_data) := _read_file (thread_path name) thread_data in
      if rv =? 0 then
        match sscanf_stat (c_str thread_data) with
        | Some (_, _, state) =>
            count_threads names (if state =? 82 then u32 (running_count + 1) else running_count) (u32 (total_count + 1))
        | None => count_threads names running_count total_count
        end
      else count_threads names running_count total_count
  end.

(** None when opendir fails. *)
Definition threads_runnable (dir : option (list bytes)) : option (Z * Z) :=
  match dir with None => None | Some names => Some (count_threads names 0 0) end.
End files.

(** The reads of /proc in a turn of manager_main (posix/manager.c). *)
Definition manager_runnable (r : option (Z * Z)) : Z := match r with None => 0 | Some (running, _) => running end.

(** ** The length of the run queue *)

Definition digits_value (ds : bytes) : Z := foldl (fun acc c => acc * 10 + (c - 48)) 0 ds.
Definition all_digits (ds : bytes) : Prop := ds <> [] /\ Forall (fun c => isdigit c = true) ds.

Lemma prefix_at_refl pat rest : prefix_at pat (pat ++ rest) = Some true.
Proof. induction pat as [|p pat IH]; simpl; [by destruct rest|]. by rewrite Z.eqb_refl. Qed.
Lemma prefix_at_app pat buf rest b : prefix_at pat buf = Some b -> prefix_at pat (buf ++ rest) = Some b.
Proof. induction pat as [|p pat IH] in buf |- *; destruct buf as [|c buf]; simpl; try done. case_cmp; [apply IH|done]. Qed.

(** [pat] occurs in [pre ++ pat] at the end only. *)
Definition first_at (pat pre : bytes) : Prop :=
  forall k, (k < length pre)%nat -> prefix_at pat (drop k (pre ++ pat)) = Some false.

Lemma strstr_finds pat pre rest :
  pat <> [] -> Forall (fun c => c <> 0) pre -> first_at pat pre -> strstr (pre ++ pat ++ rest) pat = Found (pat ++ rest).
Proof.
  intros Hp. induction pre as [|c pre IH]; intros Hnz Hf.
  - destruct pat as [|p pat]; [done|]. cbn [app strstr]. rewrite (prefix_at_refl (p :: pat) rest : prefix_at (p :: pat) (p :: pat ++ rest) = _). done.
  - inversion Hnz as [|? ? Hc Hnz']; subst. cbn [app strstr].
    assert (prefix_at pat (c :: pre ++ pat ++ rest) = Some false) as ->.
    { rewrite app_comm_cons, app_assoc. apply prefix_at_app. apply (Hf 0%nat). simpl. lia. }
    rewrite (proj2 (Z.eqb_neq c 0)) by done. apply IH; [done|]. intros k Hk. apply (Hf (S k)). simpl. lia.
Qed.
Lemma strstr_past pat buf :
  Forall (fun c => c <> 0) buf -> (forall k, prefix_at pat (drop k buf) <> Some true) -> strstr buf pat = PastEnd.
Proof.
  induction buf as [|c buf IH]; intros Hnz Hno; [done|]. inversion Hnz as [|? ? Hc Hnz']; subst. cbn [strstr].
  specialize (Hno 0%nat) as H0. simpl in H0. destruct (prefix_at pat (c :: buf)) as [[]|]; try done.
  rewrite (proj2 (Z.eqb_neq c 0)) by done. apply IH; [done|]. intros k. apply (Hno (S k)).
Qed.

Lemma isdigit_range c : isdigit c = true -> 48 <= c <= 57.
Proof. unfold isdigit. rewrite andb_true_iff. lia. Qed.
Lemma digits_value_nonneg ds acc : Forall (fun c => isdigit c = true) ds -> 0 <= acc -> 0 <= foldl (fun acc c => acc * 10 + (c - 48)) acc ds.
Proof.
  induction ds as [|c ds IH] in acc |- *; intros Hd Ha; [done|]. inversion Hd as [|? ? Hc%isdigit_range Hd']; subst. simpl. apply IH; [done|lia].
Qed.
Lemma strtol_digits_run ds c rest acc :
  Forall (fun c => isdigit c = true) ds -> isdigit c = false ->
  strtol_digits (ds ++ c :: rest) acc = Some (foldl (fun acc c => acc * 10 + (c - 48)) acc ds).
Proof.
  intros Hd Hc. induction ds as [|d ds IH] in acc, Hd |- *; simpl; [by rewrite Hc|].
  inversion Hd as [|? ? Hd1 Hd2]; subst. rewrite Hd1. by apply IH.
Qed.
Lemma digit_not_space c : isdigit c = true -> isspace c = false.
Proof. intros Hc%isdigit_range. unfold isspace. rewrite orb_false_iff, andb_false_iff. lia. Qed.

Lemma atoi_run ds c rest :
  all_digits ds -> isdigit c = false -> digits_value ds < 2 ^ 31 -> atoi (ds ++ c :: rest) = Some (digits_value ds).
Proof.
  intros [Hne Hd] Hc Hv. destruct ds as [|d ds]; [done|]. inversion Hd as [|? ? Hd1 Hd2]; subst. pose proof (isdigit_range d Hd1).
  unfold atoi. cbn [app skip_spaces]. rewrite digit_not_space by done. rewrite !(proj2 (Z.eqb_neq d _)) by lia.
  pose proof (digits_value_nonneg (d :: ds) 0 Hd ltac:(lia)) as Hn. unfold digits_value in *.
  rewrite (strtol_digits_run (d :: ds) c rest 0 Hd Hc : strtol_digits (d :: ds ++ c :: rest) 0 = _).
  set (n := foldl _ 0 (d :: ds)) in *. change (Some (s32 (clamp_long n)) = Some n). f_equal.
  unfold clamp_long. rewrite s32_id; lia.
Qed.

(** When the line of /proc/stat that counts the running tasks is within the first 16382 bytes the function returns its
    number, whatever was in the buffer before; 0 is replaced by 1. *)
Theorem runqueue_length_parsed garbage pre ds post :
  Forall (fun c => c <> 0) pre -> first_at (str "procs_running") pre -> all_digits ds -> digits_value ds < 2 ^ 31 ->
  (length pre + length ds < STAT_BUF - 15)%nat ->
  linux_get_runqueue_length garbage (StatRead (pre ++ str "procs_running" ++ str " " ++ ds ++ [10] ++ post)) =
    Some (Z.max 1 (digits_value ds)).
Proof.
  intros Hnz Hf Hd Hv Hlen. unfold linux_get_runqueue_length.
  set (head := pre ++ str "procs_running" ++ str " " ++ ds ++ [10]).
  assert (length head <= STAT_BUF - 1)%nat as Hh by (unfold head; rewrite !length_app; cbn [length str]; lia).
  replace (pre ++ str "procs_running" ++ str " " ++ ds ++ [10] ++ post) with (head ++ post)
    by (unfold head; by rewrite <- !app_assoc).
  rewrite take_app_ge by done. rewrite <- app_assoc. set (tail := take _ post ++ _).
  replace (head ++ tail) with (pre ++ str "procs_running" ++ (str " " ++ ds ++ 10 :: tail))
    by (unfold head; by rewrite <- !app_assoc).
  rewrite strstr_finds by done. change (drop 14 (str "procs_running" ++ str " " ++ ds ++ 10 :: tail)) with (ds ++ 10 :: tail).
  rewrite atoi_run by done. simpl mbind. pose proof (digits_value_nonneg ds 0 (proj2 Hd) ltac:(lia)) as Hn. fold (digits_value ds) in Hn.
  rewrite u32_id by lia. f_equal. case_cmp; lia.
Qed.

(** A longer file whose first 16383 bytes do not have the line is searched past the end of the buffer: the buffer is not terminated. *)
Theorem runqueue_length_overruns garbage content :
  (STAT_BUF <= length content)%nat ->
  let buf := take (STAT_BUF - 1) content ++ drop (STAT_BUF - 1) garbage in
  Forall (fun c => c <> 0) buf -> (forall k, prefix_at (str "procs_running") (drop k buf) <> Some true) ->
  linux_get_runqueue_length garbage (StatRead content) = None.
Proof.
  intros Hlen buf Hnz Hno. unfold linux_get_runqueue_length. cbv zeta. rewrite length_take, Nat.min_l by lia. fold buf.
  by rewrite strstr_past.
Qed.

(** ** The running threads *)

(** A line of stat: process id, name in parentheses, state and the rest. *)
Record task := Task { t_pid : bytes; t_comm : bytes; t_state : Z; t_tail : bytes }.
Definition stat_line (t : task) : bytes := t_pid t ++ str " (" ++ t_comm t ++ str ") " ++ [t_state t] ++ t_tail t.

(** A line whose name has no white space. *)
Record plain (t : task) : Prop := {
  pl_pid : all_digits (t_pid t);
  pl_comm : Forall (fun c => isspace c = false /\ c <> 0) (t_comm t);
  pl_state : isspace (t_state t) = false /\ t_state t <> 0;
  pl_size : (length (stat_line t) <= MAX_RESULT_SIZE)%nat
}.

Lemma c_str_app a b : Forall (fun c => c <> 0) a -> c_str (a ++ b) = a ++ c_str b.
Proof. induction 1 as [|c a Hc Ha IH]; [done|]. simpl. rewrite (proj2 (Z.eqb_neq c 0)) by done. by rewrite IH. Qed.
Lemma scan_digits_run ds c rest acc :
  Forall (fun c => isdigit c = true) ds -> isdigit c = false ->
  scan_digits (ds ++ c :: rest) acc = (foldl (fun acc c => acc * 10 + (c - 48)) acc ds, c :: rest).
Proof.
  intros Hd Hc. induction ds as [|d ds IH] in acc, Hd |- *; simpl; [by rewrite Hc|].
  inversion Hd as [|? ? Hd1 Hd2]; subst. rewrite Hd1. by apply IH.
Qed.
Lemma scan_word_run w c rest : Forall (fun c => isspace c = false) w -> isspace c = true -> scan_word (w ++ c :: rest) = (w, c :: rest).
Proof. intros Hw Hc. induction Hw as [|d w Hd Hw IH]; simpl; [by rewrite Hc|]. by rewrite Hd, IH. Qed.
Lemma scan_d_run ds c rest : all_digits ds -> isdigit c = false -> scan_d (ds ++ c :: rest) = Some (digits_value ds, c :: rest).
Proof.
  intros [Hne Hd] Hc. destruct ds as [|d ds]; [done|]. inversion Hd as [|? ? Hd1 Hd2]; subst. pose proof (isdigit_range d Hd1).
  unfold scan_d. cbn [app skip_spaces]. rewrite digit_not_space by done. rewrite !(proj2 (Z.eqb_neq d _)) by lia.
  unfold scan_number. rewrite Hd1. f_equal. exact (scan_digits_run (d :: ds) c rest 0 Hd Hc).
Qed.

(** sscanf takes such a line apart as it was put together. *)
Lemma sscanf_plain t pad :
  plain t -> sscanf_stat (c_str (stat_line t ++ pad)) = Some (digits_value (t_pid t), str "(" ++ t_comm t ++ str ")", t_state t).
Proof.
  intros [[Hne Hpid] Hcomm [Hsp Hnz] _].
  set (w := str "(" ++ t_comm t ++ str ")"). set (front := t_pid t ++ str " " ++ w ++ str " " ++ [t_state t]).
  assert (stat_line t ++ pad = front ++ (t_tail t ++ pad)) as ->.
  { unfold stat_line, front, w. by rewrite <- !app_assoc. }
  rewrite c_str_app; cycle 1.
  { unfold front, w. rewrite !Forall_app. split_and!; try (by repeat constructor).
    - eapply Forall_impl; [exact Hpid|]. intros c Hc%isdigit_range. lia.
    - eapply Forall_impl; [exact Hcomm|]. naive_solver. }
  set (rest := c_str _). replace (front ++ rest) with (t_pid t ++ 32 :: w ++ 32 :: t_state t :: rest)
    by (unfold front; by rewrite <- !app_assoc).
  assert (Forall (fun c => isspace c = false) w) as Hw.
  { unfold w. rewrite !Forall_app. split_and!; try (by repeat constructor). eapply Forall_impl; [exact Hcomm|]. naive_solver. }
  unfold sscanf_stat. rewrite scan_d_run by done. cbn [mbind option_bind]. unfold scan_s.
  assert (skip_spaces (skip_spaces (32 :: w ++ 32 :: t_state t :: rest)) = w ++ 32 :: t_state t :: rest) as -> by done.
  rewrite scan_word_run by done. unfold w. cbn [app str mbind option_bind]. cbn [skip_spaces isspace]. simpl skip_spaces.
  by rewrite Hsp.
Qed.

Section directory.
Context (file : bytes -> task_file).

(** The state that is read for a name of the directory. *)
Definition state_of (name : bytes) : option Z :=
  let '(rv, data) := _read_file file (thread_path name) (replicate (S MAX_RESULT_SIZE) 0) in
  if rv =? 0 then (fun '(_, _, state) => state) <$> sscanf_stat (c_str data) else None.
Definition states (names : list bytes) : list Z := omap state_of names.
Definition running (l : list Z) : nat := length (filter (fun st => st = 82) l).

Lemma count_threads_run names r t :
  in_u32 r -> in_u32 t ->
  count_threads file names r t =
    (u32 (r + Z.of_nat (running (states names))), u32 (t + Z.of_nat (length (states names)))).
Proof.
  induction names as [|name names IH] in r, t |- *; intros Hr Ht.
  { simpl. unfold running. simpl. by rewrite !Z.add_0_r, !u32_id. }
  cbn [count_threads]. unfold states. cbn [omap list_omap]. fold (states names). unfold state_of at 1 2.
  destruct (_read_file _ _ _) as [rv data]. destruct (rv =? 0); [|by apply IH].
  destruct (sscanf_stat (c_str data)) as [[[pid w] st]|]; cbn [fmap option_fmap option_map]; [|by apply IH].
  assert (forall a b, u32 (u32 (a + 1) + b) = u32 (a + (1 + b))) as Hadd
    by (intros; unfold u32; rewrite Zplus_mod_idemp_l; f_equal; lia).
  rewrite IH; [|case_match; [apply u32_range|done]|apply u32_range]. unfold running. rewrite filter_cons. cbn [length].
  rewrite Hadd, Nat2Z.inj_succ, <- Z.add_1_l. f_equal. destruct (Z.eqb_spec st 82) as [->|Hne].
  - rewrite decide_True by done. cbn [length]. by rewrite Hadd, Nat2Z.inj_succ, <- Z.add_1_l.
  - by rewrite decide_False.
Qed.

Lemma state_plain name t : file (thread_path name) = ReadData (stat_line t) -> plain t -> state_of name = Some (t_state t).
Proof.
  intros Hf Hp. unfold state_of, _read_file. rewrite Hf, take_ge by apply Hp. rewrite bool_decide_eq_false_2; cycle 1.
  { unfold stat_line. destruct Hp as [[Hne _] _ _ _]. by destruct (t_pid t). }
  cbn [Z.eqb]. by rewrite sscanf_plain.
Qed.

Lemma states_plain tids :
  (forall n t, (n, t) ∈ tids -> file (thread_path n) = ReadData (stat_line t) /\ plain t) ->
  states (fst <$> tids) = (fun nt => t_state nt.2) <$> tids.
Proof.
  induction tids as [|[n t] tids IH]; intros H; [done|]. destruct (H n t) as [Hf Hp]; [set_solver|].
  unfold states. simpl. rewrite (state_plain n t Hf Hp). f_equal. apply IH. set_solver.
Qed.
End directory.

(** What the kernel shows in /proc/self/task: the entries of every directory and one for each thread.  The parent directory has a stat
    file of its own, with the state of the main thread. *)
Record proc_self_task (file : bytes -> task_file) (names : list bytes) (tids : list (bytes * task)) (main : task) : Prop := {
  ps_names : names ≡ₚ str "." :: str ".." :: (fst <$> tids);
  ps_self : file (thread_path (str ".")) = OpenFails;
  ps_parent : file (thread_path (str "..")) = ReadData (stat_line main);
  ps_main : plain main;
  ps_tids : forall n t, (n, t) ∈ tids -> file (thread_path n) = ReadData (stat_line t) /\ plain t
}.

Definition running_tasks (tids : list (bytes * task)) : Z := Z.of_nat (length (filter (fun nt => t_state nt.2 = 82) tids)).

(** C39: threads_runnable follows the entry for the parent directory too, where it finds the state of the whole process: it counts one
    thread too many, and the main thread twice when it runs, whatever the order of the directory.  So when as many threads run as there are
    processors, the main thread among them, the manager does not start the worker that it would start for that number. *)
Theorem main_thread_counted_twice file names tids main :
  proc_self_task file names tids main -> Z.of_nat (length tids) < 2 ^ 32 - 1 ->
  threads_runnable file (Some names) =
    Some (running_tasks tids + (if t_state main =? 82 then 1 else 0), Z.of_nat (length tids) + 1) /\
  forall cfg count runq acc, t_state main = 82 -> running_tasks tids = cpu_count cfg -> 0 < count -> worker_idle_threshold cfg <= count ->
    count < worker_max cfg -> runq <= cpu_count cfg ->
    (manager_main cfg (fun _ => 0) (fun _ => count) 0 (manager_runnable (threads_runnable file (Some names))) runq false acc).2 = ManagerNone /\
    (manager_main cfg (fun _ => 0) (fun _ => count) 0 (running_tasks tids) runq false acc).2 = ManagerStart.
Proof.
  intros [Hn Hself Hpar Hmain Htids] Hlen.
  assert (states file names ≡ₚ t_state main :: ((fun nt => t_state nt.2) <$> tids)) as Hst.
  { assert (state_of file (str ".") = None) as Hdot by (unfold state_of, _read_file; by rewrite Hself).
    unfold states. rewrite (omap_Permutation _ _ _ Hn). cbn [omap list_omap]. rewrite Hdot, (state_plain _ _ main Hpar Hmain). apply Permutation_refl'. f_equal. by apply states_plain. }
  assert (running (states file names) =
    ((if (t_state main =? 82)%Z then 1 else 0) + length (filter (fun nt => t_state nt.2 = 82%Z) tids))%nat) as Hrun.
  { unfold running. rewrite (Permutation_length (filter_Permutation _ _ _ Hst)), filter_cons.
    assert (forall l : list (bytes * task), length (filter (fun st => st = 82) ((fun nt => t_state nt.2) <$> l)) =
      length (filter (fun nt : bytes * task => t_state nt.2 = 82) l)) as Hmap.
    { induction l as [|nt l IH]; [done|]. cbn [fmap list_fmap]. rewrite !filter_cons. case_decide; simpl; by rewrite IH. }
    destruct (Z.eqb_spec (t_state main) 82); [rewrite decide_True by done|rewrite decide_False by done]; simpl; by rewrite Hmap. }
  assert (length (filter (fun nt : bytes * task => t_state nt.2 = 82%Z) tids) <= length tids)%nat as Hle by apply length_filter.
  assert (threads_runnable file (Some names) =
    Some (running_tasks tids + (if t_state main =? 82 then 1 else 0), Z.of_nat (length tids) + 1)) as Heq.
  { unfold threads_runnable. rewrite count_threads_run by lia. rewrite Hrun, (Permutation_length Hst). cbn [length].
    rewrite length_fmap. unfold running_tasks. destruct (t_state main =? 82); rewrite !u32_id; do 2 f_equal; lia. }
  split; [done|]. intros cfg count runq acc Hm Hcpu H0 Ht Hmax Hq. rewrite Heq, Hm, Z.eqb_refl. cbn [manager_runnable].
  unfold manager_main. cbn [Z.eqb]. rewrite Z.gtb_ltb, (proj2 (Z.ltb_lt 0 count)) by done. cbn [andb].
  rewrite (proj2 (Z.ltb_ge count _)), (proj2 (Z.ltb_lt count _)) by done.
  rewrite (proj2 (Z.leb_gt _ _)), (proj2 (Z.leb_le (running_tasks tids) _)), (proj2 (Z.leb_le runq _)) by lia. done.
Qed.

(** A process with a main thread and a worker, both running, on two processors. *)
Definition ex_main : task := Task (str "10") (str "server") 82 (str " 1 10").
Definition ex_worker : task := Task (str "11") (str "worker") 82 (str " 1 10").
Definition ex_file (path : bytes) : task_file :=
  if bool_decide (path = str "/proc/self/task/../stat") then ReadData (stat_line ex_main)
  else if bool_decide (path = str "/proc/self/task/10/stat") then ReadData (stat_line ex_main)
  else if bool_decide (path = str "/proc/self/task/11/stat") then ReadData (stat_line ex_worker)
  else OpenFails.

Lemma ex_plain t : t = ex_main \/ t = ex_worker -> plain t.
Proof.
  intros Ht. split; destruct Ht as [-> | ->]; try (split; done).
  1-2: split; [done|]; repeat constructor.
  1-2: repeat constructor; done.
  all: simpl; unfold MAX_RESULT_SIZE; lia.
Qed.
Lemma ex_proc : proc_self_task ex_file (str <$> ["."; ".."; "10"; "11"]%string) [(str "10", ex_main); (str "11", ex_worker)] ex_main.
Proof.
  split; [done|done|done|apply ex_plain; by left|]. intros n t Hin.
  apply elem_of_cons in Hin as [[= -> ->]|Hin]; [split; [done|apply ex_plain; by left]|].
  apply list_elem_of_singleton in Hin as [= -> ->]. split; [done|apply ex_plain; by right].
Qed.

Lemma main_thread_counted_twice_witness :
  proc_self_task ex_file (str <$> ["."; ".."; "10"; "11"]%string) [(str "10", ex_main); (str "11", ex_worker)] ex_main /\
  threads_runnable ex_file (Some (str <$> ["."; ".."; "10"; "11"]%string)) = Some (3, 3) /\
  (manager_main (PoolConfig 2 100 2 2) (fun _ => 0) (fun _ => 5) 0
     (manager_runnable (threads_runnable ex_file (Some (str <$> ["."; ".."; "10"; "11"]%string)))) 1 false 0).2 = ManagerNone.
Proof.
  split; [exact ex_proc|]. destruct (main_thread_counted_twice ex_file (str <$> ["."; ".."; "10"; "11"]%string)
    [(str "10", ex_main); (str "11", ex_worker)] ex_main ex_proc ltac:(simpl; lia)) as [Hc Hm].
  split; [exact Hc|]. exact (proj1 (Hm (PoolConfig 2 100 2 2) 5 1 0 eq_refl eq_refl ltac:(lia) ltac:(simpl; lia) ltac:(simpl; lia) ltac:(simpl; lia))).
Defined.

(** The name of a thread may have spaces: what follows the first of them is taken for the state.  A sleeping thread that is called
    [io R] is counted as running and a running one that is called [io w] is not. *)
Theorem spaces_hide_the_state :
  sscanf_stat (c_str (stat_line (Task (str "12") (str "io R") 83 (str " 1")) ++ [0])) = Some (12, str "(io", 82) /\
  sscanf_stat (c_str (stat_line (Task (str "12") (str "io w") 82 (str " 1")) ++ [0])) = Some (12, str "(io", 119).
Proof. split; vm_compute; reflexivity. Qed.

(** The limit of processes is cut to 32 bits: a limit that is a multiple of 2^32 leaves no worker above the threshold. *)
Theorem process_limit_wraps k cfg idle count pending runnable runq timed_out acc :
  0 <= k < 2 ^ 32 -> worker_max cfg = get_process_limit (Some (k * 2 ^ 32)) -> (forall j, worker_idle_threshold cfg <= count j) ->
  (forall j, 0 <= count j) ->
  (manager_main cfg idle count pending runnable runq timed_out acc).2 <> ManagerStart.
Proof.
  intros Hk Hmax Hthr Hc. assert (worker_max cfg = 0) as H0 by (rewrite Hmax; unfold get_process_limit, u32; by rewrite Z_mod_mult).
  unfold manager_main. rewrite H0. pose proof (Hthr 1%nat). pose proof (Hc 2%nat).
  destruct (_ && _ && _); [|repeat case_match; done]. rewrite (proj2 (Z.ltb_ge (count 1%nat) _)), (proj2 (Z.ltb_ge (count 2%nat) 0)) by done. done.
Qed.

Lemma runqueue_length_parsed_witness :
  linux_get_runqueue_length [] (StatRead (str "cpu 1 2" ++ str "procs_running" ++ str " " ++ str "7" ++ [10] ++ str "x")) = Some 7.
Proof.
  apply (runqueue_length_parsed [] (str "cpu 1 2") (str "7") (str "x")).
  - repeat constructor; done.
  - intros k Hk. simpl in Hk. do 7 (destruct k as [|k]; [vm_compute; reflexivity|]). lia.
  - split; [done|]. repeat constructor.
  - vm_compute. reflexivity.
  - simpl length. unfold STAT_BUF. lia.
Defined.
