(* ===== verification/PoolManager.v ===== *)
(** * The whole of libpthread_workqueue: workers, clients and the manager thread

    Puts the overcommit workers of Workqueue and the pool of WorkerPool together with the manager thread of posix/manager.c and with the
    calls of api.c, as one transition system: the manager reads the scoreboard without a lock, one word at a time, and every other
    thread can move between two reads.  [manager_main] of WorkerPool is what a turn of it decides for given reads, and
    [manager_turn_decides] shows that the steps here decide the same.  The suspension of the manager and what is left of
    the library in the child of a fork are here too. *)

From S2P Require Import Prelude Workqueue WorkerPool.
From stdpp Require Import base tactics list numbers gmap strings.
From Stdlib Require Import ZArith Lia.

Local Open Scope Z_scope.

(** ** The interface *)

(** witem_alloc of witem_cache.c, without a cache: malloc is asked again, after a second, until it gives memory.  The first reply that is
    not null, and what the item has then. *)
Record witem := WItem { wi_func : Z; wi_arg : Z; wi_flags : Z; wi_gencount : Z; wi_next : Z }.
Fixpoint witem_alloc (func func_arg : Z) (mallocs : list Z) : option (Z * witem) :=
  match mallocs with
  | [] => None
  | p :: mallocs => if p =? 0 then witem_alloc func func_arg mallocs else Some (p, WItem func func_arg 0 0 0)
  end.

(** The state of the library: both kinds of workqueues. *)
Notation lib := (oc_state * wp_state)%type.

(** The return value, the handle, the generation count and the new state; the wakeup of a worker of the pool is [additem_signal].  None
    is a submission that waits for memory. *)
Definition pthread_workqueue_additem_np (workq : workqueue) (func arg : Z) (mallocs : list Z) (l : lib) : option (Z * (Z * Z) * lib) :=
  if negb (valid_workq workq) || (func =? 0) then Some (EINVAL, (0, 0), l)
  else
    '(handle, wi) ← witem_alloc func arg mallocs;
    let idx := Z.to_nat (wq_queueprio workq) in
    let w := (wi_func wi, wi_arg wi) in
    l' ← (if negb (wq_overcommit workq =? 0) then oc ← manager_workqueue_additem_overcommit idx w l.1; Some (oc, l.2)
          else wp ← manager_workqueue_additem idx w l.2; Some (l.1, wp));
    Some (0, (handle, wi_gencount wi), l').

(** pthread_workqueue_init_np: the return value and pwq_initialized; [init] is what manager_init returns. *)
Definition pthread_workqueue_init_np (pwq_initialized : bool) (init : Z) : Z * bool :=
  if pwq_initialized then (0, true) else if init <? 0 then (-1, false) else (0, true).

(** manager_start: the replies of pthread_create, EAGAIN is tried again after a second. *)
Definition EAGAIN : Z := 11.
Inductive start_result := MgrStarted | MgrAborted | MgrTrying.
Fixpoint manager_start (creates : list Z) : start_result :=
  match creates with
  | [] => MgrTrying
  | rv :: creates => if rv =? EAGAIN then manager_start creates else if negb (rv =? 0) then MgrAborted else MgrStarted
  end.

(** ** The threads *)

(** Where the manager is.  The reads of a turn are numbered as in [manager_main]. *)
Inductive mg_pc :=
| MgMin (i : Z)                       (* for (i = 0; i < worker_min; i++) worker_start() *)
| MgLoop                              (* reads sb_suspend *)
| MgTimed                             (* in sem_timedwait *)
| MgWait                              (* in sem_wait *)
| MgIdle0 | MgCount0 | MgPending      (* idle == 0 && count > 0 && pending_thread_create == 0 *)
| MgCount1 | MgCount2 | MgRunnable | MgRunq | MgIdle1
| MgStart                             (* worker_start() *)
| MgIdle2 | MgIdle3 | MgIdle4 (max_threads_to_stop : Z)
| MgStopTest (n : nat)                (* n turns of the loop left *)
| MgStop (n : nat).                   (* worker_stop(), then n turns left *)

(** A thread in manager_suspend or manager_resume. *)
Inductive cl_pc :=
| ClManager                           (* while (wqlist_has_manager == 0) *)
| ClSuspended                         (* if (scoreboard.sb_suspend == 0) *)
| ClSuspend                           (* sb_suspend = 1 *)
| ClResumed                           (* if (scoreboard.sb_suspend) *)
| ClResume                            (* sb_suspend = 0 *)
| ClPost                              (* sem_post(&scoreboard.sb_sem) *)
| ClDone.

#[export] Instance cl_pc_eq_dec : EqDecision cl_pc.
Proof. solve_decision. Defined.

Record pm_state := PmState {
  pm_oc : oc_state;
  pm_pool : wp_state;
  pm_mgr : mg_pc;
  pm_timed : bool;                    (* sem_timedwait_rv == ETIMEDOUT *)
  pm_acc : Z;                         (* worker_idle_seconds_accumulated *)
  sb_suspend : Z;
  wqlist_has_manager : Z;
  pm_clients : list cl_pc
}.

Definition set_mgr (pc : mg_pc) (timed : bool) (acc : Z) (s : pm_state) : pm_state :=
  PmState (pm_oc s) (pm_pool s) pc timed acc (sb_suspend s) (wqlist_has_manager s) (pm_clients s).
Definition set_pool (p : wp_state) (s : pm_state) : pm_state :=
  PmState (pm_oc s) p (pm_mgr s) (pm_timed s) (pm_acc s) (sb_suspend s) (wqlist_has_manager s) (pm_clients s).
Definition set_lib (l : lib) (s : pm_state) : pm_state :=
  PmState l.1 l.2 (pm_mgr s) (pm_timed s) (pm_acc s) (sb_suspend s) (wqlist_has_manager s) (pm_clients s).
Definition set_client (i : nat) (pc : cl_pc) (suspend : Z) (s : pm_state) : pm_state :=
  PmState (pm_oc s) (pm_pool s) (pm_mgr s) (pm_timed s) (pm_acc s) suspend (wqlist_has_manager s) (<[i:=pc]> (pm_clients s)).
Definition set_sem (n : Z) (p : wp_state) : wp_state :=
  WpState (wqlist p) (wqlist_mask p) (sb_idle p) (sb_count p) (pending_thread_create p) (current_threads_spinning p) n
    (wqlist_mtx p) (wp_threads p) (wp_failed p) (wp_adding p) (wp_added p) (wp_taken p).

(** What the rest of the machine replies to the manager. *)
Record mg_reply := MgReply {
  r_timeout : bool;                   (* sem_timedwait: ETIMEDOUT, or another error *)
  r_runnable : Z;                     (* threads_runnable, 0 when it fails *)
  r_runq : Z;                         (* get_runqueue_length *)
  r_create : bool;                    (* pthread_create *)
  r_victim : option nat               (* the worker that pthread_cond_signal wakes *)
}.

(** ** The manager *)

(** The rest of the loop that stops workers, with n turns left. *)
Definition stop_loop (n : nat) : mg_pc := match n with O => MgLoop | S _ => MgStopTest n end.
(** From max_threads_to_stop on. *)
Definition ramp_down (acc : Z) : mg_pc * Z :=
  let max_threads_to_stop := acc / WORKER_IDLE_SECONDS_THRESHOLD in
  if max_threads_to_stop >? 0 then (MgIdle4 max_threads_to_stop, 0) else (MgLoop, acc).

Section manager.
Context (cfg : pool_config).

(** What the manager does with the word [v] that it reads: where it goes on, and worker_idle_seconds_accumulated. *)
Definition mg_read (timed : bool) (pc : mg_pc) (v acc : Z) : mg_pc * Z :=
  let tick := if timed then MgIdle2 else MgLoop in
  match pc with
  | MgIdle0 => (if v =? 0 then MgCount0 else tick, acc)
  | MgCount0 => (if v >? 0 then MgPending else tick, acc)
  | MgPending => (if v =? 0 then MgCount1 else tick, acc)
  | MgCount1 => (if v <? worker_idle_threshold cfg then MgStart else MgCount2, acc)
  | MgCount2 => (if v <? worker_max cfg then MgRunnable else MgLoop, acc)
  | MgRunnable => (if v <=? cpu_count cfg then MgRunq else MgLoop, acc)
  | MgRunq => (if v <=? cpu_count cfg then MgIdle1 else MgLoop, acc)
  | MgIdle1 => (if v =? 0 then MgStart else MgLoop, acc)
  | MgIdle2 => if v >? worker_idle_threshold cfg then (MgIdle3, acc) else ramp_down 0
  | MgIdle3 => ramp_down (u32 (acc + v))
  | MgIdle4 max_threads_to_stop =>
      let idle_surplus_threads := u32 (v - worker_idle_threshold cfg) in
      (stop_loop (Z.to_nat (if max_threads_to_stop >? idle_surplus_threads then idle_surplus_threads else max_threads_to_stop)), acc)
  | MgStopTest (S n) => (if v >? worker_idle_threshold cfg then MgStop n else stop_loop n, acc)
  | pc => (pc, acc)
  end.

(** The word that is read. *)
Definition mg_word (r : mg_reply) (p : wp_state) (pc : mg_pc) : Z :=
  match pc with
  | MgCount0 | MgCount1 | MgCount2 => sb_count p
  | MgPending => pending_thread_create p
  | MgRunnable => r_runnable r
  | MgRunq => r_runq r
  | _ => sb_idle p
  end.

(** One step of manager_main.  Its thread blocks all signals, so sem_wait is not interrupted. *)
Definition manager_step (r : mg_reply) (s : pm_state) : option pm_state :=
  let p := pm_pool s in
  let go pc := set_mgr pc (pm_timed s) (pm_acc s) s in
  match pm_mgr s with
  | MgMin i => if i <? worker_min cfg then Some (set_pool (worker_start (r_create r) p) (go (MgMin (i + 1)))) else Some (go MgLoop)
  | MgLoop => Some (go (if sb_suspend s =? 0 then MgTimed else MgWait))
  | MgTimed =>
      if sb_sem p >? 0 then Some (set_pool (set_sem (sb_sem p - 1) p) (set_mgr MgIdle0 false (pm_acc s) s))
      else Some (set_mgr MgIdle0 (r_timeout r) (pm_acc s) s)
  | MgWait => if sb_sem p >? 0 then Some (set_pool (set_sem (sb_sem p - 1) p) (go MgIdle0)) else None
  | MgStart => Some (set_pool (worker_start (r_create r) p) (go MgLoop))
  | MgStop n => p' ← worker_stop (r_victim r) p; Some (set_pool p' (go (stop_loop n)))
  | pc => let '(pc', acc) := mg_read (pm_timed s) pc (mg_word r p pc) (pm_acc s) in Some (set_mgr pc' (pm_timed s) acc s)
  end.

(** One step of a thread in manager_suspend or manager_resume. *)
Definition client_step (i : nat) (s : pm_state) : option pm_state :=
  match pm_clients s !! i with
  | Some ClManager => Some (set_client i (if wqlist_has_manager s =? 0 then ClManager else ClSuspended) (sb_suspend s) s)
  | Some ClSuspended => Some (set_client i (if sb_suspend s =? 0 then ClSuspend else ClDone) (sb_suspend s) s)
  | Some ClSuspend => Some (set_client i ClDone 1 s)
  | Some ClResumed => Some (set_client i (if sb_suspend s =? 0 then ClDone else ClResume) (sb_suspend s) s)
  | Some ClResume => Some (set_client i ClPost 0 s)
  | Some ClPost => Some (set_pool (set_sem (sb_sem (pm_pool s) + 1) (pm_pool s)) (set_client i ClDone (sb_suspend s) s))
  | Some ClDone | None => None
  end.
Definition manager_suspend (s : pm_state) : pm_state :=
  PmState (pm_oc s) (pm_pool s) (pm_mgr s) (pm_timed s) (pm_acc s) (sb_suspend s) (wqlist_has_manager s) (pm_clients s ++ [ClManager]).
Definition manager_resume (s : pm_state) : pm_state :=
  PmState (pm_oc s) (pm_pool s) (pm_mgr s) (pm_timed s) (pm_acc s) (sb_suspend s) (wqlist_has_manager s) (pm_clients s ++ [ClResumed]).

Context (PWQ_SPIN_THREADS : Z).

(** A step of any thread.  The process never creates 2^32 threads. *)
Inductive pm_step : pm_state -> pm_state -> Prop :=
| pm_overcommit s i oc : overcommit_worker_main i (pm_oc s) = Some oc -> pm_step s (set_lib (oc, pm_pool s) s)
| pm_worker s i p : worker_main PWQ_SPIN_THREADS i (pm_pool s) = Some p -> pm_step s (set_pool p s)
| pm_spurious s i : wp_threads (pm_pool s) !! i = Some WkSleep -> pm_step s (set_pool (set_pc i WkLock (pm_pool s)) s)
| pm_add s workq func arg mallocs rv h l :
    pthread_workqueue_additem_np workq func arg mallocs (pm_oc s, pm_pool s) = Some (rv, h, l) ->
    Z.of_nat (length (oc_threads l.1)) < 2 ^ 32 -> pm_step s (set_lib l s)
| pm_signal s victim p : additem_signal victim (pm_pool s) = Some p -> pm_step s (set_pool p s)
| pm_manager s r s' :
    Z.of_nat (length (wp_threads (pm_pool s))) + wp_failed (pm_pool s) + 1 < 2 ^ 32 -> manager_step r s = Some s' -> pm_step s s'
| pm_has_manager s :                  (* the end of manager_start *)
    pm_step s (PmState (pm_oc s) (pm_pool s) (pm_mgr s) (pm_timed s) (pm_acc s) (sb_suspend s) 1 (pm_clients s))
| pm_client s i s' : client_step i s = Some s' -> pm_step s s'
| pm_call s : pm_step s (manager_suspend s)
| pm_call_resume s : pm_step s (manager_resume s).

(** After manager_init, the creation of the workqueues and that of the manager thread. *)
Definition pm_initial (s : pm_state) : Prop :=
  oc_initial (pm_oc s) /\ wp_initial (pm_pool s) /\ s = PmState (pm_oc s) (pm_pool s) (MgMin 0) false 0 0 0 [].

#[local] Instance pm_ts : TransitionSystem pm_state := { ts_init := pm_initial; ts_step := pm_step }.

(** ** Invariant *)

Definition worker_limit : Z := Z.max (worker_min cfg) (Z.max (worker_idle_threshold cfg) (worker_max cfg)).

(** What the manager knows of the number of workers: only it creates them. *)
Definition count_known (pc : mg_pc) (count : Z) : Prop :=
  match pc with
  | MgMin i => count <= i <= worker_limit
  | MgStart | MgRunnable | MgRunq | MgIdle1 => count < worker_limit
  | _ => count <= worker_limit
  end.

Record pm_inv (s : pm_state) : Prop := {
  pi_oc : oc_inv (pm_oc s);
  pi_pool : wp_inv (pm_pool s);
  pi_count : count_known (pm_mgr s) (sb_count (pm_pool s));
  pi_sem : 0 <= sb_sem (pm_pool s);
  pi_wait : pm_mgr s = MgWait -> sb_suspend s <> 0 \/ 0 < sb_sem (pm_pool s) \/ ClPost ∈ pm_clients s
}.

Lemma count_known_mono pc c c' : c' <= c -> count_known pc c -> count_known pc c'.
Proof. destruct pc; simpl; lia. Qed.

(** A step of the pool that is not the manager's: no new worker, no post is taken. *)
Lemma pm_inv_pool p s :
  pm_inv s -> wp_inv p -> sb_count p <= sb_count (pm_pool s) -> sb_sem (pm_pool s) <= sb_sem p -> pm_inv (set_pool p s).
Proof.
  intros [Ho Hp Hc Hs Hw] Hp' Hle Hsem. split; simpl; [done|done|by eapply count_known_mono|lia|].
  intros Hm. destruct (Hw Hm) as [?|[?|?]]; [by left|right; left; lia|by do 2 right].
Qed.

Lemma worker_main_mono i p p' :
  wp_inv p -> worker_main PWQ_SPIN_THREADS i p = Some p' -> sb_count p' <= sb_count p /\ sb_sem p <= sb_sem p'.
Proof.
  intros Hinv Hst. pose proof (wi_count _ Hinv) as Hc. pose proof (wi_size _ Hinv) as Hsz. pose proof (sums_range (wp_threads p)) as Hr.
  unfold worker_main in Hst. destruct (wp_threads p !! i) as [pc|] eqn:Hi; [|done].
  assert (is_live pc <= zsum is_live (wp_threads p)) as Hl by (eapply (zsum_lookup_le is_live); [by intros []|done]).
  destruct pc; unfold scan_mask, scan_at, scan_queue, post_if_last in Hst; simpl in *;
    repeat (case_match; simplify_eq; simpl in * ); simplify_option_eq; repeat (case_match; simplify_option_eq); simpl; try lia;
    try (rewrite u32_id by lia; lia).
Qed.

Lemma cond_signal_same victim p p' : cond_signal victim p = Some p' -> sb_count p' = sb_count p /\ sb_sem p' = sb_sem p.
Proof. unfold cond_signal. intros. repeat (case_match; simplify_eq); done. Qed.
Lemma insert_tail_same always idx w p p' : insert_tail always idx w p = Some p' -> sb_count p' = sb_count p /\ sb_sem p' = sb_sem p.
Proof. unfold insert_tail. intros. case_match; simplify_eq; done. Qed.
Lemma additem_signal_inv victim p p' :
  wp_inv p -> additem_signal victim p = Some p' -> wp_inv p' /\ sb_count p' = sb_count p /\ sb_sem p' = sb_sem p.
Proof.
  intros Hinv Hst. unfold additem_signal in Hst. case_match; [|done].
  assert (wp_inv (set_adding (wp_adding p - 1) p)) as H1 by by apply (wp_inv_core p).
  case_match; [|by simplify_eq]. destruct (cond_signal_same _ _ _ Hst) as [-> ->]. split; [by eapply wp_inv_signal|done].
Qed.
Lemma worker_stop_inv victim p p' :
  wp_inv p -> worker_stop victim p = Some p' -> wp_inv p' /\ sb_count p' = sb_count p /\ sb_sem p' = sb_sem p.
Proof.
  intros Hinv Hst. unfold worker_stop in Hst. destruct (wqlist_mtx p); [done|].
  apply bind_Some in Hst as (i & _ & Hst). apply bind_Some in Hst as (q & Hins & Hst).
  destruct (cond_signal_same _ _ _ Hst) as [-> ->]. destruct (insert_tail_same _ _ _ _ _ Hins) as [-> ->].
  split; [|done]. eapply wp_inv_signal; [|done]. by eapply wp_inv_insert.
Qed.
Lemma worker_start_count ok p :
  wp_inv p -> Z.of_nat (length (wp_threads p)) + wp_failed p + 1 < 2 ^ 32 ->
  sb_count (worker_start ok p) <= sb_count p + 1 /\ sb_sem (worker_start ok p) = sb_sem p.
Proof.
  intros [_ _ _ Hsz Hc _ _] Hb. pose proof (sums_range (wp_threads p)). unfold worker_start. destruct ok; simpl; rewrite !u32_id; try lia.
  all: rewrite ?u32_id; try lia; done.
Qed.

(** What a submission does: EINVAL and nothing else for a null function or a structure that is not a workqueue; otherwise, as soon as there is
    memory, the function and its argument become the last item of the workqueue. *)
Theorem additem_np_adds workq func arg mallocs l rv h l' :
  pthread_workqueue_additem_np workq func arg mallocs l = Some (rv, h, l') ->
  (rv = EINVAL /\ l' = l /\ (valid_workq workq = false \/ func = 0)) \/
  (rv = 0 /\ valid_workq workq = true /\ func <> 0 /\ h.1 <> 0 /\ h.1 ∈ mallocs /\
   let idx := Z.to_nat (wq_queueprio workq) in
   let queues l := if wq_overcommit workq =? 0 then wqlist l.2 else ocwq l.1 in
   exists items, queues l !! idx = Some items /\ queues l' = <[idx:=items ++ [(func, arg)]]> (queues l)).
Proof.
  unfold pthread_workqueue_additem_np. intros Hst. destruct (valid_workq workq) eqn:Hv; simpl in Hst; [|left; simplify_eq; eauto].
  destruct (Z.eqb_spec func 0) as [Hf|Hf]; [left; simplify_eq; eauto|]. right.
  destruct (witem_alloc func arg mallocs) as [[p wi]|] eqn:Ha; [|done]. simpl in Hst.
  assert (p <> 0 /\ p ∈ mallocs /\ wi_func wi = func /\ wi_arg wi = arg) as (Hp & Hin & Hwf & Hwa).
  { clear -Ha. induction mallocs as [|q mallocs IH]; simpl in Ha; [done|]. destruct (Z.eqb_spec q 0); [|by simplify_eq; set_solver].
    destruct (IH Ha) as (? & ? & ? & ?). set_solver. }
  destruct (wq_overcommit workq =? 0); simpl in Hst; cbv zeta; simpl.
  - unfold manager_workqueue_additem, insert_tail in Hst. destruct (wqlist l.2 !! _) as [items|] eqn:Hi; simplify_eq/=. eauto 10.
  - unfold manager_workqueue_additem_overcommit in Hst. destruct (ocwq l.1 !! _) as [items|] eqn:Hi; simplify_eq/=.
    destruct (ocwq_idle_threads l.1 >? 0); simplify_eq/=; eauto 10.
Qed.

(** A submission is one step of the workqueue that it is for. *)
Lemma additem_np_inv workq func arg mallocs l rv h l' :
  oc_inv l.1 -> wp_inv l.2 -> pthread_workqueue_additem_np workq func arg mallocs l = Some (rv, h, l') ->
  Z.of_nat (length (oc_threads l'.1)) < 2 ^ 32 ->
  oc_inv l'.1 /\ wp_inv l'.2 /\ sb_count l'.2 = sb_count l.2 /\ sb_sem l'.2 = sb_sem l.2.
Proof.
  intros Ho Hp Hst Hb. unfold pthread_workqueue_additem_np in Hst. destruct (negb (valid_workq workq) || _); [by simplify_eq|].
  destruct (witem_alloc func arg mallocs) as [[p wi]|]; [|done]. simpl in Hst. destruct (negb (wq_overcommit workq =? 0)).
  - destruct (manager_workqueue_additem_overcommit _ _ _) as [oc|] eqn:E; simplify_eq/=. split; [by eapply oc_inv_add|done].
  - destruct (manager_workqueue_additem _ _ _) as [wp|] eqn:E; simplify_eq/=. unfold manager_workqueue_additem in E.
    destruct (insert_tail_same _ _ _ _ _ E) as [-> ->]. split_and!; [done|by eapply wp_inv_insert|done|done].
Qed.

(** A read of the manager. *)
Lemma mg_read_known timed pc r p acc :
  count_known pc (sb_count p) -> (forall n, pc <> MgStop n) -> (forall i, pc <> MgMin i) -> pc <> MgStart -> pc <> MgWait ->
  let pc' := (mg_read timed pc (mg_word r p pc) acc).1 in count_known pc' (sb_count p) /\ pc' <> MgWait.
Proof.
  intros Hc H1 H2 H3 H4.
  assert (forall a, let pc' := (ramp_down a).1 in (sb_count p <= worker_limit -> count_known pc' (sb_count p)) /\ pc' <> MgWait) as Hramp
    by (intros a; unfold ramp_down; case_match; done).
  assert (forall n, (sb_count p <= worker_limit -> count_known (stop_loop n) (sb_count p)) /\ stop_loop n <> MgWait) as Hstop
    by (intros []; done).
  destruct pc; simpl in *; try done; try (split; [by apply Hramp|by apply Hramp]); try (split; [by apply Hstop|by apply Hstop]).
  all: try (rewrite Z.gtb_ltb; case_cmp; destruct timed; simpl; split; done || lia).
  all: try (case_cmp; try destruct timed; simpl; unfold worker_limit in *; split; done || lia).
  destruct n as [|n]; simpl; [split; done|]. rewrite Z.gtb_ltb. case_cmp; [split; done|]. split; by apply Hstop.
Qed.

Lemma pm_inv_manager r s s' :
  pm_inv s -> Z.of_nat (length (wp_threads (pm_pool s))) + wp_failed (pm_pool s) + 1 < 2 ^ 32 -> manager_step r s = Some s' -> pm_inv s'.
Proof.
  intros [Ho Hp Hc Hs Hw] Hb Hst. unfold manager_step in Hst. destruct (pm_mgr s) eqn:Hpc.
  all: try (destruct (mg_read_known (pm_timed s) (pm_mgr s) r (pm_pool s) (pm_acc s)) as [Hk Hn];
    [by rewrite Hpc|by rewrite Hpc..|]; rewrite Hpc in Hk, Hn; destruct (mg_read _ _ _ _) as [pc' acc'];
    simplify_eq; split; done).
  - pose proof (worker_start_count (r_create r) (pm_pool s) Hp Hb). simpl in Hc.
    destruct (Z.ltb_spec i (worker_min cfg)); simplify_eq; split; simpl; try done; try lia.
    + by apply wp_inv_start.
    + unfold worker_limit in *. lia.
  - simplify_eq. split; simpl; try done; destruct (Z.eqb_spec (sb_suspend s) 0); try done. by left.
  - rewrite Z.gtb_ltb in Hst. destruct (Z.ltb_spec 0 (sb_sem (pm_pool s))); simplify_eq; split; simpl; try done; try lia.
    by apply (wp_inv_core (pm_pool s)).
  - rewrite Z.gtb_ltb in Hst. destruct (Z.ltb_spec 0 (sb_sem (pm_pool s))); simplify_eq; split; simpl; try done; try lia.
    by apply (wp_inv_core (pm_pool s)).
  - pose proof (worker_start_count (r_create r) (pm_pool s) Hp Hb). simpl in Hc. simplify_eq. split; simpl; try done; [by apply wp_inv_start|lia..].
  - destruct (worker_stop _ _) as [p'|] eqn:E; simplify_eq/=. destruct (worker_stop_inv _ _ _ Hp E) as (Hp' & Hc' & Hs').
    split; simpl; try done; [by destruct n; simpl; rewrite Hc'|lia|by destruct n].
Qed.

Lemma pm_inv_client i s s' : pm_inv s -> client_step i s = Some s' -> pm_inv s'.
Proof.
  intros [Ho Hp Hc Hs Hw] Hst. unfold client_step in Hst. destruct (pm_clients s !! i) as [pc|] eqn:Hi; [|done].
  assert (forall pc', pc <> ClPost -> ClPost ∈ pm_clients s -> ClPost ∈ <[i:=pc']> (pm_clients s)) as Hkeep.
  { intros pc' Hne (j & Hj)%list_elem_of_lookup. apply list_elem_of_lookup. exists j. rewrite list_lookup_insert_ne; [done|]. congruence. }
  destruct pc; simplify_eq; split; simpl; try done.
  all: try (intros Hm; destruct (Hw Hm) as [?|[?|?]]; [by left|by right; left|right; right; by apply Hkeep]).
  - intros _. right. right. apply list_elem_of_lookup. exists i. apply list_lookup_insert_eq. by eapply lookup_lt_Some.
  - by apply (wp_inv_core (pm_pool s)).
  - lia.
  - intros _. right. left. lia.
Qed.

Lemma pm_inv_reachable s : 0 <= worker_min cfg -> reachable s -> pm_inv s.
Proof.
  intros Hmin. apply invariant_reachable.
  - intros t (Ho & Hp & Heq). assert (pm_mgr t = MgMin 0) as Hm by by rewrite Heq.
    assert (sb_count (pm_pool t) = 0 /\ sb_sem (pm_pool t) = 0) as [Hc Hs] by (destruct Hp as (_ & _ & ->); done).
    split; [apply oc_inv_reachable, reachable_init, Ho| |rewrite Hm, Hc; simpl; unfold worker_limit; lia|lia|by rewrite Hm].
    apply (wp_inv_reachable PWQ_SPIN_THREADS). exists (pm_pool t). split; [done|apply rtc_refl].
  - intros t t' Hinv Hst. pose proof (pi_pool _ Hinv) as Hp. pose proof (pi_oc _ Hinv) as Ho.
    destruct Hst as [s1 i oc Hst|s1 i p Hst|s1 i Hi|s1 workq func arg mallocs rv h l Hst Hb|s1 victim p Hst|s1 r s2 Hb Hst|s1|s1 i s2 Hst|s1|s1].
    + destruct Hinv. split; try done. by eapply oc_inv_worker.
    + destruct (worker_main_mono _ _ _ Hp Hst). apply pm_inv_pool; [done|by eapply wp_inv_worker|done|done].
    + apply pm_inv_pool; [done|by eapply (wp_inv_move _ i WkSleep)|done|done].
    + destruct (additem_np_inv _ _ _ _ (pm_oc s1, pm_pool s1) _ _ _ Ho Hp Hst Hb) as (Ho' & Hp' & Hc & Hs). simpl in Hc, Hs.
      destruct (pm_inv_pool l.2 s1 Hinv Hp') as [? ? ? ? ?]; [lia|lia|]. by split.
    + destruct (additem_signal_inv _ _ _ Hp Hst) as (Hp' & Hc & Hs). apply pm_inv_pool; [done|done|lia|lia].
    + by eapply pm_inv_manager.
    + destruct Hinv. by split.
    + by eapply pm_inv_client.
    + destruct Hinv as [? ? ? ? Hw]. split; try done. intros Hm. simpl. destruct (Hw Hm) as [?|[?|?]]; [by left|by right; left|set_solver].
    + destruct Hinv as [? ? ? ? Hw]. split; try done. intros Hm. simpl. destruct (Hw Hm) as [?|[?|?]]; [by left|by right; left|set_solver].
Qed.


(** C38: a resume is never lost: a manager that sleeps in sem_wait although it is not suspended, with no resume about to
    post, can go on, however suspensions, resumptions and the posts of the workers interleave. *)
Theorem resume_not_lost s r :
  0 <= worker_min cfg -> reachable s -> pm_mgr s = MgWait -> sb_suspend s = 0 -> ClPost ∉ pm_clients s ->
  exists s', manager_step r s = Some s' /\ pm_mgr s' = MgIdle0.
Proof.
  intros Hmin Hr Hm Hs Hn. destruct (pi_wait _ (pm_inv_reachable s Hmin Hr) Hm) as [?|[H|?]]; [done| |done].
  unfold manager_step. rewrite Hm, Z.gtb_ltb, (proj2 (Z.ltb_lt _ _) H). by eexists.
Qed.

(** ** A turn of the manager *)

(** The words of a turn, for [k] turns of the loop that stops workers. *)
Definition turn_word (idle count : nat -> Z) (pending runnable runq : Z) (k : nat) (pc : mg_pc) : Z :=
  match pc with
  | MgCount0 => count 0%nat | MgCount1 => count 1%nat | MgCount2 => count 2%nat
  | MgPending => pending | MgRunnable => runnable | MgRunq => runq
  | MgIdle1 => idle 1%nat | MgIdle2 => idle 2%nat | MgIdle3 => idle 3%nat | MgIdle4 _ => idle 4%nat
  | MgStopTest _ => idle (5 + k)%nat
  | _ => idle 0%nat
  end.

(** The steps of the manager up to the end of its turn: worker_idle_seconds_accumulated, whether it started a worker, and how many it
    stopped. *)
Fixpoint mg_turn (fuel : nat) (word : nat -> mg_pc -> Z) (timed : bool) (pc : mg_pc) (acc : Z) (k stops : nat) : option (Z * (bool * nat)) :=
  match fuel with
  | O => None
  | S fuel =>
      match pc with
      | MgLoop => Some (acc, (false, stops))
      | MgStart => Some (acc, (true, stops))
      | MgStop n => mg_turn fuel word timed (stop_loop n) acc k (S stops)
      | pc =>
          let '(pc', acc') := mg_read timed pc (word k pc) acc in
          mg_turn fuel word timed pc' acc' (match pc with MgStopTest _ => S k | _ => k end) stops
      end
  end.
Definition effect (act : manager_action) : bool * nat :=
  match act with ManagerStart => (true, 0%nat) | ManagerStop n => (false, n) | ManagerNone => (false, 0%nat) end.

Section turn.
Context (idle count : nat -> Z) (pending runnable runq : Z) (timed : bool).
Notation word := (turn_word idle count pending runnable runq).

Lemma stop_loop_run n acc k stops fuel : (2 * n < fuel)%nat ->
  mg_turn fuel word timed (stop_loop n) acc k stops =
    Some (acc, (false, (stops + length (List.filter (fun i => idle (5 + i)%nat >? worker_idle_threshold cfg) (seq k n)))%nat)).
Proof.
  induction n as [|n IH] in k, stops, fuel |- *; intros Hf.
  - destruct fuel; [lia|]. simpl. by rewrite Nat.add_0_r.
  - destruct fuel as [|[|fuel]]; [lia..|]. cbn [stop_loop mg_turn mg_read turn_word seq List.filter].
    destruct (idle (5 + k)%nat >? _); cbn [length].
    + rewrite IH by lia. do 3 f_equal. lia.
    + exact (IH (S k) stops (S fuel) ltac:(lia)).
Qed.

Lemma ramp_down_run acc : exists fuel,
  let max_threads_to_stop := acc / WORKER_IDLE_SECONDS_THRESHOLD in
  let surplus := u32 (idle 4%nat - worker_idle_threshold cfg) in
  let n := if max_threads_to_stop >? surplus then surplus else max_threads_to_stop in
  let stops := List.filter (fun i => idle (5 + i)%nat >? worker_idle_threshold cfg) (seq 0 (Z.to_nat n)) in
  mg_turn fuel word timed (ramp_down acc).1 (ramp_down acc).2 0 0 =
    Some (if max_threads_to_stop >? 0 then (0, (false, length stops)) else (acc, (false, 0%nat))).
Proof.
  unfold ramp_down. destruct (acc / WORKER_IDLE_SECONDS_THRESHOLD >? 0); [|by exists 1%nat].
  cbv zeta. set (n := Z.to_nat _). exists (S (2 * n + 1)). cbn [mg_turn mg_read turn_word fst snd]. fold n. by rewrite stop_loop_run by lia.
Qed.

(** The part of a turn behind the test for new workers, which only a timeout enters. *)
Lemma tick_run acc : exists fuel,
  mg_turn fuel word timed (if timed then MgIdle2 else MgLoop) acc 0 0 =
    Some (let r := manager_main cfg (fun k => if decide (k = 0%nat) then 1 else idle k) count pending runnable runq timed acc in (r.1, effect r.2)).
Proof.
  pose proof (ramp_down_run (u32 (acc + idle 3%nat))) as [fuel Hf]. pose proof (ramp_down_run 0) as [fuel0 Hf0].
  unfold manager_main. rewrite decide_True by done. cbn [Z.eqb andb]. destruct timed; [|by exists 1%nat].
  rewrite !decide_False by done. cbv zeta in Hf, Hf0 |- *.
  destruct (idle 2%nat >? worker_idle_threshold cfg) eqn:E2.
  - exists (S (S fuel)). cbn [mg_turn mg_read turn_word]. rewrite E2. cbn [mg_turn mg_read turn_word].
    destruct (ramp_down (u32 (acc + idle 3%nat))) as [pc a]. simpl in Hf |- *. rewrite Hf. by destruct (_ >? 0).
  - exists (S fuel0). cbn [mg_turn mg_read turn_word]. rewrite E2.
    destruct (ramp_down 0) as [pc a]. simpl in Hf0 |- *. rewrite Hf0. by destruct (_ >? 0).
Qed.

(** The reads of the first part. *)
Definition first_reads (pc : mg_pc) : bool :=
  match pc with MgIdle0 | MgCount0 | MgPending | MgCount1 | MgCount2 | MgRunnable | MgRunq | MgIdle1 => true | _ => false end.
Lemma turn_read fuel pc acc k stops : first_reads pc = true ->
  mg_turn (S fuel) word timed pc acc k stops = mg_turn fuel word timed (mg_read timed pc (word k pc) acc).1 acc k stops.
Proof. by destruct pc. Qed.

(** A turn, step by step, is the turn of [manager_main] for the same reads. *)
Theorem manager_turn_decides acc : exists fuel,
  mg_turn fuel word timed MgIdle0 acc 0 0 =
    Some (let r := manager_main cfg idle count pending runnable runq timed acc in (r.1, effect r.2)).
Proof.
  destruct (tick_run acc) as [fuel Hf]. cbv zeta in Hf |- *.
  destruct ((idle 0%nat =? 0) && (count 0%nat >? 0) && (pending =? 0)) eqn:E.
  - exists 9%nat. unfold manager_main. rewrite E. apply andb_prop in E as [[E0 E1]%andb_prop E2].
    do 3 (rewrite turn_read by done; cbn [mg_read turn_word fst]; rewrite ?E0, ?E1, ?E2).
    rewrite turn_read by done. cbn [mg_read turn_word fst]. destruct (count 1%nat <? _); [done|].
    rewrite turn_read by done. cbn [mg_read turn_word fst]. destruct (count 2%nat <? _); [|done].
    rewrite turn_read by done. cbn [mg_read turn_word fst]. destruct (runnable <=? _); [|done].
    rewrite turn_read by done. cbn [mg_read turn_word fst]. destruct (runq <=? _); [|done].
    rewrite turn_read by done. cbn [mg_read turn_word fst]. by destruct (idle 1%nat =? 0).
  - assert (manager_main cfg idle count pending runnable runq timed acc =
      manager_main cfg (fun k => if decide (k = 0%nat) then 1 else idle k) count pending runnable runq timed acc) as ->
      by (unfold manager_main; by rewrite E).
    rewrite <- Hf. destruct (idle 0%nat =? 0) eqn:E0; [destruct (count 0%nat >? 0) eqn:E1|].
    + exists (S (S (S fuel))). cbn [andb] in E. do 3 (rewrite turn_read by done; cbn [mg_read turn_word fst]; rewrite ?E0, ?E1, ?E). done.
    + exists (S (S fuel)). do 2 (rewrite turn_read by done; cbn [mg_read turn_word fst]; rewrite ?E0, ?E1). done.
    + exists (S fuel). rewrite turn_read by done. cbn [mg_read turn_word fst]. by rewrite E0.
Qed.
End turn.
End manager.

(** ** The child of a fork *)

(** manager_reinit, the handler that runs in the child, calls manager_init: the masks and the counters start again, and the threads are
    gone; the arrays of workqueues and their lists stay. *)
Definition manager_reinit (l : lib) : lib :=
  (OcState (ocwq l.1) 0 0 0 [] (oc_added l.1) (oc_started l.1),
   WpState (wqlist l.2) 0 0 0 0 (current_threads_spinning l.2) 0 None [] 0 (wp_adding l.2) (wp_added l.2) (wp_taken l.2)).

(** In the child of a fork a workqueue that the parent had made cannot be made again: the library aborts, since its place
    in the array is still taken. *)
Theorem fork_child_aborts l workq items :
  (if wq_overcommit workq =? 0 then wqlist l.2 else ocwq l.1) !! Z.to_nat (wq_queueprio workq) = Some items ->
  manager_workqueue_create workq (ocwq (manager_reinit l).1) (wqlist (manager_reinit l).2) = None.
Proof. intros Hi. unfold manager_workqueue_create. simpl. destruct (wq_overcommit workq =? 0); simpl; by rewrite Hi. Qed.

(** Submissions in a row. *)
Fixpoint add_all (adds : list item) (p : wp_state) : option wp_state :=
  match adds with [] => Some p | (idx, w) :: adds => p' ← manager_workqueue_additem idx w p; add_all adds p' end.

(** The items that waited in the pool's queue [j] at the fork, and all that are added to it in the child, are not found: its bit of the mask
    is set for the first item of a list only. *)
Theorem fork_hides_items j w items adds l p :
  wqlist l.2 !! j = Some (w :: items) -> add_all adds (manager_reinit l).2 = Some p -> Z.testbit (wqlist_mask p) (Z.of_nat j) = false.
Proof.
  intros Hj. assert (forall p0 w items, wqlist p0 !! j = Some (w :: items) -> Z.testbit (wqlist_mask p0) (Z.of_nat j) = false ->
    add_all adds p0 = Some p -> Z.testbit (wqlist_mask p) (Z.of_nat j) = false) as Hgen.
  { clear. induction adds as [|[idx v] adds IH]; intros p0 w items Hj Hb Hadd; simpl in Hadd; [by simplify_eq|].
    unfold manager_workqueue_additem, insert_tail in Hadd. destruct (wqlist p0 !! idx) as [q|] eqn:Hi; [|done]. simpl in Hadd.
    destruct (decide (idx = j)) as [->|Hne].
    - rewrite Hj in Hi. simplify_eq. eapply (IH _ w (items ++ [v])); [..|exact Hadd]; simpl; [by rewrite lookup_insert_eq|done].
    - eapply (IH _ w items); [..|exact Hadd]; simpl; [by rewrite lookup_insert_ne|].
      destruct q; [|done]. by rewrite Z.lor_spec, Hb, bit_testbit, bool_decide_eq_false_2. }
  apply (Hgen _ w items); [exact Hj|]. simpl. by rewrite Z.bits_0.
Qed.

(** ** Schedules *)

Inductive pm_action :=
| PmOvercommit (i : nat) | PmWorker (i : nat) | PmAdd (workq : workqueue) (func arg : Z) | PmSignal (victim : option nat)
| PmManager (r : mg_reply) | PmHasManager | PmClient (i : nat) | PmSuspend | PmResume.

Definition pm_do (cfg : pool_config) (spin : Z) (a : pm_action) (s : pm_state) : option pm_state :=
  match a with
  | PmOvercommit i => oc ← overcommit_worker_main i (pm_oc s); Some (set_lib (oc, pm_pool s) s)
  | PmWorker i => p ← worker_main spin i (pm_pool s); Some (set_pool p s)
  | PmAdd workq func arg =>
      '(_, _, l) ← pthread_workqueue_additem_np workq func arg [1] (pm_oc s, pm_pool s);
      if Z.of_nat (length (oc_threads l.1)) <? 2 ^ 32 then Some (set_lib l s) else None
  | PmSignal victim => p ← additem_signal victim (pm_pool s); Some (set_pool p s)
  | PmManager r =>
      if Z.of_nat (length (wp_threads (pm_pool s))) + wp_failed (pm_pool s) + 1 <? 2 ^ 32 then manager_step cfg r s else None
  | PmHasManager => Some (PmState (pm_oc s) (pm_pool s) (pm_mgr s) (pm_timed s) (pm_acc s) (sb_suspend s) 1 (pm_clients s))
  | PmClient i => client_step i s
  | PmSuspend => Some (manager_suspend s)
  | PmResume => Some (manager_resume s)
  end.
Fixpoint pm_run (cfg : pool_config) (spin : Z) (acts : list pm_action) (s : pm_state) : option pm_state :=
  match acts with [] => Some s | a :: acts => s' ← pm_do cfg spin a s; pm_run cfg spin acts s' end.

Lemma pm_do_step cfg spin a s s' : pm_do cfg spin a s = Some s' -> pm_step cfg spin s s'.
Proof.
  destruct a; simpl; intros Hd.
  - apply bind_Some in Hd as (oc & Ho & Hd). simplify_eq. by eapply pm_overcommit.
  - apply bind_Some in Hd as (p & Hp & Hd). simplify_eq. by eapply pm_worker.
  - apply bind_Some in Hd as ([[rv h] l] & Hl & Hd). destruct (Z.ltb_spec (Z.of_nat (length (oc_threads l.1))) (2 ^ 32)); simplify_eq.
    by eapply pm_add.
  - apply bind_Some in Hd as (p & Hp & Hd). simplify_eq. by eapply pm_signal.
  - destruct (Z.ltb_spec (Z.of_nat (length (wp_threads (pm_pool s))) + wp_failed (pm_pool s) + 1) (2 ^ 32)); [|done]. by eapply pm_manager.
  - simplify_eq. apply pm_has_manager.
  - by eapply pm_client.
  - simplify_eq. apply pm_call.
  - simplify_eq. apply pm_call_resume.
Qed.

Definition pm_ex0 : pm_state := PmState oc_ex0 wp_ex0 (MgMin 0) false 0 0 0 [].
Lemma pm_run_ex cfg spin acts s : pm_run cfg spin acts pm_ex0 = Some s -> @reachable _ (pm_ts cfg spin) s.
Proof.
  intros Hr. exists pm_ex0. split.
  - split; [|split; [apply wp_ex0_initial|done]]. apply oc_ex0_initial.
  - revert Hr. generalize pm_ex0. induction acts as [|a acts IH]; intros t Hr; simpl in Hr; [simplify_eq; apply rtc_refl|].
    apply bind_Some in Hr as (t' & Ht & Hr). eapply rtc_l; [by eapply pm_do_step|]. by apply IH.
Qed.

(** ** Concrete values *)

Definition ex_wq : workqueue := WorkQ PTHREAD_WORKQUEUE_SIG WORKQ_DEFAULT_PRIOQUEUE 0.
Definition ex_cfg : pool_config := PoolConfig 4 100 4 2.
Definition ex_mg : pm_action := PmManager (MgReply true 0 0 true None).
Definition ex_times (n : nat) (a : pm_action) : list pm_action := replicate n a.

(** Two workers; the second one goes to sleep; the manager is suspended and the first worker is busy when an item comes for
    the second one, which posts because no idle worker is left. *)
Definition ex_suspended : list pm_action :=
  ex_times 3 ex_mg ++ [PmHasManager; PmSuspend] ++ ex_times 3 (PmClient 0) ++ [ex_mg] ++
  ex_times 7 (PmWorker 1) ++
  [PmAdd ex_wq 7 70; PmSignal (Some 1%nat)] ++ ex_times 4 (PmWorker 0) ++ [PmAdd ex_wq 8 80; PmSignal None] ++ ex_times 7 (PmWorker 1).
Definition ex_woken : pm_state := default pm_ex0 (pm_run ex_cfg 0 ex_suspended pm_ex0).
Lemma ex_woken_reachable : @reachable _ (pm_ts ex_cfg 0) ex_woken.
Proof. apply (pm_run_ex ex_cfg 0 ex_suspended). vm_compute. done. Qed.

(** A suspended manager does not stay suspended: the workers post on the same semaphore when the last of them becomes busy.  Here the call of
    manager_suspend has returned, nobody resumes, and the manager, by itself, makes a turn and starts a worker. *)
Theorem suspended_manager_starts_worker :
  @reachable _ (pm_ts ex_cfg 0) ex_woken /\ pm_mgr ex_woken = MgWait /\ sb_suspend ex_woken = 1 /\ pm_clients ex_woken = [ClDone] /\
  length (wp_threads (pm_pool ex_woken)) = 2%nat /\
  exists s, pm_run ex_cfg 0 (ex_times 6 ex_mg) ex_woken = Some s /\ sb_suspend s = 1 /\ length (wp_threads (pm_pool s)) = 3%nat.
Proof.
  split; [exact ex_woken_reachable|]. split_and!; try (vm_compute; done).
  destruct (pm_run ex_cfg 0 (ex_times 6 ex_mg) ex_woken) as [s|] eqn:E; [|vm_compute in E; done].
  exists s. split; [done|]. vm_compute in E. by injection E as <-.
Qed.


(** The manager went to sleep suspended; then it is resumed. *)
Definition ex_resumed : pm_state :=
  default pm_ex0 (pm_run ex_cfg 0 (ex_times 3 ex_mg ++ [PmHasManager; PmSuspend] ++ ex_times 3 (PmClient 0) ++ [ex_mg; PmResume] ++
    ex_times 3 (PmClient 1)) pm_ex0).
Lemma resume_not_lost_witness :
  pm_mgr ex_resumed = MgWait /\ sb_suspend ex_resumed = 0 /\
  exists s, manager_step ex_cfg (MgReply true 0 0 true None) ex_resumed = Some s /\ pm_mgr s = MgIdle0.
Proof.
  split; [vm_compute; reflexivity|]. split; [vm_compute; reflexivity|].
  apply (resume_not_lost ex_cfg 0 ex_resumed (MgReply true 0 0 true None)); [simpl; lia| |vm_compute; reflexivity|vm_compute; reflexivity|].
  - apply (pm_run_ex ex_cfg 0 (ex_times 3 ex_mg ++ [PmHasManager; PmSuspend] ++ ex_times 3 (PmClient 0) ++ [ex_mg; PmResume] ++
      ex_times 3 (PmClient 1))). vm_compute. reflexivity.
  - replace (pm_clients ex_resumed) with [ClDone; ClDone] by (vm_compute; reflexivity). rewrite !elem_of_cons, elem_of_nil. intros [?|[?|?]]; done.
Defined.

(** An item waits when the process forks: the child cannot make the workqueue again and does not find the item, nor the next one. *)
Definition ex_forked : lib :=
  match pthread_workqueue_additem_np ex_wq 7 70 [0; 1] (oc_ex0, wp_ex0) with Some (_, _, l) => l | None => (oc_ex0, wp_ex0) end.
Lemma fork_child_aborts_witness :
  manager_workqueue_create ex_wq (ocwq (manager_reinit ex_forked).1) (wqlist (manager_reinit ex_forked).2) = None.
Proof. apply (fork_child_aborts ex_forked ex_wq [(7, 70)]). vm_compute. reflexivity. Defined.
Lemma fork_hides_items_witness :
  exists p, add_all [(1%nat, (8, 80))] (manager_reinit ex_forked).2 = Some p /\ wqlist p !! 1%nat = Some [(7, 70); (8, 80)] /\
    Z.testbit (wqlist_mask p) 1 = false.
Proof.
  destruct (add_all [(1%nat, (8, 80))] (manager_reinit ex_forked).2) as [p|] eqn:E; [|vm_compute in E; done].
  exists p. split; [done|]. split; [|exact (fork_hides_items 1 (7, 70) [] [(1%nat, (8, 80))] ex_forked p ltac:(vm_compute; reflexivity) E)].
  vm_compute in E. by injection E as <-.
Defined.
