(* ===== verification/DispatchSource.v ===== *)
(** * Sources, kevents and timers

    Models source.c, source_kevent.c and the bookkeeping of queue_kevent.c.  A source is a record; the
    kevents it can share with other sources are records with the list of their sources, found through
    the 256 buckets of _dispatch_sources.  kevent(2) is a parameter: [kq asked ke] is what it
    replies to the change [ke] after the changes [asked].
    Calls of client functions, wakeups and kevent(2) are recorded in a log, with the
    queue they are made on.  The configuration is the one without blocks, Mach and legacy
    sources. *)

From S2P Require Import Prelude DispatchTime.
From stdpp Require Import base tactics list numbers gmap strings.
From Stdlib Require Import ZArith Lia.

Local Open Scope Z_scope.

(** ** Data *)

Definition EVFILT_READ : Z := -1.
Definition EVFILT_WRITE : Z := -2.
Definition EVFILT_VNODE : Z := -4.
Definition EVFILT_PROC : Z := -5.
Definition EVFILT_SIGNAL : Z := -6.
Definition EVFILT_FS : Z := -9.
Definition EVFILT_USER : Z := -11.
Definition DISPATCH_EVFILT_TIMER : Z := -12.
Definition DISPATCH_EVFILT_CUSTOM_ADD : Z := -13.
Definition DISPATCH_EVFILT_CUSTOM_OR : Z := -14.

Definition EV_ADD : Z := 0x1.
Definition EV_DELETE : Z := 0x2.
Definition EV_ENABLE : Z := 0x4.
Definition EV_ONESHOT : Z := 0x10.
Definition EV_CLEAR : Z := 0x20.
Definition EV_RECEIPT : Z := 0x40.
Definition EV_DISPATCH : Z := 0x80.
Definition EV_ERROR : Z := 0x4000.
Definition NOTE_EXIT : Z := 0x80000000.
Definition NOTE_FORK : Z := 0x40000000.
Definition NOTE_EXEC : Z := 0x20000000.
Definition NOTE_TRIGGER : Z := 0x01000000.
Definition ESRCH : Z := 3.
Definition EBADF : Z := 9.
Definition NSIG : Z := 65.

Definition DSF_CANCELED : Z := 1.
Definition DISPATCH_TIMER_INDEX_WALL : Z := 0.
Definition DISPATCH_TIMER_INDEX_MACH : Z := 1.
Definition DISPATCH_TIMER_ONESHOT : Z := 0x1.
Definition DISPATCH_TIMER_ABSOLUTE : Z := 0x3.
Definition DISPATCH_TIMER_WALL_CLOCK : Z := 0x4.

Definition has (v bits : Z) : bool := negb (Z.land v bits =? 0).

Record kevent := Kevent {
  ke_ident : Z; ke_filter : Z; ke_flags : Z; ke_fflags : Z; ke_data : Z; ke_udata : Z
}.

(** struct dispatch_kevent_s; dk_list is the bucket it is in. *)
Record dkevent := Dkevent { dk_kevent : kevent; dk_sources : list Z }.

Record timer_source := TimerSource { tm_target : Z; tm_start : Z; tm_interval : Z; tm_leeway : Z; tm_flags : Z }.

(** struct dispatch_source_s: the object header, then the fields of the source. *)
Record source := Source {
  s_ref : Z; s_xref : Z; s_suspend : Z; s_targetq : Z; s_ctxt : Z;
  ds_dkev : Z;
  ds_handler_func : Z; ds_handler_ctxt : Z; ds_cancel_handler : Z;
  ds_is_level : bool; ds_is_adder : bool;
  ds_is_installed : bool; ds_needs_rearm : bool; ds_is_armed : bool;
  ds_atomic_flags : Z;
  ds_data : Z; ds_pending_data : Z; ds_pending_data_mask : Z;
  ds_ident_hack : Z;
  ds_timer : timer_source
}.

Inductive sevent :=
| EvHandler (ds func ctxt data queue : Z)
| EvCancel (ds func ctxt queue : Z)
| EvWake (ds : Z)
| EvKevent (ke : kevent).

Record sworld := SWorld {
  sw_src : gmap Z source;
  sw_dk : gmap Z dkevent;
  sw_buckets : gmap Z (list Z);              (* _dispatch_sources *)
  sw_rfds : gset Z; sw_wfds : gset Z;        (* _dispatch_rfds and _dispatch_wfds *)
  sw_rptr : gmap Z Z; sw_wptr : gmap Z Z;    (* _dispatch_rfd_ptrs and _dispatch_wfd_ptrs *)
  sw_select : bool;                          (* _dispatch_select_workaround *)
  sw_queue : Z;                              (* the current queue of the thread *)
  sw_brk : Z;                                (* next address of the allocator *)
  sw_log : list sevent
}.

Notation SM := (M sworld).

(** ** Updates *)

Definition set_src (f : gmap Z source -> gmap Z source) (w : sworld) : sworld :=
  SWorld (f (sw_src w)) (sw_dk w) (sw_buckets w) (sw_rfds w) (sw_wfds w) (sw_rptr w) (sw_wptr w) (sw_select w)
    (sw_queue w) (sw_brk w) (sw_log w).
Definition set_dk (f : gmap Z dkevent -> gmap Z dkevent) (w : sworld) : sworld :=
  SWorld (sw_src w) (f (sw_dk w)) (sw_buckets w) (sw_rfds w) (sw_wfds w) (sw_rptr w) (sw_wptr w) (sw_select w)
    (sw_queue w) (sw_brk w) (sw_log w).
Definition set_buckets (f : gmap Z (list Z) -> gmap Z (list Z)) (w : sworld) : sworld :=
  SWorld (sw_src w) (sw_dk w) (f (sw_buckets w)) (sw_rfds w) (sw_wfds w) (sw_rptr w) (sw_wptr w) (sw_select w)
    (sw_queue w) (sw_brk w) (sw_log w).
Definition set_rset (fds : gset Z) (ptr : gmap Z Z) (sel : bool) (w : sworld) : sworld :=
  SWorld (sw_src w) (sw_dk w) (sw_buckets w) fds (sw_wfds w) ptr (sw_wptr w) sel (sw_queue w) (sw_brk w) (sw_log w).
Definition set_wset (fds : gset Z) (ptr : gmap Z Z) (sel : bool) (w : sworld) : sworld :=
  SWorld (sw_src w) (sw_dk w) (sw_buckets w) (sw_rfds w) fds (sw_rptr w) ptr sel (sw_queue w) (sw_brk w) (sw_log w).
Definition set_queue (q : Z) (w : sworld) : sworld :=
  SWorld (sw_src w) (sw_dk w) (sw_buckets w) (sw_rfds w) (sw_wfds w) (sw_rptr w) (sw_wptr w) (sw_select w)
    q (sw_brk w) (sw_log w).
Definition set_brk (b : Z) (w : sworld) : sworld :=
  SWorld (sw_src w) (sw_dk w) (sw_buckets w) (sw_rfds w) (sw_wfds w) (sw_rptr w) (sw_wptr w) (sw_select w)
    (sw_queue w) b (sw_log w).
Definition log_event (e : sevent) (w : sworld) : sworld :=
  SWorld (sw_src w) (sw_dk w) (sw_buckets w) (sw_rfds w) (sw_wfds w) (sw_rptr w) (sw_wptr w) (sw_select w)
    (sw_queue w) (sw_brk w) (sw_log w ++ [e]).

Definition set_ds_data (d p m : Z) (s : source) : source :=
  Source (s_ref s) (s_xref s) (s_suspend s) (s_targetq s) (s_ctxt s) (ds_dkev s) (ds_handler_func s)
    (ds_handler_ctxt s) (ds_cancel_handler s) (ds_is_level s) (ds_is_adder s) (ds_is_installed s)
    (ds_needs_rearm s) (ds_is_armed s) (ds_atomic_flags s) d p m (ds_ident_hack s) (ds_timer s).
Definition set_ds_pending (p : Z) (s : source) : source := set_ds_data (ds_data s) p (ds_pending_data_mask s) s.
Definition set_ds_state (installed rearm armed : bool) (s : source) : source :=
  Source (s_ref s) (s_xref s) (s_suspend s) (s_targetq s) (s_ctxt s) (ds_dkev s) (ds_handler_func s)
    (ds_handler_ctxt s) (ds_cancel_handler s) (ds_is_level s) (ds_is_adder s) installed rearm armed
    (ds_atomic_flags s) (ds_data s) (ds_pending_data s) (ds_pending_data_mask s) (ds_ident_hack s) (ds_timer s).
Definition set_ds_armed (b : bool) (s : source) : source := set_ds_state (ds_is_installed s) (ds_needs_rearm s) b s.
Definition set_ds_dkev (dk : Z) (s : source) : source :=
  Source (s_ref s) (s_xref s) (s_suspend s) (s_targetq s) (s_ctxt s) dk (ds_handler_func s)
    (ds_handler_ctxt s) (ds_cancel_handler s) (ds_is_level s) (ds_is_adder s) (ds_is_installed s)
    (ds_needs_rearm s) (ds_is_armed s) (ds_atomic_flags s) (ds_data s) (ds_pending_data s)
    (ds_pending_data_mask s) (ds_ident_hack s) (ds_timer s).
Definition set_ds_timer (ident : Z) (t : timer_source) (s : source) : source :=
  Source (s_ref s) (s_xref s) (s_suspend s) (s_targetq s) (s_ctxt s) (ds_dkev s) (ds_handler_func s)
    (ds_handler_ctxt s) (ds_cancel_handler s) (ds_is_level s) (ds_is_adder s) (ds_is_installed s)
    (ds_needs_rearm s) (ds_is_armed s) (ds_atomic_flags s) (ds_data s) (ds_pending_data s)
    (ds_pending_data_mask s) ident t.
Definition set_ds_handlers (func ctxt cancel : Z) (s : source) : source :=
  Source (s_ref s) (s_xref s) (s_suspend s) (s_targetq s) (s_ctxt s) (ds_dkev s) func ctxt cancel (ds_is_level s)
    (ds_is_adder s) (ds_is_installed s) (ds_needs_rearm s) (ds_is_armed s) (ds_atomic_flags s) (ds_data s)
    (ds_pending_data s) (ds_pending_data_mask s) (ds_ident_hack s) (ds_timer s).
Definition set_ds_flags (f : Z) (s : source) : source :=
  Source (s_ref s) (s_xref s) (s_suspend s) (s_targetq s) (s_ctxt s) (ds_dkev s) (ds_handler_func s)
    (ds_handler_ctxt s) (ds_cancel_handler s) (ds_is_level s) (ds_is_adder s) (ds_is_installed s)
    (ds_needs_rearm s) (ds_is_armed s) f (ds_data s) (ds_pending_data s) (ds_pending_data_mask s)
    (ds_ident_hack s) (ds_timer s).
Definition set_s_refs (ref xref susp : Z) (s : source) : source :=
  Source ref xref susp (s_targetq s) (s_ctxt s) (ds_dkev s) (ds_handler_func s)
    (ds_handler_ctxt s) (ds_cancel_handler s) (ds_is_level s) (ds_is_adder s) (ds_is_installed s)
    (ds_needs_rearm s) (ds_is_armed s) (ds_atomic_flags s) (ds_data s) (ds_pending_data s)
    (ds_pending_data_mask s) (ds_ident_hack s) (ds_timer s).
Definition set_dk_kevent (k : kevent) (d : dkevent) : dkevent := Dkevent k (dk_sources d).
Definition set_dk_sources (l : list Z) (d : dkevent) : dkevent := Dkevent (dk_kevent d) l.
Definition set_ke_flags (f : Z) (k : kevent) : kevent :=
  Kevent (ke_ident k) (ke_filter k) f (ke_fflags k) (ke_data k) (ke_udata k).
Definition set_ke_fflags (f : Z) (k : kevent) : kevent :=
  Kevent (ke_ident k) (ke_filter k) (ke_flags k) f (ke_data k) (ke_udata k).

Definition get_src (ds : Z) : SM source := fun w =>
  match sw_src w !! ds with Some s => Ret s w | None => Fault w end.
Definition get_dk (dk : Z) : SM dkevent := fun w =>
  match sw_dk w !! dk with Some d => Ret d w | None => Fault w end.
Definition put_src (ds : Z) (s : source) : SM unit := modify (set_src (insert ds s)).
Definition put_dk (dk : Z) (d : dkevent) : SM unit := modify (set_dk (insert dk d)).
Definition upd_src (ds : Z) (f : source -> source) : SM unit := s ← get_src ds; put_src ds (f s).
Definition upd_dk (dk : Z) (f : dkevent -> dkevent) : SM unit := d ← get_dk dk; put_dk dk (f d).
Definition dispatch_assert (b : bool) : SM unit := if b then mret tt else crash "dispatch_assert".

(** Cancelled, or nobody outside the library has a reference. *)
Definition cancelled (s : source) : bool := has (ds_atomic_flags s) DSF_CANCELED || (s_xref s =? 0).

(** _dispatch_wakeup of the source. *)
Definition wakeup (ds : Z) : SM unit := modify (log_event (EvWake ds)).

(** The static objects. *)
Definition _dispatch_mgr_q : Z := 1056.
Definition _dispatch_kevent_timer (i : Z) : Z := 2048 + 16 * i.
Definition _dispatch_kevent_data_or : Z := 2080.
Definition _dispatch_kevent_data_add : Z := 2096.

(** _dispatch_retain and _dispatch_release of a source (object.c); the last release disposes of it. *)
Definition retain_src (ds : Z) : SM unit :=
  s ← get_src ds;
  if s_ref s =? 0 then crash "Resurrection of an object"
  else put_src ds (set_s_refs (s_ref s + 1) (s_xref s) (s_suspend s) s).
Definition release_src (ds : Z) : SM unit :=
  s ← get_src ds;
  if s_ref s >? 1 then put_src ds (set_s_refs (s_ref s - 1) (s_xref s) (s_suspend s) s)
  else if s_ref s =? 1 then
    if negb (s_xref s =? 0) then crash "release while external references exist"
    else modify (set_src (delete ds))
  else crash "over-release".

(** DISPATCH_OBJECT_SUSPENDED. *)
Definition suspended (s : source) : bool := s_suspend s >=? 2.

Definition _dispatch_source_xref_release (ds : Z) : SM unit :=
  s ← get_src ds;
  if suspended s then crash "Release of a suspended object"
  else wakeup ds;; release_src ds.

(** dispatch_retain, dispatch_release and dispatch_resume of a source. *)
Definition dispatch_retain_src (ds : Z) : SM unit :=
  s ← get_src ds;
  if s_xref s =? 0 then crash "Resurrection of an object"
  else put_src ds (set_s_refs (s_ref s) (s_xref s + 1) (s_suspend s) s).
Definition dispatch_release_src (ds : Z) : SM unit :=
  s ← get_src ds;
  put_src ds (set_s_refs (s_ref s) (s_xref s - 1) (s_suspend s) s);;
  if s_xref s >? 1 then mret tt
  else if s_xref s =? 1 then _dispatch_source_xref_release ds
  else crash "Over-release of an object".
Definition dispatch_resume_src (ds : Z) : SM unit :=
  s ← get_src ds;
  put_src ds (set_s_refs (s_ref s) (s_xref s) (s_suspend s - 2) s);;
  if s_suspend s =? 2 then wakeup ds
  else if (s_suspend s =? 1) || (s_suspend s =? 0) then crash "Over-resume of an object"
  else mret tt.

(** ** The table of kevents *)

Definition DSL_HASH_SIZE : Z := 256.
Definition DSL_HASH (x : Z) : Z := Z.land x (DSL_HASH_SIZE - 1).
Definition _dispatch_kevent_hash (ident filter : Z) : Z := DSL_HASH ident.

Definition bucket (h : Z) (w : sworld) : list Z := default [] (sw_buckets w !! h).

(** The element of the bucket that matches; NULL is 0. *)
Fixpoint find_in (l : list Z) (ident filter : Z) : SM Z :=
  match l with
  | [] => mret 0
  | dki :: l =>
      d ← get_dk dki;
      if (ke_ident (dk_kevent d) =? ident) && (ke_filter (dk_kevent d) =? filter) then mret dki
      else find_in l ident filter
  end.
Definition _dispatch_kevent_find (ident filter : Z) : SM Z :=
  l ← gets (bucket (_dispatch_kevent_hash ident filter));
  find_in l ident filter.

Definition _dispatch_kevent_insert (dk : Z) : SM unit :=
  d ← get_dk dk;
  let hash := _dispatch_kevent_hash (ke_ident (dk_kevent d)) (ke_filter (dk_kevent d)) in
  modify (fun w => set_buckets (insert hash (bucket hash w ++ [dk])) w).

(** The statically allocated kevents, on the lists where
    _dispatch_source_init_tail_queue_array puts them. *)
Definition _dispatch_source_init_tail_queue_array : gmap Z dkevent * gmap Z (list Z) :=
  (list_to_map
     [(_dispatch_kevent_timer 0,
       Dkevent (Kevent DISPATCH_TIMER_INDEX_WALL DISPATCH_EVFILT_TIMER 0 0 0 (_dispatch_kevent_timer 0)) []);
      (_dispatch_kevent_timer 1,
       Dkevent (Kevent DISPATCH_TIMER_INDEX_MACH DISPATCH_EVFILT_TIMER 0 0 0 (_dispatch_kevent_timer 1)) []);
      (_dispatch_kevent_data_or,
       Dkevent (Kevent 0 DISPATCH_EVFILT_CUSTOM_OR EV_CLEAR 0 0 _dispatch_kevent_data_or) []);
      (_dispatch_kevent_data_add,
       Dkevent (Kevent 0 DISPATCH_EVFILT_CUSTOM_ADD 0 0 0 _dispatch_kevent_data_add) [])],
   list_to_map
     [(DSL_HASH DISPATCH_TIMER_INDEX_WALL,
       [_dispatch_kevent_timer 0; _dispatch_kevent_data_or; _dispatch_kevent_data_add]);
      (DSL_HASH DISPATCH_TIMER_INDEX_MACH, [_dispatch_kevent_timer 1])]).

(** ** Delivery of a kevent to the sources *)

(** EVFILT_PROC may fail with ESRCH for a zombie, which becomes an exit event; other errors are dropped. *)
Definition merge_fake (ke : kevent) : option kevent :=
  if has (ke_flags ke) EV_ERROR then
    if (ke_filter ke =? EVFILT_PROC) && (ke_data ke =? ESRCH) then
      Some (Kevent (ke_ident ke) (ke_filter ke) (Z.land (ke_flags ke) (Z.lnot EV_ERROR)) NOTE_EXIT 0 (ke_udata ke))
    else None
  else Some ke.

Definition _dispatch_source_merge_kevent (ds : Z) (ke : kevent) : SM unit :=
  s ← get_src ds;
  if cancelled s then mret tt
  else
    match merge_fake ke with
    | None => mret tt
    | Some ke =>
        (if ds_is_level s then
           dispatch_assert (ke_data ke >=? 0);;
           upd_src ds (set_ds_pending (Z.lnot (ke_data ke)))
         else if ds_is_adder s then
           upd_src ds (fun s => set_ds_pending (s64 (ds_pending_data s + ke_data ke)) s)
         else
           upd_src ds (fun s => set_ds_pending (Z.lor (ds_pending_data s)
                                  (s64 (Z.land (ke_fflags ke) (ds_pending_data_mask s)))) s));;
        (if ds_needs_rearm s then upd_src ds (set_ds_armed false) else mret tt);;
        wakeup ds
    end.

Fixpoint merge_all (l : list Z) (ke : kevent) : SM unit :=
  match l with [] => mret tt | ds :: l => _dispatch_source_merge_kevent ds ke;; merge_all l ke end.

Definition _dispatch_source_drain_kevent (ke : kevent) : SM unit :=
  let dk := ke_udata ke in
  dispatch_assert (negb (dk =? 0));;
  (if has (ke_flags ke) EV_ONESHOT
   then upd_dk dk (fun d => set_dk_kevent (set_ke_flags (Z.lor (ke_flags (dk_kevent d)) EV_ONESHOT) (dk_kevent d)) d)
   else mret tt);;
  d ← get_dk dk;
  merge_all (dk_sources d) ke.

Definition dispatch_source_merge_data (ds val : Z) : SM unit :=
  s ← get_src ds;
  d ← get_dk (ds_dkev s);
  dispatch_assert ((ke_filter (dk_kevent d) =? DISPATCH_EVFILT_CUSTOM_ADD) ||
                   ((ke_filter (dk_kevent d) =? DISPATCH_EVFILT_CUSTOM_OR) && (val <=? INT_MAX)));;
  _dispatch_source_merge_kevent ds (Kevent 0 0 0 (u32 val) (s64 val) 0).

(** ** Registration with the kernel *)

(** What kevent(2) leaves in the change that is also its event list: nothing when the call fails.  The reply may depend
    on everything that was asked before. *)
Definition kernel : Type := list sevent -> kevent -> option kevent.

Section kernel.
Context (kq : kernel).

(** The removal from the sets of the select() workaround; true when it was all there was to do.  The
    read case falls through to the write case. *)
Definition update_kq_delete (ke : kevent) : SM bool :=
  if has (ke_flags ke) EV_DELETE then
    w ← get;
    if (ke_filter ke =? EVFILT_READ) && bool_decide (ke_ident ke ∈ sw_rfds w) then
      modify (set_rset (sw_rfds w ∖ {[ke_ident ke]}) (<[ke_ident ke:=0]> (sw_rptr w)) (sw_select w));; mret true
    else if ((ke_filter ke =? EVFILT_READ) || (ke_filter ke =? EVFILT_WRITE)) &&
            bool_decide (ke_ident ke ∈ sw_wfds w) then
      modify (set_wset (sw_wfds w ∖ {[ke_ident ke]}) (<[ke_ident ke:=0]> (sw_wptr w)) (sw_select w));; mret true
    else mret false
  else mret false.

Definition _dispatch_update_kq (ke : kevent) : SM unit :=
  let kev_copy := set_ke_flags (Z.lor (ke_flags ke) EV_RECEIPT) ke in
  done ← update_kq_delete kev_copy;
  if (done : bool) then mret tt
  else
    asked ← gets sw_log;
    modify (log_event (EvKevent kev_copy));;
    match kq asked kev_copy with
    | None => mret tt
    | Some kev_copy =>
        if negb (has (ke_flags ke) EV_ADD) then mret tt
        else if (ke_data kev_copy =? 0) || (ke_data kev_copy =? EBADF) then mret tt
        else if ke_filter kev_copy =? EVFILT_READ then
          w ← get;
          modify (set_rset ({[ke_ident kev_copy]} ∪ sw_rfds w) (<[ke_ident kev_copy:=ke_udata kev_copy]> (sw_rptr w)) true)
        else if ke_filter kev_copy =? EVFILT_WRITE then
          w ← get;
          modify (set_wset ({[ke_ident kev_copy]} ∪ sw_wfds w) (<[ke_ident kev_copy:=ke_udata kev_copy]> (sw_wptr w)) true)
        else _dispatch_source_drain_kevent kev_copy
    end.

(** Filters that the kernel knows nothing about. *)
Definition custom_filter (f : Z) : bool :=
  (f =? DISPATCH_EVFILT_TIMER) || (f =? DISPATCH_EVFILT_CUSTOM_ADD) || (f =? DISPATCH_EVFILT_CUSTOM_OR).

Definition _dispatch_kevent_resume (dk : Z) : SM unit :=
  d ← get_dk dk;
  if custom_filter (ke_filter (dk_kevent d)) then mret tt
  else if (ke_filter (dk_kevent d) =? EVFILT_PROC) && has (ke_flags (dk_kevent d)) EV_ONESHOT then mret tt
  else
    _dispatch_update_kq (dk_kevent d);;
    d ← get_dk dk;
    if has (ke_flags (dk_kevent d)) EV_DISPATCH
    then put_dk dk (set_dk_kevent (set_ke_flags (Z.land (ke_flags (dk_kevent d)) (Z.lnot EV_ADD)) (dk_kevent d)) d)
    else mret tt.

Definition _dispatch_source_kevent_resume (ds : Z) : SM unit :=
  s ← get_src ds; _dispatch_kevent_resume (ds_dkev s).

(** Installs the source: on the kevent that is there already, or on its own. *)
Definition _dispatch_kevent_merge (ds : Z) : SM unit :=
  s ← get_src ds;
  if ds_is_installed s then mret tt
  else
    put_src ds (set_ds_state true (ds_needs_rearm s) (ds_is_armed s) s);;
    own ← get_dk (ds_dkev s);
    let k := dk_kevent own in
    dk ← _dispatch_kevent_find (ke_ident k) (ke_filter k);
    '(dk, do_resume) ←
      (if negb (dk =? 0) then
         d ← get_dk dk;
         let new_flags := Z.land (Z.lnot (ke_fflags (dk_kevent d))) (ke_fflags k) in
         put_dk dk (set_dk_kevent (set_ke_fflags (Z.lor (ke_fflags (dk_kevent d)) (ke_fflags k)) (dk_kevent d)) d);;
         modify (set_dk (delete (ds_dkev s)));;                         (* free(ds->ds_dkev) *)
         upd_src ds (set_ds_dkev dk);;
         mret (dk, negb (new_flags =? 0))
       else
         _dispatch_kevent_insert (ds_dkev s);; mret (ds_dkev s, true));
    upd_dk dk (fun d => set_dk_sources (dk_sources d ++ [ds]) d);;
    if (do_resume : bool) then
      upd_dk dk (fun d => set_dk_kevent (set_ke_flags (Z.lor (ke_flags (dk_kevent d)) EV_ADD) (dk_kevent d)) d);;
      _dispatch_source_kevent_resume ds;;
      upd_src ds (set_ds_armed true)
    else mret tt.

Definition _dispatch_kevent_dispose (dk : Z) : SM unit :=
  d ← get_dk dk;
  let k := dk_kevent d in
  if custom_filter (ke_filter k) then mret tt
  else
    (if (ke_filter k =? EVFILT_PROC) && has (ke_flags k) EV_ONESHOT then mret tt
     else if negb (has (ke_flags k) EV_DELETE) then
       let k' := set_ke_flags (Z.lor (ke_flags k) EV_DELETE) k in
       put_dk dk (set_dk_kevent k' d);; _dispatch_update_kq k'
     else mret tt);;
    let hash := _dispatch_kevent_hash (ke_ident k) (ke_filter k) in
    modify (fun w => set_buckets (insert hash (filter (fun x => x <> dk) (bucket hash w))) w);;
    modify (set_dk (delete dk)).

(** The masks of the sources that are left. *)
Fixpoint mask_union (l : list Z) : SM Z :=
  match l with
  | [] => mret 0
  | dsi :: l => s ← get_src dsi; m ← mask_union l; mret (Z.lor (u32 (ds_pending_data_mask s)) m)
  end.

Definition _dispatch_kevent_release (ds : Z) : SM unit :=
  s ← get_src ds;
  let dk := ds_dkev s in
  put_src ds (set_ds_dkev 0 s);;
  upd_dk dk (fun d => set_dk_sources (filter (fun x => x <> ds) (dk_sources d)) d);;
  d ← get_dk dk;
  (if bool_decide (dk_sources d = []) then _dispatch_kevent_dispose dk
   else
     fflags ← mask_union (dk_sources d);
     let del_flags := Z.land (u32 (ds_pending_data_mask s)) (Z.lnot fflags) in
     if negb (del_flags =? 0) then
       put_dk dk (set_dk_kevent (set_ke_fflags fflags
                    (set_ke_flags (Z.lor (ke_flags (dk_kevent d)) EV_ADD) (dk_kevent d))) d);;
       _dispatch_kevent_resume dk
     else mret tt);;
  upd_src ds (fun s => set_ds_state (ds_is_installed s) false false s);;
  release_src ds.

(** ** The source as a state machine *)

(** The calls of client functions are made in place: [call] is the call, described by the event that records it, in a world [W]
    in which the functions of this file run by [lift]. *)
Section callouts.
Context {W : Type} (lift : forall A : Type, SM A -> M W A) (call : sevent -> M W unit).

(** The event handler, with the data latched. *)
Definition source_latch_and_call (ds : Z) : M W unit :=
  s ← lift _ (get_src ds);
  if cancelled s then mret tt
  else
    let prev := ds_pending_data s in
    lift _ (put_src ds (set_ds_data (u64 (if ds_is_level s then Z.lnot prev else prev)) 0 (ds_pending_data_mask s) s));;
    if negb (prev =? 0) && negb (ds_handler_func s =? 0) then
      s ← lift _ (get_src ds);
      q ← lift _ (gets sw_queue);
      call (EvHandler ds (ds_handler_func s) (ds_handler_ctxt s) (ds_data s) q)
    else mret tt.

Definition source_cancel_callout (ds : Z) : M W unit :=
  lift _ (upd_src ds (set_ds_data 0 0 0));;
  s ← lift _ (get_src ds);
  if ds_cancel_handler s =? 0 then mret tt
  else
    (if has (ds_atomic_flags s) DSF_CANCELED
     then q ← lift _ (gets sw_queue); call (EvCancel ds (ds_cancel_handler s) (s_ctxt s) q) else mret tt);;
    lift _ (upd_src ds (fun s => set_ds_handlers (ds_handler_func s) (ds_handler_ctxt s) 0 s)).

(** The queue on which the source has to be invoked next, 0 for NULL. *)
Definition source_invoke (ds : Z) : M W Z :=
  s ← lift _ (get_src ds);
  dq ← lift _ (gets sw_queue);
  if negb (ds_is_installed s) then
    if negb (dq =? _dispatch_mgr_q) then mret _dispatch_mgr_q
    else lift _ (_dispatch_kevent_merge ds);; mret 0
  else if cancelled s then
    if negb (ds_dkev s =? 0) then
      if negb (dq =? _dispatch_mgr_q) then mret _dispatch_mgr_q
      else lift _ (_dispatch_kevent_release ds);; s ← lift _ (get_src ds); mret (s_targetq s)
    else if negb (ds_cancel_handler s =? 0) && negb (dq =? s_targetq s) then mret (s_targetq s)
    else source_cancel_callout ds;; mret 0
  else if negb (ds_pending_data s =? 0) then
    if negb (dq =? s_targetq s) then mret (s_targetq s)
    else
      source_latch_and_call ds;;
      s ← lift _ (get_src ds);
      mret (if ds_needs_rearm s then _dispatch_mgr_q else 0)
  else if ds_needs_rearm s && negb (ds_is_armed s) then
    if negb (dq =? _dispatch_mgr_q) then mret _dispatch_mgr_q
    else
      lift _ (_dispatch_source_kevent_resume ds);;
      lift _ (upd_src ds (set_ds_armed true));; mret 0
  else mret 0.
End callouts.

(** With client functions that do nothing but leave a trace. *)
Definition _dispatch_source_latch_and_call : Z -> SM unit := source_latch_and_call (fun _ m => m) (fun e => modify (log_event e)).
Definition _dispatch_source_cancel_callout : Z -> SM unit := source_cancel_callout (fun _ m => m) (fun e => modify (log_event e)).
Definition _dispatch_source_invoke : Z -> SM Z := source_invoke (fun _ m => m) (fun e => modify (log_event e)).

Definition _dispatch_source_probe (s : source) : bool :=
  if negb (ds_is_installed s) then true
  else if cancelled s then negb (ds_dkev s =? 0) || negb (ds_cancel_handler s =? 0)
  else if negb (ds_pending_data s =? 0) then true
  else ds_needs_rearm s && negb (ds_is_armed s).

(** ** Timers *)

(** TAILQ_INSERT_BEFORE the first timer that fires later or is not set, else at the tail. *)
Fixpoint insert_timer (ds target : Z) (l : list Z) : SM (list Z) :=
  match l with
  | [] => mret [ds]
  | dsi :: l =>
      s ← get_src dsi;
      if (tm_target (ds_timer s) =? 0) || (target <? tm_target (ds_timer s)) then mret (ds :: dsi :: l)
      else l' ← insert_timer ds target l; mret (dsi :: l')
  end.

Definition _dispatch_timer_list_update (ds : Z) : SM unit :=
  q ← gets sw_queue;
  dispatch_assert (q =? _dispatch_mgr_q);;
  s ← get_src ds;
  if ds_dkev s =? 0 then mret tt
  else
    _dispatch_kevent_merge ds;;
    s ← get_src ds;
    upd_dk (ds_dkev s) (fun d => set_dk_sources (filter (fun x => x <> ds) (dk_sources d)) d);;
    let idx := if has (tm_flags (ds_timer s)) DISPATCH_TIMER_WALL_CLOCK
               then DISPATCH_TIMER_INDEX_WALL else DISPATCH_TIMER_INDEX_MACH in
    put_src ds (set_ds_dkev (_dispatch_kevent_timer idx) s);;
    d ← get_dk (_dispatch_kevent_timer idx);
    l ← (if negb (tm_target (ds_timer s) =? 0) then insert_timer ds (tm_target (ds_timer s)) (dk_sources d)
         else mret (dk_sources d ++ [ds]));
    upd_dk (_dispatch_kevent_timer idx) (set_dk_sources l).

(** What firing does to the source at the time [now]. *)
Definition fire_timer (now : Z) (s : source) : source :=
  let t := ds_timer s in
  if has (tm_flags t) (Z.lor DISPATCH_TIMER_ONESHOT DISPATCH_TIMER_ABSOLUTE) then
    set_ds_timer (ds_ident_hack s) (TimerSource 0 (tm_start t) (tm_interval t) (tm_leeway t) (tm_flags t))
      (set_ds_pending (s64 (ds_pending_data s + 1)) s)
  else
    let missed := u64 (now - tm_target t) / tm_interval t in
    set_ds_timer (ds_ident_hack s)
      (TimerSource (u64 (tm_target t + u64 (u64 (missed + 1) * tm_interval t))) (tm_start t) (tm_interval t)
         (tm_leeway t) (tm_flags t))
      (set_ds_pending (s64 (ds_pending_data s + (missed + 1))) s).

(** The loop of _dispatch_run_timers2. *)
Fixpoint run_timers_loop (fuel : nat) (timer now : Z) : SM unit :=
  match fuel with
  | O => out_of_fuel
  | S n =>
      d ← get_dk (_dispatch_kevent_timer timer);
      match dk_sources d with
      | [] => mret tt
      | ds :: _ =>
          s ← get_src ds;
          if negb (timer =? ds_ident_hack s) then _dispatch_timer_list_update ds;; run_timers_loop n timer now
          else if (tm_target (ds_timer s) =? 0) || (tm_interval (ds_timer s) =? 0) then mret tt
          else if tm_target (ds_timer s) >? now then mret tt
          else
            put_src ds (fire_timer now s);;
            _dispatch_timer_list_update ds;;
            wakeup ds;;
            run_timers_loop n timer now
      end
  end.

Definition timer_now (clk : host_clock) (timer : Z) : Z :=
  if timer =? DISPATCH_TIMER_INDEX_MACH then _dispatch_absolute_time clk else _dispatch_get_nanoseconds clk.
Definition _dispatch_run_timers2 (fuel : nat) (clk : host_clock) (timer : Z) : SM unit :=
  run_timers_loop fuel timer (timer_now clk timer).
Definition _dispatch_run_timers (fuel : nat) (clk : host_clock) : SM unit :=
  _dispatch_run_timers2 fuel clk 0;; _dispatch_run_timers2 fuel clk 1.

(** The first timer of a list that is set and not suspended; suspended ones are marked as not armed. *)
Fixpoint first_unsuspended (l : list Z) : SM (option source) :=
  match l with
  | [] => mret None
  | ds :: l =>
      s ← get_src ds;
      if tm_target (ds_timer s) =? 0 then mret None
      else if suspended s then put_src ds (set_ds_armed false s);; first_unsuspended l
      else mret (Some s)
  end.

Definition FOREVER_NSEC : Z := 31536000000000000.

(** [inl tt] is the zero timeout of a timer that is due; [inr delta] goes on with the next list. *)
Definition next_fire_list (clk : host_clock) (timer delta : Z) : SM (unit + Z) :=
  d ← get_dk (_dispatch_kevent_timer timer);
  first ← first_unsuspended (dk_sources d);
  match first with
  | None => mret (inr delta)
  | Some s =>
      let t := ds_timer s in
      let wall := has (tm_flags t) DISPATCH_TIMER_WALL_CLOCK in
      let now := if wall then _dispatch_get_nanoseconds clk else _dispatch_absolute_time clk in
      if tm_target t <=? now then mret (inl tt)
      else
        let delta_tmp := u64 (tm_target t - now) in
        let delta_tmp := if wall then delta_tmp else _dispatch_time_mach2nano delta_tmp in
        mret (inr (if delta_tmp <? delta then delta_tmp else delta))
  end.

(** None is the null pointer: wait for ever. *)
Definition _dispatch_get_next_timer_fire (clk : host_clock) : SM (option timespec) :=
  r ← next_fire_list clk 0 UINT64_MAX;
  match r with
  | inl _ => mret (Some (Timespec 0 0))
  | inr delta =>
      r ← next_fire_list clk 1 delta;
      match r with
      | inl _ => mret (Some (Timespec 0 0))
      | inr delta =>
          if delta >? FOREVER_NSEC then mret None
          else mret (Some (Timespec (delta / NSEC_PER_SEC) (delta mod NSEC_PER_SEC)))
      end
  end.

(** ** Client calls *)

Record set_timer_params := SetTimerParams { sp_ident : Z; sp_values : timer_source }.

(** What dispatch_source_set_timer computes; the host time ratio is 1 to 1. *)
Definition set_timer_values (clk : host_clock) (flags start interval leeway : Z) : set_timer_params :=
  let interval := if interval =? 0 then 1 else if s64 interval <? 0 then INT64_MAX else interval in
  let start := if start =? DISPATCH_TIME_NOW then _dispatch_absolute_time clk
               else if start =? DISPATCH_TIME_FOREVER then INT64_MAX else start in
  let leeway := if s64 leeway <? 0 then INT64_MAX else leeway in
  if s64 start <? 0 then
    SetTimerParams DISPATCH_TIMER_INDEX_WALL
      (TimerSource (u64 (- s64 start)) (u64 (- s64 start)) interval leeway (Z.lor flags DISPATCH_TIMER_WALL_CLOCK))
  else
    SetTimerParams DISPATCH_TIMER_INDEX_MACH
      (TimerSource start start (_dispatch_time_nano2mach interval) (_dispatch_time_nano2mach leeway)
         (Z.land flags (Z.lnot DISPATCH_TIMER_WALL_CLOCK))).

(** dispatch_source_set_timer up to the dispatch_barrier_async_f of set_timer2 on the manager queue: it keeps
    the source alive and suspended meanwhile. *)
Definition dispatch_source_set_timer (clk : host_clock) (ds start interval leeway : Z) : SM set_timer_params :=
  dispatch_retain_src ds;;
  upd_src ds (fun s => set_s_refs (s_ref s) (s_xref s) (s_suspend s + 2) s);;
  s ← get_src ds;
  mret (set_timer_values clk (tm_flags (ds_timer s)) start interval leeway).

(** Runs on the manager queue. *)
Definition _dispatch_source_set_timer2 (ds : Z) (params : set_timer_params) : SM unit :=
  upd_src ds (set_ds_timer (sp_ident params) (sp_values params));;
  _dispatch_timer_list_update ds;;
  dispatch_resume_src ds;;
  dispatch_release_src ds.

Definition dispatch_source_cancel (ds : Z) : SM unit :=
  retain_src ds;;
  upd_src ds (fun s => set_ds_flags (Z.lor (ds_atomic_flags s) DSF_CANCELED) s);;
  wakeup ds;;
  release_src ds.

Definition dispatch_source_testcancel (s : source) : bool := has (ds_atomic_flags s) DSF_CANCELED.
Definition dispatch_source_get_mask (s : source) : Z := ds_pending_data_mask s.
Definition dispatch_source_get_handle (s : source) : Z := u64 (s32 (ds_ident_hack s)).
Definition dispatch_source_get_data (s : source) : Z := ds_data s.

(** The functions that run on the source itself, by dispatch_barrier_async_f. *)
Definition _dispatch_source_set_event_handler_f (ds context : Z) : SM unit :=
  upd_src ds (fun s => set_ds_handlers context (s_ctxt s) (ds_cancel_handler s) s).
Definition _dispatch_source_set_cancel_handler_f (ds context : Z) : SM unit :=
  upd_src ds (fun s => set_ds_handlers (ds_handler_func s) (ds_handler_ctxt s) context s).

(** ** Creation *)

(** struct dispatch_source_type_s; [ty_timer] tells the two init functions apart. *)
Record source_type := SourceType { ty_opaque : kevent; ty_mask : Z; ty_timer : bool }.

Definition proto (filter flags fflags : Z) : kevent := Kevent 0 filter flags fflags 0 0.
Definition _dispatch_source_type_timer : source_type := SourceType (proto DISPATCH_EVFILT_TIMER 0 0) 0x7 true.
Definition _dispatch_source_type_read : source_type := SourceType (proto EVFILT_READ EV_DISPATCH 0) 0 false.
Definition _dispatch_source_type_write : source_type := SourceType (proto EVFILT_WRITE EV_DISPATCH 0) 0 false.
Definition _dispatch_source_type_proc : source_type :=
  SourceType (proto EVFILT_PROC EV_CLEAR 0) (Z.lor NOTE_EXIT (Z.lor NOTE_FORK NOTE_EXEC)) false.
Definition _dispatch_source_type_signal : source_type := SourceType (proto EVFILT_SIGNAL 0 0) 0 false.
Definition _dispatch_source_type_vnode : source_type := SourceType (proto EVFILT_VNODE EV_CLEAR 0) 0x3f false.
Definition _dispatch_source_type_vfs : source_type := SourceType (proto EVFILT_FS EV_CLEAR 0) 0xff false.
Definition _dispatch_source_type_data_add : source_type :=
  SourceType (proto DISPATCH_EVFILT_CUSTOM_ADD 0 0) 0 false.
Definition _dispatch_source_type_data_or : source_type :=
  SourceType (proto DISPATCH_EVFILT_CUSTOM_OR EV_CLEAR 0xffffffff) 0 false.

(** The switch at the top of dispatch_source_type_kevent_init. *)
Definition valid_handle (filter handle mask : Z) : bool :=
  if filter =? EVFILT_SIGNAL then handle <? NSIG
  else if (filter =? DISPATCH_EVFILT_CUSTOM_OR) || (filter =? DISPATCH_EVFILT_CUSTOM_ADD)
  then (mask =? 0) && (handle =? 0)
  else if (filter =? EVFILT_FS) || (filter =? DISPATCH_EVFILT_TIMER) then handle =? 0
  else true.

Definition dispatch_source_type_kevent_init (ds : Z) (type : source_type) (handle mask : Z) : SM bool :=
  let p := ty_opaque type in
  if negb (valid_handle (ke_filter p) handle mask) then mret false
  else
    dk ← gets sw_brk;
    modify (set_brk (dk + 4096));;
    let k := Kevent handle (ke_filter p) (Z.lor (ke_flags p) (Z.lor EV_ADD EV_ENABLE))
               (Z.lor (ke_fflags p) (u32 mask)) 0 dk in
    put_dk dk (Dkevent k []);;
    s ← get_src ds;
    let level := has (Z.lor EV_DISPATCH EV_ONESHOT) (ke_flags p) in
    let adder := negb level && negb (has EV_CLEAR (ke_flags p)) in
    put_src ds (Source (s_ref s) (s_xref s) (s_suspend s) (s_targetq s) (s_ctxt s) dk (ds_handler_func s)
      (ds_handler_ctxt s) (ds_cancel_handler s) level adder (ds_is_installed s) (level || ty_timer type)
      (ds_is_armed s) (ds_atomic_flags s) (ds_data s) (ds_pending_data s) (ke_fflags k) handle
      (if ty_timer type then TimerSource 0 0 0 0 mask else ds_timer s));;
    mret true.

(** 0 is NULL.  The reference of the manager queue and the suspension are part of the new object. *)
Definition dispatch_source_create (type : option source_type) (handle mask q : Z) : SM Z :=
  match type with
  | None => mret 0
  | Some type =>
      if has mask (Z.lnot (ty_mask type)) then mret 0
      else
        ds ← gets sw_brk;
        modify (set_brk (ds + 4096));;
        put_src ds (Source 2 1 2 q 0 0 0 0 0 false false false false false 0 0 0 0 0 (TimerSource 0 0 0 0 0));;
        ok ← dispatch_source_type_kevent_init ds type handle mask;
        if negb ok then modify (set_src (delete ds));; mret 0
        else
          s ← get_src ds;
          dispatch_assert (negb (ds_is_level s && ds_is_adder s));;
          mret ds
  end.

(** ** The manager queue *)

(** The kevents of one turn of _dispatch_mgr_invoke; [drain] runs the items of the manager queue. *)
Fixpoint _dispatch_mgr_thread2 (drain : SM unit) (kev : list kevent) : SM unit :=
  match kev with
  | [] => mret tt
  | ke :: kev =>
      (if ke_filter ke =? EVFILT_USER then drain else _dispatch_source_drain_kevent ke);;
      _dispatch_mgr_thread2 drain kev
  end.

Definition _dispatch_mgr_wakeup : SM bool :=
  _dispatch_update_kq (Kevent 1 EVFILT_USER 0 NOTE_TRIGGER 0 0);; mret false.

End kernel.
