(* ===== verification/TimerList.v ===== *)
(** * The ordered lists of timers

    _dispatch_timer_list_update keeps the timers of a clock in the order in which they fire,
    with the ones that are not set at the end; _dispatch_run_timers fires what is due and
    _dispatch_get_next_timer_fire says how long to sleep. *)

From S2P Require Import Prelude DispatchTime DispatchSource.
From stdpp Require Import base tactics list numbers gmap strings sorting.
From Stdlib Require Import ZArith Lia.

Local Open Scope Z_scope.

(** ** Ordered insertion *)

(** [a] fires no later than [b]; 0 is a timer that is not set. *)
Definition fires_before (a b : Z) : Prop := b = 0 \/ (a <> 0 /\ a <= b).

#[export] Instance fires_before_dec a b : Decision (fires_before a b).
Proof. unfold fires_before. apply _. Defined.
#[export] Instance fires_before_trans : Transitive fires_before.
Proof. intros a b c [->|[? ?]] [?|[? ?]]; unfold fires_before in *; try lia. Qed.

(** The position that the loop of _dispatch_timer_list_update finds, as a function. *)
Fixpoint ins_timer (tgt : Z -> Z) (x t : Z) (l : list Z) : list Z :=
  match l with
  | [] => [x]
  | y :: l => if (tgt y =? 0) || (t <? tgt y) then x :: y :: l else y :: ins_timer tgt x t l
  end.
Definition place_timer (tgt : Z -> Z) (x t : Z) (l : list Z) : list Z :=
  if t =? 0 then l ++ [x] else ins_timer tgt x t l.

Definition timer_sorted (tgt : Z -> Z) (l : list Z) : Prop := StronglySorted (fun a b => fires_before (tgt a) (tgt b)) l.

Lemma ins_timer_perm tgt x t l : ins_timer tgt x t l ≡ₚ x :: l.
Proof.
  induction l as [|y l IH]; simpl; [done|]. destruct (_ || _); [done|]. rewrite IH. apply Permutation_swap.
Qed.
Lemma place_timer_perm tgt x t l : place_timer tgt x t l ≡ₚ x :: l.
Proof. unfold place_timer. case_cmp; [by rewrite <- Permutation_cons_append|apply ins_timer_perm]. Qed.

Lemma place_timer_ext tgt tgt' x t l :
  (forall y, y ∈ l -> tgt' y = tgt y) -> place_timer tgt' x t l = place_timer tgt x t l.
Proof.
  intros Hl. unfold place_timer. case_cmp; [done|]. induction l as [|y l IH]; simpl; [done|].
  rewrite Hl by set_solver. by rewrite IH by set_solver.
Qed.
(** A property of the others is not affected by where [x] goes. *)
Lemma place_timer_filter (P : Z -> Prop) `{!forall x, Decision (P x)} tgt x t l :
  ~ P x -> filter P (place_timer tgt x t l) = filter P l.
Proof.
  intros Hx. unfold place_timer. case_cmp.
  - by rewrite filter_app, (filter_cons_False P x []), filter_nil, app_nil_r.
  - induction l as [|y l IH]; simpl; [by rewrite filter_cons_False|].
    destruct (_ || _); [by rewrite filter_cons_False|]. rewrite !filter_cons. by rewrite IH.
Qed.

Lemma timer_sorted_ext tgt tgt' l : (forall x, x ∈ l -> tgt' x = tgt x) -> timer_sorted tgt l -> timer_sorted tgt' l.
Proof.
  unfold timer_sorted. induction l as [|y l IH]; intros Hx Hs; [constructor|].
  inversion Hs as [|? ? Hs' Hall]; subst. constructor; [apply IH; [set_solver|done]|].
  rewrite Forall_forall in *. intros z Hz. rewrite !Hx by set_solver. by apply Hall.
Qed.

Lemma timer_sorted_remove tgt (P : Z -> Prop) `{!forall x, Decision (P x)} l :
  timer_sorted tgt l -> timer_sorted tgt (filter P l).
Proof.
  unfold timer_sorted. induction l as [|y l IH]; intros Hs; [done|]. inversion Hs as [|? ? Hs' Hall]; subst.
  rewrite filter_cons. case_decide; [|by apply IH]. constructor; [by apply IH|].
  rewrite Forall_forall in *. intros z Hz. apply list_elem_of_filter in Hz as [_ Hz]. by apply Hall.
Qed.

Lemma ins_timer_sorted tgt x l :
  tgt x <> 0 -> timer_sorted tgt l -> timer_sorted tgt (ins_timer tgt x (tgt x) l).
Proof.
  intros Hx. unfold timer_sorted. induction l as [|y l IH]; intros Hs; simpl; [repeat constructor|].
  inversion Hs as [|? ? Hs' Hall]; subst.
  destruct (Z.eqb_spec (tgt y) 0) as [Hy|Hy]; [|destruct (Z.ltb_spec (tgt x) (tgt y)) as [Hlt|Hge]]; simpl.
  - constructor; [done|]. constructor; [by left|]. eapply Forall_impl; [exact Hall|].
    intros z [Hz|[Hz _]]; [by left|]. congruence.
  - constructor; [done|]. assert (fires_before (tgt x) (tgt y)) as Hxy by (right; lia).
    constructor; [done|]. eapply Forall_impl; [exact Hall|]. intros z Hz. by trans (tgt y).
  - constructor; [by apply IH|]. rewrite Forall_forall in *. intros z Hz. rewrite ins_timer_perm in Hz.
    apply elem_of_cons in Hz as [->|Hz]; [right; lia|by apply Hall].
Qed.

Lemma place_timer_sorted tgt x l : timer_sorted tgt l -> timer_sorted tgt (place_timer tgt x (tgt x) l).
Proof.
  intros Hs. unfold place_timer. destruct (Z.eqb_spec (tgt x) 0) as [Hx|Hx]; [|by apply ins_timer_sorted].
  unfold timer_sorted in *. induction l as [|y l IH]; simpl; [repeat constructor|].
  inversion Hs as [|? ? Hs' Hall]; subst. constructor; [by apply IH|].
  apply Forall_app. split; [done|]. constructor; [by left|constructor].
Qed.

(** Timers that fire at the same time stay in the order of their submission. *)
Lemma ins_timer_split tgt x t l :
  t <> 0 -> timer_sorted tgt l ->
  exists l1 l2, l = l1 ++ l2 /\ ins_timer tgt x t l = l1 ++ x :: l2 /\
    Forall (fun y => tgt y <> 0 /\ tgt y <= t) l1 /\ Forall (fun y => tgt y = 0 \/ t < tgt y) l2.
Proof.
  intros Ht. unfold timer_sorted. induction l as [|y l IH]; intros Hs; simpl; [by exists [], []|].
  inversion Hs as [|? ? Hs' Hall]; subst.
  destruct (Z.eqb_spec (tgt y) 0) as [Hy|Hy]; [|destruct (Z.ltb_spec t (tgt y)) as [Hlt|Hge]]; simpl.
  - exists [], (y :: l). split_and!; try done. constructor; [by left|]. eapply Forall_impl; [exact Hall|].
    intros z [Hz|[Hz _]]; [by left|congruence].
  - exists [], (y :: l). split_and!; try done. constructor; [by right|]. eapply Forall_impl; [exact Hall|].
    intros z [Hz|[Hz ?]]; [by left|right; lia].
  - destruct (IH Hs') as (l1 & l2 & -> & -> & H1 & H2). exists (y :: l1), l2. split_and!; try done. by constructor.
Qed.

(** ** The update in the model *)

Definition target_of (w : sworld) (x : Z) : Z :=
  match sw_src w !! x with Some s => tm_target (ds_timer s) | None => 0 end.

Lemma get_src_bind {A} ds s (k : source -> SM A) w :
  sw_src w !! ds = Some s -> (get_src ds ≫= k) w = k s w.
Proof. intros H. unfold get_src, mbind, M_bind. by rewrite H. Qed.
Lemma get_dk_bind {A} dk d (k : dkevent -> SM A) w :
  sw_dk w !! dk = Some d -> (get_dk dk ≫= k) w = k d w.
Proof. intros H. unfold get_dk, mbind, M_bind. by rewrite H. Qed.
Lemma put_src_bind {A} ds s (k : unit -> SM A) w : (put_src ds s ≫= k) w = k tt (set_src (insert ds s) w).
Proof. done. Qed.
Lemma put_dk_bind {A} dk d (k : unit -> SM A) w : (put_dk dk d ≫= k) w = k tt (set_dk (insert dk d) w).
Proof. done. Qed.
Lemma upd_src_bind {A} ds f s (k : unit -> SM A) w :
  sw_src w !! ds = Some s -> (upd_src ds f ≫= k) w = k tt (set_src (insert ds (f s)) w).
Proof. intros H. unfold upd_src. rewrite bind_assoc. by rewrite (get_src_bind _ s). Qed.
Lemma upd_dk_bind {A} dk f d (k : unit -> SM A) w :
  sw_dk w !! dk = Some d -> (upd_dk dk f ≫= k) w = k tt (set_dk (insert dk (f d)) w).
Proof. intros H. unfold upd_dk. rewrite bind_assoc. by rewrite (get_dk_bind _ d). Qed.

Lemma insert_timer_run w ds t l :
  (forall x, x ∈ l -> is_Some (sw_src w !! x)) ->
  insert_timer ds t l w = Ret (ins_timer (target_of w) ds t l) w.
Proof.
  induction l as [|y l IH]; intros Hl; simpl; [done|]. destruct (Hl y) as [s Hs]; [set_solver|].
  rewrite (get_src_bind _ s) by done. unfold target_of at 1 2. rewrite Hs. destruct (_ || _); [done|].
  erewrite bind_step by (apply IH; set_solver). done.
Qed.

Definition clock_index (t : timer_source) : Z :=
  if has (tm_flags t) DISPATCH_TIMER_WALL_CLOCK then DISPATCH_TIMER_INDEX_WALL else DISPATCH_TIMER_INDEX_MACH.

Lemma timer_dk_inj i j : _dispatch_kevent_timer i = _dispatch_kevent_timer j -> i = j.
Proof. unfold _dispatch_kevent_timer. lia. Qed.

(** The update of an installed timer: out of the list it is on, into the list of its clock. *)
Lemma update_run kq w ds s i j dj di :
  sw_queue w = _dispatch_mgr_q -> sw_src w !! ds = Some s -> ds_is_installed s = true ->
  ds_dkev s = _dispatch_kevent_timer j -> i = clock_index (ds_timer s) ->
  sw_dk w !! _dispatch_kevent_timer j = Some dj -> sw_dk w !! _dispatch_kevent_timer i = Some di ->
  (0 <= j) -> (i <> j -> ds ∉ dk_sources di) ->
  (forall x, x ∈ dk_sources di -> is_Some (sw_src w !! x)) ->
  exists w', _dispatch_timer_list_update kq ds w = Ret tt w' /\
    sw_src w' = <[ds:=set_ds_dkev (_dispatch_kevent_timer i) s]> (sw_src w) /\
    sw_dk w' !! _dispatch_kevent_timer i =
      Some (set_dk_sources (place_timer (target_of w) ds (tm_target (ds_timer s))
                              (filter (fun x => x <> ds) (dk_sources di))) di) /\
    (i <> j -> sw_dk w' !! _dispatch_kevent_timer j =
                 Some (set_dk_sources (filter (fun x => x <> ds) (dk_sources dj)) dj)) /\
    (forall k, k <> _dispatch_kevent_timer i -> k <> _dispatch_kevent_timer j -> sw_dk w' !! k = sw_dk w !! k) /\
    sw_log w' = sw_log w /\ sw_queue w' = sw_queue w /\ sw_buckets w' = sw_buckets w.
Proof.
  intros Hq Hs Hin Hj Hi Hdj Hdi Hj0 Hni Hl. unfold _dispatch_timer_list_update. rewrite gets_bind, Hq.
  unfold dispatch_assert. rewrite Z.eqb_refl, ret_bind. rewrite (get_src_bind _ s) by done.
  rewrite Hj. rewrite (proj2 (Z.eqb_neq (_dispatch_kevent_timer j) 0)) by (unfold _dispatch_kevent_timer; lia).
  unfold _dispatch_kevent_merge. rewrite bind_assoc, (get_src_bind _ s) by done. rewrite Hin, ret_bind.
  rewrite (get_src_bind _ s) by done. rewrite Hj. rewrite (upd_dk_bind _ _ dj) by done.
  fold (clock_index (ds_timer s)). rewrite <- Hi, put_src_bind.
  set (lj := filter (fun x => x <> ds) (dk_sources dj)).
  set (li := filter (fun x => x <> ds) (dk_sources di)).
  set (w1 := set_src _ (set_dk _ w)).
  assert (exists d1, sw_dk w1 !! _dispatch_kevent_timer i = Some d1 /\ set_dk_sources li d1 = set_dk_sources li di /\
    dk_sources d1 = li) as (d1 & Hd1 & Hset & Hsrc).
  { unfold w1. simpl. destruct (decide (i = j)) as [->|Hne].
    - rewrite lookup_insert_eq. eexists. split; [done|]. rewrite Hdj in Hdi. injection Hdi as ->. done.
    - rewrite lookup_insert_ne by (intros He; apply Hne; symmetry; by apply timer_dk_inj).
      exists di. split_and!; try done. unfold li. symmetry. apply remove_absent. by apply Hni. }
  assert (forall x, x ∈ li -> x <> ds /\ target_of w1 x = target_of w x) as Htgt.
  { intros x Hx. apply list_elem_of_filter in Hx as [Hx _]. split; [done|]. unfold target_of, w1. simpl.
    by rewrite lookup_insert_ne by done. }
  rewrite (get_dk_bind _ d1) by done. rewrite Hsrc.
  assert ((if negb (tm_target (ds_timer s) =? 0) then insert_timer ds (tm_target (ds_timer s)) li else mret (li ++ [ds])) w1
    = Ret (place_timer (target_of w) ds (tm_target (ds_timer s)) li) w1) as Hplace.
  { unfold place_timer. case_cmp; simpl; [done|]. rewrite insert_timer_run.
    - f_equal. transitivity (place_timer (target_of w1) ds (tm_target (ds_timer s)) li);
        [|rewrite (place_timer_ext (target_of w)) by (intros y Hy; by apply Htgt)]; unfold place_timer; by case_cmp.
    - intros x Hx. unfold w1. simpl. apply list_elem_of_filter in Hx as [Hne Hx].
      rewrite lookup_insert_ne by done. by apply Hl. }
  erewrite bind_step by exact Hplace. unfold upd_dk. rewrite (get_dk_bind _ d1) by done.
  eexists. split; [done|]. unfold w1. simpl. split_and!; try done.
  - rewrite lookup_insert_eq. destruct d1, di. simpl in *. unfold set_dk_sources in *. simpl in *. by simplify_eq.
  - intros Hne. rewrite lookup_insert_ne by (intros He; apply Hne; by apply timer_dk_inj). by rewrite lookup_insert_eq.
  - intros k Hk1 Hk2. by rewrite !lookup_insert_ne.
Qed.

(** ** A timer that fires *)

Notation periodic t := (has (tm_flags t) (Z.lor DISPATCH_TIMER_ONESHOT DISPATCH_TIMER_ABSOLUTE) = false).

(** What the arithmetic of the code relies on; dispatch_source_set_timer establishes it. *)
Definition timer_wf (t : timer_source) : Prop :=
  0 <= tm_target t < 2 ^ 64 /\ (tm_target t <> 0 -> 1 <= tm_interval t <= INT64_MAX).

Lemma missed_bounds now t :
  0 < tm_target t <= now -> now <= INT64_MAX -> 1 <= tm_interval t <= INT64_MAX ->
  let k := (now - tm_target t) / tm_interval t + 1 in
  1 <= k < 2 ^ 63 /\ tm_target t + (k - 1) * tm_interval t <= now < tm_target t + k * tm_interval t /\
  tm_target t + k * tm_interval t < 2 ^ 64.
Proof.
  intros Ht Hn Hi k. unfold INT64_MAX in *.
  assert (0 <= (now - tm_target t) / tm_interval t) by (apply Z.div_pos; lia).
  assert ((now - tm_target t) / tm_interval t <= now - tm_target t) by (apply Z.div_le_upper_bound; nia).
  pose proof (Z.mul_div_le (now - tm_target t) (tm_interval t)).
  pose proof (Z.mul_succ_div_gt (now - tm_target t) (tm_interval t)). unfold k. nia.
Qed.

(** The expirations of a periodic timer up to [now]: the data grows by their number and the new
    target is the first one after [now]. *)
Lemma fire_periodic_run now s :
  periodic (ds_timer s) -> 0 < tm_target (ds_timer s) <= now -> now <= INT64_MAX ->
  1 <= tm_interval (ds_timer s) <= INT64_MAX ->
  let t := ds_timer s in
  let k := (now - tm_target t) / tm_interval t + 1 in
  fire_timer now s =
    set_ds_timer (ds_ident_hack s)
      (TimerSource (tm_target t + k * tm_interval t) (tm_start t) (tm_interval t) (tm_leeway t) (tm_flags t))
      (set_ds_pending (s64 (ds_pending_data s + k)) s).
Proof.
  intros Hp Ht Hn Hi t k. pose proof (missed_bounds now t Ht Hn Hi) as (Hk & Hgrid & Hub).
  fold k in Hk, Hgrid, Hub.
  unfold fire_timer. cbv zeta. rewrite Hp. fold t. rewrite (u64_id (now - tm_target t)) by (unfold INT64_MAX in *; unfold t; lia).
  fold k. rewrite (u64_id k) by lia. rewrite (u64_id (k * _)) by (unfold t in *; nia). rewrite u64_id by (unfold t in *; nia).
  done.
Qed.

(** The multiples of the interval at which the timer expires, up to [now]. *)
Definition expirations (t : timer_source) (now : Z) : list Z :=
  filter (fun j => tm_target t + j * tm_interval t <= now) (seqZ 0 (now - tm_target t + 1)).

Lemma expirations_count now t :
  0 < tm_target t <= now -> now <= INT64_MAX -> 1 <= tm_interval t <= INT64_MAX ->
  Z.of_nat (length (expirations t now)) = (now - tm_target t) / tm_interval t + 1.
Proof.
  intros Ht Hn Hi. pose proof (missed_bounds now t Ht Hn Hi) as (Hk & Hgrid & _).
  set (k := (now - tm_target t) / tm_interval t + 1) in *. unfold expirations.
  replace (now - tm_target t + 1) with (k + (now - tm_target t + 1 - k)) by lia.
  assert (k <= now - tm_target t + 1) by nia.
  rewrite seqZ_app by lia. rewrite filter_app.
  rewrite filter_all_true, filter_all_false.
  - rewrite app_nil_r, length_seqZ. lia.
  - intros j Hj%elem_of_seqZ. nia.
  - intros j Hj%elem_of_seqZ. nia.
Qed.

(** A periodic timer that is due counts every expiration it missed, and its next target is the first
    point of its grid after [now]; a one-shot timer counts one and is unset. *)
Theorem fire_counts_expirations now s :
  timer_wf (ds_timer s) -> 0 < tm_target (ds_timer s) <= now -> now <= INT64_MAX ->
  let s' := fire_timer now s in
  if decide (periodic (ds_timer s)) then
    let k := Z.of_nat (length (expirations (ds_timer s) now)) in
    1 <= k /\ ds_pending_data s' = s64 (ds_pending_data s + k) /\
    tm_target (ds_timer s') = tm_target (ds_timer s) + k * tm_interval (ds_timer s) /\
    tm_target (ds_timer s') - tm_interval (ds_timer s) <= now < tm_target (ds_timer s')
  else ds_pending_data s' = s64 (ds_pending_data s + 1) /\ tm_target (ds_timer s') = 0.
Proof.
  intros [_ Hwf] Ht Hn s'. specialize (Hwf ltac:(lia)). unfold s'. case_decide as Hp.
  - set (k := Z.of_nat (length (expirations (ds_timer s) now))). assert (k = (now - tm_target (ds_timer s)) / tm_interval (ds_timer s) + 1) as Hk
      by (by apply expirations_count).
    pose proof (missed_bounds now (ds_timer s) Ht Hn Hwf) as (? & ? & ?).
    rewrite fire_periodic_run by done. simpl. rewrite <- Hk in *. split_and!; lia.
  - apply not_false_is_true in Hp. unfold fire_timer. cbv zeta. by rewrite Hp.
Qed.

Definition ex_timer_source (target interval flags : Z) : source :=
  Source 2 1 0 4096 0 (_dispatch_kevent_timer 1) 7 8 9 false true true true true 0 0 0 0 1
    (TimerSource target target interval 0 flags).

Lemma fire_counts_expirations_witness :
  ds_pending_data (fire_timer 1050 (ex_timer_source 1000 20 0)) = 3 /\
  tm_target (ds_timer (fire_timer 1050 (ex_timer_source 1000 20 0))) = 1060.
Proof.
  pose proof (fire_counts_expirations 1050 (ex_timer_source 1000 20 0)
    ltac:(split; simpl; unfold INT64_MAX; lia) ltac:(simpl; lia) ltac:(unfold INT64_MAX; lia)) as H.
  cbv zeta in H. rewrite decide_True in H by reflexivity. destruct H as (_ & -> & -> & _). split; vm_compute; reflexivity.
Defined.

(** ** Running the timers *)

(** A timer on the list of the clock [i]. *)
Definition timer_on (i : Z) (s : source) : Prop :=
  ds_ident_hack s = i /\ ds_is_installed s = true /\ ds_dkev s = _dispatch_kevent_timer i /\
  timer_wf (ds_timer s) /\ (tm_target (ds_timer s) <> 0 -> clock_index (ds_timer s) = i).

(** The list of the clock [i]: every timer once, in the order in which they fire. *)
Record list_ok (i : Z) (w : sworld) (l : list Z) : Prop := {
  cl_nodup : NoDup l;
  cl_sorted : timer_sorted (target_of w) l;
  cl_src : forall x, x ∈ l -> exists s, sw_src w !! x = Some s /\ timer_on i s
}.
Definition clock_list (i : Z) (w : sworld) (l : list Z) : Prop :=
  (exists d, sw_dk w !! _dispatch_kevent_timer i = Some d /\ dk_sources d = l) /\ list_ok i w l.

Definition due (w : sworld) (now : Z) (x : Z) : Prop := 0 < target_of w x <= now.
#[export] Instance due_dec w now x : Decision (due w now x).
Proof. unfold due. apply _. Defined.

Lemma set_ds_dkev_id s : set_ds_dkev (ds_dkev s) s = s.
Proof. by destruct s. Qed.
Lemma fire_keeps now s :
  ds_ident_hack (fire_timer now s) = ds_ident_hack s /\ ds_is_installed (fire_timer now s) = ds_is_installed s /\
  ds_dkev (fire_timer now s) = ds_dkev s /\ tm_flags (ds_timer (fire_timer now s)) = tm_flags (ds_timer s).
Proof. unfold fire_timer. cbv zeta. by destruct (has _ _). Qed.

(** The timer that fired is unset or due later, and still fits its list. *)
Lemma fire_later i now s :
  timer_on i s -> 0 < tm_target (ds_timer s) <= now -> now <= INT64_MAX ->
  timer_on i (fire_timer now s) /\
  (tm_target (ds_timer (fire_timer now s)) = 0 \/ now < tm_target (ds_timer (fire_timer now s))).
Proof.
  intros (Hid & Hin & Hdk & [Hr Hwf] & Hcl) Ht Hn. specialize (Hwf ltac:(lia)). specialize (Hcl ltac:(lia)).
  destruct (fire_keeps now s) as (Kid & Kin & Kdk & Kfl).
  assert (timer_wf (ds_timer (fire_timer now s)) /\ (tm_target (ds_timer (fire_timer now s)) = 0 \/
    now < tm_target (ds_timer (fire_timer now s)))) as [W L].
  { destruct (has (tm_flags (ds_timer s)) (Z.lor DISPATCH_TIMER_ONESHOT DISPATCH_TIMER_ABSOLUTE)) eqn:Hp.
    - unfold fire_timer. cbv zeta. rewrite Hp. simpl. split; [split; simpl; lia|by left].
    - pose proof (missed_bounds now (ds_timer s) Ht Hn Hwf) as (? & ? & ?).
      rewrite fire_periodic_run by done. simpl. split; [split; simpl; lia|right; lia]. }
  split; [|done]. unfold timer_on. rewrite Kid, Kin, Kdk. split_and!; try done.
  intros _. unfold clock_index in *. by rewrite Kfl.
Qed.

Lemma target_of_src w x s : sw_src w !! x = Some s -> target_of w x = tm_target (ds_timer s).
Proof. unfold target_of. by intros ->. Qed.

(** When the head of the list is not due, no timer is. *)
Lemma due_head w i now x l :
  clock_list i w (x :: l) -> ~ due w now x -> forall y, y ∈ x :: l -> ~ due w now y.
Proof.
  intros [_ [_ Hs Hsrc]] Hnd y Hy. apply elem_of_cons in Hy as [->|Hy]; [done|].
  destruct (Hsrc x) as (s & Hx & _ & _ & _ & [Hr _] & _); [set_solver|].
  rewrite <- (target_of_src w x s Hx) in Hr.
  unfold timer_sorted in Hs. inversion Hs as [|? ? _ Hall]; subst.
  rewrite Forall_forall in Hall. destruct (Hall y Hy) as [H0|[Hx0 Hle]]; unfold due in *; lia.
Qed.

Lemma list_ok_remove i w x l : list_ok i w l -> list_ok i w (filter (fun y => y <> x) l).
Proof.
  intros [Hnd Hs Hsrc]. split; [by apply NoDup_filter|by apply timer_sorted_remove|].
  intros y Hy. apply list_elem_of_filter in Hy as [_ Hy]. by apply Hsrc.
Qed.
Lemma list_ok_frame i w w' l :
  list_ok i w l -> (forall x, x ∈ l -> sw_src w' !! x = sw_src w !! x) -> list_ok i w' l.
Proof.
  intros [Hnd Hs Hsrc] Es. split; [done| |].
  - eapply timer_sorted_ext; [|exact Hs]. intros x Hx. unfold target_of. by rewrite Es.
  - intros x Hx. rewrite Es by done. by apply Hsrc.
Qed.
(** A timer in the new state [s'] at its place keeps the list what it is. *)
Lemma list_ok_place i w w' x s' l :
  list_ok i w l -> x ∉ l -> timer_on i s' -> sw_src w' = <[x:=s']> (sw_src w) ->
  list_ok i w' (place_timer (target_of w') x (tm_target (ds_timer s')) l).
Proof.
  intros Hl Hx Hon Esrc. assert (target_of w' x = tm_target (ds_timer s')) as Htx
    by (apply target_of_src; by rewrite Esrc, lookup_insert_eq).
  apply (list_ok_frame _ _ w') in Hl as [Hnd Hsort Hsrc];
    [|intros y Hy; rewrite Esrc, lookup_insert_ne; [done|set_solver]].
  split; [rewrite place_timer_perm; by apply NoDup_cons|rewrite <- Htx; by apply place_timer_sorted|].
  intros y Hy. rewrite place_timer_perm in Hy. apply elem_of_cons in Hy as [->|Hy]; [|by apply Hsrc].
  rewrite Esrc, lookup_insert_eq. eauto.
Qed.
Lemma list_ok_tail i w x l : list_ok i w (x :: l) -> x ∉ l /\ list_ok i w l.
Proof.
  intros H. pose proof (cl_nodup _ _ _ H) as [Hx _]%NoDup_cons. split; [done|].
  apply (list_ok_remove i w x) in H. by rewrite remove_at_head in H.
Qed.

Lemma clock_list_frame i w w' l :
  clock_list i w l -> sw_dk w' !! _dispatch_kevent_timer i = sw_dk w !! _dispatch_kevent_timer i ->
  (forall x, x ∈ l -> sw_src w' !! x = sw_src w !! x) -> clock_list i w' l.
Proof. intros [Hdk Hl] Ed Es. split; [by rewrite Ed|by eapply list_ok_frame]. Qed.

(** The table of kevents is the same, but for the sources of the kevents. *)
Definition same_kevents (w w' : sworld) : Prop :=
  sw_buckets w' = sw_buckets w /\ forall k, dk_kevent <$> (sw_dk w' !! k) = dk_kevent <$> (sw_dk w !! k).
#[export] Instance same_kevents_preorder : PreOrder same_kevents.
Proof. split; [done|]. intros w1 w2 w3 [B1 K1] [B2 K2]. split; [congruence|]. intros k. by rewrite K2, K1. Qed.

Section run.
Context (kq : kernel) (i now : Z).
Context (Hi : 0 <= i) (Hnow : now <= INT64_MAX).

(** The update of a timer of the list of the clock [i] that got the new state [s']. *)
Lemma update_in_place w x s' l :
  sw_queue w = _dispatch_mgr_q -> clock_list i w (x :: l) -> timer_on i s' -> clock_index (ds_timer s') = i ->
  exists w' l', _dispatch_timer_list_update kq x (set_src (insert x s') w) = Ret tt w' /\
    clock_list i w' l' /\ l' ≡ₚ x :: l /\
    (forall P (HP : forall y, Decision (P y)), ~ P x -> filter P l' = filter P l) /\
    sw_src w' = <[x:=s']> (sw_src w) /\ sw_log w' = sw_log w /\ sw_queue w' = _dispatch_mgr_q /\
    (forall k, k <> _dispatch_kevent_timer i -> sw_dk w' !! k = sw_dk w !! k) /\ same_kevents w w'.
Proof.
  intros Hq Hcl Hon Hidx. pose proof Hcl as [(d & Hd & Hdl) [Hnd Hsort Hsrc]]. pose proof Hon as (_ & Hin & Hdk & _ & _).
  set (w1 := set_src (insert x s') w).
  destruct (update_run kq w1 x s' i i d d) as (w2 & Hrun & Esrc & Edk & _ & Eother & Elog & Eq & Eb);
    try done; unfold w1; simpl.
  { by rewrite lookup_insert_eq. }
  { intros y Hy. rewrite Hdl in Hy. destruct (decide (y = x)) as [->|Hne]; [rewrite lookup_insert_eq; eauto|].
    rewrite lookup_insert_ne by done. destruct (Hsrc y Hy) as (sy & -> & _). eauto. }
  assert (sw_src w2 = <[x:=s']> (sw_src w)) as Esrc'.
  { rewrite Esrc. unfold w1. simpl. by rewrite insert_insert_eq, <- Hdk, set_ds_dkev_id. }
  destruct (list_ok_tail i w x l (proj2 Hcl)) as [Hxl Hl]. rewrite Hdl, remove_at_head in Edk by done.
  rewrite (place_timer_ext (target_of w2)) in Edk by (intros y _; unfold target_of; by rewrite Esrc').
  exists w2. eexists. split; [exact Hrun|]. split; [split; [eauto|by eapply list_ok_place]|].
  split; [apply place_timer_perm|]. split_and!; try done; [|by rewrite Eq|naive_solver|].
  - intros P HP HPx. by apply place_timer_filter.
  - split; [by rewrite Eb|]. intros k. destruct (decide (k = _dispatch_kevent_timer i)) as [->|Hk].
    + by rewrite Edk, Hd.
    + by rewrite Eother.
Qed.

(** One round of the loop. *)
Lemma run_timers_round w x l s :
  sw_queue w = _dispatch_mgr_q -> clock_list i w (x :: l) -> sw_src w !! x = Some s -> due w now x ->
  exists w' l',
    (forall n, run_timers_loop kq (S n) i now w = run_timers_loop kq n i now w') /\
    clock_list i w' l' /\ l' ≡ₚ x :: l /\ filter (due w' now) l' = filter (due w now) l /\
    sw_src w' = <[x:=fire_timer now s]> (sw_src w) /\ sw_log w' = sw_log w ++ [EvWake x] /\
    sw_queue w' = _dispatch_mgr_q /\
    (forall k, k <> _dispatch_kevent_timer i -> sw_dk w' !! k = sw_dk w !! k) /\ same_kevents w w'.
Proof.
  intros Hq Hcl Hs Hdue. pose proof Hcl as [(d & Hd & Hdl) [Hnd Hsort Hsrc]].
  destruct (Hsrc x) as (s' & Hs' & Hon); [set_solver|]. rewrite Hs in Hs'. injection Hs' as <-.
  unfold due in Hdue. rewrite (target_of_src _ _ _ Hs) in Hdue.
  destruct (fire_later i now s Hon Hdue Hnow) as [Hon' Hlater].
  pose proof Hon as (Hid & _ & _ & [_ Hwf] & Hidx). specialize (Hidx ltac:(lia)). specialize (Hwf ltac:(lia)).
  destruct (update_in_place w x (fire_timer now s) l) as (w2 & l' & Hrun & Hcl' & Hperm & Hfil & Esrc & Elog & Eq & Eo & Ek);
    try done.
  { unfold clock_index in *. destruct (fire_keeps now s) as (_ & _ & _ & ->). done. }
  exists (log_event (EvWake x) w2), l'. split_and!; try done.
  - intros n. simpl. rewrite (get_dk_bind _ d) by done. rewrite Hdl, (get_src_bind _ s) by done.
    rewrite Hid, Z.eqb_refl. simpl. rewrite !(proj2 (Z.eqb_neq _ _)) by lia. simpl.
    rewrite Z.gtb_ltb, (proj2 (Z.ltb_ge _ _)) by lia. rewrite put_src_bind.
    erewrite bind_step by exact Hrun. done.
  - by eapply clock_list_frame.
  - rewrite Hfil; [|unfold due, target_of; simpl; rewrite Esrc, lookup_insert_eq; lia].
    apply filter_iff_in. intros y Hy. unfold due, target_of. simpl. apply NoDup_cons in Hnd as [Hxl _].
    rewrite Esrc, lookup_insert_ne by set_solver. done.
  - simpl. by rewrite Elog.
Qed.

(** The loop stops at the first timer that is not due. *)
Lemma run_timers_stop n w x l :
  clock_list i w (x :: l) -> ~ due w now x -> run_timers_loop kq (S n) i now w = Ret tt w.
Proof.
  intros [(d & Hd & Hdl) [_ _ Hsrc]] Hnd. destruct (Hsrc x) as (s & Hs & Hid & _ & _ & [Hr _] & _); [set_solver|].
  unfold due in Hnd. rewrite (target_of_src _ _ _ Hs) in Hnd.
  simpl. rewrite (get_dk_bind _ d) by done. rewrite Hdl, (get_src_bind _ s) by done.
  rewrite Hid, Z.eqb_refl. simpl. destruct (Z.eqb_spec (tm_target (ds_timer s)) 0); [done|]. simpl.
  case_cmp; [done|]. by rewrite Z.gtb_ltb, (proj2 (Z.ltb_lt _ _)) by lia.
Qed.

(** The sources after one round and the rest of the rounds, from the sources before. *)
Lemma run_sources_step w w1 x s l l1 y :
  NoDup (x :: l) -> due w now x -> sw_src w !! x = Some s -> sw_src w1 = <[x:=fire_timer now s]> (sw_src w) ->
  l1 ≡ₚ x :: l -> filter (due w1 now) l1 = filter (due w now) l ->
  (if decide (y ∈ l1 /\ due w1 now y) then fire_timer now <$> (sw_src w1 !! y) else sw_src w1 !! y) =
  (if decide (y ∈ x :: l /\ due w now y) then fire_timer now <$> (sw_src w !! y) else sw_src w !! y).
Proof.
  intros [Hx _]%NoDup_cons Hdue Hs Es Hp Hf.
  assert (forall z, z ∈ l1 /\ due w1 now z <-> z ∈ l /\ due w now z) as Hiff.
  { intros z. rewrite !(and_comm (z ∈ _)), <- !list_elem_of_filter. by rewrite Hf. }
  rewrite (decide_ext _ _ _ _ (Hiff y)), Es. destruct (decide (y = x)) as [->|Hne].
  - rewrite decide_False by naive_solver. rewrite decide_True by (split; [set_solver|done]).
    by rewrite lookup_insert_eq, Hs.
  - rewrite lookup_insert_ne by done. apply decide_ext. set_solver.
Qed.

(** _dispatch_run_timers2 fires exactly the timers that are due, once each and in the order of
    their targets; afterwards nothing is due. *)
Lemma run_timers_exact fuel w l :
  sw_queue w = _dispatch_mgr_q -> clock_list i w l -> (length (filter (due w now) l) < fuel)%nat ->
  exists w' l', run_timers_loop kq fuel i now w = Ret tt w' /\
    clock_list i w' l' /\ l' ≡ₚ l /\ (forall x, x ∈ l' -> ~ due w' now x) /\
    (forall x, sw_src w' !! x = if decide (x ∈ l /\ due w now x) then fire_timer now <$> (sw_src w !! x)
                                else sw_src w !! x) /\
    sw_log w' = sw_log w ++ (EvWake <$> filter (due w now) l) /\ sw_queue w' = _dispatch_mgr_q /\
    (forall k, k <> _dispatch_kevent_timer i -> sw_dk w' !! k = sw_dk w !! k) /\ same_kevents w w'.
Proof.
  revert fuel l. induction fuel as [|n IH] in w |- *; intros l Hq Hcl Hfuel; [lia|].
  destruct l as [|x l].
  { pose proof Hcl as [(d & Hd & Hdl) _]. exists w, []. split_and!; try done.
    - simpl. rewrite (get_dk_bind _ d) by done. by rewrite Hdl.
    - set_solver.
    - by rewrite app_nil_r. }
  destruct (decide (due w now x)) as [Hdue|Hnd].
  - pose proof (cl_src _ _ _ (proj2 Hcl) x ltac:(set_solver)) as (s & Hs & _).
    destruct (run_timers_round w x l s) as (w1 & l1 & Hstep & Hcl1 & Hp1 & Hf1 & Es1 & El1 & Eq1 & Eo1 & Ek1); try done.
    rewrite filter_cons_True in Hfuel by done. simpl in Hfuel.
    destruct (IH w1 l1) as (w' & l' & Hrun & Hcl' & Hp' & Hnone & Es & El & Eq & Eo & Ek); [done..|rewrite Hf1; lia|].
    exists w', l'. rewrite Hstep. split_and!; try done.
    + by rewrite Hp'.
    + intros y. rewrite Es. apply (run_sources_step w w1 x s l l1 y); try done. by destruct Hcl as [_ []].
    + rewrite El, El1, Hf1, filter_cons_True by done. simpl. by rewrite <- app_assoc.
    + intros k Hk. rewrite Eo by done. by apply Eo1.
    + by trans w1.
  - pose proof (due_head w i now x l Hcl Hnd) as Hnone. exists w, (x :: l). split_and!; try done.
    + by apply (run_timers_stop n w x l).
    + intros y. rewrite decide_False by naive_solver. done.
    + by rewrite filter_all_false, app_nil_r by done.
Qed.
End run.

Lemma clock_lists_disjoint i j w l l' x : clock_list i w l -> clock_list j w l' -> x ∈ l -> x ∈ l' -> i = j.
Proof.
  intros [_ [_ _ H1]] [_ [_ _ H2]] Hx Hx'. destruct (H1 x Hx) as (s & Hs & _ & _ & D1 & _).
  destruct (H2 x Hx') as (s' & Hs' & _ & _ & D2 & _). apply timer_dk_inj. congruence.
Qed.

(** The lists of both clocks. *)
Definition timers_ok (w : sworld) (l0 l1 : list Z) : Prop :=
  clock_list DISPATCH_TIMER_INDEX_WALL w l0 /\ clock_list DISPATCH_TIMER_INDEX_MACH w l1.

(** The sources after all that is due was fired, as a function of the sources before. *)
Definition fired (clk : host_clock) (w : sworld) (l0 l1 : list Z) (x : Z) : option source :=
  if decide (x ∈ l0 /\ due w (timer_now clk 0) x) then fire_timer (timer_now clk 0) <$> (sw_src w !! x)
  else if decide (x ∈ l1 /\ due w (timer_now clk 1) x) then fire_timer (timer_now clk 1) <$> (sw_src w !! x)
  else sw_src w !! x.

Lemma run_timers_run kq fuel clk w l0 l1 :
  sw_queue w = _dispatch_mgr_q -> timers_ok w l0 l1 ->
  timer_now clk 0 <= INT64_MAX -> timer_now clk 1 <= INT64_MAX ->
  (length l0 < fuel)%nat -> (length l1 < fuel)%nat ->
  exists w' l0' l1', _dispatch_run_timers kq fuel clk w = Ret tt w' /\
    timers_ok w' l0' l1' /\ l0' ≡ₚ l0 /\ l1' ≡ₚ l1 /\
    (forall x, x ∈ l0' -> ~ due w' (timer_now clk 0) x) /\ (forall x, x ∈ l1' -> ~ due w' (timer_now clk 1) x) /\
    (forall x, sw_src w' !! x = fired clk w l0 l1 x) /\
    sw_log w' = sw_log w ++ (EvWake <$> filter (due w (timer_now clk 0)) l0)
                         ++ (EvWake <$> filter (due w (timer_now clk 1)) l1) /\
    same_kevents w w'.
Proof.
  intros Hq [H0 H1] N0 N1 F0 F1. unfold _dispatch_run_timers, _dispatch_run_timers2.
  pose proof (length_filter (due w (timer_now clk 0)) l0).
  destruct (run_timers_exact kq 0 (timer_now clk 0) ltac:(lia) N0 fuel w l0) as
    (w1 & l0' & Hr0 & C0 & P0 & D0 & S0 & L0 & Q0 & K0 & T0); [done..|lia|].
  assert (forall x, x ∈ l1 -> sw_src w1 !! x = sw_src w !! x) as Hsame.
  { intros x Hx. rewrite S0, decide_False; [done|]. intros [Hx0 _]. by pose proof (clock_lists_disjoint _ _ _ _ _ _ H0 H1 Hx0 Hx). }
  assert (clock_list 1 w1 l1) as H1' by (eapply clock_list_frame; [exact H1|by apply K0|done]).
  pose proof (length_filter (due w1 (timer_now clk 1)) l1).
  destruct (run_timers_exact kq 1 (timer_now clk 1) ltac:(lia) N1 fuel w1 l1) as
    (w2 & l1' & Hr1 & C1 & P1 & D1 & S1 & L1 & Q1 & K1 & T1); [done..|lia|].
  assert (forall x, x ∈ l1 -> (due w1 (timer_now clk 1) x <-> due w (timer_now clk 1) x)) as Hdue.
  { intros x Hx. unfold due, target_of. by rewrite Hsame. }
  assert (forall x, x ∈ l0' -> sw_src w2 !! x = sw_src w1 !! x) as Hsame2.
  { intros x Hx. rewrite S1, decide_False; [done|]. intros [Hx1 _].
    by pose proof (clock_lists_disjoint _ _ _ _ _ _ C0 H1' Hx Hx1). }
  erewrite bind_step by exact Hr0. rewrite Hr1. exists w2, l0', l1'. split_and!; try done.
  - split; [eapply clock_list_frame; [exact C0|by apply K1|done]|exact C1].
  - intros x Hx. unfold due, target_of. rewrite Hsame2 by done. by apply D0.
  - intros x. rewrite S1. unfold fired. destruct (decide (x ∈ l1)) as [Hx|Hx].
    + rewrite (decide_ext _ (x ∈ l1 /\ due w (timer_now clk 1) x)) by (by rewrite Hdue).
      rewrite Hsame by done. rewrite (decide_False (P := x ∈ l0 /\ _)); [done|]. intros [Hx0 _].
      by pose proof (clock_lists_disjoint _ _ _ _ _ _ H0 H1 Hx0 Hx).
    + rewrite !(decide_False (P := x ∈ l1 /\ _)) by naive_solver. apply S0.
  - rewrite L1, L0, <- app_assoc. do 2 f_equal. by rewrite (filter_iff_in _ _ _ Hdue).
  - by trans w1.
Qed.

(** C13: running the timers terminates, fires every timer of the two clocks that is due, exactly once and in the
    order of the targets, and no other; the loop does what the direct definition [fired] says, and leaves the table of
    kevents alone. *)
Theorem run_timers_fires_due kq fuel clk w l0 l1 :
  sw_queue w = _dispatch_mgr_q -> timers_ok w l0 l1 ->
  timer_now clk 0 <= INT64_MAX -> timer_now clk 1 <= INT64_MAX ->
  (length l0 < fuel)%nat -> (length l1 < fuel)%nat ->
  exists w' l0' l1', _dispatch_run_timers kq fuel clk w = Ret tt w' /\
    timers_ok w' l0' l1' /\ l0' ≡ₚ l0 /\ l1' ≡ₚ l1 /\
    (forall x, x ∈ l0' -> ~ due w' (timer_now clk 0) x) /\ (forall x, x ∈ l1' -> ~ due w' (timer_now clk 1) x) /\
    (forall x, sw_src w' !! x = fired clk w l0 l1 x) /\
    sw_log w' = sw_log w ++ (EvWake <$> filter (due w (timer_now clk 0)) l0)
                         ++ (EvWake <$> filter (due w (timer_now clk 1)) l1) /\
    same_kevents w w'.
Proof. apply run_timers_run. Qed.

(** ** How long to sleep *)

(** A set timer that is not suspended, of the list of the clock [i], and the time to its target. *)
Definition waits (w : sworld) (l : list Z) (t : Z) : Prop :=
  exists x s, x ∈ l /\ sw_src w !! x = Some s /\ suspended s = false /\ tm_target (ds_timer s) = t /\ t <> 0.

(** Only the armed bit of suspended sources changes. *)
Definition disarmed (w w' : sworld) : Prop :=
  sw_dk w' = sw_dk w /\
  forall x, sw_src w' !! x = sw_src w !! x \/
            exists s, sw_src w !! x = Some s /\ suspended s = true /\ sw_src w' !! x = Some (set_ds_armed false s).

#[export] Instance disarmed_refl : Reflexive disarmed.
Proof. intros w. split; [done|]. by left. Qed.
#[export] Instance disarmed_trans : Transitive disarmed.
Proof.
  intros w1 w2 w3 [D1 H1] [D2 H2]. split; [by rewrite D2|]. intros x.
  destruct (H1 x) as [E1|(s1 & E1 & S1 & F1)], (H2 x) as [E2|(s2 & E2 & S2 & F2)];
    rewrite ?E2, ?F2, ?E1, ?F1; [by left|..]; right; [|by exists s1|].
  - rewrite E1 in E2. by exists s2.
  - exists s1. split_and!; try done. rewrite F1 in E2. by injection E2 as <-.
Qed.

Lemma disarmed_target w w' x : disarmed w w' -> target_of w' x = target_of w x.
Proof.
  intros [_ H]. unfold target_of. destruct (H x) as [->|(s & -> & _ & ->)]; done.
Qed.
Lemma disarmed_waits_back w w' l t : disarmed w w' -> waits w l t -> waits w' l t.
Proof.
  intros [_ D] (x & s & Hx & Hs & Hn & Ht & H0). exists x. destruct (D x) as [E|(s' & E & F & G)].
  - exists s. by rewrite E.
  - rewrite Hs in E. injection E as <-. congruence.
Qed.
Lemma disarmed_clock_list i w w' l : disarmed w w' -> clock_list i w l -> clock_list i w' l.
Proof.
  intros D [Hdk [Hnd Hs Hsrc]]. split; [by rewrite (proj1 D)|split; [done| |]].
  - eapply timer_sorted_ext; [|exact Hs]. intros x _. by apply disarmed_target.
  - intros x Hx. destruct (Hsrc x Hx) as (s & E & Hon). destruct (proj2 D x) as [->|(s' & E' & _ & ->)]; [by exists s|].
    rewrite E in E'. injection E' as <-. by exists (set_ds_armed false s).
Qed.

Lemma disarmed_unsuspended w w' x s :
  disarmed w w' -> sw_src w' !! x = Some s -> suspended s = false -> sw_src w !! x = Some s.
Proof.
  intros [_ D] Hs Hn. destruct (D x) as [E|(s' & E & F & G)]; [by rewrite <- E|].
  rewrite Hs in G. injection G as ->. unfold suspended in *. simpl in *. congruence.
Qed.
Lemma waits_disarmed w w' l t : disarmed w w' -> waits w' l t <-> waits w l t.
Proof.
  intros D. split; [|by apply disarmed_waits_back]. intros (x & s' & Hx & Hs' & Hn & Ht).
  exists x, s'. split_and!; try naive_solver. by eapply disarmed_unsuspended.
Qed.
Lemma waits_cons_suspended w x s l t :
  sw_src w !! x = Some s -> suspended s = true -> waits w (x :: l) t <-> waits w l t.
Proof.
  intros Hs Hn. split; intros (y & sy & Hy & Hrest); exists y, sy; split; try naive_solver; [|set_solver].
  apply elem_of_cons in Hy as [->|Hy]; [|done]. destruct Hrest as (Hs' & Hn' & _). congruence.
Qed.
Lemma disarm_one w x s : sw_src w !! x = Some s -> suspended s = true -> disarmed w (set_src (insert x (set_ds_armed false s)) w).
Proof.
  intros Hs Hn. split; [done|]. intros y. simpl. destruct (decide (y = x)) as [->|Hne].
  - right. exists s. by rewrite lookup_insert_eq.
  - left. by rewrite lookup_insert_ne.
Qed.

(** The scan of a list that is in order finds the earliest timer that is not suspended. *)
Lemma first_unsuspended_run w l :
  timer_sorted (target_of w) l -> (forall x, x ∈ l -> is_Some (sw_src w !! x)) ->
  exists r w', first_unsuspended l w = Ret r w' /\ disarmed w w' /\
    match r with
    | None => forall t, ~ waits w l t
    | Some s => (exists x, x ∈ l /\ sw_src w !! x = Some s /\ suspended s = false) /\
                tm_target (ds_timer s) <> 0 /\ forall t, waits w l t -> tm_target (ds_timer s) <= t
    end.
Proof.
  induction l as [|x l IH] in w |- *; intros Hs Hl.
  { exists None, w. split_and!; try done. intros t (x & ? & Hx & _). set_solver. }
  destruct (Hl x) as [s Ex]; [set_solver|]. unfold timer_sorted in Hs. inversion Hs as [|? ? Hs' Hall]; subst.
  rewrite Forall_forall in Hall. simpl. rewrite (get_src_bind _ s) by done. pose proof (target_of_src _ _ _ Ex) as Tx.
  destruct (Z.eqb_spec (tm_target (ds_timer s)) 0) as [T0|T0].
  - exists None, w. split_and!; try done. intros t (y & sy & Hy & Ey & _ & Ht & Hn).
    rewrite <- (target_of_src _ _ _ Ey) in Ht. apply elem_of_cons in Hy as [->|Hy]; [congruence|].
    destruct (Hall y Hy) as [?|[? _]]; congruence.
  - destruct (suspended s) eqn:Su.
    + rewrite put_src_bind. pose proof (disarm_one w x s Ex Su) as D1. set (w1 := set_src _ w) in *.
      destruct (IH w1) as (r & w' & Hr & D2 & Hm).
      * eapply timer_sorted_ext; [|exact Hs']. intros y _. by apply disarmed_target.
      * intros y Hy. destruct (Hl y) as [sy Ey]; [set_solver|]. destruct (proj2 D1 y) as [->|(? & _ & _ & ->)]; eauto.
      * exists r, w'. split; [done|]. split; [by trans w1|]. destruct r as [s0|].
        -- destruct Hm as ((y & Hy & Ey & Ny) & Hn0 & Hmin). split_and!; [|done|].
           ++ exists y. split_and!; [set_solver| |done]. by eapply disarmed_unsuspended.
           ++ intros t Ht. apply Hmin. rewrite (waits_disarmed w) by done. by rewrite <- waits_cons_suspended.
        -- intros t Ht. apply (Hm t). rewrite (waits_disarmed w) by done. by rewrite <- waits_cons_suspended.
    + exists (Some s), w. split_and!; try done; [exists x; split_and!; set_solver|].
      intros t (y & sy & Hy & Ey & _ & Ht & Hn). rewrite <- (target_of_src _ _ _ Ey) in Ht.
      apply elem_of_cons in Hy as [->|Hy]; [lia|]. destruct (Hall y Hy) as [?|[_ ?]]; lia.
Qed.

Definition time_left (now t : Z) : Z := Z.max 0 (t - now).

(** What one list contributes: [inl] when a timer is due, else the minimum of [delta] and the time that is left. *)
Definition fire_bound (now : Z) (w : sworld) (l : list Z) (delta : Z) (r : unit + Z) : Prop :=
  match r with
  | inl _ => exists t, waits w l t /\ time_left now t = 0
  | inr d => 0 <= d <= delta /\ (forall t, waits w l t -> d <= time_left now t) /\
             (d = delta \/ exists t, waits w l t /\ d = time_left now t)
  end.
Lemma fire_bound_disarmed now w w' l delta r :
  disarmed w w' -> fire_bound now w' l delta r -> fire_bound now w l delta r.
Proof.
  intros D. pose proof (fun t => waits_disarmed w w' l t D) as Hw. unfold fire_bound.
  destruct r; [intros (t & Ht & ?); exists t; by rewrite <- Hw|].
  intros (? & Hm & Hex). split_and!; try lia; [intros t Ht; apply Hm; by rewrite Hw|].
  destruct Hex as [?|(t & ? & ?)]; [by left|right; exists t; by rewrite <- Hw].
Qed.

Lemma next_fire_list_run clk i w l delta :
  clock_list i w l -> i = 0 \/ i = 1 -> 0 <= timer_now clk i -> 0 <= delta ->
  exists r w', next_fire_list clk i delta w = Ret r w' /\ disarmed w w' /\ fire_bound (timer_now clk i) w l delta r.
Proof.
  intros [(d & Hd & Hdl) [Hnd Hs Hsrc]] Hi Hnow Hdelta. unfold next_fire_list. rewrite (get_dk_bind _ d) by done.
  destruct (first_unsuspended_run w (dk_sources d)) as (r & w' & Hr & D & Hm).
  { by rewrite Hdl. }
  { intros x Hx. rewrite Hdl in Hx. destruct (Hsrc x Hx) as (s & -> & _). eauto. }
  rewrite Hdl in Hm. erewrite bind_step by exact Hr. destruct r as [s|]; cycle 1.
  { exists (inr delta), w'. unfold fire_bound. split_and!; try done; [|by left]. intros t Ht. by destruct (Hm t). }
  destruct Hm as ((x & Hx & Ex & Nx) & T0 & Hmin). destruct (Hsrc x Hx) as (s' & Es' & _ & _ & _ & [Hr64 _] & Hcl).
  rewrite Ex in Es'. injection Es' as <-. specialize (Hcl T0).
  assert (waits w l (tm_target (ds_timer s))) as Hw by (exists x, s; done).
  assert ((if has (tm_flags (ds_timer s)) DISPATCH_TIMER_WALL_CLOCK then _dispatch_get_nanoseconds clk
           else _dispatch_absolute_time clk) = timer_now clk i) as ->.
  { unfold clock_index, timer_now in *. destruct (has _ _); by rewrite <- Hcl. }
  cbv zeta. unfold fire_bound, time_left. destruct (Z.leb_spec (tm_target (ds_timer s)) (timer_now clk i)).
  { exists (inl tt), w'. split_and!; try done. eexists. split; [exact Hw|lia]. }
  rewrite (u64_id (_ - _)) by lia.
  assert ((if has (tm_flags (ds_timer s)) DISPATCH_TIMER_WALL_CLOCK then tm_target (ds_timer s) - timer_now clk i
    else _dispatch_time_mach2nano (tm_target (ds_timer s) - timer_now clk i)) = tm_target (ds_timer s) - timer_now clk i) as ->.
  { destruct (has _ _); [done|]. unfold _dispatch_time_mach2nano. simpl. rewrite Z.mul_1_r. apply u64_id. lia. }
  eexists _, w'. split_and!; [done..|]. split_and!.
  - case_cmp; lia.
  - case_cmp; lia.
  - intros t Ht. specialize (Hmin t Ht). case_cmp; lia.
  - case_cmp; [right|by left]. eexists. split; [exact Hw|lia].
Qed.

Definition nanoseconds (ts : timespec) : Z := tv_sec ts * NSEC_PER_SEC + tv_nsec ts.

(** The time that is left for a timer of either list. *)
Definition left_on (clk : host_clock) (w : sworld) (l0 l1 : list Z) (d : Z) : Prop :=
  (exists t, waits w l0 t /\ d = time_left (timer_now clk 0) t) \/
  (exists t, waits w l1 t /\ d = time_left (timer_now clk 1) t).

Lemma timer_now_range clk i : 0 <= timer_now clk i < 2 ^ 64.
Proof. unfold timer_now, _dispatch_absolute_time, _dispatch_get_nanoseconds. case_cmp; apply u64_range. Qed.

(** [r] is the timeout for the earliest of the times that are left. *)
Definition earliest (clk : host_clock) (w : sworld) (l0 l1 : list Z) (r : option timespec) : Prop :=
  match r with
  | Some ts => 0 <= tv_nsec ts < NSEC_PER_SEC /\ left_on clk w l0 l1 (nanoseconds ts) /\
               forall d, left_on clk w l0 l1 d -> nanoseconds ts <= d
  | None => forall d, left_on clk w l0 l1 d -> FOREVER_NSEC < d
  end.

Lemma earliest_due clk w l0 l1 : left_on clk w l0 l1 0 -> earliest clk w l0 l1 (Some (Timespec 0 0)).
Proof.
  intros H. split; [simpl; unfold NSEC_PER_SEC; lia|]. split; [done|].
  intros d [(t & _ & ->)|(t & _ & ->)]; unfold time_left, nanoseconds; simpl; lia.
Qed.
Lemma earliest_min clk w l0 l1 d0 d1 :
  fire_bound (timer_now clk 0) w l0 UINT64_MAX (inr d0) -> fire_bound (timer_now clk 1) w l1 d0 (inr d1) ->
  earliest clk w l0 l1
    (if d1 >? FOREVER_NSEC then None else Some (Timespec (d1 / NSEC_PER_SEC) (d1 mod NSEC_PER_SEC))).
Proof.
  intros (? & Hmin0 & Hex0) (? & Hmin1 & Hex1).
  assert (forall d, left_on clk w l0 l1 d -> d1 <= d) as Hmin.
  { intros d [(t & Ht & ->)|(t & Ht & ->)]; [specialize (Hmin0 t Ht); lia|by apply Hmin1]. }
  rewrite Z.gtb_ltb. destruct (Z.ltb_spec FOREVER_NSEC d1) as [Hbig|Hsmall]; unfold earliest.
  { intros d Hd. specialize (Hmin d Hd). lia. }
  assert (nanoseconds (Timespec (d1 / NSEC_PER_SEC) (d1 mod NSEC_PER_SEC)) = d1) as ->.
  { unfold nanoseconds, NSEC_PER_SEC. simpl. pose proof (Z.div_mod d1 1000000000). lia. }
  split; [apply Z.mod_pos_bound; unfold NSEC_PER_SEC; lia|]. split; [|done]. unfold left_on.
  destruct Hex1 as [->|?]; [|by right]. destruct Hex0 as [->|?]; [|by left]. unfold UINT64_MAX, FOREVER_NSEC in *. lia.
Qed.

Lemma next_timer_fire_run clk w l0 l1 :
  timers_ok w l0 l1 ->
  exists r w', _dispatch_get_next_timer_fire clk w = Ret r w' /\ timers_ok w' l0 l1 /\ disarmed w w' /\
    earliest clk w l0 l1 r.
Proof.
  intros [H0 H1]. unfold _dispatch_get_next_timer_fire.
  pose proof (timer_now_range clk 0). pose proof (timer_now_range clk 1).
  destruct (next_fire_list_run clk 0 w l0 UINT64_MAX H0) as (r0 & w1 & E0 & D0 & R0); [auto|lia|unfold UINT64_MAX; lia|].
  erewrite bind_step by exact E0.
  assert (timers_ok w1 l0 l1) as [C0 C1] by (split; by eapply disarmed_clock_list).
  destruct r0 as [[]|d0].
  { exists (Some (Timespec 0 0)), w1. split_and!; try done. destruct R0 as (t & Ht & Hz).
    apply earliest_due. left. by exists t. }
  destruct (next_fire_list_run clk 1 w1 l1 d0 C1) as (r1 & w2 & E1 & D1 & R1); [auto|lia|by destruct R0; lia|].
  apply (fire_bound_disarmed _ w) in R1; [|done]. erewrite bind_step by exact E1.
  assert (timers_ok w2 l0 l1) by (split; by eapply disarmed_clock_list).
  assert (disarmed w w2) by (by trans w1).
  destruct r1 as [[]|d1].
  - exists (Some (Timespec 0 0)), w2. split_and!; try done. destruct R1 as (t & Ht & Hz).
    apply earliest_due. right. by exists t.
  - pose proof (earliest_min clk w l0 l1 d0 d1 R0 R1) as Hr. destruct (d1 >? FOREVER_NSEC); by eexists _, w2.
Qed.

(** the manager sleeps exactly as long as the earliest timer that is set and not suspended allows: the timeout is
    the minimum of the times that are left, and there is none only when every timer is further away
    than FOREVER_NSEC. *)
Theorem next_timer_fire_is_minimum clk w l0 l1 :
  timers_ok w l0 l1 ->
  exists r w', _dispatch_get_next_timer_fire clk w = Ret r w' /\ timers_ok w' l0 l1 /\ disarmed w w' /\
    earliest clk w l0 l1 r.
Proof. apply next_timer_fire_run. Qed.
