(* ===== verification/TimerSource.v ===== *)
(** * Setting a timer

    dispatch_source_set_timer computes the parameters on the caller's thread and the manager queue puts the
    timer on the list of its clock, installing the source when that has not
    happened yet. *)

From S2P Require Import Prelude DispatchTime DispatchSource TimerList.
From stdpp Require Import base tactics list numbers gmap strings sorting.
From Stdlib Require Import ZArith Lia.

Local Open Scope Z_scope.

(** ** The parameters *)

Lemma has_set flags b : b <> 0 -> has (Z.lor flags b) b = true.
Proof.
  intros Hb. unfold has. rewrite negb_true_iff, Z.eqb_neq, Z.land_lor_distr_l, Z.land_diag, Z.lor_eq_0_iff. naive_solver.
Qed.
Lemma has_cleared flags b : has (Z.land flags (Z.lnot b)) b = false.
Proof.
  unfold has. rewrite negb_false_iff, Z.eqb_eq, <- Z.land_assoc, (Z.land_comm (Z.lnot b)), Z.land_lnot_diag.
  apply Z.land_0_r.
Qed.

(** The values of a timer fit its clock: the flag says which clock it is, the interval is positive and
    nothing overflows. *)
Lemma set_timer_values_wf clk flags start interval leeway :
  in_u64 start -> in_u64 interval ->
  let p := set_timer_values clk flags start interval leeway in
  (sp_ident p = 0 \/ sp_ident p = 1) /\ clock_index (sp_values p) = sp_ident p /\ timer_wf (sp_values p) /\
  1 <= tm_interval (sp_values p) <= INT64_MAX.
Proof.
  intros Hs Hi p.
  assert (exists iv, 1 <= iv <= INT64_MAX /\
    (if interval =? 0 then 1 else if s64 interval <? 0 then INT64_MAX else interval) = iv) as (iv & Hiv & Eiv).
  { eexists. split; [|done]. unfold INT64_MAX. case_cmp; [lia|].
    destruct (decide (interval < 2 ^ 63)); [rewrite s64_id by lia|rewrite s64_above by lia]; case_cmp; lia. }
  assert (exists st, in_u64 st /\ (if start =? DISPATCH_TIME_NOW then _dispatch_absolute_time clk
            else if start =? DISPATCH_TIME_FOREVER then INT64_MAX else start) = st) as (st & Hst & Est).
  { eexists. split; [|done]. unfold INT64_MAX. case_cmp; [apply u64_range|]. case_cmp; lia. }
  assert (p = let leeway := if s64 leeway <? 0 then INT64_MAX else leeway in
    if s64 st <? 0 then SetTimerParams 0 (TimerSource (u64 (- s64 st)) (u64 (- s64 st)) iv leeway (Z.lor flags 4))
    else SetTimerParams 1 (TimerSource st st iv leeway (Z.land flags (Z.lnot 4)))) as ->.
  { unfold p, set_timer_values. cbv zeta. by rewrite Eiv, Est. }
  pose proof (u64_range (- s64 st)). cbv zeta. unfold clock_index, timer_wf.
  case_cmp; simpl; [rewrite has_set by done|rewrite has_cleared]; split_and!; auto; lia.
Qed.

(** ** Installation of a timer *)

(** The static kevents of the clocks are there, that of the wall clock first in its bucket. *)
Definition timer_table (w : sworld) : Prop :=
  (exists rest, bucket (DSL_HASH DISPATCH_TIMER_INDEX_WALL) w = _dispatch_kevent_timer 0 :: rest) /\
  (forall i, 0 <= i <= 1 -> exists d, sw_dk w !! _dispatch_kevent_timer i = Some d /\
     ke_ident (dk_kevent d) = i /\ ke_filter (dk_kevent d) = DISPATCH_EVFILT_TIMER).

(** A timer source as dispatch_source_create leaves it: its own kevent, no list. *)
Definition fresh_timer (w : sworld) (s : source) : Prop :=
  ds_is_installed s = false /\ ds_dkev s <> 0 /\ (forall i, 0 <= i <= 1 -> ds_dkev s <> _dispatch_kevent_timer i) /\
  exists own, sw_dk w !! ds_dkev s = Some own /\ ke_ident (dk_kevent own) = 0 /\
              ke_filter (dk_kevent own) = DISPATCH_EVFILT_TIMER.

(** Nothing but the installation changes. *)
Definition same_timer (s s' : source) : Prop :=
  exists dk armed, s' = set_ds_dkev dk (set_ds_state true (ds_needs_rearm s) armed s).
Lemma same_timer_trans s1 s2 s3 : same_timer s1 s2 -> same_timer s2 s3 -> same_timer s1 s3.
Proof. intros (dk & a & ->) (dk' & a' & ->). by exists dk', a'. Qed.
Lemma same_timer_fields s s' :
  same_timer s s' -> ds_timer s' = ds_timer s /\ ds_ident_hack s' = ds_ident_hack s /\ s_ref s' = s_ref s /\
    s_xref s' = s_xref s /\ s_suspend s' = s_suspend s.
Proof. by intros (dk & a & ->). Qed.

Lemma resume_timer_dk kq dk d w :
  sw_dk w !! dk = Some d -> ke_filter (dk_kevent d) = DISPATCH_EVFILT_TIMER ->
  _dispatch_kevent_resume kq dk w = Ret tt w.
Proof. intros Hd Hf. unfold _dispatch_kevent_resume. rewrite (get_dk_bind _ d) by done. by rewrite Hf. Qed.

(** The installation of a source on a kevent that is in the table: up to the registration of
    new flags with the kernel. *)
Lemma kevent_merge_found kq w ds s own dk d :
  sw_src w !! ds = Some s -> ds_is_installed s = false -> sw_dk w !! ds_dkev s = Some own ->
  (forall src, _dispatch_kevent_find (ke_ident (dk_kevent own)) (ke_filter (dk_kevent own)) (set_src src w)
               = Ret dk (set_src src w)) ->
  dk <> 0 -> dk <> ds_dkev s -> sw_dk w !! dk = Some d ->
  let k := dk_kevent d in
  let s2 := set_ds_dkev dk (set_ds_state true (ds_needs_rearm s) (ds_is_armed s) s) in
  let d2 := Dkevent (set_ke_fflags (Z.lor (ke_fflags k) (ke_fflags (dk_kevent own))) k) (dk_sources d ++ [ds]) in
  let w2 := set_src (insert ds s2) (set_dk (fun m => <[dk:=d2]> (delete (ds_dkev s) m)) w) in
  _dispatch_kevent_merge kq ds w =
    if Z.land (Z.lnot (ke_fflags k)) (ke_fflags (dk_kevent own)) =? 0 then Ret tt w2
    else (upd_dk dk (fun d => set_dk_kevent (set_ke_flags (Z.lor (ke_flags (dk_kevent d)) EV_ADD) (dk_kevent d)) d);;
          _dispatch_source_kevent_resume kq ds;; upd_src ds (set_ds_armed true)) w2.
Proof.
  intros Hs Hin Hown Hfind Hdk Hne Hd k s2 d2 w2.
  unfold _dispatch_kevent_merge. rewrite (get_src_bind _ s), Hin, put_src_bind by done.
  rewrite (get_dk_bind _ own) by done. erewrite bind_step by apply Hfind.
  rewrite (proj2 (Z.eqb_neq dk 0)) by done. simpl negb. cbv iota.
  rewrite bind_assoc, (get_dk_bind _ d) by done. fold k. rewrite bind_assoc, put_dk_bind, bind_assoc, modify_bind, bind_assoc.
  erewrite upd_src_bind by (simpl; by rewrite lookup_insert_eq). rewrite ret_bind.
  erewrite upd_dk_bind by (simpl; rewrite lookup_delete_ne by done; by rewrite lookup_insert_eq).
  match goal with |- (if ?c then _ else _) ?w = _ => assert (w = w2) as -> end.
  { unfold w2, set_dk, set_src. simpl. f_equal; [by rewrite insert_insert_eq|].
    rewrite delete_insert_ne by done. by rewrite insert_insert_eq. }
  by destruct (_ =? 0).
Qed.

(** A fresh timer goes to the tail of the wall clock list. *)
Lemma merge_timer_run kq w ds s d0 :
  timer_table w -> sw_src w !! ds = Some s -> fresh_timer w s -> sw_dk w !! _dispatch_kevent_timer 0 = Some d0 ->
  exists w' s' d0', _dispatch_kevent_merge kq ds w = Ret tt w' /\
    sw_src w' = <[ds:=s']> (sw_src w) /\ same_timer s s' /\ ds_is_installed s' = true /\
    ds_dkev s' = _dispatch_kevent_timer 0 /\
    sw_dk w' !! _dispatch_kevent_timer 0 = Some d0' /\ dk_sources d0' = dk_sources d0 ++ [ds] /\
    ke_ident (dk_kevent d0') = ke_ident (dk_kevent d0) /\ ke_filter (dk_kevent d0') = ke_filter (dk_kevent d0) /\
    (forall k, k <> _dispatch_kevent_timer 0 -> k <> ds_dkev s -> sw_dk w' !! k = sw_dk w !! k) /\
    sw_buckets w' = sw_buckets w /\ sw_log w' = sw_log w /\ sw_queue w' = sw_queue w.
Proof.
  intros [(rest & Hb) Htab] Hs (Hin & Hnz & Hne & own & Hown & Oid & Ofl) Hd0.
  destruct (Htab 0 ltac:(lia)) as (d & Hd & Hid & Hfl). rewrite Hd in Hd0. injection Hd0 as <-. specialize (Hne 0 ltac:(lia)).
  assert (forall src, _dispatch_kevent_find (ke_ident (dk_kevent own)) (ke_filter (dk_kevent own)) (set_src src w)
    = Ret (_dispatch_kevent_timer 0) (set_src src w)) as Hfind.
  { intros src. rewrite Oid, Ofl. unfold _dispatch_kevent_find. rewrite gets_bind.
    change (_dispatch_kevent_hash 0 DISPATCH_EVFILT_TIMER) with (DSL_HASH DISPATCH_TIMER_INDEX_WALL).
    unfold bucket in *. simpl sw_buckets. rewrite Hb. simpl. rewrite (get_dk_bind _ d) by done. by rewrite Hid, Hfl. }
  pose proof (kevent_merge_found kq w ds s own _ d Hs Hin Hown Hfind ltac:(done) ltac:(done) Hd) as Hrun.
  cbv zeta in Hrun. rewrite Hrun. destruct (_ =? 0).
  - eexists _, _, _. split; [done|]. simpl. rewrite lookup_insert_eq. split_and!; try done; [by eexists _, _|].
    intros k Hk1 Hk2. by rewrite lookup_insert_ne, lookup_delete_ne by done.
  - erewrite upd_dk_bind by (simpl; by rewrite lookup_insert_eq). unfold _dispatch_source_kevent_resume.
    rewrite bind_assoc. erewrite get_src_bind by (simpl; by rewrite lookup_insert_eq).
    erewrite bind_step by (eapply resume_timer_dk; [simpl; by rewrite lookup_insert_eq|done]).
    unfold upd_src. erewrite get_src_bind by (simpl; by rewrite lookup_insert_eq).
    eexists _, _, _. split; [done|]. simpl. rewrite lookup_insert_eq, insert_insert_eq. split_and!; try done; [by eexists _, _|].
    intros k Hk1 Hk2. by rewrite !lookup_insert_ne, lookup_delete_ne by done.
Qed.

(** ** The update from any list *)

Notation without ds l := (filter (fun y => y <> ds) l).

(** The list of the clock [k], apart from the timer [ds] that is being moved. *)
Definition list_without (w : sworld) (ds k : Z) (d : dkevent) : Prop :=
  sw_dk w !! _dispatch_kevent_timer k = Some d /\ list_ok k w (without ds (dk_sources d)).

Lemma elem_without (ds x : Z) (l : list Z) : x ∈ l -> x = ds \/ x ∈ without ds l.
Proof. intros Hx. destruct (decide (x = ds)); [by left|right]. by apply list_elem_of_filter. Qed.
Lemma ds_without (ds : Z) (l : list Z) : ds ∉ without ds l.
Proof. intros H. apply list_elem_of_filter in H as [H _]. done. Qed.

Lemma update_moves kq w ds s i j d :
  sw_queue w = _dispatch_mgr_q -> sw_src w !! ds = Some s -> ds_is_installed s = true ->
  ds_dkev s = _dispatch_kevent_timer j -> ds_ident_hack s = i -> clock_index (ds_timer s) = i -> timer_wf (ds_timer s) ->
  0 <= i <= 1 -> 0 <= j <= 1 -> (forall k, 0 <= k <= 1 -> list_without w ds k (d k)) ->
  (forall k, 0 <= k <= 1 -> k <> j -> ds ∉ dk_sources (d k)) ->
  exists w' l', _dispatch_timer_list_update kq ds w = Ret tt w' /\
    (forall k, 0 <= k <= 1 -> clock_list k w' (l' k) /\
       (l' k ≡ₚ if decide (k = i) then ds :: without ds (dk_sources (d k)) else without ds (dk_sources (d k))) /\
       exists d', sw_dk w' !! _dispatch_kevent_timer k = Some d' /\ dk_kevent d' = dk_kevent (d k)) /\
    sw_src w' = <[ds:=set_ds_dkev (_dispatch_kevent_timer i) s]> (sw_src w) /\
    sw_log w' = sw_log w /\ sw_queue w' = sw_queue w /\ sw_buckets w' = sw_buckets w.
Proof.
  intros Hq Hs Hin Hj Hid Hidx Hwf Hi01 Hj01 Hl Hnot.
  destruct (Hl i Hi01) as [Hdi Hli]. destruct (Hl j Hj01) as [Hdj Hlj].
  destruct (update_run kq w ds s i j (d j) (d i)) as (w' & Hrun & Esrc & Edi & Edj & Eo & Elog & Eq & Eb);
    try done; try lia; [naive_solver|..].
  { intros x Hx. destruct (elem_without ds x _ Hx) as [->|Hx']; [by rewrite Hs|].
    destruct (cl_src _ _ _ Hli x Hx') as (sx & -> & _). done. }
  set (s' := set_ds_dkev (_dispatch_kevent_timer i) s) in *.
  assert (timer_on i s') as Hon by (split_and!; try done; apply Hwf).
  rewrite (place_timer_ext (target_of w')) in Edi; cycle 1.
  { intros y Hy. unfold target_of. rewrite Esrc, lookup_insert_ne; [done|]. intros ->. by eapply ds_without. }
  exists w', (fun k => if decide (k = i) then place_timer (target_of w') ds (tm_target (ds_timer s)) (without ds (dk_sources (d i)))
                       else without ds (dk_sources (d k))).
  split_and!; try done. intros k Hk. destruct (decide (k = i)) as [->|Hki].
  - split; [split; [eauto|]|split; [apply place_timer_perm|eauto]].
    apply (list_ok_place i w w' ds s'); try done. apply ds_without.
  - destruct (Hl k Hk) as [Hdk Hlk].
    assert (exists d', sw_dk w' !! _dispatch_kevent_timer k = Some d' /\ dk_kevent d' = dk_kevent (d k) /\
      dk_sources d' = without ds (dk_sources (d k))) as (d' & Hd' & Hk' & Hs').
    { destruct (decide (k = j)) as [->|Hkj]; [eexists; split; [apply Edj; naive_solver|done]|].
      exists (d k). rewrite Eo by (intros ?%timer_dk_inj; done). split_and!; [done..|]. symmetry. by apply remove_absent, Hnot. }
    split; [split; [eauto|]|eauto]. eapply list_ok_frame; [done|]. intros x Hx. rewrite Esrc, lookup_insert_ne; [done|].
      intros ->. by eapply ds_without.
Qed.

Lemma update_after_merge kq w w' ds s s' :
  sw_queue w = _dispatch_mgr_q -> sw_queue w' = _dispatch_mgr_q ->
  sw_src w !! ds = Some s -> ds_dkev s <> 0 -> _dispatch_kevent_merge kq ds w = Ret tt w' ->
  sw_src w' !! ds = Some s' -> ds_dkev s' <> 0 -> ds_is_installed s' = true ->
  _dispatch_timer_list_update kq ds w = _dispatch_timer_list_update kq ds w'.
Proof.
  intros Hq Hq' Hs Hnz Hm Hs' Hnz' Hin. unfold _dispatch_timer_list_update. rewrite !gets_bind, Hq, Hq', Z.eqb_refl.
  simpl dispatch_assert. rewrite !ret_bind, (get_src_bind _ s), (get_src_bind _ s' _ w') by done.
  rewrite !(proj2 (Z.eqb_neq _ 0)) by done. erewrite bind_step by exact Hm. symmetry.
  erewrite bind_step; [done|]. unfold _dispatch_kevent_merge. rewrite (get_src_bind _ s') by done. by rewrite Hin.
Qed.

(** ** dispatch_source_set_timer *)

(** The timer [ds] is on one of the lists, or has not been installed. *)
Definition settable (w : sworld) (l0 l1 : list Z) (ds : Z) (s : source) : Prop :=
  (ds ∈ l0 \/ ds ∈ l1) \/ (ds ∉ l0 /\ ds ∉ l1 /\ fresh_timer w s).

Definition clock_of (l0 l1 : list Z) (k : Z) : list Z := if k =? 0 then l0 else l1.

Lemma clock_of_ok w l0 l1 k : timers_ok w l0 l1 -> 0 <= k <= 1 -> clock_list k w (clock_of l0 l1 k).
Proof.
  intros [H0 H1] Hk. unfold clock_of. case_cmp; [by subst|]. by replace k with 1 by lia.
Qed.

(** What the update of [ds] to the values [v] leaves. *)
Definition timer_updated (w w' : sworld) (ds : Z) (s1 : source) (l0 l1 : list Z) : Prop :=
  exists l' s', (forall k, 0 <= k <= 1 -> clock_list k w' (l' k) /\
       (l' k ≡ₚ if decide (k = clock_index (ds_timer s1)) then ds :: without ds (clock_of l0 l1 k)
               else without ds (clock_of l0 l1 k))) /\
    timer_table w' /\ sw_src w' = <[ds:=s']> (sw_src w) /\ same_timer s1 s' /\
    sw_log w' = sw_log w /\ sw_queue w' = sw_queue w.

(** The common part: [w2] is the world [w] with the installed timer [s2] on the list of the clock [j]. *)
Lemma update_installed kq w w2 ds s2 l0 l1 j d :
  sw_queue w2 = _dispatch_mgr_q -> timers_ok w l0 l1 -> timer_table w2 ->
  sw_src w2 = <[ds:=s2]> (sw_src w) -> sw_log w2 = sw_log w -> sw_queue w2 = sw_queue w ->
  ds_is_installed s2 = true -> ds_dkev s2 = _dispatch_kevent_timer j -> 0 <= j <= 1 ->
  ds_ident_hack s2 = clock_index (ds_timer s2) -> timer_wf (ds_timer s2) ->
  (forall k, 0 <= k <= 1 -> sw_dk w2 !! _dispatch_kevent_timer k = Some (d k) /\
      without ds (dk_sources (d k)) = without ds (clock_of l0 l1 k) /\ (k <> j -> ds ∉ dk_sources (d k))) ->
  exists w', _dispatch_timer_list_update kq ds w2 = Ret tt w' /\ timer_updated w w' ds s2 l0 l1.
Proof.
  intros Hq Hok [Hb Htab] Esrc Elog Eq Hin Hdk Hj Hih Hwf Hd.
  assert (0 <= clock_index (ds_timer s2) <= 1) as Hi by (unfold clock_index; destruct (has _ _); simpl; lia || done).
  destruct (update_moves kq w2 ds s2 (clock_index (ds_timer s2)) j d) as (w' & l' & Hrun & Hl & Es & El & Eq' & Eb);
    try done.
  - by rewrite Esrc, lookup_insert_eq.
  - intros k Hk. destruct (Hd k Hk) as (Hdk' & Hw & _). split; [done|]. rewrite Hw.
    eapply list_ok_frame; [eapply list_ok_remove, (clock_of_ok w l0 l1 k Hok Hk)|].
    intros x Hx. rewrite Esrc, lookup_insert_ne; [done|]. intros ->. by eapply ds_without.
  - intros k Hk. by apply Hd.
  - exists w'. split; [exact Hrun|]. exists l'. eexists. split_and!.
    + intros k Hk. destruct (Hl k Hk) as (? & Hp & _). destruct (Hd k Hk) as (_ & Hw & _). rewrite Hw in Hp. done.
    + split; [unfold bucket; by rewrite Eb|].
      intros k Hk. destruct (Hl k Hk) as (_ & _ & d' & Hd' & Hke). destruct (Hd k Hk) as (Hdk' & _).
      destruct (Htab k Hk) as (dk & Hdk2 & ?). exists d'. rewrite Hke. rewrite Hdk2 in Hdk'. injection Hdk' as <-. done.
    + by rewrite Es, Esrc, insert_insert_eq.
    + exists (_dispatch_kevent_timer (clock_index (ds_timer s2))), (ds_is_armed s2). destruct s2. by simpl in *; subst.
    + by rewrite El.
    + by rewrite Eq'.
Qed.

Section update_timer.
Context (kq : kernel) (w : sworld) (ds : Z) (s : source) (l0 l1 : list Z) (v : timer_source).
Context (Hq : sw_queue w = _dispatch_mgr_q) (Hok : timers_ok w l0 l1) (Htab : timer_table w).
Context (Hs : sw_src w !! ds = Some s) (Hwf : timer_wf v).
Let s1 := set_ds_timer (clock_index v) v s.
Let w1 := set_src (insert ds s1) w.

Lemma update_listed j :
  0 <= j <= 1 -> ds ∈ clock_of l0 l1 j ->
  exists w', _dispatch_timer_list_update kq ds w1 = Ret tt w' /\ timer_updated w w' ds s1 l0 l1.
Proof.
  intros Hj Hinj. pose proof (clock_of_ok w l0 l1 0 Hok ltac:(lia)) as [(d0 & Hd0 & Hl0) _].
  pose proof (clock_of_ok w l0 l1 1 Hok ltac:(lia)) as [(d1 & Hd1 & Hl1) _].
  destruct (cl_src _ _ _ (proj2 (clock_of_ok w l0 l1 j Hok Hj)) ds Hinj) as (s' & Hs' & Hon).
  rewrite Hs in Hs'. injection Hs' as <-. destruct Hon as (_ & Hinst & Hdk & _).
  assert (forall k, 0 <= k <= 1 -> k <> j -> ds ∉ clock_of l0 l1 k) as Hnot.
  { intros k Hk Hkj Hx. apply Hkj. by eapply clock_lists_disjoint;
      [apply (clock_of_ok w l0 l1 k Hok)|apply (clock_of_ok w l0 l1 j Hok)|..]. }
  apply (update_installed kq w w1 ds s1 l0 l1 j (fun k => if k =? 0 then d0 else d1)); try done.
  intros k Hk. specialize (Hnot k Hk). assert (k = 0 \/ k = 1) as [-> | ->] by lia; simpl; rewrite ?Hl0, ?Hl1; done.
Qed.

Lemma update_fresh :
  ds ∉ l0 -> ds ∉ l1 -> fresh_timer w s ->
  exists w', _dispatch_timer_list_update kq ds w1 = Ret tt w' /\ timer_updated w w' ds s1 l0 l1.
Proof.
  intros Hn0 Hn1 Hfresh. pose proof Hok as [[(d0 & Hd0 & Hl0) _] [(d1 & Hd1 & Hl1) _]].
  destruct (merge_timer_run kq w1 ds s1 d0) as
    (w2 & s2 & d0' & Hm & Es & Ssame & Hin2 & Hdk2 & Hd0' & Hl0' & Ei & Ef & Eo & Eb & El & Eq); try done.
  { unfold w1. simpl. by rewrite lookup_insert_eq. }
  destruct (same_timer_fields _ _ Ssame) as (St & Sh & _).
  destruct (update_installed kq w w2 ds s2 l0 l1 0 (fun k => if k =? 0 then d0' else d1)) as (w' & Hrun & l' & s' & Hupd);
    try done.
  - by rewrite Eq.
  - split; [unfold bucket; rewrite Eb; apply Htab|]. intros k Hk. destruct Htab as [_ Ht]. destruct (Ht k Hk) as (d & Hd & ? & ?).
    assert (k = 0 \/ k = 1) as [-> | ->] by lia.
    + exists d0'. rewrite Ei, Ef. injection (eq_trans (eq_sym Hd) Hd0) as <-. done.
    + exists d. rewrite Eo; [done|done|]. destruct Hfresh as (_ & _ & Hne & _). intros E. by apply (Hne 1); [lia|].
  - rewrite Es. unfold w1. simpl. by rewrite insert_insert_eq.
  - by rewrite St, Sh.
  - by rewrite St.
  - intros k Hk. assert (k = 0 \/ k = 1) as [-> | ->] by lia; simpl; (split; [|split]); rewrite ?Hl0', ?Hl0, ?Hl1; try done.
    + rewrite filter_app, (filter_cons_False _ ds []) by naive_solver. by rewrite filter_nil, app_nil_r.
    + rewrite Eo; [done|done|]. destruct Hfresh as (_ & _ & Hne & _). intros E. by apply (Hne 1); [lia|].
  - exists w'. rewrite <- Hrun. split.
    + apply (update_after_merge kq w1 w2 ds s1 s2); try done; [by rewrite Eq|..].
      * unfold w1. simpl. by rewrite lookup_insert_eq.
      * apply Hfresh.
      * by rewrite Es, lookup_insert_eq.
      * by rewrite Hdk2.
    + exists l', s'. rewrite St in Hupd. destruct Hupd as (H1 & H2 & H3 & H4 & H5).
      do 3 (split; [done|]). split; [|done]. by eapply same_timer_trans.
Qed.

Lemma update_timer :
  settable w l0 l1 ds s ->
  exists w', _dispatch_timer_list_update kq ds w1 = Ret tt w' /\ timer_updated w w' ds s1 l0 l1.
Proof.
  intros [[Hin|Hin]|(? & ? & ?)]; [by apply (update_listed 0)|by apply (update_listed 1)|by apply update_fresh].
Qed.

End update_timer.

Lemma resume_release_run w ds s :
  sw_src w !! ds = Some s -> 2 <= s_xref s -> 2 <= s_suspend s ->
  (dispatch_resume_src ds;; dispatch_release_src ds) w =
  Ret tt (set_src (insert ds (set_s_refs (s_ref s) (s_xref s - 1) (s_suspend s - 2) s))
            (if decide (s_suspend s = 2) then log_event (EvWake ds) w else w)).
Proof.
  intros Hs Hx Hsu. unfold dispatch_resume_src, dispatch_release_src. rewrite bind_assoc, (get_src_bind _ s) by done.
  rewrite bind_assoc, put_src_bind. set (s2 := set_s_refs _ _ _ s).
  transitivity ((s0 ← get_src ds; put_src ds (set_s_refs (s_ref s0) (s_xref s0 - 1) (s_suspend s0) s0);;
    (if s_xref s0 >? 1 then mret tt else if s_xref s0 =? 1 then _dispatch_source_xref_release ds
     else crash "Over-release of an object"))
    (set_src (insert ds s2) (if decide (s_suspend s = 2) then log_event (EvWake ds) w else w))).
  { destruct (Z.eqb_spec (s_suspend s) 2) as [E|E]; [by rewrite decide_True|]. rewrite decide_False by done.
    by rewrite !(proj2 (Z.eqb_neq _ _)) by lia. }
  rewrite (get_src_bind _ s2) by (simpl; by rewrite lookup_insert_eq). rewrite put_src_bind.
  change (s_xref s2) with (s_xref s). rewrite Z.gtb_ltb, (proj2 (Z.ltb_lt 1 (s_xref s))) by lia. unfold mret, M_ret, set_src. simpl. by rewrite insert_insert_eq.
Qed.

(** The counts of a source are nothing to its list. *)
Lemma clock_list_refs i w w' ds s ref xref susp l :
  clock_list i w l -> sw_src w !! ds = Some s -> sw_dk w' = sw_dk w ->
  sw_src w' = <[ds:=set_s_refs ref xref susp s]> (sw_src w) -> clock_list i w' l.
Proof.
  intros [Hd [Hnd Hs Hsrc]] Hds Edk Es. split; [by rewrite Edk|]. split; [done| |].
  - eapply timer_sorted_ext; [|exact Hs]. intros x _. unfold target_of. rewrite Es.
    destruct (decide (x = ds)) as [->|]; [by rewrite lookup_insert_eq, Hds|by rewrite lookup_insert_ne].
  - intros x Hx. destruct (Hsrc x Hx) as (sx & Ex & Hon). rewrite Es.
    destruct (decide (x = ds)) as [->|]; [rewrite lookup_insert_eq; rewrite Hds in Ex; injection Ex as <-; eauto|].
    rewrite lookup_insert_ne by done. eauto.
Qed.

(** Setting a timer on the manager queue, with the new state of the source. *)
Lemma set_timer_run kq clk w ds s l0 l1 start interval leeway :
  sw_queue w = _dispatch_mgr_q -> timers_ok w l0 l1 -> timer_table w -> sw_src w !! ds = Some s ->
  settable w l0 l1 ds s -> in_u64 start -> in_u64 interval -> 2 <= s_xref s -> 2 <= s_suspend s ->
  let p := set_timer_values clk (tm_flags (ds_timer s)) start interval leeway in
  exists w' l0' l1' s', _dispatch_source_set_timer2 kq ds p w = Ret tt w' /\ timers_ok w' l0' l1' /\ timer_table w' /\
    (l0' ≡ₚ if decide (sp_ident p = 0) then ds :: without ds l0 else without ds l0) /\
    (l1' ≡ₚ if decide (sp_ident p = 1) then ds :: without ds l1 else without ds l1) /\
    sw_src w' = <[ds:=set_s_refs (s_ref s) (s_xref s - 1) (s_suspend s - 2) s']> (sw_src w) /\
    same_timer (set_ds_timer (sp_ident p) (sp_values p) s) s' /\
    sw_log w' = sw_log w ++ (if decide (s_suspend s = 2) then [EvWake ds] else []).
Proof.
  intros Hq Hok Htab Hs Hset Hst Hiv Hx Hsu p.
  pose proof (set_timer_values_wf clk (tm_flags (ds_timer s)) start interval leeway Hst Hiv) as (_ & Hidx & Hwf & _).
  fold p in Hidx, Hwf. unfold _dispatch_source_set_timer2. rewrite (upd_src_bind _ _ s) by done. rewrite <- Hidx.
  destruct (update_timer kq w ds s l0 l1 (sp_values p) Hq Hok Htab Hs Hwf Hset) as
    (w1 & Hrun & l' & s1 & Hl & Htab1 & Es1 & Ssame & El1 & Eq1).
  destruct (same_timer_fields _ _ Ssame) as (St & _ & Sr & Sx & Su).
  erewrite bind_step by exact Hrun. simpl in St, Sr, Sx, Su, Hl.
  assert (sw_src w1 !! ds = Some s1) as Hs1 by (by rewrite Es1, lookup_insert_eq).
  rewrite (resume_release_run w1 ds s1) by (done || lia). rewrite Sr, Sx, Su. set (w2 := set_src _ _).
  assert (sw_src w2 = <[ds:=set_s_refs (s_ref s) (s_xref s - 1) (s_suspend s - 2) s1]> (sw_src w1) /\
    sw_dk w2 = sw_dk w1 /\ sw_buckets w2 = sw_buckets w1) as (Es2 & Ed2 & Eb2) by (unfold w2; by destruct (decide _)).
  destruct (Hl 0 ltac:(lia)) as [C0 P0], (Hl 1 ltac:(lia)) as [C1 P1].
  rewrite (decide_ext _ (clock_index (sp_values p) = 0)) in P0 by done.
  rewrite (decide_ext _ (clock_index (sp_values p) = 1)) in P1 by done.
  exists w2, (l' 0), (l' 1), s1. split; [done|]. split_and!; try done.
  - split; by eapply clock_list_refs.
  - unfold timer_table, bucket. by rewrite Eb2, Ed2.
  - by rewrite Es2, Es1, insert_insert_eq.
  - rewrite <- El1. unfold w2. simpl. destruct (decide _); simpl; [done|by rewrite app_nil_r].
Qed.

(** C14: setting a timer takes it from where it was, installs it when it was not, and leaves both lists in the order in
    which their timers fire, with every timer once and the one that was set on the list of its clock with its new
    target; nothing else is touched, and the suspension and reference held meanwhile are given back. *)
Theorem set_timer_keeps_order kq clk w ds s l0 l1 start interval leeway :
  sw_queue w = _dispatch_mgr_q -> timers_ok w l0 l1 -> timer_table w -> sw_src w !! ds = Some s ->
  settable w l0 l1 ds s -> in_u64 start -> in_u64 interval -> 2 <= s_xref s -> 2 <= s_suspend s ->
  let p := set_timer_values clk (tm_flags (ds_timer s)) start interval leeway in
  exists w' l0' l1' s', _dispatch_source_set_timer2 kq ds p w = Ret tt w' /\ timers_ok w' l0' l1' /\ timer_table w' /\
    (l0' ≡ₚ if decide (sp_ident p = 0) then ds :: without ds l0 else without ds l0) /\
    (l1' ≡ₚ if decide (sp_ident p = 1) then ds :: without ds l1 else without ds l1) /\
    sw_src w' = <[ds:=s']> (sw_src w) /\ ds_timer s' = sp_values p /\
    s_ref s' = s_ref s /\ s_xref s' = s_xref s - 1 /\ s_suspend s' = s_suspend s - 2 /\
    sw_log w' = sw_log w ++ (if decide (s_suspend s = 2) then [EvWake ds] else []).
Proof.
  intros Hq Hok Htab Hs Hset Hst Hiv Hx Hsu p.
  destruct (set_timer_run kq clk w ds s l0 l1 start interval leeway Hq Hok Htab Hs Hset Hst Hiv Hx Hsu) as
    (w' & l0' & l1' & s' & Hrun & Hok' & Htab' & P0 & P1 & Es & Ssame & El). fold p in Hrun, P0, P1, Ssame.
  exists w', l0', l1'. eexists. split_and!; try done. by destruct (same_timer_fields _ _ Ssame) as (? & _).
Qed.

(** ** A world with timers *)

(** Three timers of the monotonic clock, which shows 1050 ns; the second is suspended. *)
Definition ex_clock : host_clock := HostClock (Timespec 0 1050) (Timespec 0 0) (Timeval 0 0).
Definition ex_timers : gmap Z source :=
  list_to_map [(100, ex_timer_source 1000 20 0); (200, set_s_refs 2 1 2 (ex_timer_source 1040 50 0));
               (300, ex_timer_source 5000 100 0)].
Definition ex_timer_world : sworld :=
  let '(dk, buckets) := _dispatch_source_init_tail_queue_array in
  SWorld ex_timers
    (<[_dispatch_kevent_timer 1:=Dkevent (Kevent 1 DISPATCH_EVFILT_TIMER 0 0 0 (_dispatch_kevent_timer 1)) [100; 200; 300]]> dk)
    buckets ∅ ∅ ∅ ∅ false _dispatch_mgr_q 4096 [].

Lemma ex_timers_ok : timers_ok ex_timer_world [] [100; 200; 300].
Proof.
  split; split; [by eexists|split; [constructor|constructor|set_solver]|by eexists|split].
  - apply (bool_decide_unpack _). vm_compute. done.
  - unfold timer_sorted. repeat match goal with
      | |- StronglySorted _ _ => constructor
      | |- Forall _ _ => constructor
      | |- fires_before _ _ => right; vm_compute; split; discriminate
      end.
  - intros x Hx. assert (x = 100 \/ x = 200 \/ x = 300) as [-> | [-> | ->]] by set_solver;
      (eexists; split; [reflexivity|]); (split_and!; [done..| |done]); split; simpl; unfold INT64_MAX; lia.
Qed.

Lemma run_timers_fires_due_witness :
  exists w', _dispatch_run_timers (fun _ _ => None) 4 ex_clock ex_timer_world = Ret tt w' /\
    sw_log w' = [EvWake 100; EvWake 200].
Proof.
  destruct (run_timers_fires_due (fun _ _ => None) 4 ex_clock ex_timer_world [] [100; 200; 300] eq_refl ex_timers_ok
    ltac:(vm_compute; discriminate) ltac:(vm_compute; discriminate) ltac:(simpl; lia) ltac:(simpl; lia))
    as (w' & l0 & l1 & Hrun & _ & _ & _ & _ & _ & _ & Hlog & _).
  exists w'. split; [exact Hrun|]. rewrite Hlog. vm_compute. reflexivity.
Defined.

Lemma next_timer_fire_is_minimum_witness :
  exists w', _dispatch_get_next_timer_fire ex_clock ex_timer_world = Ret (Some (Timespec 0 0)) w'.
Proof.
  destruct (next_timer_fire_is_minimum ex_clock ex_timer_world [] [100; 200; 300] ex_timers_ok) as (r & w' & Hrun & _).
  exists w'. rewrite Hrun. vm_compute in Hrun. injection Hrun as <- _. reflexivity.
Defined.

Lemma set_timer_keeps_order_witness :
  exists w' l0 l1, _dispatch_source_set_timer2 (fun _ _ => None) 200
      (set_timer_values ex_clock 0 3000 10 0) (set_src (insert 200 (set_s_refs 2 2 2 (ex_timer_source 1040 50 0))) ex_timer_world)
    = Ret tt w' /\ timers_ok w' l0 l1 /\ l1 ≡ₚ [200; 100; 300].
Proof.
  destruct (set_timer_keeps_order (fun _ _ => None) ex_clock
    (set_src (insert 200 (set_s_refs 2 2 2 (ex_timer_source 1040 50 0))) ex_timer_world) 200
    (set_s_refs 2 2 2 (ex_timer_source 1040 50 0)) [] [100; 200; 300] 3000 10 0)
    as (w' & l0 & l1 & s' & Hrun & Hok & _ & _ & P1 & _); try done.
  - assert (sw_src ex_timer_world !! 200 = Some (set_s_refs 2 1 2 (ex_timer_source 1040 50 0))) as H200 by done.
    split; eapply clock_list_refs; [apply ex_timers_ok|exact H200|done|done|apply ex_timers_ok|exact H200|done|done].
  - split; [by eexists|]. intros i Hi. assert (i = 0 \/ i = 1) as [-> | ->] by lia; by eexists.
  - left. right. set_solver.
  - exists w', l0, l1. done.
Defined.
