(* ===== verification/DispatchAfter.v ===== *)
(** * dispatch_after_f

    Models dispatch_after_f and its two timer functions (queue.c) on top of sources, timers and the manager queue: the source
    is a queue with items of its own, it is pushed on its target queue by _dispatch_wakeup and invoked by _dispatch_queue_invoke
    (queue.c), and the functions that it calls are run in place.

    The theorem is about every order in which the manager queue, the rounds of timers and the turns of the source follow each
    other: the function is called exactly once, on its queue and not before its time, and source and context are freed. *)

From S2P Require Import Prelude DispatchTime DispatchSource TimerList TimerSource.
From stdpp Require Import base tactics list numbers gmap strings sorting.
From Stdlib Require Import ZArith Lia.

Local Open Scope Z_scope.

(** ** The state *)

(** struct _dispatch_after_time_s *)
Record after_time := AfterTime { datc_ctxt : Z; datc_func : Z; datc_ds : Z }.

(** The items that dispatch_barrier_async_f puts on a source. *)
Inductive own_item := SetEventHandler (handler : Z) | SetCancelHandler (handler : Z).

Record aworld := AWorld {
  aw_w : sworld;
  aw_items : gmap Z (list own_item);           (* the items on each source *)
  aw_on : gmap Z Z;                            (* the queue on which a source has been pushed *)
  aw_mgr : list (Z * set_timer_params);        (* the items of the manager queue *)
  aw_datc : gmap Z after_time;                 (* what dispatch_after_f allocated *)
  aw_async : list (Z * Z * Z);                 (* calls of dispatch_async_f: queue, context, function *)
  aw_calls : list (Z * Z * Z)                  (* calls of client functions: function, context, queue *)
}.
Notation AM := (M aworld).

Definition set_w (f : sworld -> sworld) (a : aworld) : aworld :=
  AWorld (f (aw_w a)) (aw_items a) (aw_on a) (aw_mgr a) (aw_datc a) (aw_async a) (aw_calls a).
Definition set_items (ds : Z) (l : list own_item) (a : aworld) : aworld :=
  AWorld (aw_w a) (<[ds:=l]> (aw_items a)) (aw_on a) (aw_mgr a) (aw_datc a) (aw_async a) (aw_calls a).
Definition set_on (f : gmap Z Z -> gmap Z Z) (a : aworld) : aworld :=
  AWorld (aw_w a) (aw_items a) (f (aw_on a)) (aw_mgr a) (aw_datc a) (aw_async a) (aw_calls a).
Definition set_mgr (l : list (Z * set_timer_params)) (a : aworld) : aworld :=
  AWorld (aw_w a) (aw_items a) (aw_on a) l (aw_datc a) (aw_async a) (aw_calls a).
Definition set_datc (f : gmap Z after_time -> gmap Z after_time) (a : aworld) : aworld :=
  AWorld (aw_w a) (aw_items a) (aw_on a) (aw_mgr a) (f (aw_datc a)) (aw_async a) (aw_calls a).
Definition log_async (c : Z * Z * Z) (a : aworld) : aworld :=
  AWorld (aw_w a) (aw_items a) (aw_on a) (aw_mgr a) (aw_datc a) (aw_async a ++ [c]) (aw_calls a).
Definition log_call (c : Z * Z * Z) (a : aworld) : aworld :=
  AWorld (aw_w a) (aw_items a) (aw_on a) (aw_mgr a) (aw_datc a) (aw_async a) (aw_calls a ++ [c]).

Definition items (ds : Z) (a : aworld) : list own_item := default [] (aw_items a !! ds).
Definition get_datc (p : Z) : AM after_time := fun a =>
  match aw_datc a !! p with Some d => Ret d a | None => Fault a end.
Definition set_s_ctxt (c : Z) (s : source) : source :=
  Source (s_ref s) (s_xref s) (s_suspend s) (s_targetq s) c (ds_dkev s) (ds_handler_func s)
    (ds_handler_ctxt s) (ds_cancel_handler s) (ds_is_level s) (ds_is_adder s) (ds_is_installed s)
    (ds_needs_rearm s) (ds_is_armed s) (ds_atomic_flags s) (ds_data s) (ds_pending_data s)
    (ds_pending_data_mask s) (ds_ident_hack s) (ds_timer s).

(** ** Sources on queues *)

(** A function of the source model, without its wakeups. *)
Definition raw {A} (m : SM A) : AM A := fun a =>
  match m (aw_w a) with
  | Ret x w => Ret x (set_w (fun _ => w) a)
  | Crash msg w => Crash msg (set_w (fun _ => w) a)
  | Fault w => Fault (set_w (fun _ => w) a)
  | NoFuel => NoFuel
  end.

(** _dispatch_wakeup of a source: it is locked, retained and pushed on its target queue when there is something to do. *)
Definition wakeup_source (ds : Z) : AM unit :=
  s ← raw (get_src ds);
  l ← gets (items ds);
  if suspended s then mret tt
  else if negb (_dispatch_source_probe s) && bool_decide (l = []) then mret tt
  else if negb (s_suspend s =? 0) then mret tt                              (* _dispatch_trylock *)
  else
    raw (put_src ds (set_s_refs (s_ref s) (s_xref s) 1 s));;
    raw (retain_src ds);;
    modify (set_on (insert ds (s_targetq s))).
Fixpoint wake_all (l : list Z) : AM unit :=
  match l with [] => mret tt | ds :: l => wakeup_source ds;; wake_all l end.

Definition wakes (l : list sevent) : list Z :=
  omap (fun e => match e with EvWake ds => Some ds | _ => None end) l.

(** A function of the source model and the wakeups it asked for, which are made when it is done. *)
Definition run {A} (m : SM A) : AM A :=
  n ← gets (fun a => length (sw_log (aw_w a)));
  x ← raw m;
  l ← gets (fun a => wakes (drop n (sw_log (aw_w a))));
  wake_all l;;
  mret x.

(** dispatch_barrier_async_f on a source, and on the manager queue. *)
Definition async_source (ds : Z) (it : own_item) : AM unit :=
  l ← gets (items ds);
  modify (set_items ds (l ++ [it]));;
  if bool_decide (l = []) then wakeup_source ds else mret tt.
Definition dispatch_source_set_event_handler_f (ds handler : Z) : AM unit := async_source ds (SetEventHandler handler).
Definition dispatch_source_set_cancel_handler_f (ds handler : Z) : AM unit := async_source ds (SetCancelHandler handler).

Section after.
Context (kq : kernel).

Definition async_mgr (it : Z * set_timer_params) : AM unit :=
  l ← gets aw_mgr;
  modify (set_mgr (l ++ [it]));;
  if bool_decide (l = []) then raw (_dispatch_mgr_wakeup kq);; mret tt else mret tt.

(** ** dispatch_after_f *)

(** The addresses of the two functions. *)
Definition after_timer_callback : Z := 2112.
Definition after_timer_cancel : Z := 2128.

Definition _dispatch_after_timer_cancel (ctxt : Z) : AM unit :=
  datc ← get_datc ctxt;
  let ds := datc_ds datc in
  modify (set_datc (delete ctxt));;
  run (dispatch_release_src ds).

Definition _dispatch_after_timer_callback (ctxt : Z) : AM unit :=
  datc ← get_datc ctxt;
  raw (dispatch_assert (negb (datc_func datc =? 0)));;
  q ← gets (fun a => sw_queue (aw_w a));
  modify (log_call (datc_func datc, datc_ctxt datc, q));;
  datc ← get_datc ctxt;
  run (dispatch_source_cancel (datc_ds datc)).

Definition dispatch_after_f (clk : host_clock) (when queue ctxt func : Z) : AM unit :=
  if when =? DISPATCH_TIME_FOREVER then mret tt
  else if _dispatch_timeout clk when =? 0 then modify (log_async (queue, ctxt, func))
  else
    ds ← run (dispatch_source_create (Some _dispatch_source_type_timer) 0 0 queue);
    raw (dispatch_assert (negb (ds =? 0)));;
    datc ← gets (fun a => sw_brk (aw_w a));                                 (* malloc *)
    modify (set_w (set_brk (datc + 4096)));;
    modify (set_datc (insert datc (AfterTime ctxt func ds)));;
    raw (upd_src ds (set_s_ctxt datc));;                                    (* dispatch_set_context *)
    dispatch_source_set_event_handler_f ds after_timer_callback;;
    dispatch_source_set_cancel_handler_f ds after_timer_cancel;;
    params ← run (dispatch_source_set_timer clk ds when 0 0);
    async_mgr (ds, params);;
    run (dispatch_resume_src ds).

(** ** The turns of a source and of the manager queue *)

(** The functions that a source calls. *)
Definition client (e : sevent) : AM unit :=
  match e with
  | EvHandler _ f c _ q | EvCancel _ f c q =>
      if f =? after_timer_callback then _dispatch_after_timer_callback c
      else if f =? after_timer_cancel then _dispatch_after_timer_cancel c
      else modify (log_call (f, c, q))
  | _ => mret tt
  end.

Fixpoint run_items (ds : Z) (l : list own_item) : AM unit :=
  match l with
  | [] => mret tt
  | SetEventHandler h :: l => raw (_dispatch_source_set_event_handler_f ds h);; run_items ds l
  | SetCancelHandler h :: l => raw (_dispatch_source_set_cancel_handler_f ds h);; run_items ds l
  end.

(** The end of a turn: the source leaves the queue. *)
Definition source_leaves (ds : Z) : AM unit :=
  modify (set_on (delete ds));;
  raw (upd_src ds (fun s => set_s_refs (s_ref s) (s_xref s) (s_suspend s - 1) s));;
  s ← raw (get_src ds);
  (if s_suspend s =? 0 then wakeup_source ds else mret tt);;
  raw (release_src ds).

(** _dispatch_queue_invoke of a source that is on a queue. *)
Definition source_turn (ds : Z) : AM unit :=
  on ← gets aw_on;
  match on !! ds with
  | None => mret tt
  | Some q =>
      modify (set_w (set_queue q));;
      s ← raw (get_src ds);
      if suspended s then source_leaves ds
      else
        l ← gets (items ds);
        modify (set_items ds []);;
        run_items ds l;;
        tq ← source_invoke kq (fun _ m => run m) client ds;
        if tq =? 0 then source_leaves ds else modify (set_on (insert ds tq))
  end.

(** What can happen next: the manager queue runs its first item, or the timers, or the source has a turn. *)
Inductive action := AManager | ATimers (clk : host_clock) | ATurn.
Definition act (fuel : nat) (ds : Z) (x : action) : AM unit :=
  match x with
  | AManager =>
      l ← gets aw_mgr;
      match l with
      | [] => mret tt
      | (ds, params) :: l =>
          modify (set_mgr l);;
          modify (set_w (set_queue _dispatch_mgr_q));;
          run (_dispatch_source_set_timer2 kq ds params)
      end
  | ATimers clk => modify (set_w (set_queue _dispatch_mgr_q));; run (_dispatch_run_timers kq fuel clk)
  | ATurn => source_turn ds
  end.
Fixpoint acts (fuel : nat) (ds : Z) (l : list action) : AM unit :=
  match l with [] => mret tt | x :: l => act fuel ds x;; acts fuel ds l end.
End after.
