(* ===== verification/AfterTimer.v ===== *)
(** * dispatch_after_f calls its function exactly once

    The code of DispatchAfter is followed as a Hoare logic would: [st v z] says that the source of the call looks as the view
    [v] says, that the current queue is [z], and that the world around it is sound; the rules move it over the
    functions of the code.  The life of the call is then a sequence of phases that every action moves forward. *)

From S2P Require Import Prelude DispatchTime DispatchSource TimerList TimerSource DispatchAfter.
From stdpp Require Import base tactics list numbers gmap strings sorting.
From Stdlib Require Import ZArith Lia.

Local Open Scope Z_scope.

(** ** What concerns one source *)

Record view := View {
  v_src : option source; v_items : list own_item; v_on : option Z; v_datc : gmap Z after_time;
  v_calls : list (Z * Z * Z); v_mgr : list (Z * set_timer_params); v_async : list (Z * Z * Z)
}.
Definition view_of (ds : Z) (a : aworld) : view :=
  View (sw_src (aw_w a) !! ds) (items ds a) (aw_on a !! ds) (aw_datc a) (aw_calls a) (aw_mgr a) (aw_async a).
Definition with_src (s : source) (v : view) : view :=
  View (Some s) (v_items v) (v_on v) (v_datc v) (v_calls v) (v_mgr v) (v_async v).

(** What a wakeup does to it. *)
Definition sleeps (s : source) (l : list own_item) : bool :=
  suspended s || negb (_dispatch_source_probe s) && bool_decide (l = []) || negb (s_suspend s =? 0).
Definition wake_view (v : view) : view :=
  match v_src v with
  | Some s =>
      if sleeps s (v_items v) then v
      else View (Some (set_s_refs (s_ref s + 1) (s_xref s) 1 s)) (v_items v) (Some (s_targetq s)) (v_datc v) (v_calls v)
             (v_mgr v) (v_async v)
  | None => v
  end.
Lemma wake_view_idem v : wake_view (wake_view v) = wake_view v.
Proof.
  unfold wake_view at 2 3. destruct (v_src v) as [s|] eqn:E; [|unfold wake_view; by rewrite E].
  destruct (sleeps _ _) eqn:E2; unfold wake_view; [by rewrite E, E2|]. unfold sleeps. simpl. by rewrite !orb_true_r.
Qed.

Lemma wake_locked s v : v_src v = Some s -> s_suspend s = 1 -> wake_view v = v.
Proof. intros Hs Hl. unfold wake_view, sleeps. rewrite Hs, Hl. simpl. by rewrite orb_true_r. Qed.

(** The source is a timer of the clock [j] that is due. *)
Definition due_on (clk : host_clock) (j : Z) (s : source) : Prop :=
  ds_is_installed s = true /\ ds_dkev s = _dispatch_kevent_timer j /\ 0 < tm_target (ds_timer s) <= timer_now clk j.
#[export] Instance due_on_dec clk j s : Decision (due_on clk j s).
Proof. unfold due_on. apply _. Defined.

(** What a round of timers does to it. *)
Definition timers_view (clk : host_clock) (v : view) : view :=
  match v_src v with
  | Some s =>
      if decide (due_on clk 0 s) then wake_view (with_src (fire_timer (timer_now clk 0) s) v)
      else if decide (due_on clk 1 s) then wake_view (with_src (fire_timer (timer_now clk 1) s) v)
      else v
  | None => v
  end.

(** What the lists of timers see of a source. *)
Definition slink (s : source) : timer_source * Z * bool * Z := (ds_timer s, ds_ident_hack s, ds_is_installed s, ds_dkev s).

Lemma slink_fwd w w' x s :
  slink <$> sw_src w' = slink <$> sw_src w -> sw_src w !! x = Some s ->
  exists s', sw_src w' !! x = Some s' /\ slink s' = slink s.
Proof.
  intros E Hs. apply (f_equal (.!! x)) in E. rewrite !lookup_fmap, Hs in E.
  destruct (sw_src w' !! x) as [s'|]; [|done]. injection E as E1 E2 E3 E4. exists s'. split; [done|]. unfold slink. congruence.
Qed.
Lemma slink_timer_on i s s' : slink s' = slink s -> timer_on i s -> timer_on i s'.
Proof. intros [= E1 E2 E3 E4]. unfold timer_on. by rewrite E1, E2, E3, E4. Qed.
Lemma slink_target w w' x : slink <$> sw_src w' = slink <$> sw_src w -> target_of w' x = target_of w x.
Proof.
  intros E. unfold target_of. destruct (sw_src w !! x) as [s|] eqn:Hs.
  - destruct (slink_fwd w w' x s E Hs) as (s' & -> & [= E1 _ _ _]). by rewrite E1.
  - apply (f_equal (.!! x)) in E. rewrite !lookup_fmap, Hs in E. by destruct (sw_src w' !! x).
Qed.
Lemma clock_list_slink i w w' l :
  sw_dk w' = sw_dk w -> slink <$> sw_src w' = slink <$> sw_src w -> clock_list i w l -> clock_list i w' l.
Proof.
  intros Ed Es [Hd [Hnd Hs Hsrc]]. split; [by rewrite Ed|]. split; [done| |].
  - eapply timer_sorted_ext; [|exact Hs]. intros x _. by apply slink_target.
  - intros x Hx. destruct (Hsrc x Hx) as (s & E & Hon). destruct (slink_fwd w w' x s Es E) as (s' & E' & L).
    exists s'. split; [done|]. by eapply slink_timer_on.
Qed.
Lemma slink_insert ds s s' (m : gmap Z source) : m !! ds = Some s -> slink s' = slink s -> slink <$> <[ds:=s']> m = slink <$> m.
Proof. intros Hs E. rewrite fmap_insert, E, <- fmap_insert. f_equal. by apply insert_id. Qed.

Section logic.
Context (fuel : nat) (ds : Z).

(** The lists of timers with the source on the one that it points to, every source alive, and room in the fuel. *)
Record env (w : sworld) : Prop := {
  e_lists : exists l0 l1, timers_ok w l0 l1 /\
    (S (length (without ds l0)) < fuel)%nat /\ (S (length (without ds l1)) < fuel)%nat /\
    forall i s, 0 <= i <= 1 -> sw_src w !! ds = Some s -> ds_is_installed s = true -> ds_dkev s = _dispatch_kevent_timer i ->
      ds ∈ clock_of l0 l1 i;
  e_table : timer_table w;
  e_refs : forall x s, sw_src w !! x = Some s -> 0 < s_ref s;
  e_own : forall s, sw_src w !! ds = Some s -> ds_is_installed s = false ->
    exists own, sw_dk w !! ds_dkev s = Some own /\ ke_ident (dk_kevent own) = 0 /\
                ke_filter (dk_kevent own) = DISPATCH_EVFILT_TIMER
}.

Lemma env_same w w' :
  sw_dk w' = sw_dk w -> sw_buckets w' = sw_buckets w -> slink <$> sw_src w' = slink <$> sw_src w ->
  (forall x s, sw_src w' !! x = Some s -> 0 < s_ref s) -> env w -> env w'.
Proof.
  intros Ed Eb Es Hr [(l0 & l1 & [C0 C1] & F0 & F1 & Hin) Ht _ Ho].
  assert (forall s', sw_src w' !! ds = Some s' -> exists s, sw_src w !! ds = Some s /\ slink s = slink s') as Hback.
  { intros s' Hs'. by apply (slink_fwd w' w). }
  split; [|unfold timer_table, bucket; by rewrite Eb, Ed|done|].
  - exists l0, l1. split_and!; try done; [split; by eapply clock_list_slink|].
    intros i s' Hi Hs' Hin' Hdk. destruct (Hback s' Hs') as (s & Hs & [= _ _ E3 E4]). apply (Hin i s); congruence.
  - intros s' Hs' Hin'. destruct (Hback s' Hs') as (s & Hs & [= _ _ E3 E4]). rewrite Ed, <- E4. apply Ho; congruence.
Qed.

(** The state as far as the call is concerned. *)
Definition st (v : view) (z : Z) (a : aworld) : Prop := env (aw_w a) /\ view_of ds a = v /\ sw_queue (aw_w a) = z.

Definition wp {A} (m : AM A) (Q : A -> aworld -> Prop) (a : aworld) : Prop := exists x a', m a = Ret x a' /\ Q x a'.

Lemma wp_ret {A} (x : A) Q a : Q x a -> wp (mret x) Q a.
Proof. intros H. by exists x, a. Qed.
Lemma wp_bind {A B} (m : AM A) (k : A -> AM B) Q a : wp m (fun x a' => wp (k x) Q a') a -> wp (m ≫= k) Q a.
Proof.
  intros (x & a1 & E & y & a2 & E2 & HQ). exists y, a2. split; [|done]. by rewrite (bind_step _ _ _ _ _ E).
Qed.
Lemma wp_conseq {A} (m : AM A) (Q Q' : A -> aworld -> Prop) a : wp m Q a -> (forall x a', Q x a' -> Q' x a') -> wp m Q' a.
Proof. intros (x & a' & E & HQ) H. exists x, a'. eauto. Qed.

(** ** Functions that change nothing but the source *)

(** [m] takes the source from [s] to [s'], returns [x] and asks for the wakeups [ws]. *)
Definition local {A} (m : SM A) (s : source) (x : A) (s' : source) (ws : list Z) : Prop :=
  forall w, sw_src w !! ds = Some s -> exists es w', m w = Ret x w' /\ sw_src w' = <[ds:=s']> (sw_src w) /\
    sw_dk w' = sw_dk w /\ sw_buckets w' = sw_buckets w /\ sw_queue w' = sw_queue w /\ sw_log w' = sw_log w ++ es /\
    wakes es = ws.

Lemma env_local w w' s s' :
  sw_src w !! ds = Some s -> sw_src w' = <[ds:=s']> (sw_src w) -> sw_dk w' = sw_dk w -> sw_buckets w' = sw_buckets w ->
  slink s' = slink s -> 0 < s_ref s' -> env w -> env w'.
Proof.
  intros Hs Es Ed Eb El Hr E. apply (env_same w); try done; [rewrite Es; by eapply slink_insert|].
  intros x sx. rewrite Es. destruct (decide (x = ds)) as [->|Hx]; [rewrite lookup_insert_eq; by intros [= <-]|].
  rewrite lookup_insert_ne by done. by apply E.
Qed.

Lemma wp_raw {A} (m : SM A) s x s' ws v z Q a :
  st v z a -> v_src v = Some s -> local m s x s' ws -> slink s' = slink s -> 0 < s_ref s' ->
  (forall a', st (with_src s' v) z a' -> Q x a') -> wp (raw m) Q a.
Proof.
  intros (E & <- & Hz) Hs Hm El Hr HQ. simpl in Hs. destruct (Hm _ Hs) as (es & w' & Hrun & Es & Ed & Eb & Eq & _ & _).
  exists x, (set_w (fun _ => w') a). split; [unfold raw; by rewrite Hrun|]. apply HQ. split; [by eapply env_local|].
  split; [|by simpl; rewrite Eq]. unfold view_of, with_src. simpl. by rewrite Es, lookup_insert_eq.
Qed.

(** ** Wakeups *)

Lemma wakeup_run x a :
  env (aw_w a) -> is_Some (sw_src (aw_w a) !! x) ->
  exists a', wakeup_source x a = Ret tt a' /\ env (aw_w a') /\
    view_of ds a' = (if decide (x = ds) then wake_view (view_of ds a) else view_of ds a) /\
    sw_queue (aw_w a') = sw_queue (aw_w a) /\ forall y, is_Some (sw_src (aw_w a) !! y) -> is_Some (sw_src (aw_w a') !! y).
Proof.
  intros E [s Hs]. pose proof (e_refs _ E _ _ Hs) as Hr. unfold wakeup_source.
  assert (raw (get_src x) a = Ret s a) as Hget by (unfold raw, get_src; rewrite Hs; by destruct a).
  rewrite (bind_step _ _ _ _ _ Hget), gets_bind.
  assert (sleeps s (items x a) = true -> view_of ds a = if decide (x = ds) then wake_view (view_of ds a) else view_of ds a) as Hstay.
  { intros Hb. case_decide as Hx; [|done]. subst x. unfold wake_view. simpl. by rewrite Hs, Hb. }
  destruct (suspended s) eqn:H1; [exists a; split_and!; try done; apply Hstay; unfold sleeps; by rewrite H1|].
  destruct (negb (_dispatch_source_probe s) && bool_decide (items x a = [])) eqn:H2;
    [exists a; split_and!; try done; apply Hstay; unfold sleeps; by rewrite H1, H2|].
  destruct (negb (s_suspend s =? 0)) eqn:H3; [exists a; split_and!; try done; apply Hstay; unfold sleeps; by rewrite H1, H2, H3|].
  clear Hstay.
  set (s1 := set_s_refs (s_ref s) (s_xref s) 1 s). set (s2 := set_s_refs (s_ref s + 1) (s_xref s) 1 s).
  set (a' := set_on (insert x (s_targetq s)) (set_w (set_src (insert x s2)) a)).
  exists a'. split_and!.
  - unfold a'. unfold raw at 1. simpl. unfold mbind at 1, M_bind at 1. simpl. unfold raw, retain_src. unfold mbind, M_bind. simpl.
    unfold get_src. simpl. rewrite lookup_insert_eq. change (s_ref s1) with (s_ref s). rewrite (proj2 (Z.eqb_neq _ 0)) by lia. simpl.
    unfold modify, set_on, set_w, set_src. simpl. by rewrite insert_insert_eq.
  - apply (env_same (aw_w a)); try done; [by eapply slink_insert|]. unfold a'. simpl. intros y sy.
    destruct (decide (y = x)) as [->|Hy]; [rewrite lookup_insert_eq; intros [= <-]; simpl; lia|].
    rewrite lookup_insert_ne by done. apply E.
  - unfold view_of, a', items. simpl. case_decide as Hx.
    + subst x. unfold wake_view, sleeps. simpl. rewrite !lookup_insert_eq, Hs. unfold items in H2. by rewrite H1, H2, H3.
    + by rewrite !lookup_insert_ne.
  - done.
  - unfold a'. simpl. intros y Hy. destruct (decide (y = x)) as [->|]; [rewrite lookup_insert_eq; eauto|by rewrite lookup_insert_ne].
Qed.

Lemma wake_all_run l a :
  env (aw_w a) -> (forall x, x ∈ l -> is_Some (sw_src (aw_w a) !! x)) ->
  exists a', wake_all l a = Ret tt a' /\ env (aw_w a') /\
    view_of ds a' = (if decide (ds ∈ l) then wake_view (view_of ds a) else view_of ds a) /\
    sw_queue (aw_w a') = sw_queue (aw_w a).
Proof.
  induction l as [|x l IH] in a |- *; intros E Hl; [by exists a|].
  destruct (wakeup_run x a E) as (a1 & R1 & E1 & V1 & Q1 & D1); [apply Hl; set_solver|].
  destruct (IH a1 E1) as (a2 & R2 & E2 & V2 & Q2); [intros y Hy; apply D1, Hl; set_solver|].
  exists a2. simpl. rewrite (bind_step _ _ _ _ _ R1), R2. split_and!; try done; [|congruence]. rewrite V2, V1.
  destruct (decide (x = ds)) as [->|Hx].
  - rewrite (decide_True (P := ds ∈ ds :: l)) by set_solver. case_decide; [apply wake_view_idem|done].
  - by rewrite (decide_ext (ds ∈ x :: l) (ds ∈ l)) by set_solver.
Qed.

Lemma wp_wakeup v z Q a :
  st v z a -> is_Some (v_src v) -> (forall a', st (wake_view v) z a' -> Q tt a') -> wp (wakeup_source ds) Q a.
Proof.
  intros (E & <- & Hz) Hs HQ. destruct (wakeup_run ds a E Hs) as (a' & R & E' & V & Q' & _).
  exists tt, a'. split; [done|]. apply HQ. rewrite decide_True in V by done. split_and!; try done. congruence.
Qed.

(** A function of the source model, with its wakeups, when the world it leaves is known. *)
Lemma wp_run_any {A} (m : SM A) x w' es v' z' Q a :
  m (aw_w a) = Ret x w' -> sw_log w' = sw_log (aw_w a) ++ es -> env w' -> sw_queue w' = z' ->
  view_of ds (set_w (fun _ => w') a) = v' -> (forall y, y ∈ wakes es -> is_Some (sw_src w' !! y)) ->
  (forall a', st (if decide (ds ∈ wakes es) then wake_view v' else v') z' a' -> Q x a') -> wp (run m) Q a.
Proof.
  intros Hm El E Hz <- Hw HQ. set (a1 := set_w (fun _ => w') a).
  assert (raw m a = Ret x a1) as Hraw by (unfold raw; by rewrite Hm).
  destruct (wake_all_run (wakes es) a1 E Hw) as (a' & R & E' & V & Q'). exists x, a'. split.
  - unfold run. rewrite gets_bind, (bind_step _ _ _ _ _ Hraw), gets_bind.
    change (sw_log (aw_w a1)) with (sw_log w'). rewrite El, drop_app_length, (bind_step _ _ _ _ _ R). done.
  - apply HQ. split_and!; try done. by rewrite Q'.
Qed.

Lemma wp_run {A} (m : SM A) s x s' ws v z Q a :
  st v z a -> v_src v = Some s -> local m s x s' ws -> slink s' = slink s -> 0 < s_ref s' ->
  (forall y, y ∈ ws -> y = ds) ->
  (forall a', st (if decide (ds ∈ ws) then wake_view (with_src s' v) else with_src s' v) z a' -> Q x a') -> wp (run m) Q a.
Proof.
  intros (E & <- & Hz) Hs Hm El Hr Hws HQ. simpl in Hs. destruct (Hm _ Hs) as (es & w' & Hrun & Es & Ed & Eb & Eq & Elog & Ew).
  apply (wp_run_any m x w' es (with_src s' (view_of ds a)) z); try done; [by eapply env_local|by rewrite Eq|..|by rewrite Ew].
  - unfold view_of, with_src. simpl. by rewrite Es, lookup_insert_eq.
  - rewrite Ew. intros y ->%Hws. rewrite Es, lookup_insert_eq. eauto.
Qed.

(** While the source is locked its wakeups do nothing. *)
Lemma wp_run_locked {A} (m : SM A) s x s' ws v z Q a :
  st v z a -> v_src v = Some s -> local m s x s' ws -> slink s' = slink s -> 0 < s_ref s' ->
  (forall y, y ∈ ws -> y = ds) -> s_suspend s' = 1 -> (forall a', st (with_src s' v) z a' -> Q x a') -> wp (run m) Q a.
Proof.
  intros Hst Hs Hm El Hr Hws Hl HQ. eapply wp_run; try done. intros a' Ha'. apply HQ.
  rewrite (wake_locked s') in Ha' by done. by destruct (decide _).
Qed.

(** ** The functions of the source model on one source *)

Lemma local_get s : local (get_src ds) s s s [].
Proof.
  intros w Hs. exists [], w. unfold get_src. rewrite Hs, insert_id, app_nil_r by done. by split_and!.
Qed.
Lemma local_upd s f : local (upd_src ds f) s tt (f s) [].
Proof.
  intros w Hs. exists [], (set_src (insert ds (f s)) w). unfold upd_src. rewrite (get_src_bind _ s) by done.
  rewrite app_nil_r. by split_and!.
Qed.
Lemma local_put s s' : local (put_src ds s') s tt s' [].
Proof. intros w Hs. exists [], (set_src (insert ds s') w). rewrite app_nil_r. by split_and!. Qed.
Lemma local_wake s : local (wakeup ds) s tt s [ds].
Proof.
  intros w Hs. exists [EvWake ds], (log_event (EvWake ds) w). split_and!; try done. simpl. by rewrite insert_id.
Qed.
Lemma local_ret {A} s (x : A) : local (mret x) s x s [].
Proof. intros w Hs. exists [], w. rewrite insert_id, app_nil_r by done. by split_and!. Qed.
Lemma local_bind {A B} (m : SM A) (k : A -> SM B) s x s1 ws y s2 ws' :
  local m s x s1 ws -> local (k x) s1 y s2 ws' -> local (m ≫= k) s y s2 (ws ++ ws').
Proof.
  intros Hm Hk w Hs. destruct (Hm w Hs) as (es & w1 & R1 & S1 & D1 & B1 & Q1 & L1 & <-).
  destruct (Hk w1) as (es' & w2 & R2 & S2 & D2 & B2 & Q2 & L2 & <-); [by rewrite S1, lookup_insert_eq|].
  exists (es ++ es'), w2. rewrite (bind_step _ _ _ _ _ R1), R2. split_and!; try done; try congruence.
  - by rewrite S2, S1, insert_insert_eq.
  - by rewrite L2, L1, app_assoc.
  - apply omap_app.
Qed.

Lemma local_retain s : 0 < s_ref s -> local (retain_src ds) s tt (set_s_refs (s_ref s + 1) (s_xref s) (s_suspend s) s) [].
Proof.
  intros Hr. unfold retain_src. eapply (local_bind _ _ s s s []); [apply local_get|].
  rewrite (proj2 (Z.eqb_neq _ 0)) by lia. apply local_put.
Qed.
Lemma local_release s : 1 < s_ref s -> local (release_src ds) s tt (set_s_refs (s_ref s - 1) (s_xref s) (s_suspend s) s) [].
Proof.
  intros Hr. unfold release_src. eapply (local_bind _ _ s s s []); [apply local_get|].
  rewrite Z.gtb_ltb, (proj2 (Z.ltb_lt 1 _)) by lia. apply local_put.
Qed.
Lemma local_cancel s :
  0 < s_ref s ->
  local (dispatch_source_cancel ds) s tt (set_ds_flags (Z.lor (ds_atomic_flags s) DSF_CANCELED) s) [ds].
Proof.
  intros Hr. unfold dispatch_source_cancel. set (s1 := set_s_refs (s_ref s + 1) (s_xref s) (s_suspend s) s).
  set (s2 := set_ds_flags (Z.lor (ds_atomic_flags s) DSF_CANCELED) s1).
  apply (local_bind _ _ s tt s1 [] tt _ [ds]); [by apply local_retain|].
  apply (local_bind _ _ s1 tt s2 [] tt _ [ds]); [apply local_upd|].
  apply (local_bind _ _ s2 tt s2 [ds] tt _ []); [apply local_wake|].
  replace (set_ds_flags (Z.lor (ds_atomic_flags s) DSF_CANCELED) s) with (set_s_refs (s_ref s2 - 1) (s_xref s2) (s_suspend s2) s2).
  - apply local_release. simpl. lia.
  - unfold s2, s1, set_ds_flags, set_s_refs. simpl. f_equal. lia.
Qed.
(** The last reference of the client. *)
Lemma local_xref_release s :
  s_xref s = 1 -> suspended s = false -> 1 < s_ref s ->
  local (dispatch_release_src ds) s tt (set_s_refs (s_ref s - 1) 0 (s_suspend s) s) [ds].
Proof.
  intros Hx Hsu Hr. unfold dispatch_release_src. set (s1 := set_s_refs (s_ref s) 0 (s_suspend s) s).
  eapply (local_bind _ _ s s s []); [apply local_get|]. rewrite Hx.
  apply (local_bind _ _ s tt s1 [] tt _ [ds]); [apply local_put|]. simpl. unfold _dispatch_source_xref_release.
  eapply (local_bind _ _ s1 s1 s1 []); [apply local_get|]. change (suspended s1) with (suspended s). rewrite Hsu.
  apply (local_bind _ _ s1 tt s1 [ds] tt _ []); [apply local_wake|]. by apply (local_release s1).
Qed.
Lemma local_resume s :
  2 < s_suspend s ->
  local (dispatch_resume_src ds) s tt (set_s_refs (s_ref s) (s_xref s) (s_suspend s - 2) s) [].
Proof.
  intros Hs. unfold dispatch_resume_src. eapply (local_bind _ _ s s s []); [apply local_get|].
  eapply (local_bind _ _ s tt _ []); [apply local_put|]. rewrite !(proj2 (Z.eqb_neq _ _)) by lia. apply local_ret.
Qed.
Lemma local_set_timer clk s start interval leeway :
  s_xref s <> 0 ->
  local (dispatch_source_set_timer clk ds start interval leeway) s (set_timer_values clk (tm_flags (ds_timer s)) start interval leeway)
    (set_s_refs (s_ref s) (s_xref s + 1) (s_suspend s + 2) s) [].
Proof.
  intros Hx. unfold dispatch_source_set_timer, dispatch_retain_src. set (s1 := set_s_refs (s_ref s) (s_xref s + 1) (s_suspend s) s).
  apply (local_bind _ _ s tt s1 [] _ _ []).
  { eapply (local_bind _ _ s s s []); [apply local_get|]. rewrite (proj2 (Z.eqb_neq _ 0)) by done. apply local_put. }
  apply (local_bind _ _ s1 tt (set_s_refs (s_ref s1) (s_xref s1) (s_suspend s1 + 2) s1) [] _ _ []);
    [exact (local_upd s1 (fun s => set_s_refs (s_ref s) (s_xref s) (s_suspend s + 2) s))|].
  eapply (local_bind _ _ _ _ _ [] _ _ []); [apply local_get|]. apply local_ret.
Qed.

(** ** The other state *)

Lemma wp_modify (f : aworld -> aworld) v z v' z' Q a :
  st v z a -> env (aw_w (f a)) -> (view_of ds a = v -> sw_queue (aw_w a) = z -> view_of ds (f a) = v' /\ sw_queue (aw_w (f a)) = z') ->
  (forall a', st v' z' a' -> Q tt a') -> wp (modify f) Q a.
Proof. intros (E & V & Z) E' Hf HQ. exists tt, (f a). split; [done|]. apply HQ. destruct (Hf V Z). by split_and!. Qed.

Lemma wp_set_queue q v z Q a : st v z a -> (forall a', st v q a' -> Q tt a') -> wp (modify (set_w (set_queue q))) Q a.
Proof. intros Hst. eapply wp_modify; [exact Hst| |done]. destruct Hst as [E _]. by apply (env_same (aw_w a)); [..|apply E|]. Qed.
Lemma wp_set_items l v z Q a :
  st v z a -> (forall a', st (View (v_src v) l (v_on v) (v_datc v) (v_calls v) (v_mgr v) (v_async v)) z a' -> Q tt a') ->
  wp (modify (set_items ds l)) Q a.
Proof.
  intros Hst. eapply wp_modify; [exact Hst|apply Hst|]. intros <- <-. unfold view_of, items. simpl. by rewrite lookup_insert_eq.
Qed.
Lemma wp_set_on q v z Q a :
  st v z a -> (forall a', st (View (v_src v) (v_items v) (Some q) (v_datc v) (v_calls v) (v_mgr v) (v_async v)) z a' -> Q tt a') ->
  wp (modify (set_on (insert ds q))) Q a.
Proof. intros Hst. eapply wp_modify; [exact Hst|apply Hst|]. intros <- <-. unfold view_of. simpl. by rewrite lookup_insert_eq. Qed.
Lemma wp_set_off v z Q a :
  st v z a -> (forall a', st (View (v_src v) (v_items v) None (v_datc v) (v_calls v) (v_mgr v) (v_async v)) z a' -> Q tt a') ->
  wp (modify (set_on (delete ds))) Q a.
Proof. intros Hst. eapply wp_modify; [exact Hst|apply Hst|]. intros <- <-. unfold view_of. simpl. by rewrite lookup_delete_eq. Qed.
Lemma wp_set_mgr l v z Q a :
  st v z a -> (forall a', st (View (v_src v) (v_items v) (v_on v) (v_datc v) (v_calls v) l (v_async v)) z a' -> Q tt a') ->
  wp (modify (set_mgr l)) Q a.
Proof. intros Hst. eapply wp_modify; [exact Hst|apply Hst|]. by intros <- <-. Qed.
Lemma wp_set_datc f v z Q a :
  st v z a -> (forall a', st (View (v_src v) (v_items v) (v_on v) (f (v_datc v)) (v_calls v) (v_mgr v) (v_async v)) z a' -> Q tt a') ->
  wp (modify (set_datc f)) Q a.
Proof. intros Hst. eapply wp_modify; [exact Hst|apply Hst|]. by intros <- <-. Qed.
Lemma wp_log_call c v z Q a :
  st v z a -> (forall a', st (View (v_src v) (v_items v) (v_on v) (v_datc v) (v_calls v ++ [c]) (v_mgr v) (v_async v)) z a' -> Q tt a') ->
  wp (modify (log_call c)) Q a.
Proof. intros Hst. eapply wp_modify; [exact Hst|apply Hst|]. by intros <- <-. Qed.

Lemma wp_gets {A} (f : aworld -> A) Q a : Q (f a) a -> wp (gets f) Q a.
Proof. intros H. by exists (f a), a. Qed.
Lemma wp_get_datc p d v z Q a : st v z a -> v_datc v !! p = Some d -> Q d a -> wp (get_datc p) Q a.
Proof. intros (_ & <- & _) Hd HQ. exists d, a. split; [|done]. unfold get_datc. simpl in Hd. by rewrite Hd. Qed.
Lemma wp_raw_get s v z Q a : st v z a -> v_src v = Some s -> Q s a -> wp (raw (get_src ds)) Q a.
Proof.
  intros (_ & <- & _) Hs HQ. exists s, a. split; [|done]. unfold raw, get_src. simpl in Hs. rewrite Hs. by destruct a.
Qed.
(** A function that asks for no wakeup, and one that changes nothing. *)
Lemma wp_run_exact {A} (m : SM A) x w' (Q : A -> aworld -> Prop) a :
  m (aw_w a) = Ret x w' -> sw_log w' = sw_log (aw_w a) -> Q x (set_w (fun _ => w') a) -> wp (run m) Q a.
Proof.
  intros Hm El HQ. exists x, (set_w (fun _ => w') a). split; [|done]. unfold run. rewrite gets_bind.
  assert (raw m a = Ret x (set_w (fun _ => w') a)) as Hraw by (unfold raw; by rewrite Hm).
  rewrite (bind_step _ _ _ _ _ Hraw), gets_bind. simpl. by rewrite El, drop_all.
Qed.
Lemma wp_run_quiet {A} (m : SM A) x (Q : A -> aworld -> Prop) a : m (aw_w a) = Ret x (aw_w a) -> Q x a -> wp (run m) Q a.
Proof. intros Hm HQ. eapply wp_run_exact; [exact Hm|done|]. by destruct a. Qed.
Lemma wp_run_get s v z Q a : st v z a -> v_src v = Some s -> Q s a -> wp (run (get_src ds)) Q a.
Proof. intros (_ & <- & _) Hs. apply wp_run_quiet. unfold get_src. simpl in Hs. by rewrite Hs. Qed.
Lemma wp_run_queue v z (Q : Z -> aworld -> Prop) a : st v z a -> Q z a -> wp (run (gets sw_queue)) Q a.
Proof. intros (_ & _ & <-). by apply wp_run_quiet. Qed.

(** ** The timer leaves its list *)

Lemma mask_union_returns l w : (forall x, x ∈ l -> is_Some (sw_src w !! x)) -> exists m, mask_union l w = Ret m w.
Proof.
  induction l as [|x l IH]; intros Hl; [by eexists|]. destruct (Hl x) as [s Hs]; [set_solver|].
  destruct IH as [m Hm]; [set_solver|]. eexists. simpl. rewrite (get_src_bind _ s) by done. by rewrite (bind_step _ _ _ _ _ Hm).
Qed.

(** The kevent of a clock after the release of one of its timers: the kernel is not asked. *)
Lemma kevent_release_run kq w s i d :
  sw_src w !! ds = Some s -> ds_is_installed s = true -> ds_dkev s = _dispatch_kevent_timer i ->
  sw_dk w !! _dispatch_kevent_timer i = Some d -> ke_filter (dk_kevent d) = DISPATCH_EVFILT_TIMER ->
  (forall x, x ∈ dk_sources d -> is_Some (sw_src w !! x)) -> 1 < s_ref s ->
  let s' := set_s_refs (s_ref s - 1) (s_xref s) (s_suspend s) (set_ds_state true false false (set_ds_dkev 0 s)) in
  exists d', _dispatch_kevent_release kq ds w =
      Ret tt (set_src (insert ds s') (set_dk (insert (_dispatch_kevent_timer i) d') w)) /\
    dk_sources d' = without ds (dk_sources d) /\ ke_ident (dk_kevent d') = ke_ident (dk_kevent d) /\
    ke_filter (dk_kevent d') = ke_filter (dk_kevent d).
Proof.
  intros Hs Hin Hdk Hd Hf Hsrc Hr s'. set (k := _dispatch_kevent_timer i) in *.
  set (d1 := set_dk_sources (without ds (dk_sources d)) d). set (s1 := set_ds_dkev 0 s).
  set (w1 := set_dk (insert k d1) (set_src (insert ds s1) w)).
  assert (exists d', dk_sources d' = without ds (dk_sources d) /\ ke_ident (dk_kevent d') = ke_ident (dk_kevent d) /\
    ke_filter (dk_kevent d') = ke_filter (dk_kevent d) /\
    (if bool_decide (dk_sources d1 = []) then _dispatch_kevent_dispose kq k
     else fflags ← mask_union (dk_sources d1);
       let del_flags := Z.land (u32 (ds_pending_data_mask s)) (Z.lnot fflags) in
       if negb (del_flags =? 0) then
         put_dk k (set_dk_kevent (set_ke_fflags fflags (set_ke_flags (Z.lor (ke_flags (dk_kevent d1)) EV_ADD) (dk_kevent d1))) d1);;
         _dispatch_kevent_resume kq k
       else mret tt) w1 = Ret tt (set_dk (insert k d') w1)) as (d' & E1 & E2 & E3 & Hrun).
  { assert (w1 = set_dk (insert k d1) w1) as Hid by (unfold w1, set_dk; simpl; by rewrite insert_insert_eq).
    case_bool_decide as He.
    { exists d1. split_and!; try done. unfold _dispatch_kevent_dispose. rewrite (get_dk_bind _ d1) by (simpl; apply lookup_insert_eq).
      change (dk_kevent d1) with (dk_kevent d). rewrite Hf. by rewrite <- Hid. }
    destruct (mask_union_returns (dk_sources d1) w1) as [m Hm].
    { intros x Hx. simpl in Hx. apply list_elem_of_filter in Hx as [Hne Hx]. simpl. rewrite lookup_insert_ne by done. by apply Hsrc. }
    rewrite (bind_step _ _ _ _ _ Hm). cbv zeta. destruct (negb _); [|exists d1; split_and!; try done; by rewrite <- Hid].
    rewrite put_dk_bind. eexists. split_and!; [..|eapply resume_timer_dk; [simpl; apply lookup_insert_eq|done]]; done. }
  exists d'. split; [|done]. unfold _dispatch_kevent_release. rewrite (get_src_bind _ s) by done. rewrite Hdk, put_src_bind.
  fold k s1. rewrite (upd_dk_bind _ _ d) by done. fold d1. rewrite (get_dk_bind _ d1) by (simpl; apply lookup_insert_eq).
  fold w1. rewrite (bind_step _ _ _ _ _ Hrun). rewrite (upd_src_bind _ _ s1) by (simpl; apply lookup_insert_eq).
  unfold release_src. erewrite get_src_bind by (simpl; apply lookup_insert_eq). simpl.
  rewrite Z.gtb_ltb, (proj2 (Z.ltb_lt 1 _)) by lia. unfold put_src, modify, w1, set_dk, set_src. simpl.
  rewrite !insert_insert_eq, Hin. done.
Qed.

Lemma without_without (l : list Z) : without ds (without ds l) = without ds l.
Proof. apply remove_absent, ds_without. Qed.

Lemma env_released w w' s s' i d' :
  env w -> sw_src w !! ds = Some s -> ds_is_installed s = true -> ds_dkev s = _dispatch_kevent_timer i -> 0 <= i <= 1 ->
  sw_src w' = <[ds:=s']> (sw_src w) -> ds_dkev s' = 0 -> ds_is_installed s' = true -> 0 < s_ref s' ->
  sw_dk w' = <[_dispatch_kevent_timer i:=d']> (sw_dk w) -> sw_buckets w' = sw_buckets w ->
  (forall d, sw_dk w !! _dispatch_kevent_timer i = Some d -> dk_sources d' = without ds (dk_sources d) /\
     ke_ident (dk_kevent d') = ke_ident (dk_kevent d) /\ ke_filter (dk_kevent d') = ke_filter (dk_kevent d)) -> env w'.
Proof.
  intros [(l0 & l1 & Hok & F0 & F1 & Hin) [Hb Ht] Hr Ho] Hs Hins Hdk Hi Es Hdk' Hins' Hr' Ed Eb Hd'.
  assert (forall j, 0 <= j <= 1 -> clock_list j w' (without ds (clock_of l0 l1 j))) as Hc.
  { intros j Hj. destruct (clock_of_ok w l0 l1 j Hok Hj) as [(d & Hd & Hl) Hlok]. split.
    - rewrite Ed. destruct (decide (j = i)) as [->|Hji].
      + rewrite lookup_insert_eq. exists d'. split; [done|]. destruct (Hd' d Hd) as (-> & _). by rewrite Hl.
      + rewrite lookup_insert_ne by (intros E; by apply timer_dk_inj in E). exists d. split; [done|]. rewrite Hl. symmetry.
        apply remove_absent. intros Hx. destruct (cl_src _ _ _ Hlok ds Hx) as (s2 & Hs2 & _ & _ & D2 & _).
        apply Hji, timer_dk_inj. congruence.
    - eapply list_ok_frame; [by apply list_ok_remove|]. intros x Hx. rewrite Es, lookup_insert_ne; [done|].
      intros ->. by eapply ds_without. }
  split.
  - exists (without ds l0), (without ds l1). rewrite !without_without. split_and!; try done; [split; [apply (Hc 0); lia|apply (Hc 1); lia]|].
    intros j s2 Hj Hs2 _ Hdk2. rewrite Es, lookup_insert_eq in Hs2. injection Hs2 as <-. unfold _dispatch_kevent_timer in Hdk2. lia.
  - split; [unfold bucket in *; by rewrite Eb|]. intros j Hj. destruct (Ht j Hj) as (d & Hd & H1 & H2). rewrite Ed.
    destruct (decide (j = i)) as [->|Hji]; [rewrite lookup_insert_eq; exists d'; destruct (Hd' d Hd) as (_ & -> & ->); done|].
    rewrite lookup_insert_ne by (intros E; by apply timer_dk_inj in E). by exists d.
  - intros x sx. rewrite Es. destruct (decide (x = ds)) as [->|Hx]; [rewrite lookup_insert_eq; by intros [= <-]|].
    rewrite lookup_insert_ne by done. apply Hr.
  - intros s2 Hs2. rewrite Es, lookup_insert_eq in Hs2. injection Hs2 as <-. congruence.
Qed.

Lemma wp_release_timer kq s i v z Q a :
  st v z a -> v_src v = Some s -> ds_is_installed s = true -> ds_dkev s = _dispatch_kevent_timer i -> 0 <= i <= 1 -> 1 < s_ref s ->
  (forall a', st (with_src (set_s_refs (s_ref s - 1) (s_xref s) (s_suspend s) (set_ds_state true false false (set_ds_dkev 0 s))) v) z a' ->
     Q tt a') ->
  wp (run (_dispatch_kevent_release kq ds)) Q a.
Proof.
  intros (E & <- & Hz) Hs Hin Hdk Hi Hr HQ. simpl in Hs.
  destruct (proj2 (e_table _ E) i Hi) as (d & Hd & _ & Hf). pose proof (e_lists _ E) as (l0 & l1 & Hok & _).
  destruct (clock_of_ok _ _ _ i Hok Hi) as [(d2 & Hd2 & Hl) Hlok]. rewrite Hd in Hd2. injection Hd2 as <-.
  destruct (kevent_release_run kq (aw_w a) s i d) as (d' & Hrun & E1 & E2 & E3); try done.
  { intros x Hx. rewrite Hl in Hx. destruct (cl_src _ _ _ Hlok x Hx) as (sx & -> & _). eauto. }
  eapply (wp_run_any _ _ _ []); [exact Hrun|by rewrite app_nil_r| |exact Hz|done|set_solver|].
  - eapply (env_released (aw_w a)); try done; [simpl; lia|]. intros d3 Hd3. rewrite Hd in Hd3. by injection Hd3 as <-.
  - intros a' Ha'. apply HQ. rewrite decide_False in Ha' by set_solver. unfold view_of in Ha' at 1. simpl in Ha'.
    rewrite lookup_insert_eq in Ha'. exact Ha'.
Qed.

(** The last reference: the source is off the lists. *)
Lemma env_disposed w s : env w -> sw_src w !! ds = Some s -> ds_dkev s = 0 -> env (set_src (delete ds) w).
Proof.
  intros [(l0 & l1 & Hok & F0 & F1 & _) Ht Hr _] Hs Hdk.
  assert (forall j, 0 <= j <= 1 -> clock_list j (set_src (delete ds) w) (clock_of l0 l1 j)) as Hc.
  { intros j Hj. eapply clock_list_frame; [by apply clock_of_ok|done|]. intros x Hx. simpl. apply lookup_delete_ne. intros <-.
    destruct (cl_src _ _ _ (proj2 (clock_of_ok w l0 l1 j Hok Hj)) ds Hx) as (s2 & Hs2 & _ & _ & D & _).
    unfold _dispatch_kevent_timer in D. rewrite Hs in Hs2. injection Hs2 as <-. lia. }
  split; [exists l0, l1|done|..]; simpl.
  - split_and!; try done; [split; [apply (Hc 0); lia|apply (Hc 1); lia]|]. intros j s2 _. by rewrite lookup_delete_eq.
  - intros x sx. destruct (decide (x = ds)) as [->|Hx]; [by rewrite lookup_delete_eq|]. rewrite lookup_delete_ne by done. apply Hr.
  - intros s2. by rewrite lookup_delete_eq.
Qed.
Lemma wp_dispose s v z Q a :
  st v z a -> v_src v = Some s -> s_ref s = 1 -> s_xref s = 0 -> ds_dkev s = 0 ->
  (forall a', st (View None (v_items v) (v_on v) (v_datc v) (v_calls v) (v_mgr v) (v_async v)) z a' -> Q tt a') ->
  wp (raw (release_src ds)) Q a.
Proof.
  intros (E & <- & Hz) Hs Hr Hx Hdk HQ. simpl in Hs. exists tt, (set_w (set_src (delete ds)) a). split.
  - unfold raw, release_src. rewrite (get_src_bind _ s) by done. by rewrite Hr, Hx.
  - apply HQ. split; [by eapply env_disposed|]. split; [|exact Hz]. unfold view_of. simpl. by rewrite lookup_delete_eq.
Qed.

(** ** A round of timers *)

Lemma due_listed clk w l0 l1 j s :
  env w -> timers_ok w l0 l1 -> sw_src w !! ds = Some s -> 0 <= j <= 1 ->
  (forall k s, 0 <= k <= 1 -> sw_src w !! ds = Some s -> ds_is_installed s = true -> ds_dkev s = _dispatch_kevent_timer k ->
     ds ∈ clock_of l0 l1 k) ->
  ds ∈ clock_of l0 l1 j /\ due w (timer_now clk j) ds <-> due_on clk j s.
Proof.
  intros E Hok Hs Hj Hin. unfold due, due_on. rewrite (target_of_src _ _ _ Hs). split.
  - intros [Hl Hd]. destruct (cl_src _ _ _ (proj2 (clock_of_ok w l0 l1 j Hok Hj)) ds Hl) as (s2 & Hs2 & _ & H1 & H2 & _).
    rewrite Hs in Hs2. by injection Hs2 as <-.
  - intros (H1 & H2 & H3). split; [by eapply Hin|done].
Qed.

Lemma fire_refs now s : s_ref (fire_timer now s) = s_ref s.
Proof. unfold fire_timer. cbv zeta. by destruct (has _ _). Qed.
Lemma fired_fwd clk w l0 l1 x s' :
  fired clk w l0 l1 x = Some s' -> exists s, sw_src w !! x = Some s /\ ds_is_installed s' = ds_is_installed s /\
    ds_dkev s' = ds_dkev s /\ s_ref s' = s_ref s.
Proof.
  intros Hf. assert (exists s, sw_src w !! x = Some s /\ (s' = s \/ exists now, s' = fire_timer now s)) as (s & Hs & Hc).
  { unfold fired in Hf. destruct (sw_src w !! x) as [s|]; [|repeat case_decide; done]. exists s. split; [done|].
    case_decide; [right; injection Hf as <-; by eexists|]. case_decide; [right; injection Hf as <-; by eexists|]. left. by injection Hf. }
  exists s. split; [done|]. destruct Hc as [->|(now & ->)]; [done|]. rewrite fire_refs.
  by destruct (fire_keeps now s) as (_ & -> & -> & _).
Qed.

Lemma length_without_perm (l l' : list Z) : l ≡ₚ l' -> length (without ds l) = length (without ds l').
Proof. intros Hp. apply Permutation_length. by apply filter_Permutation. Qed.

Lemma env_fired clk w w' l0 l1 l0' l1' :
  env w -> timers_ok w l0 l1 -> timers_ok w' l0' l1' -> l0' ≡ₚ l0 -> l1' ≡ₚ l1 ->
  (S (length (without ds l0)) < fuel)%nat -> (S (length (without ds l1)) < fuel)%nat ->
  (forall k s, 0 <= k <= 1 -> sw_src w !! ds = Some s -> ds_is_installed s = true -> ds_dkev s = _dispatch_kevent_timer k ->
     ds ∈ clock_of l0 l1 k) ->
  (forall x, sw_src w' !! x = fired clk w l0 l1 x) -> same_kevents w w' -> env w'.
Proof.
  intros [_ [Hb Ht] Hr Ho] Hok Hok' P0 P1 F0 F1 Hin Es [Eb Ek]. split.
  - exists l0', l1'. rewrite (length_without_perm _ _ P0), (length_without_perm _ _ P1). split_and!; try done.
    intros k s' Hk Hs' Hins Hdk. rewrite Es in Hs'.
    destruct (fired_fwd _ _ _ _ _ _ Hs') as (s & Hs & E1 & E2 & _).
    specialize (Hin k s Hk Hs ltac:(congruence) ltac:(congruence)). unfold clock_of in *.
    destruct (k =? 0); [by rewrite P0|by rewrite P1].
  - split; [unfold bucket in *; by rewrite Eb|]. intros k Hk. destruct (Ht k Hk) as (d & Hd & H1 & H2).
    specialize (Ek (_dispatch_kevent_timer k)). rewrite Hd in Ek. destruct (sw_dk w' !! _) as [d'|]; [|done].
    injection Ek as Ek. exists d'. by rewrite Ek.
  - intros x s' Hs'. rewrite Es in Hs'. destruct (fired_fwd _ _ _ _ _ _ Hs') as (s & Hs & _ & _ & ->). by eapply Hr.
  - intros s' Hs' Hins. rewrite Es in Hs'. destruct (fired_fwd _ _ _ _ _ _ Hs') as (s & Hs & E1 & E2 & _).
    destruct (Ho s Hs ltac:(congruence)) as (own & Hown & H1 & H2). specialize (Ek (ds_dkev s)). rewrite Hown in Ek.
    rewrite E2. destruct (sw_dk w' !! ds_dkev s) as [d'|]; [|done]. injection Ek as Ek. exists d'. by rewrite Ek.
Qed.

Lemma wakes_wakes (l : list Z) : wakes (EvWake <$> l) = l.
Proof. induction l as [|x l IH]; [done|]. change (x :: wakes (EvWake <$> l) = x :: l). by rewrite IH. Qed.
Lemma length_without (l : list Z) : NoDup l -> (length l <= S (length (without ds l)))%nat.
Proof.
  intros Hnd. destruct (decide (ds ∈ l)) as [Hin|Hnot]; [|rewrite remove_absent by done; lia].
  apply elem_of_Permutation in Hin as [l' Hp]. rewrite Hp in Hnd |- *. apply NoDup_cons in Hnd as [Hn _].
  rewrite filter_cons_False by naive_solver. rewrite remove_absent by done. done.
Qed.

Lemma wp_timers kq clk v z Q a :
  st v z a -> timer_now clk 0 <= INT64_MAX -> timer_now clk 1 <= INT64_MAX ->
  (forall z' a', st (timers_view clk v) z' a' -> Q tt a') ->
  wp (modify (set_w (set_queue _dispatch_mgr_q));; run (_dispatch_run_timers kq fuel clk)) Q a.
Proof.
  intros Hst N0 N1 HQ. apply wp_bind. eapply wp_set_queue; [exact Hst|]. clear a Hst. intros a (E & Ev & Hz).
  pose proof (e_lists _ E) as (l0 & l1 & Hok & F0 & F1 & Hin).
  pose proof (length_without l0 (cl_nodup _ _ _ (proj2 (proj1 Hok)))). pose proof (length_without l1 (cl_nodup _ _ _ (proj2 (proj2 Hok)))).
  destruct (run_timers_run kq fuel clk (aw_w a) l0 l1 Hz Hok N0 N1 ltac:(lia) ltac:(lia)) as
    (w' & l0' & l1' & Hrun & Hok' & P0 & P1 & _ & _ & Es & El & Ek).
  set (d0 := filter (due (aw_w a) (timer_now clk 0)) l0) in *. set (d1 := filter (due (aw_w a) (timer_now clk 1)) l1) in *.
  assert (wakes ((EvWake <$> d0) ++ (EvWake <$> d1)) = d0 ++ d1) as Hw by (unfold wakes; rewrite omap_app; f_equal; apply wakes_wakes).
  eapply (wp_run_any _ tt w' _ _ (sw_queue w')); [exact Hrun|exact El|by eapply env_fired|done|done| |]; rewrite Hw.
  - intros x Hx. assert (exists j, 0 <= j <= 1 /\ x ∈ clock_of l0' l1' j) as (j & Hj & Hxj).
    { apply elem_of_app in Hx as [Hx|Hx]; apply list_elem_of_filter in Hx as [_ Hx]; [exists 0|exists 1]; (split; [lia|]);
        unfold clock_of; simpl; [by rewrite P0|by rewrite P1]. }
    destruct (cl_src _ _ _ (proj2 (clock_of_ok _ _ _ j Hok' Hj)) x Hxj) as (s & -> & _). eauto.
  - intros a' Ha'. apply (HQ (sw_queue w')). destruct Ha' as (E' & V' & Q'). split_and!; try done. rewrite V', <- Ev.
    assert (ds ∈ d0 ++ d1 <-> (ds ∈ l0 /\ due (aw_w a) (timer_now clk 0) ds) \/ (ds ∈ l1 /\ due (aw_w a) (timer_now clk 1) ds)) as Hd.
    { unfold d0, d1. rewrite elem_of_app, !list_elem_of_filter. tauto. }
    assert (forall s, sw_src (aw_w a) !! ds = Some s -> (ds ∈ l0 /\ due (aw_w a) (timer_now clk 0) ds <-> due_on clk 0 s) /\
      (ds ∈ l1 /\ due (aw_w a) (timer_now clk 1) ds <-> due_on clk 1 s)) as Hdue.
    { intros s Hs. split; [apply (due_listed clk _ l0 l1 0)|apply (due_listed clk _ l0 l1 1)]; done. }
    unfold timers_view. simpl v_src. rewrite (decide_ext _ _ _ _ Hd). unfold view_of at 1 2. simpl. rewrite Es. unfold fired.
    destruct (sw_src (aw_w a) !! ds) as [s|] eqn:Hs; cycle 1.
    { assert (forall now, ~ due (aw_w a) now ds) as Hnd by (intros now; unfold due, target_of; rewrite Hs; lia).
      rewrite !decide_False by (pose proof (Hnd (timer_now clk 0)); pose proof (Hnd (timer_now clk 1)); tauto).
      unfold view_of. by rewrite Hs. }
    destruct (Hdue s eq_refl) as [D0 D1].
    rewrite (decide_ext _ _ _ _ D0), (decide_ext _ _ _ _ D1).
    rewrite (decide_ext (_ \/ _) (due_on clk 0 s \/ due_on clk 1 s)) by (rewrite D0, D1; done).
    unfold view_of, with_src. simpl. rewrite Hs.
    destruct (decide (due_on clk 0 s)); [by rewrite decide_True by auto|]. destruct (decide (due_on clk 1 s)); [by rewrite decide_True by auto|].
    by rewrite decide_False by tauto.
Qed.
End logic.

(** ** The phases of a call *)

(** The clock of a time, the value of that clock, and the flag of the timer. *)
Definition after_index (when : Z) : Z := if s64 when <? 0 then DISPATCH_TIMER_INDEX_WALL else DISPATCH_TIMER_INDEX_MACH.
Definition after_start (when : Z) : Z := if s64 when <? 0 then u64 (- s64 when) else when.
Definition after_flags (when : Z) : Z := if s64 when <? 0 then DISPATCH_TIMER_WALL_CLOCK else 0.

Lemma after_params clk when :
  when <> 0 -> when <> DISPATCH_TIME_FOREVER ->
  set_timer_values clk 0 when 0 0 =
    SetTimerParams (after_index when) (TimerSource (after_start when) (after_start when) 1 0 (after_flags when)).
Proof.
  intros H0 Hf. unfold set_timer_values, after_index, after_start, after_flags.
  rewrite (proj2 (Z.eqb_neq when DISPATCH_TIME_NOW)), (proj2 (Z.eqb_neq when DISPATCH_TIME_FOREVER)) by done.
  simpl. by destruct (s64 when <? 0).
Qed.
Lemma after_index_range when : 0 <= after_index when <= 1.
Proof. unfold after_index, DISPATCH_TIMER_INDEX_WALL, DISPATCH_TIMER_INDEX_MACH. case_cmp; lia. Qed.
Lemma after_start_range when : in_u64 when -> when <> 0 -> 0 < after_start when < 2 ^ 64.
Proof.
  intros Hw H0. unfold after_start. assert (when < 2 ^ 63 \/ 2 ^ 63 <= when) as [H|H] by lia.
  - rewrite s64_id by lia. case_cmp; lia.
  - rewrite s64_above by lia. case_cmp; [|lia]. rewrite u64_id; lia.
Qed.
Lemma after_clock when t : clock_index (TimerSource t (after_start when) 1 0 (after_flags when)) = after_index when.
Proof. unfold clock_index, after_flags, after_index. simpl. by destruct (s64 when <? 0). Qed.
Lemma after_periodic when : has (after_flags when) (Z.lor DISPATCH_TIMER_ONESHOT DISPATCH_TIMER_ABSOLUTE) = false.
Proof. unfold after_flags. by destruct (s64 when <? 0). Qed.

(** The time has come exactly when the timer is due. *)
Lemma after_due clk when :
  in_u64 when -> when <> 0 -> when <> DISPATCH_TIME_FOREVER ->
  _dispatch_timeout clk when = 0 <-> after_start when <= timer_now clk (after_index when).
Proof.
  intros Hw H0 Hf. pose proof (after_start_range when Hw H0) as Hs.
  pose proof (timer_now_range clk (after_index when)) as Hn. unfold _dispatch_timeout.
  rewrite (proj2 (Z.eqb_neq when DISPATCH_TIME_FOREVER)), (proj2 (Z.eqb_neq when 0)) by done.
  unfold after_start, after_index in *. destruct (s64 when <? 0) eqn:E.
  - change (timer_now clk DISPATCH_TIMER_INDEX_WALL) with (_dispatch_get_nanoseconds clk) in *.
    rewrite Z.geb_leb. case_cmp; [lia|]. rewrite u64_id; lia.
  - change (timer_now clk DISPATCH_TIMER_INDEX_MACH) with (_dispatch_absolute_time clk) in *.
    rewrite Z.geb_leb. case_cmp; [lia|]. unfold _dispatch_time_mach2nano. simpl. rewrite Z.mul_1_r, u64_u64, u64_id; lia.
Qed.

Section life.
Context (kq : kernel) (fuel : nat) (ds dk datc q ctxt func when : Z).
Context (heap0 : gmap Z after_time) (calls0 async0 : list (Z * Z * Z)).
Context (Hq0 : q <> 0) (Hqm : q <> _dispatch_mgr_q) (Hfunc : func <> 0).
Context (Hwhen : in_u64 when) (Hwhen0 : when <> 0) (Hwhenf : when <> DISPATCH_TIME_FOREVER).
Context (Hdk0 : dk <> 0) (Hdkt : forall i, 0 <= i <= 1 -> dk <> _dispatch_kevent_timer i) (Hfresh : heap0 !! datc = None).

Notation i := (after_index when).
Notation start := (after_start when).
Notation st := (st fuel ds).

Definition own_items : list own_item := [SetEventHandler after_timer_callback; SetCancelHandler after_timer_cancel].
Definition heap1 : gmap Z after_time := <[datc:=AfterTime ctxt func ds]> heap0.
Definition called : list (Z * Z * Z) := calls0 ++ [(func, ctxt, q)].

(** The source before the manager queue has set its timer, and afterwards; [set] says whether it has its handlers. *)
Definition src_setup : source := Source 2 2 2 q datc dk 0 0 0 false true false true false 0 0 0 0 0 (TimerSource 0 0 0 0 0).
Definition src (ref susp k : Z) (set rearm armed : bool) (flags data pend tgt : Z) : source :=
  Source ref 1 susp q datc k (if set then after_timer_callback else 0) (if set then datc else 0)
    (if set then after_timer_cancel else 0) false true true rearm armed flags data pend 0 i
    (TimerSource tgt start 1 0 (after_flags when)).
Definition after_view (s : option source) (l : list own_item) (on : option Z) (h : gmap Z after_time) (c : list (Z * Z * Z))
  (m : list (Z * set_timer_params)) : view := View s l on h c m async0.

(** Phase and progress; [b] says that a round of timers has seen that the time has come. *)
Inductive phase (b : bool) : nat -> view -> Prop :=
| PSetup : phase b 0 (after_view (Some src_setup) own_items None heap1 calls0
    [(ds, SetTimerParams i (TimerSource start start 1 0 (after_flags when)))])
| PWaiting set on armed pend tgt :
    tgt = start + pend -> 0 <= pend -> (pend = 0 \/ tgt <= 2 ^ 63) -> (0 < pend -> b = true) ->
    (on = None /\ set = true /\ armed = true /\ pend = 0) \/ on = Some q \/ (on = Some _dispatch_mgr_q /\ set = true) ->
    phase b (if decide (pend = 0) then 1 else if decide (on = Some q) then 3 else 2)
      (after_view (Some (src (if on then 3 else 2) (if on then 1 else 0) (_dispatch_kevent_timer i) set true armed 0 0 pend tgt))
         (if set then [] else own_items) on heap1 calls0 [])
| PCalled armed data pend tgt :
    b = true -> phase b 4 (after_view (Some (src 3 1 (_dispatch_kevent_timer i) true true armed DSF_CANCELED data pend tgt))
                             [] (Some _dispatch_mgr_q) heap1 called [])
| PDetached data pend tgt :
    b = true -> phase b 5 (after_view (Some (src 2 1 0 true false false DSF_CANCELED data pend tgt)) [] (Some q) heap1 called [])
| PDone : b = true -> phase b 6 (after_view None [] None heap0 called []).

(** ** The turns of the source *)

(** The items of the source run, and then the source itself. *)
Lemma turn_on s o l c z Q a :
  st (after_view (Some s) l (Some o) heap1 c []) z a -> suspended s = false ->
  (forall a', st (after_view (Some s) [] (Some o) heap1 c []) o a' ->
     wp (run_items ds l;; tq ← source_invoke kq (fun _ m => run m) client ds;
         if tq =? 0 then source_leaves ds else modify (set_on (insert ds tq))) Q a') ->
  wp (source_turn kq ds) Q a.
Proof.
  intros Hst Hsu HQ. unfold source_turn. apply wp_bind, wp_gets.
  assert (aw_on a !! ds = Some o) as -> by (destruct Hst as (_ & V & _); by injection V).
  apply wp_bind. eapply wp_set_queue; [exact Hst|]. intros a1 H1. apply wp_bind.
  eapply wp_raw_get; [exact H1|done|]. rewrite Hsu. apply wp_bind, wp_gets.
  assert (items ds a1 = l) as -> by (destruct H1 as (_ & V & _); by injection V).
  apply wp_bind. eapply wp_set_items; [exact H1|]. intros a2 H2. apply HQ, H2.
Qed.

Lemma run_own_items (set : bool) k rearm armed flags pend tgt on c z Q a :
  st (after_view (Some (src 3 1 k set rearm armed flags 0 pend tgt)) [] on heap1 c []) z a ->
  (forall a', st (after_view (Some (src 3 1 k true rearm armed flags 0 pend tgt)) [] on heap1 c []) z a' -> Q tt a') ->
  wp (run_items ds (if set then [] else own_items)) Q a.
Proof.
  intros Hst HQ. destruct set; [by apply wp_ret, HQ|]. simpl.
  apply wp_bind. eapply wp_raw; [exact Hst|done|apply local_upd|done|done|]. intros a1 H1.
  apply wp_bind. eapply wp_raw; [exact H1|done|apply local_upd|done|done|]. intros a2 H2. apply wp_ret, HQ, H2.
Qed.

(** The source looks at itself and at the queue that it is on. *)
Lemma invoke_on s o l c Q a :
  st (after_view (Some s) l (Some o) heap1 c []) o a ->
  wp (if negb (ds_is_installed s) then
        if negb (o =? _dispatch_mgr_q) then mret _dispatch_mgr_q else run (_dispatch_kevent_merge kq ds);; mret 0
      else if cancelled s then
        if negb (ds_dkev s =? 0) then
          if negb (o =? _dispatch_mgr_q) then mret _dispatch_mgr_q
          else run (_dispatch_kevent_release kq ds);; s ← run (get_src ds); mret (s_targetq s)
        else if negb (ds_cancel_handler s =? 0) && negb (o =? s_targetq s) then mret (s_targetq s)
        else source_cancel_callout (fun _ m => run m) client ds;; mret 0
      else if negb (ds_pending_data s =? 0) then
        if negb (o =? s_targetq s) then mret (s_targetq s)
        else source_latch_and_call (fun _ m => run m) client ds;; s ← run (get_src ds);
             mret (if ds_needs_rearm s then _dispatch_mgr_q else 0)
      else if ds_needs_rearm s && negb (ds_is_armed s) then
        if negb (o =? _dispatch_mgr_q) then mret _dispatch_mgr_q
        else run (_dispatch_source_kevent_resume kq ds);; run (upd_src ds (set_ds_armed true));; mret 0
      else mret 0) Q a ->
  wp (source_invoke kq (fun _ m => run m) client ds) Q a.
Proof.
  intros Hst HQ. unfold source_invoke. apply wp_bind. eapply wp_run_get; [exact Hst|done|].
  apply wp_bind. eapply wp_run_queue; [exact Hst|]. exact HQ.
Qed.

(** The event handler: the function is called and the source cancelled. *)
Lemma latch_calls armed pend tgt Q a :
  st (after_view (Some (src 3 1 (_dispatch_kevent_timer i) true true armed 0 0 pend tgt)) [] (Some q) heap1 calls0 []) q a ->
  pend <> 0 ->
  (forall a', st (after_view (Some (src 3 1 (_dispatch_kevent_timer i) true true armed DSF_CANCELED (u64 pend) 0 tgt)) [] (Some q)
                    heap1 called []) q a' -> Q tt a') ->
  wp (source_latch_and_call (fun _ m => run m) client ds) Q a.
Proof.
  intros Hst Hp HQ. unfold source_latch_and_call. apply wp_bind. eapply wp_run_get; [exact Hst|done|].
  change (cancelled _) with false. cbv iota. apply wp_bind.
  eapply wp_run_locked; [exact Hst|done|apply local_put|done|done|set_solver|done|]. intros a1 H1. cbn [ds_pending_data src].
  rewrite (proj2 (Z.eqb_neq pend 0)) by done. simpl negb. cbn [andb].
  apply wp_bind. eapply wp_run_get; [exact H1|done|]. apply wp_bind. eapply wp_run_queue; [exact H1|].
  cbn [client ds_handler_func set_ds_data src]. rewrite Z.eqb_refl. unfold _dispatch_after_timer_callback. cbn [ds_handler_ctxt].
  apply wp_bind. eapply wp_get_datc; [exact H1|simpl; apply lookup_insert_eq|]. cbn [datc_func datc_ctxt].
  rewrite (proj2 (Z.eqb_neq func 0)) by done. apply wp_bind.
  eapply wp_raw; [exact H1|done|apply (local_ret _ _ tt)|done|done|]. intros a2 H2.
  apply wp_bind, wp_gets. assert (sw_queue (aw_w a2) = q) as -> by apply H2.
  apply wp_bind. eapply wp_log_call; [exact H2|]. intros a3 H3.
  apply wp_bind. eapply wp_get_datc; [exact H3|simpl; apply lookup_insert_eq|]. cbn [datc_ds].
  eapply wp_run_locked; [exact H3|done|by apply local_cancel|done|done|set_solver|done|]. intros a4 H4. apply HQ. exact H4.
Qed.

(** A source with nothing more to do leaves the queue. *)
Lemma waiting_leaves o Q a :
  st (after_view (Some (src 3 1 (_dispatch_kevent_timer i) true true true 0 0 0 start)) [] (Some o) heap1 calls0 []) o a ->
  (forall a', st (after_view (Some (src 2 0 (_dispatch_kevent_timer i) true true true 0 0 0 start)) [] None heap1 calls0 []) o a' ->
     Q tt a') -> wp (source_leaves ds) Q a.
Proof.
  intros Hst HQ. unfold source_leaves. apply wp_bind. eapply wp_set_off; [exact Hst|]. intros a1 H1.
  apply wp_bind. eapply wp_raw; [exact H1|done|apply local_upd|done|done|]. intros a2 H2.
  apply wp_bind. eapply wp_raw_get; [exact H2|done|]. simpl. apply wp_bind.
  eapply wp_wakeup; [exact H2|by eexists|]. intros a3 H3.
  eapply wp_raw; [exact H3|done|apply local_release|done|done|]; [simpl; lia|]. intros a4 H4. apply HQ. exact H4.
Qed.

(** Where an action takes the call: a phase with a progress of at least [n]. *)
Definition moves (b : bool) (n : nat) (_ : unit) (a : aworld) : Prop :=
  exists r v z, st v z a /\ phase b r v /\ (n <= r)%nat.

Lemma moves_intro b n r v z a : st v z a -> phase b r v -> (n <= r)%nat -> moves b n tt a.
Proof. intros. by exists r, v, z. Qed.

(** A turn while the timer waits. *)
Lemma turn_waiting b (set : bool) o armed pend z a :
  0 <= pend -> (pend = 0 \/ start + pend <= 2 ^ 63) -> (0 < pend -> b = true) -> o = q \/ (o = _dispatch_mgr_q /\ set = true) ->
  st (after_view (Some (src 3 1 (_dispatch_kevent_timer i) set true armed 0 0 pend (start + pend)))
        (if set then [] else own_items) (Some o) heap1 calls0 []) z a ->
  wp (source_turn kq ds) (moves b (if decide (pend = 0) then 1 else if decide (o = q) then 4 else 3)) a.
Proof.
  intros Hp Hmax Hb Ho Hst. eapply turn_on; [exact Hst|done|]. intros a1 H1. apply wp_bind.
  eapply run_own_items; [exact H1|]. intros a2 H2. apply wp_bind. eapply invoke_on; [exact H2|].
  assert (forall o' r a', (o' = q \/ o' = _dispatch_mgr_q) -> (r <= (if decide (pend = 0%Z) then 1 else if decide (Some o' = Some q) then 3 else 2))%nat ->
    st (after_view (Some (src 3 1 (_dispatch_kevent_timer i) true true armed 0 0 pend (start + pend))) [] (Some o') heap1 calls0 []) o a' ->
    moves b r tt a') as Hwait.
  { intros o' r a' Ho' Hr H'. eapply moves_intro; [exact H'|by eapply (PWaiting b true (Some o')); naive_solver|done]. }
  change (cancelled _) with false. cbn [ds_is_installed src ds_pending_data ds_needs_rearm ds_is_armed s_targetq negb andb].
  destruct (Z.eqb_spec pend 0) as [->|Hpn]; cbn [negb]; [rewrite (decide_True (P := 0 = 0)) by done|rewrite decide_False by done].
  - destruct armed; cbn [negb]; [|destruct (Z.eqb_spec o _dispatch_mgr_q) as [->|Hom]; cbn [negb]].
    + apply wp_ret. cbn [Z.eqb]. rewrite Z.add_0_r in H2. eapply waiting_leaves; [exact H2|]. intros a3 H3.
      eapply moves_intro; [exact H3|rewrite <- (Z.add_0_r start) at 1; eapply (PWaiting b true None); naive_solver|done].
    + apply wp_bind. eapply wp_run_quiet.
      { destruct H2 as (E & V & _). injection V as Hs _. unfold _dispatch_source_kevent_resume. rewrite (get_src_bind _ _ _ _ Hs).
        destruct (proj2 (e_table _ _ _ E) i (after_index_range when)) as (d & Hd & _ & Hf). by eapply resume_timer_dk. }
      apply wp_bind. eapply wp_run_locked; [exact H2|done|apply local_upd|done|done|set_solver|done|]. intros a3 H3.
      apply wp_ret. cbn [Z.eqb]. rewrite Z.add_0_r in H3. eapply waiting_leaves; [exact H3|]. intros a4 H4.
      eapply moves_intro; [exact H4|rewrite <- (Z.add_0_r start) at 1; eapply (PWaiting b true None); naive_solver|done].
    + apply wp_ret. cbn [Z.eqb]. eapply wp_set_on; [exact H2|]. intros a3 H3. eapply Hwait; [by right| |exact H3]. done.
  - destruct (Z.eqb_spec o q) as [->|Hoq]; cbn [negb]; [rewrite decide_True by done|rewrite decide_False by done].
    + apply wp_bind. eapply latch_calls; [exact H2|done|]. intros a3 H3. apply wp_bind. eapply wp_run_get; [exact H3|done|].
      apply wp_ret. cbn [ds_needs_rearm src Z.eqb]. eapply wp_set_on; [exact H3|]. intros a4 H4.
      eapply moves_intro; [exact H4|apply PCalled; apply Hb; lia|done].
    + apply wp_ret. rewrite (proj2 (Z.eqb_neq q 0)) by done. eapply wp_set_on; [exact H2|]. intros a3 H3.
      eapply Hwait; [by left| |exact H3]. by rewrite decide_False, decide_True by done.
Qed.

(** The manager queue takes the cancelled timer off its list. *)
Lemma turn_called armed data pend tgt z a :
  st (after_view (Some (src 3 1 (_dispatch_kevent_timer i) true true armed DSF_CANCELED data pend tgt)) []
        (Some _dispatch_mgr_q) heap1 called []) z a ->
  wp (source_turn kq ds) (moves true 5) a.
Proof.
  intros Hst. eapply turn_on; [exact Hst|done|]. intros a1 H1. apply wp_bind, wp_ret, wp_bind. eapply invoke_on; [exact H1|].
  change (cancelled _) with true. cbn [ds_is_installed src ds_dkev negb]. pose proof (after_index_range when).
  rewrite (proj2 (Z.eqb_neq (_dispatch_kevent_timer i) 0)) by (unfold _dispatch_kevent_timer; lia). cbn [negb]. rewrite Z.eqb_refl.
  cbn [negb]. apply wp_bind. eapply wp_release_timer; [exact H1|done..|]. intros a2 H2.
  apply wp_bind. eapply wp_run_get; [exact H2|done|]. apply wp_ret. cbn [s_targetq src set_s_refs set_ds_state set_ds_dkev].
  rewrite (proj2 (Z.eqb_neq q 0)) by done. eapply wp_set_on; [exact H2|]. intros a3 H3.
  eapply moves_intro; [exact H3|by apply PDetached|done].
Qed.

(** The cancellation handler frees the context and releases the source, which goes away with the end of its turn. *)
Lemma turn_detached data pend tgt z a :
  st (after_view (Some (src 2 1 0 true false false DSF_CANCELED data pend tgt)) [] (Some q) heap1 called []) z a ->
  wp (source_turn kq ds) (moves true 6) a.
Proof.
  intros Hst. eapply turn_on; [exact Hst|done|]. intros a1 H1. apply wp_bind, wp_ret, wp_bind. eapply invoke_on; [exact H1|].
  change (cancelled _) with true. cbn [ds_is_installed src ds_dkev ds_cancel_handler s_targetq negb]. rewrite (Z.eqb_refl q).
  change (0 =? 0) with true. change (after_timer_cancel =? 0) with false. cbn [negb andb].
  apply wp_bind. unfold source_cancel_callout. apply wp_bind.
  eapply wp_run_locked; [exact H1|done|apply local_upd|done|done|set_solver|done|]. intros a2 H2.
  apply wp_bind. eapply wp_run_get; [exact H2|done|]. cbn [ds_cancel_handler set_ds_data src]. change (after_timer_cancel =? 0) with false.
  cbn [ds_atomic_flags]. change (has DSF_CANCELED DSF_CANCELED) with true. cbv iota. apply wp_bind, wp_bind.
  eapply wp_run_queue; [exact H2|]. cbn [client s_ctxt]. change (after_timer_cancel =? after_timer_callback) with false.
  rewrite Z.eqb_refl. unfold _dispatch_after_timer_cancel. apply wp_bind.
  eapply wp_get_datc; [exact H2|simpl; apply lookup_insert_eq|]. cbn [datc_ds]. apply wp_bind.
  eapply wp_set_datc; [exact H2|]. intros a3 H3.
  eapply wp_run_locked; [exact H3|done|by apply local_xref_release|done|done|set_solver|done|]. intros a4 H4.
  eapply wp_run_locked; [exact H4|done|apply local_upd|done|done|set_solver|done|]. intros a5 H5.
  apply wp_ret. cbn [Z.eqb]. unfold source_leaves. apply wp_bind. eapply wp_set_off; [exact H5|]. intros a6 H6.
  apply wp_bind. eapply wp_raw; [exact H6|done|apply local_upd|done|done|]. intros a7 H7.
  apply wp_bind. eapply wp_raw_get; [exact H7|done|]. simpl. apply wp_bind. eapply wp_wakeup; [exact H7|by eexists|]. intros a8 H8.
  eapply wp_dispose; [exact H8|done..|]. intros a9 H9.
  assert (delete datc heap1 = heap0) as Hh by (unfold heap1; by rewrite delete_insert_eq, delete_id).
  apply (moves_intro true 6 6 (after_view None [] None heap0 called []) q); [rewrite <- Hh; exact H9|by apply PDone|done].
Qed.

(** ** The manager queue and the timers *)

Lemma moves_same b n r v z a : st v z a -> phase b r v -> (n <= r)%nat -> wp (mret tt) (moves b n) a.
Proof. intros. apply wp_ret. by eapply moves_intro. Qed.

(** The world after the manager queue has set the timer. *)
Lemma env_set w w' l0 l1 l0' l1' s' :
  env fuel ds w -> timers_ok w l0 l1 -> (S (length (without ds l0)) < fuel)%nat -> (S (length (without ds l1)) < fuel)%nat ->
  timers_ok w' l0' l1' -> timer_table w' ->
  (l0' ≡ₚ if decide (i = 0) then ds :: without ds l0 else without ds l0) ->
  (l1' ≡ₚ if decide (i = 1) then ds :: without ds l1 else without ds l1) ->
  sw_src w' = <[ds:=s']> (sw_src w) -> ds_is_installed s' = true -> 0 < s_ref s' ->
  env fuel ds w' /\ ds_dkev s' = _dispatch_kevent_timer i.
Proof.
  intros E Hok F0 F1 Hok' Htab P0 P1 Es Hin Hr. pose proof (after_index_range when) as Hi.
  assert (forall l l' (P : Prop) (HP : Decision P), (l' ≡ₚ if decide P then ds :: without ds l else without ds l) ->
    length (without ds l') = length (without ds l)) as Hlen.
  { intros l l' P HP Hp. rewrite (length_without_perm ds _ _ Hp).
    case_decide; [rewrite filter_cons_False by naive_solver|]; by rewrite without_without. }
  assert (ds ∈ clock_of l0' l1' i) as Hmem.
  { unfold clock_of. destruct (Z.eqb_spec i 0) as [Ei|Ei]; [rewrite P0, decide_True by done; set_solver|].
    rewrite P1, decide_True by lia. set_solver. }
  destruct (cl_src _ _ _ (proj2 (clock_of_ok w' l0' l1' i Hok' Hi)) ds Hmem) as (s2 & Hs2 & _ & _ & Hdk & _).
  rewrite Es, lookup_insert_eq in Hs2. injection Hs2 as <-. split; [|done]. split; [|done|..].
  - exists l0', l1'. rewrite (Hlen l0 l0' _ _ P0), (Hlen l1 l1' _ _ P1). split_and!; try done. intros j s2 Hj Hs2 _ Hdk2.
    rewrite Es, lookup_insert_eq in Hs2. injection Hs2 as <-. rewrite Hdk in Hdk2. by apply timer_dk_inj in Hdk2 as <-.
  - intros x sx. rewrite Es. destruct (decide (x = ds)) as [->|Hx]; [rewrite lookup_insert_eq; by intros [= <-]|].
    rewrite lookup_insert_ne by done. apply E.
  - intros s2 Hs2. rewrite Es, lookup_insert_eq in Hs2. injection Hs2 as <-. congruence.
Qed.

Lemma act_setup b z a :
  st (after_view (Some src_setup) own_items None heap1 calls0
        [(ds, SetTimerParams i (TimerSource start start 1 0 (after_flags when)))]) z a ->
  wp (act kq fuel ds AManager) (moves b 1) a.
Proof.
  intros Hst. simpl. apply wp_bind, wp_gets. assert (aw_mgr a = [(ds, SetTimerParams i (TimerSource start start 1 0 (after_flags when)))]) as ->
    by (destruct Hst as (_ & V & _); by injection V).
  apply wp_bind. eapply wp_set_mgr; [exact Hst|]. clear a Hst. intros a1 H1. apply wp_bind. eapply wp_set_queue; [exact H1|].
  intros a (E & V & Hz). pose proof (e_lists _ _ _ E) as (l0 & l1 & Hok & F0 & F1 & _). injection V as Hs Hit Hon Hd Hc Hm Ha.
  assert (forall j, 0 <= j <= 1 -> ds ∉ clock_of l0 l1 j) as Hnot.
  { intros j Hj Hx. destruct (cl_src _ _ _ (proj2 (clock_of_ok _ _ _ j Hok Hj)) ds Hx) as (s2 & Hs2 & _ & H2 & _).
    rewrite Hs in Hs2. by injection Hs2 as <-. }
  destruct (set_timer_run kq (HostClock (Timespec 0 0) (Timespec 0 0) (Timeval 0 0)) (aw_w a) ds src_setup l0 l1 when 0 0) as
    (w' & l0' & l1' & s' & Hrun & Hok' & Htab' & P0 & P1 & Es & (k & armed & ->) & El); try done; [apply E| |].
  { right. split; [by apply (Hnot 0)|]. split; [by apply (Hnot 1)|]. split_and!; try done. by apply (e_own _ _ _ E). }
  change (tm_flags (ds_timer src_setup)) with 0 in *. rewrite (after_params _ when Hwhen0 Hwhenf) in *. simpl sp_ident in *. simpl sp_values in *.
  destruct (env_set (aw_w a) w' l0 l1 l0' l1' _ E Hok F0 F1 Hok' Htab' P0 P1 Es) as [E' Hk]; [done|done|]. simpl in Hk. subst k.
  eapply (wp_run_any _ _ _ tt w' [EvWake ds] _ (sw_queue w')); [exact Hrun|exact El|done|done|done| |].
  { intros y Hy. assert (y = ds) as -> by set_solver. rewrite Es, lookup_insert_eq. eauto. }
  intros a' Ha'. rewrite decide_True in Ha' by set_solver. unfold view_of in Ha' at 1. simpl in Ha'.
  rewrite Es, lookup_insert_eq in Ha'. unfold items in Ha'. simpl in Ha'. unfold items in Hit. rewrite Hit, Hd, Hc, Hm, Ha in Ha'.
  destruct armed; (eapply moves_intro; [exact Ha'|by eapply (PWaiting b false (Some q) _ 0 start); [lia|lia|lia|lia|auto]|done]).
Qed.

Lemma act_manager b r v z a : st v z a -> phase b r v -> wp (act kq fuel ds AManager) (moves b (1 `max` r)) a.
Proof.
  intros Hst Hp. destruct (decide (r = 0%nat)) as [->|Hr].
  { inversion Hp; subst; [by eapply act_setup|]. repeat case_decide; done. }
  assert (aw_mgr a = []) as Hm by (destruct Hst as (_ & <- & _); by inversion Hp).
  simpl. apply wp_bind, wp_gets. rewrite Hm. eapply moves_same; [done..|lia].
Qed.

Lemma phase_mono b b' r v : phase b r v -> phase (b || b') r v.
Proof.
  intros Hp. destruct Hp; [apply PSetup|..]; subst; [|by constructor..]. apply PWaiting; try done. intros ?. by rewrite H2.
Qed.

(** A timer of a nanosecond counts the nanoseconds since its start. *)
Lemma fire_src now ref susp k set rearm armed flags data pend tgt :
  exists pend' tgt', fire_timer now (src ref susp k set rearm armed flags data pend tgt) =
    src ref susp k set rearm armed flags data pend' tgt'.
Proof. unfold fire_timer. simpl. rewrite after_periodic. by eexists _, _. Qed.
Lemma fire_src_counts now ref susp k set rearm armed flags data pend tgt :
  tgt = start + pend -> 0 <= pend -> tgt <= now <= INT64_MAX ->
  fire_timer now (src ref susp k set rearm armed flags data pend tgt) =
    src ref susp k set rearm armed flags data (now + 1 - start) (now + 1).
Proof.
  intros Ht Hp Hn. pose proof (after_start_range when Hwhen Hwhen0) as Hs. unfold INT64_MAX in Hn.
  rewrite fire_periodic_run; [|apply after_periodic|simpl; unfold INT64_MAX; lia..]. simpl. rewrite Z.div_1_r.
  rewrite s64_id by lia. unfold src, set_ds_timer, set_ds_pending, set_ds_data. simpl. f_equal; [lia|f_equal; lia].
Qed.

Lemma due_on_src clk j ref susp set rearm armed flags data pend tgt :
  0 <= j <= 1 -> due_on clk j (src ref susp (_dispatch_kevent_timer i) set rearm armed flags data pend tgt) <->
    j = i /\ 0 < tgt <= timer_now clk i.
Proof.
  intros Hj. unfold due_on. simpl. split.
  - intros (_ & E & H). apply timer_dk_inj in E as <-. done.
  - intros [-> H]. done.
Qed.

Lemma timers_view_src clk ref susp set rearm armed flags data pend tgt l on h c m :
  let s := src ref susp (_dispatch_kevent_timer i) set rearm armed flags data pend tgt in
  timers_view clk (after_view (Some s) l on h c m) =
    if decide (0 < tgt <= timer_now clk i) then wake_view (after_view (Some (fire_timer (timer_now clk i) s)) l on h c m)
    else after_view (Some s) l on h c m.
Proof.
  intros s. unfold timers_view. simpl v_src. pose proof (after_index_range when) as Hi.
  pose proof (due_on_src clk 0 ref susp set rearm armed flags data pend tgt) as D0.
  pose proof (due_on_src clk 1 ref susp set rearm armed flags data pend tgt) as D1. fold s in D0, D1.
  assert (i = 0 \/ i = 1) as [Ei|Ei] by lia; rewrite Ei in *.
  - rewrite (decide_ext (due_on clk 0 s) (0 < tgt <= timer_now clk 0)) by (rewrite D0 by lia; intuition). case_decide; [done|].
    rewrite decide_False; [done|]. rewrite D1 by lia. lia.
  - rewrite (decide_False (P := due_on clk 0 s)) by (rewrite D0 by lia; lia).
    by rewrite (decide_ext (due_on clk 1 s) (0 < tgt <= timer_now clk 1)) by (rewrite D1 by lia; intuition).
Qed.

Lemma timers_idle clk s l on h c m :
  (forall j, 0 <= j <= 1 -> ds_dkev s <> _dispatch_kevent_timer j) ->
  timers_view clk (after_view (Some s) l on h c m) = after_view (Some s) l on h c m.
Proof.
  intros Hs. unfold timers_view. cbn [v_src after_view].
  rewrite (decide_False (P := due_on clk 0 s)) by (intros (_ & E & _); by apply (Hs 0)).
  rewrite (decide_False (P := due_on clk 1 s)) by (intros (_ & E & _); by apply (Hs 1)). done.
Qed.

Lemma timers_waiting b clk set on armed pend :
  0 <= pend -> (pend = 0 \/ start + pend <= 2 ^ 63) -> (0 < pend -> b = true) ->
  (on = None /\ set = true /\ armed = true /\ pend = 0) \/ on = Some q \/ (on = Some _dispatch_mgr_q /\ set = true) ->
  timer_now clk i <= INT64_MAX ->
  exists r, phase (b || bool_decide (start <= timer_now clk i)) r (timers_view clk
      (after_view (Some (src (if on then 3 else 2) (if on then 1 else 0) (_dispatch_kevent_timer i) set true armed 0 0 pend (start + pend)))
         (if set then [] else own_items) on heap1 calls0 [])) /\
    ((if decide (pend = 0%Z) then 1 else if decide (on = Some q) then 3 else 2) <= r)%nat /\ (start <= timer_now clk i -> (2 <= r)%nat).
Proof.
  intros Hp Hmax Hb Hon Hnow. pose proof (after_start_range when Hwhen Hwhen0) as Hs. rewrite timers_view_src.
  destruct (decide (0 < start + pend <= timer_now clk i)) as [Hd|Hd].
  - rewrite fire_src_counts by lia. rewrite (bool_decide_eq_true_2 (start <= _)) by lia. rewrite orb_true_r.
    set (p := timer_now clk i + 1 - start). replace (timer_now clk i + 1) with (start + p) by lia. unfold INT64_MAX in Hnow.
    assert (p <> 0) as Hp0 by lia. destruct on as [o|].
    + rewrite (wake_locked (src 3 1 (_dispatch_kevent_timer i) set true armed 0 0 p (start + p))) by done. eexists. split.
      { eapply (PWaiting true set (Some o)); [done|lia|lia|done|naive_solver]. }
      rewrite (decide_False (P := p = 0)) by done. repeat case_decide; split; lia || done.
    + destruct Hon as [(_ & -> & -> & ->)|[?|[? _]]]; try done. eexists. split.
      { assert (wake_view (after_view (Some (src 2 0 (_dispatch_kevent_timer i) true true true 0 0 p (start + p))) [] None heap1 calls0 []) =
          after_view (Some (src 3 1 (_dispatch_kevent_timer i) true true true 0 0 p (start + p))) [] (Some q) heap1 calls0 []) as ->.
        { unfold wake_view, sleeps, _dispatch_source_probe. simpl. by rewrite (proj2 (Z.eqb_neq p 0)) by done. }
        eapply (PWaiting true true (Some q)); [done|lia|lia|done|naive_solver]. }
      rewrite (decide_False (P := p = 0)), (decide_True (P := Some q = Some q)), (decide_True (P := 0 = 0)) by done. lia.
  - eexists. split; [apply phase_mono; by apply PWaiting|]. split; [lia|]. intros Hle. rewrite decide_False by lia. case_decide; lia.
Qed.

Lemma act_timers b r v z clk a :
  st v z a -> phase b r v -> timer_now clk 0 <= INT64_MAX -> timer_now clk 1 <= INT64_MAX ->
  wp (act kq fuel ds (ATimers clk))
    (moves (b || bool_decide (start <= timer_now clk i))
       (if decide ((1 <= r)%nat /\ start <= timer_now clk i) then 2 `max` r else r)) a.
Proof.
  intros Hst Hp N0 N1. pose proof (after_index_range when) as Hi.
  assert (timer_now clk i <= INT64_MAX) as Hn by (assert (i = 0 \/ i = 1) as [-> | ->] by lia; done).
  eapply wp_timers; [exact Hst|done|done|]. intros z' a' H'. destruct Hp as [|set on armed pend tgt -> Hp Hmax Hb Hon|armed data pend tgt Hb|data pend tgt Hb|Hb].
  - rewrite timers_idle in H' by exact Hdkt. eapply moves_intro; [exact H'|apply phase_mono, PSetup|]. by rewrite decide_False by lia.
  - destruct (timers_waiting b clk set on armed pend Hp Hmax Hb Hon Hn) as (r & Hph & H1 & H2).
    eapply moves_intro; [exact H'|exact Hph|]. destruct (decide (_ /\ _)) as [Hc|]; [|done]. specialize (H2 (proj2 Hc)). lia.
  - rewrite timers_view_src in H'. destruct (fire_src (timer_now clk i) 3 1 (_dispatch_kevent_timer i) true true armed DSF_CANCELED data pend tgt)
      as (pend' & tgt' & E). rewrite E, (wake_locked (src 3 1 (_dispatch_kevent_timer i) true true armed DSF_CANCELED data pend' tgt')) in H' by done.
    case_decide; (eapply moves_intro; [exact H'|by apply phase_mono, PCalled|case_decide; lia]).
  - rewrite timers_idle in H' by (intros j Hj; simpl; unfold _dispatch_kevent_timer; lia).
    eapply moves_intro; [exact H'|by apply phase_mono, PDetached|case_decide; lia].
  - eapply moves_intro; [exact H'|by apply phase_mono, PDone|case_decide; lia].
Qed.

(** ** Every action moves the call forward *)

Lemma act_turn b r v z a :
  st v z a -> phase b r v -> wp (act kq fuel ds ATurn) (moves b (if decide (2 <= r)%nat then 6 `min` S r else r)) a.
Proof.
  intros Hst Hp. simpl. assert (v_on v = None -> (if decide (2 <= r)%nat then 6 `min` S r else r) <= r ->
    wp (source_turn kq ds) (moves b (if decide (2 <= r)%nat then 6 `min` S r else r)) a)%nat as Hoff.
  { intros Hon Hr. unfold source_turn. apply wp_bind, wp_gets. assert (aw_on a !! ds = None) as -> by (by destruct Hst as (_ & <- & _)).
    by eapply moves_same. }
  destruct Hp as [|set on armed pend tgt -> Hp Hmax Hb Hon|armed data pend tgt -> |data pend tgt -> | -> ].
  - apply Hoff; [done|]. rewrite decide_False; lia.
  - destruct on as [o|].
    + eapply wp_conseq; [eapply (turn_waiting b set o armed pend); try done; naive_solver|].
      intros [] a' (r' & v' & z' & H1 & H2 & H3). eapply moves_intro; [done..|]. revert H3.
      destruct (decide (pend = 0)), (decide (o = q)), (decide (Some o = Some q)); try congruence; repeat case_decide; lia.
    + destruct Hon as [(_ & -> & -> & ->)|[?|[? _]]]; try done. apply Hoff; [done|]. by rewrite (decide_True (P := 0 = 0)), decide_False by (done || lia).
  - by eapply turn_called.
  - by eapply turn_detached.
  - apply Hoff; done.
Qed.

(** A clock that fits a signed integer. *)
Definition sane (x : action) : Prop :=
  match x with ATimers clk => timer_now clk 0 <= INT64_MAX /\ timer_now clk 1 <= INT64_MAX | _ => True end.
(** The timers run at a time that has come. *)
Definition is_time (x : action) : bool :=
  match x with ATimers clk => bool_decide (start <= timer_now clk i) | _ => false end.
Definition progress (x : action) (r : nat) : nat :=
  match x with
  | AManager => 1 `max` r
  | ATimers clk => if decide ((1 <= r)%nat /\ start <= timer_now clk i) then 2 `max` r else r
  | ATurn => if decide (2 <= r)%nat then 6 `min` S r else r
  end.

Lemma act_moves b r v z x a :
  st v z a -> phase b r v -> sane x -> wp (act kq fuel ds x) (moves (b || is_time x) (progress x r)) a.
Proof.
  intros Hst Hp Hx. destruct x as [|clk|]; [rewrite orb_false_r; by eapply act_manager| |rewrite orb_false_r; by eapply act_turn].
  destruct Hx. by eapply act_timers.
Qed.

Lemma progress_mono x r r' : (r <= r')%nat -> (progress x r <= progress x r')%nat.
Proof. intros H. destruct x; unfold progress; repeat case_decide; lia. Qed.

Lemma foldl_progress l r r' : (r <= r')%nat -> (foldl (flip progress) r l <= foldl (flip progress) r' l)%nat.
Proof. induction l as [|y l IH] in r, r' |- *; simpl; intros H; [done|]. apply IH. by apply progress_mono. Qed.

Lemma acts_moves l b r v z a :
  st v z a -> phase b r v -> Forall sane l ->
  wp (acts kq fuel ds l) (moves (b || existsb is_time l) (foldl (flip progress) r l)) a.
Proof.
  induction l as [|x l IH] in b, r, v, z, a |- *; intros Hst Hp Hl; [rewrite orb_false_r; by eapply moves_same|].
  inversion Hl as [|? ? Hx Hl']; subst. simpl. apply wp_bind. eapply wp_conseq; [by eapply act_moves|].
  intros [] a1 (r1 & v1 & z1 & H1 & P1 & L1). eapply wp_conseq; [by eapply IH|]. rewrite <- orb_assoc.
  intros [] a2 (r2 & v2 & z2 & H2 & P2 & L2). eapply moves_intro; [done..|]. etrans; [|exact L2]. by apply foldl_progress.
Qed.
End life.

(** ** From the call on *)

(** A world in which dispatch_after_f can be called: sound lists of timers, everything allocated below the break, and
    an idle manager queue. *)
Record after_ready (fuel : nat) (a : aworld) : Prop := {
  ar_lists : exists l0 l1, timers_ok (aw_w a) l0 l1 /\ (S (length l0) < fuel)%nat /\ (S (length l1) < fuel)%nat;
  ar_table : timer_table (aw_w a);
  ar_refs : forall x s, sw_src (aw_w a) !! x = Some s -> 0 < s_ref s;
  ar_brk : 0 < sw_brk (aw_w a);
  ar_src : forall x, is_Some (sw_src (aw_w a) !! x) -> x < sw_brk (aw_w a);
  ar_dk : forall x, is_Some (sw_dk (aw_w a) !! x) -> x < sw_brk (aw_w a);
  ar_datc : forall x, is_Some (aw_datc a !! x) -> x < sw_brk (aw_w a);
  ar_items : forall x, is_Some (aw_items a !! x) -> x < sw_brk (aw_w a);
  ar_on : forall x, is_Some (aw_on a !! x) -> x < sw_brk (aw_w a);
  ar_mgr : aw_mgr a = []
}.

Lemma above_brk {A} (m : gmap Z A) b x : (forall x, is_Some (m !! x) -> x < b) -> b <= x -> m !! x = None.
Proof. intros H Hx. destruct (m !! x) eqn:E; [|done]. specialize (H x ltac:(by rewrite E)). lia. Qed.

Definition new_timer (q dk : Z) : source := Source 2 1 2 q 0 dk 0 0 0 false true false true false 0 0 0 0 0 (TimerSource 0 0 0 0 0).

(** The new source, its kevent, and the break above both. *)
Lemma create_timer_run q w :
  exists w', let k := sw_brk w + 4096 in
    dispatch_source_create (Some _dispatch_source_type_timer) 0 0 q w = Ret (sw_brk w) w' /\
    sw_src w' = <[sw_brk w:=new_timer q k]> (sw_src w) /\
    sw_dk w' = <[k:=Dkevent (Kevent 0 DISPATCH_EVFILT_TIMER (Z.lor 0 (Z.lor EV_ADD EV_ENABLE)) 0 0 k) []]> (sw_dk w) /\
    sw_buckets w' = sw_buckets w /\ sw_log w' = sw_log w /\ sw_queue w' = sw_queue w /\ sw_brk w' = sw_brk w + 8192.
Proof.
  unfold dispatch_source_create. change (has 0 _) with false. cbv iota. rewrite gets_bind, modify_bind, put_src_bind.
  unfold dispatch_source_type_kevent_init. change (negb (valid_handle _ 0 0)) with false. cbv iota.
  rewrite bind_assoc, gets_bind, bind_assoc, modify_bind, bind_assoc, put_dk_bind, bind_assoc.
  erewrite get_src_bind by (simpl; apply lookup_insert_eq). rewrite bind_assoc, put_src_bind, ret_bind. cbn [negb].
  erewrite get_src_bind by (simpl; apply lookup_insert_eq). eexists. split; [done|]. simpl. rewrite insert_insert_eq.
  split_and!; try done. lia.
Qed.

Lemma mgr_wakeup_run kq w : exists e, wakes [e] = [] /\ _dispatch_mgr_wakeup kq w = Ret false (log_event e w).
Proof.
  unfold _dispatch_mgr_wakeup, _dispatch_update_kq. rewrite bind_assoc. erewrite bind_step; [|unfold update_kq_delete; done]. cbv iota.
  rewrite bind_assoc, gets_bind, bind_assoc, modify_bind. eexists. split; [|by destruct (kq _ _)]. done.
Qed.

Section call.
Context (kq : kernel) (fuel : nat) (clk : host_clock) (a : aworld) (when q ctxt func : Z) (R : after_ready fuel a).
Context (Hwhen : in_u64 when) (Hwhen0 : when <> 0) (Hwhenf : when <> DISPATCH_TIME_FOREVER).
Let ds := sw_brk (aw_w a).
Let dk := ds + 4096.
Let datc := ds + 8192.

Lemma fresh_timer_dk j : 0 <= j <= 1 -> _dispatch_kevent_timer j < ds.
Proof. intros Hj. apply (ar_dk _ _ R). destruct (proj2 (ar_table _ _ R) j Hj) as (d & -> & _). eauto. Qed.

Lemma env_created w' s d :
  sw_src w' = <[ds:=s]> (sw_src (aw_w a)) -> sw_dk w' = <[dk:=d]> (sw_dk (aw_w a)) -> sw_buckets w' = sw_buckets (aw_w a) ->
  ds_is_installed s = false -> ds_dkev s = dk -> 0 < s_ref s -> ke_ident (dk_kevent d) = 0 ->
  ke_filter (dk_kevent d) = DISPATCH_EVFILT_TIMER -> env fuel ds w'.
Proof.
  intros Es Ed Eb Hin Hdk Hr Hid Hf. pose proof (ar_lists _ _ R) as (l0 & l1 & Hok & F0 & F1).
  assert (sw_src (aw_w a) !! ds = None) as Hnew by (apply (above_brk _ ds); [apply R|lia]).
  assert (forall j, 0 <= j <= 1 -> sw_dk w' !! _dispatch_kevent_timer j = sw_dk (aw_w a) !! _dispatch_kevent_timer j) as Hdkt.
  { intros j Hj. rewrite Ed, lookup_insert_ne; [done|]. pose proof (fresh_timer_dk j Hj). unfold dk. lia. }
  assert (forall j, 0 <= j <= 1 -> clock_list j w' (clock_of l0 l1 j) /\ ds ∉ clock_of l0 l1 j) as Hc.
  { intros j Hj. pose proof (clock_of_ok _ _ _ j Hok Hj) as Hcl.
    assert (ds ∉ clock_of l0 l1 j) as Hn by (intros Hx; destruct (cl_src _ _ _ (proj2 Hcl) ds Hx) as (s2 & Hs2 & _); congruence).
    split; [|done]. eapply clock_list_frame; [exact Hcl|by apply Hdkt|]. intros x Hx. rewrite Es, lookup_insert_ne; [done|]. by intros <-. }
  destruct (Hc 0 ltac:(lia)) as [C0 N0], (Hc 1 ltac:(lia)) as [C1 N1]. unfold clock_of in *. simpl in *. split.
  - exists l0, l1. rewrite !remove_absent by done. split_and!; try done. intros j s2 _ Hs2. rewrite Es, lookup_insert_eq in Hs2.
    injection Hs2 as <-. congruence.
  - destruct (ar_table _ _ R) as [Hb Ht]. split; [unfold bucket in *; by rewrite Eb|]. intros j Hj. rewrite Hdkt by done. by apply Ht.
  - intros x sx. rewrite Es. destruct (decide (x = ds)) as [->|Hx]; [rewrite lookup_insert_eq; by intros [= <-]|].
    rewrite lookup_insert_ne by done. apply R.
  - intros s2 Hs2 _. rewrite Es, lookup_insert_eq in Hs2. injection Hs2 as <-. exists d. rewrite Hdk, Ed, lookup_insert_eq. done.
Qed.

Lemma after_sets_up :
  _dispatch_timeout clk when <> 0 ->
  wp (dispatch_after_f kq clk when q ctxt func) (fun _ a' => exists z, st fuel ds
    (after_view (aw_async a) (Some (src_setup dk datc q)) own_items None (heap1 ds datc ctxt func (aw_datc a)) (aw_calls a)
       [(ds, SetTimerParams (after_index when) (TimerSource (after_start when) (after_start when) 1 0 (after_flags when)))]) z a') a.
Proof.
  intros Hto. unfold dispatch_after_f. rewrite (proj2 (Z.eqb_neq when _)), (proj2 (Z.eqb_neq (_dispatch_timeout clk when) 0)) by done.
  apply wp_bind. destruct (create_timer_run q (aw_w a)) as (w1 & Hrun & Es & Ed & Eb & El & Eq & Ebrk). fold ds in Hrun, Es.
  eapply wp_run_exact; [exact Hrun|done|]. apply wp_bind.
  rewrite (proj2 (Z.eqb_neq ds 0)) by (pose proof (ar_brk _ _ R); unfold ds; lia).
  exists tt, (set_w (fun _ => w1) a). split; [done|]. apply wp_bind, wp_gets. cbn [aw_w set_w]. rewrite Ebrk. fold ds datc.
  apply wp_bind. exists tt. eexists. split; [reflexivity|]. apply wp_bind.
  match goal with |- wp _ _ ?a1 => assert (st fuel ds (View (Some (new_timer q dk)) [] None (aw_datc a) (aw_calls a) [] (aw_async a))
    (sw_queue (aw_w a)) a1) as H1 end.
  { split_and!.
    - eapply env_created; [exact Es|exact Ed|exact Eb|done..].
    - unfold view_of, items. simpl. rewrite Es, lookup_insert_eq, (ar_mgr _ _ R).
      rewrite (above_brk (aw_items a) ds ds), (above_brk (aw_on a) ds ds); [done|apply (ar_on _ _ R)|lia|apply (ar_items _ _ R)|lia].
    - exact Eq. }
  eapply wp_set_datc; [exact H1|]. clear H1. intros a1 H1.
  apply wp_bind. eapply wp_raw; [exact H1|done|apply local_upd|done|done|]. intros a2 H2.
  apply wp_bind. unfold dispatch_source_set_event_handler_f, dispatch_source_set_cancel_handler_f, async_source. apply wp_bind, wp_gets.
  assert (items ds a2 = []) as -> by (destruct H2 as (_ & V & _); by injection V).
  apply wp_bind. eapply wp_set_items; [exact H2|]. intros a3 H3. rewrite bool_decide_eq_true_2 by done.
  eapply wp_wakeup; [exact H3|by eexists|]. intros a4 H4. apply wp_bind. apply wp_bind, wp_gets.
  assert (items ds a4 = [SetEventHandler after_timer_callback]) as -> by (destruct H4 as (_ & V & _); by injection V).
  apply wp_bind. eapply wp_set_items; [exact H4|]. intros a5 H5. rewrite bool_decide_eq_false_2 by done. apply wp_ret.
  apply wp_bind. eapply wp_run; [exact H5|done|by apply local_set_timer|done|done|set_solver|]. intros a6 H6.
  rewrite decide_False in H6 by set_solver. change (tm_flags _) with 0. rewrite (after_params clk when) by done.
  apply wp_bind. unfold async_mgr. apply wp_bind, wp_gets. assert (aw_mgr a6 = []) as -> by (destruct H6 as (_ & V & _); by injection V).
  apply wp_bind. eapply wp_set_mgr; [exact H6|]. intros a7 H7. rewrite bool_decide_eq_true_2 by done. apply wp_bind.
  destruct (mgr_wakeup_run kq (aw_w a7)) as (e & _ & Hmgr). exists false. eexists. split; [unfold raw; by rewrite Hmgr|].
  apply wp_ret. match goal with |- wp _ _ ?a8 => assert (st fuel ds (view_of ds a7) (sw_queue (aw_w a7)) a8) as H8 end.
  { split_and!; try done. destruct H7 as (E & _). apply (env_same fuel ds (aw_w a7)); try done. apply E. }
  destruct H7 as (_ & V7 & _). rewrite V7 in H8.
  eapply wp_run; [exact H8|done|by apply local_resume|done|done|set_solver|]. intros a9 H9. eexists. exact H9.
Qed.
End call.

(** ** The theorem *)

Definition is_turn (x : action) : bool := match x with ATurn => true | _ => false end.

Lemma progress_keeps when x r : (r <= 6)%nat -> (r <= progress when x r)%nat.
Proof. intros H. destruct x; unfold progress; repeat case_decide; lia. Qed.
Lemma progress_le when x r : (r <= 6)%nat -> (progress when x r <= 6)%nat.
Proof. intros H. destruct x; unfold progress; repeat case_decide; lia. Qed.
Lemma foldl_progress_le when l r : (r <= 6)%nat -> (foldl (flip (progress when)) r l <= 6)%nat.
Proof. induction l as [|x l IH] in r |- *; simpl; intros H; [done|]. apply IH. by apply progress_le. Qed.
Lemma foldl_progress_keeps when l r : (r <= 6)%nat -> (r <= foldl (flip (progress when)) r l)%nat.
Proof.
  induction l as [|x l IH] in r |- *; simpl; intros H; [done|]. etrans; [by apply (progress_keeps when x)|].
  apply IH. by apply progress_le.
Qed.
Lemma foldl_progress_turns when l r :
  (2 <= r <= 6)%nat -> (6 `min` (r + length (List.filter is_turn l)) <= foldl (flip (progress when)) r l)%nat.
Proof.
  induction l as [|x l IH] in r |- *; cbn [foldl List.filter]; intros H; [cbn [length]; lia|]. unfold flip at 2.
  pose proof (progress_le when x r). pose proof (progress_keeps when x r). specialize (IH (progress when x r) ltac:(lia)).
  destruct x; cbn [is_turn length]; [lia..|]. unfold progress in *. rewrite decide_True in * by lia. lia.
Qed.

(** The time comes after the timer was set, and the source gets four turns afterwards. *)
Lemma progress_done clk when l1 l2 l3 :
  after_start when <= timer_now clk (after_index when) -> (4 <= length (List.filter is_turn l3))%nat ->
  (6 <= foldl (flip (progress when)) 0 (l1 ++ AManager :: l2 ++ ATimers clk :: l3))%nat.
Proof.
  intros Hdue Hn. rewrite foldl_app. cbn [foldl]. rewrite foldl_app. cbn [foldl]. unfold flip at 2 4. set (r1 := foldl _ 0%nat l1).
  assert (r1 <= 6)%nat by (apply foldl_progress_le; lia). set (r2 := progress when AManager r1).
  assert (1 <= r2 <= 6)%nat by (unfold r2, progress; lia). set (r3 := foldl _ r2 l2).
  assert (1 <= r3 <= 6)%nat by (split; [etrans; [|apply foldl_progress_keeps]; lia|apply foldl_progress_le; lia]).
  set (r4 := progress when (ATimers clk) r3). assert (2 <= r4 <= 6)%nat by (unfold r4, progress; rewrite decide_True by (split; [lia|done]); lia).
  pose proof (foldl_progress_turns when l3 r4 ltac:(lia)). lia.
Qed.

(** The call is over: nothing of it is left. *)
Definition after_over (a a' : aworld) (ds : Z) : Prop :=
  sw_src (aw_w a') !! ds = None /\ aw_datc a' = aw_datc a /\ aw_on a' !! ds = None /\ items ds a' = [] /\ aw_mgr a' = [].

(** C12: dispatch_after_f with a time that has not come calls its function exactly once.  In whatever order the manager queue, the rounds
    of timers and the turns of the source follow (and the timer, which has an interval of a nanosecond, expires many times), nothing fails, the
    function is called at most once, on its queue and with its context, and only after a round of timers at which the time had come; once
    the manager queue has set the timer, a round of timers found that the time had come and the source had four more turns, the function has been
    called and source and context are freed. *)
Theorem after_calls_once kq fuel clk a when q ctxt func :
  after_ready fuel a -> in_u64 when -> when <> DISPATCH_TIME_FOREVER -> _dispatch_timeout clk when <> 0 ->
  q <> 0 -> q <> _dispatch_mgr_q -> func <> 0 ->
  exists a1, dispatch_after_f kq clk when q ctxt func a = Ret tt a1 /\ aw_async a1 = aw_async a /\
    forall l, Forall sane l -> exists a2, acts kq fuel (sw_brk (aw_w a)) l a1 = Ret tt a2 /\ aw_async a2 = aw_async a /\
      (aw_calls a2 = aw_calls a \/
       aw_calls a2 = aw_calls a ++ [(func, ctxt, q)] /\ exists clk', ATimers clk' ∈ l /\ _dispatch_timeout clk' when = 0) /\
      (forall l1 l2 clk' l3, l = l1 ++ AManager :: l2 ++ ATimers clk' :: l3 -> _dispatch_timeout clk' when = 0 ->
         (4 <= length (List.filter is_turn l3))%nat ->
         aw_calls a2 = aw_calls a ++ [(func, ctxt, q)] /\ after_over a a2 (sw_brk (aw_w a))).
Proof.
  intros R Hw Hf Hto Hq Hqm Hfn. assert (when <> 0) as H0 by (intros ->; by apply Hto). set (ds := sw_brk (aw_w a)).
  destruct (after_sets_up kq fuel clk a when q ctxt func R Hw H0 Hf Hto) as ([] & a1 & Hrun & z & H1). fold ds in H1.
  exists a1. split; [done|]. split; [destruct H1 as (_ & V & _); by injection V|]. intros l Hl.
  pose proof (PSetup ds (ds + 4096) (ds + 8192) q ctxt func when (aw_datc a) (aw_calls a) (aw_async a) false) as P1.
  assert (aw_datc a !! (ds + 8192) = None) as Hnew by (apply (above_brk _ ds); [apply (ar_datc _ _ R)|lia]).
  assert (forall j, 0 <= j <= 1 -> ds + 4096 <> _dispatch_kevent_timer j) as Hdk
    by (intros j Hj; pose proof (fresh_timer_dk fuel a R j Hj); unfold ds; lia).
  pose proof (ar_brk _ _ R) as Hb.
  destruct (acts_moves kq fuel ds (ds + 4096) (ds + 8192) q ctxt func when (aw_datc a) (aw_calls a) (aw_async a) Hq Hqm Hfn Hw H0 Hf
    ltac:(unfold ds; lia) Hdk Hnew l false 0 _ z a1 H1 P1 Hl) as ([] & a2 & R2 & r & v & z2 & H2 & P2 & L2).
  exists a2. split; [done|]. destruct H2 as (_ & <- & _). split; [by inversion P2|]. split.
  - assert (existsb (is_time when) l = true -> exists clk', ATimers clk' ∈ l /\ _dispatch_timeout clk' when = 0) as Htime.
    { intros (x & Hx & Ht)%existsb_exists. destruct x as [|clk'|]; try done. exists clk'. split; [by apply list_elem_of_In|].
      apply after_due; try done. by apply bool_decide_eq_true in Ht. }
    inversion P2; try (by left); right; (split; [done|]); by apply Htime.
  - intros l1 l2 clk' l3 -> Hclk Hn. assert (6 <= r)%nat as Hr.
    { etrans; [|exact L2]. apply progress_done; [|done]. by apply after_due. }
    inversion P2; subst; try lia; [repeat case_decide; lia|]. by split_and!.
Qed.

(** A call at 2000 ns of the monotonic clock, which shows 1050 ns, next to three other timers. *)
Definition ex_after : aworld := AWorld ex_timer_world ∅ ∅ [] ∅ [] [].
Definition ex_late : host_clock := HostClock (Timespec 0 9050) (Timespec 0 0) (Timeval 0 0).

Lemma ex_after_ready : after_ready 9 ex_after.
Proof.
  assert (map_Forall (fun x s => 0 < s_ref s /\ x < 4096) (sw_src ex_timer_world)) as Hs by (apply (bool_decide_unpack _); vm_compute; exact I).
  assert (map_Forall (fun x (_ : dkevent) => x < 4096) (sw_dk ex_timer_world)) as Hd by (apply (bool_decide_unpack _); vm_compute; exact I).
  split.
  - exists [], [100; 200; 300]. split; [apply ex_timers_ok|]. simpl. lia.
  - split; [by eexists|]. intros i Hi. assert (i = 0 \/ i = 1) as [-> | ->] by lia; by eexists.
  - intros x s H. by apply (Hs x s).
  - done.
  - intros x [s H]. by apply (Hs x s).
  - intros x [d H]. by apply (Hd x d).
  - intros x [d H]. simpl in H. by rewrite lookup_empty in H.
  - intros x [d H]. simpl in H. by rewrite lookup_empty in H.
  - intros x [d H]. simpl in H. by rewrite lookup_empty in H.
  - done.
Qed.

Lemma after_calls_once_witness :
  after_ready 9 ex_after /\ _dispatch_timeout ex_clock 2000 = 950 /\ _dispatch_timeout ex_late 2000 = 0 /\
  exists a1 a2, dispatch_after_f (fun _ _ => None) ex_clock 2000 600 5 77 ex_after = Ret tt a1 /\
    acts (fun _ _ => None) 9 4096 [AManager; ATurn; ATimers ex_clock; ATurn; ATimers ex_late; ATurn; ATimers ex_late; ATurn; ATurn; ATurn] a1
      = Ret tt a2 /\ aw_calls a2 = [(77, 5, 600)] /\ after_over ex_after a2 4096.
Proof.
  split; [exact ex_after_ready|]. split; [reflexivity|]. split; [reflexivity|].
  destruct (after_calls_once (fun _ _ => None) 9 ex_clock ex_after 2000 600 5 77 ex_after_ready ltac:(lia) ltac:(discriminate)
    ltac:(discriminate) ltac:(discriminate) ltac:(discriminate) ltac:(discriminate)) as (a1 & R1 & _ & H).
  set (l := [AManager; ATurn; ATimers ex_clock; ATurn; ATimers ex_late; ATurn; ATimers ex_late; ATurn; ATurn; ATurn]).
  destruct (H l) as (a2 & R2 & _ & _ & Hend); [repeat constructor; vm_compute; discriminate|].
  exists a1, a2. split; [exact R1|]. split; [exact R2|].
  exact (Hend [] [ATurn; ATimers ex_clock; ATurn] ex_late [ATurn; ATimers ex_late; ATurn; ATurn; ATurn] eq_refl eq_refl ltac:(simpl; lia)).
Defined.
