(* ===== verification/SourceTable.v ===== *)
(** * The table of kevents

    Sources with the same handle and filter share one kevent.  This file has the invariant of the table and of
    the links between sources and kevents ([graph_ok]), that installing and uninstalling a source keep
    it, and that the replies of the kernel during both reach only the
    pending data of the sources ([quiet]). *)

From S2P Require Import Prelude DispatchTime DispatchSource TimerList TimerSource.
From stdpp Require Import base tactics list numbers gmap strings fin_maps.
From Stdlib Require Import ZArith Lia.

Local Open Scope Z_scope.

(** ** Quiet steps *)

(** What the delivery of a kevent cannot change. *)
Definition core (s : source) : source := set_ds_armed false (set_ds_pending 0 s).
Definition dk_core (d : dkevent) : dkevent := set_dk_kevent (set_ke_flags 0 (dk_kevent d)) d.
(** Neither a handler nor a cancellation handler is called. *)
Definition quiet_event (e : sevent) : Prop := match e with EvWake _ | EvKevent _ => True | _ => False end.

Record same_core (w w' : sworld) : Prop := {
  q_src : core <$> sw_src w' = core <$> sw_src w;
  q_dk : dk_core <$> sw_dk w' = dk_core <$> sw_dk w;
  q_buckets : sw_buckets w' = sw_buckets w
}.
Record quiet (w w' : sworld) : Prop := {
  q_core :> same_core w w';
  q_queue : sw_queue w' = sw_queue w;
  q_log : exists evs, sw_log w' = sw_log w ++ evs /\ Forall quiet_event evs;
  q_cancelled : forall x s, sw_src w !! x = Some s -> cancelled s = true -> sw_src w' !! x = Some s
}.

#[export] Instance quiet_refl : Reflexive quiet.
Proof. intros w. split; [by split|done| |done]. exists []. by rewrite app_nil_r. Qed.
#[export] Instance quiet_trans : Transitive quiet.
Proof.
  intros w1 w2 w3 [[S1 D1 B1] Q1 (e1 & L1 & F1) C1] [[S2 D2 B2] Q2 (e2 & L2 & F2) C2].
  split; [split; congruence|congruence| |naive_solver].
  exists (e1 ++ e2). rewrite L2, L1, app_assoc. split; [done|]. by apply Forall_app.
Qed.

(** The run succeeds and is quiet. *)
Definition runs_quiet (m : SM unit) (w : sworld) : Prop := exists w', m w = Ret tt w' /\ quiet w w'.

Lemma quiet_ret w : runs_quiet (mret tt) w.
Proof. by exists w. Qed.
Lemma quiet_bind (m : SM unit) (k : unit -> SM unit) w :
  runs_quiet m w -> (forall w', quiet w w' -> runs_quiet (k tt) w') -> runs_quiet (m ≫= k) w.
Proof.
  intros (w1 & H1 & Q1) Hk. destruct (Hk w1 Q1) as (w2 & H2 & Q2). exists w2.
  split; [by erewrite bind_step by exact H1|by trans w1].
Qed.

Lemma insert_fmap_id {A B} (f : A -> B) (m : gmap Z A) k x x' :
  m !! k = Some x -> f x' = f x -> f <$> <[k:=x']> m = f <$> m.
Proof.
  intros Hk Hf. rewrite fmap_insert, Hf. apply insert_id. by rewrite lookup_fmap, Hk.
Qed.

Lemma quiet_put_src w x s s' :
  sw_src w !! x = Some s -> core s' = core s -> cancelled s = false -> runs_quiet (put_src x s') w.
Proof.
  intros Hs Hc Hn. eexists. split; [done|]. split; [split; [by eapply insert_fmap_id|done..]|done|..]; simpl.
  - exists []. by rewrite app_nil_r.
  - intros y sy Hy Hcy. rewrite lookup_insert_ne; [done|]. intros ->. congruence.
Qed.
Lemma quiet_put_dk w k d d' :
  sw_dk w !! k = Some d -> dk_core d' = dk_core d -> runs_quiet (put_dk k d') w.
Proof.
  intros Hd Hc. eexists. split; [done|]. split; [split; [done|by eapply insert_fmap_id|done]|done| |done].
  exists []. by rewrite app_nil_r.
Qed.
Lemma quiet_log w e : quiet_event e -> runs_quiet (modify (log_event e)) w.
Proof. intros He. eexists. split; [done|]. split; [by split|done| |done]. exists [e]. split; [done|by repeat constructor]. Qed.

(** What is there stays there. *)
Lemma fmap_fwd {A B} (f : A -> B) (m m' : gmap Z A) k x :
  f <$> m' = f <$> m -> m !! k = Some x -> exists x', m' !! k = Some x' /\ f x' = f x.
Proof.
  intros E Hx. pose proof (f_equal (fun m : gmap Z B => m !! k) E) as Ek. cbv beta in Ek.
  rewrite !lookup_fmap, Hx in Ek. destruct (m' !! k) as [x'|]; [|done]. exists x'. split; [done|]. by apply (inj Some).
Qed.
Lemma quiet_src_fwd w w' x s :
  same_core w w' -> sw_src w !! x = Some s -> exists s', sw_src w' !! x = Some s' /\ core s' = core s.
Proof. intros Q. apply fmap_fwd, Q. Qed.
Lemma quiet_dk_fwd w w' k d :
  same_core w w' -> sw_dk w !! k = Some d -> exists d', sw_dk w' !! k = Some d' /\ dk_core d' = dk_core d.
Proof. intros Q. apply fmap_fwd, Q. Qed.

Lemma core_fields s s' :
  core s' = core s ->
  ds_dkev s' = ds_dkev s /\ ds_is_installed s' = ds_is_installed s /\ ds_pending_data_mask s' = ds_pending_data_mask s /\
  cancelled s' = cancelled s /\ s_ref s' = s_ref s /\ s_targetq s' = s_targetq s /\ suspended s' = suspended s.
Proof. destruct s, s'. unfold core, set_ds_armed, set_ds_state, set_ds_pending, set_ds_data. simpl. intros [=]. by subst. Qed.
Lemma dk_core_fields d d' :
  dk_core d' = dk_core d ->
  ke_ident (dk_kevent d') = ke_ident (dk_kevent d) /\ ke_filter (dk_kevent d') = ke_filter (dk_kevent d) /\
  ke_fflags (dk_kevent d') = ke_fflags (dk_kevent d) /\ ke_udata (dk_kevent d') = ke_udata (dk_kevent d) /\
  dk_sources d' = dk_sources d.
Proof. destruct d as [[] ?], d' as [[] ?]. unfold dk_core, set_dk_kevent, set_ke_flags. simpl. intros [=]. by subst. Qed.

(** ** The delivery of a reply of the kernel *)

Lemma quiet_upd_src w x s f :
  sw_src w !! x = Some s -> core (f s) = core s -> cancelled s = false -> runs_quiet (upd_src x f) w.
Proof.
  intros Hs Hc Hn. unfold upd_src, runs_quiet. rewrite (get_src_bind _ s) by done. by apply (quiet_put_src w x s).
Qed.
Lemma quiet_upd_dk w k d f :
  sw_dk w !! k = Some d -> dk_core (f d) = dk_core d -> runs_quiet (upd_dk k f) w.
Proof. intros Hd Hc. unfold upd_dk, runs_quiet. rewrite (get_dk_bind _ d) by done. by apply (quiet_put_dk w k d). Qed.

(** Only a level source looks at the sign of the data. *)
Definition good_data (ke : kevent) : Prop := forall ke', merge_fake ke = Some ke' -> 0 <= ke_data ke'.

Lemma merge_kevent_quiet w ds s ke :
  sw_src w !! ds = Some s -> good_data ke -> runs_quiet (_dispatch_source_merge_kevent ds ke) w.
Proof.
  intros Hs Hg. unfold _dispatch_source_merge_kevent, runs_quiet. rewrite (get_src_bind _ s) by done.
  destruct (cancelled s) eqn:Hc; [apply quiet_ret|]. destruct (merge_fake ke) as [ke'|] eqn:Hf; [|apply quiet_ret].
  apply Hg in Hf. apply quiet_bind.
  - destruct (ds_is_level s); [|by destruct (ds_is_adder s); apply (quiet_upd_src w ds s)].
    unfold dispatch_assert. rewrite Z.geb_leb, (proj2 (Z.leb_le 0 _)) by done. by apply (quiet_upd_src w ds s).
  - intros w1 Q1. destruct (quiet_src_fwd _ _ _ _ Q1 Hs) as (s1 & Hs1 & E1).
    apply quiet_bind; [|intros w2 Q2; by apply quiet_log].
    destruct (ds_needs_rearm s); [|apply quiet_ret]. apply (quiet_upd_src w1 ds s1); [done|done|].
    apply core_fields in E1 as (_ & _ & _ & -> & _). done.
Qed.

Lemma merge_all_quiet w l ke :
  (forall x, x ∈ l -> is_Some (sw_src w !! x)) -> good_data ke -> runs_quiet (merge_all l ke) w.
Proof.
  induction l as [|x l IH] in w |- *; intros Hl Hg; simpl; [apply quiet_ret|].
  destruct (Hl x ltac:(set_solver)) as [s Hs]. apply quiet_bind; [by eapply merge_kevent_quiet|].
  intros w1 Q. apply IH; [|done]. intros y Hy. destruct (Hl y ltac:(set_solver)) as [sy Hsy].
  destruct (quiet_src_fwd _ _ _ _ Q Hsy) as (? & -> & _). eauto.
Qed.

(** The kevent [k] and its sources are there. *)
Definition live_dk (w : sworld) (k : Z) (d : dkevent) : Prop :=
  sw_dk w !! k = Some d /\ k <> 0 /\ forall x, x ∈ dk_sources d -> is_Some (sw_src w !! x).

Lemma live_dk_quiet w w' k d : quiet w w' -> live_dk w k d -> exists d', live_dk w' k d' /\ dk_core d' = dk_core d.
Proof.
  intros Q (Hd & Hk & Hl). destruct (quiet_dk_fwd _ _ _ _ Q Hd) as (d' & Hd' & E). exists d'. split; [|done]. split_and!; try done.
  intros x Hx. apply dk_core_fields in E as (_ & _ & _ & _ & E). rewrite E in Hx. destruct (Hl x Hx) as [s Hs].
  destruct (quiet_src_fwd _ _ _ _ Q Hs) as (? & -> & _). eauto.
Qed.

Lemma drain_kevent_quiet w ke d :
  live_dk w (ke_udata ke) d -> good_data ke -> runs_quiet (_dispatch_source_drain_kevent ke) w.
Proof.
  intros Hlive Hg. unfold _dispatch_source_drain_kevent, dispatch_assert. rewrite (proj2 (Z.eqb_neq _ 0)) by apply Hlive.
  apply quiet_bind; [apply quiet_ret|]. intros w0 Q0. destruct (live_dk_quiet _ _ _ _ Q0 Hlive) as (d0 & L0 & _).
  apply quiet_bind.
  - destruct (has _ _); [|apply quiet_ret]. apply (quiet_upd_dk w0 _ d0); [apply L0|done].
  - intros w1 Q1. destruct (live_dk_quiet _ _ _ _ Q1 L0) as (d1 & (Hd1 & _ & Hl1) & _).
    unfold runs_quiet. rewrite (get_dk_bind _ d1) by done. by apply merge_all_quiet.
Qed.

Lemma quiet_sets w f :
  (forall w0, sw_src (f w0) = sw_src w0 /\ sw_dk (f w0) = sw_dk w0 /\ sw_buckets (f w0) = sw_buckets w0 /\
              sw_queue (f w0) = sw_queue w0 /\ sw_log (f w0) = sw_log w0) -> quiet w (f w).
Proof.
  intros Hf. destruct (Hf w) as (E1 & E2 & E3 & E4 & E5).
  split; [split; by rewrite ?E1, ?E2, ?E3|done|rewrite E5|by rewrite E1]. exists []. by rewrite app_nil_r.
Qed.

(** What the library relies on: the reply is about the change that was asked for, and its data, an error number, is not
    negative.  The flags can be anything. *)
Definition kernel_ok (kq : kernel) : Prop :=
  forall asked ke r, kq asked ke = Some r -> ke_udata r = ke_udata ke /\ 0 <= ke_data r.

Lemma reply_good r : 0 <= ke_data r -> good_data r.
Proof.
  unfold good_data, merge_fake. intros Hr ke'. destruct (has _ _); [|by intros [= <-]].
  destruct (_ && _); [|done]. by intros [= <-].
Qed.

Section replies.
Context (kq : kernel) (Hkq : kernel_ok kq).

(** Telling the kernel, whatever it replies. *)
Lemma update_kq_quiet w ke d :
  live_dk w (ke_udata ke) d -> runs_quiet (_dispatch_update_kq kq ke) w.
Proof.
  intros Hlive. unfold _dispatch_update_kq. set (kc := set_ke_flags _ ke).
  assert (exists b w1, update_kq_delete kc w = Ret b w1 /\ quiet w w1) as (b & w1 & Hdel & Q1).
  { unfold update_kq_delete. destruct (has _ _); [|by eexists _, _]. rewrite (bind_step get _ w w w) by done.
    destruct (_ && _); [eexists _, _; split; [done|]; by apply (quiet_sets w (set_rset _ _ _))|].
    destruct (_ && _); [eexists _, _; split; [done|]; by apply (quiet_sets w (set_wset _ _ _))|by eexists _, _]. }
  unfold runs_quiet. erewrite bind_step by exact Hdel. destruct b; [by eexists _|].
  rewrite gets_bind. destruct (quiet_log w1 (EvKevent kc) I) as (w2 & Hlog & Q2). erewrite bind_step by exact Hlog.
  assert (quiet w w2) as Q by (by trans w1). destruct (kq _ kc) as [kr|] eqn:Hr; [|by exists w2].
  apply Hkq in Hr as [Hu Hdata]. change (ke_udata kc) with (ke_udata ke) in Hu. rewrite <- Hu in Hlive.
  destruct (negb _); [by exists w2|]. destruct (_ || _); [by exists w2|].
  destruct (ke_filter _ =? EVFILT_READ).
  { rewrite (bind_step get _ w2 w2 w2) by done. eexists. split; [done|]. trans w2; [done|].
    by apply (quiet_sets w2 (set_rset _ _ _)). }
  destruct (ke_filter _ =? EVFILT_WRITE).
  { rewrite (bind_step get _ w2 w2 w2) by done. eexists. split; [done|]. trans w2; [done|].
    by apply (quiet_sets w2 (set_wset _ _ _)). }
  destruct (live_dk_quiet _ _ _ _ Q Hlive) as (d2 & L2 & _).
  destruct (drain_kevent_quiet w2 kr d2) as (w3 & H3 & Q3); [done|by apply reply_good|].
  exists w3. split; [exact H3|by trans w2].
Qed.

Lemma kevent_resume_quiet w k d :
  live_dk w k d -> ke_udata (dk_kevent d) = k -> runs_quiet (_dispatch_kevent_resume kq k) w.
Proof.
  intros Hl Hu. unfold _dispatch_kevent_resume, runs_quiet. rewrite (get_dk_bind _ d) by apply Hl.
  destruct (custom_filter _); [apply quiet_ret|]. destruct (_ && _); [apply quiet_ret|].
  apply quiet_bind; [apply (update_kq_quiet w _ d); by rewrite Hu|]. intros w1 Q1.
  destruct (live_dk_quiet _ _ _ _ Q1 Hl) as (d1 & L1 & _). unfold runs_quiet. rewrite (get_dk_bind _ d1) by apply L1.
  destruct (has _ _); [|apply quiet_ret]. apply (quiet_put_dk w1 k d1); [apply L1|done].
Qed.

End replies.

(** ** The invariant *)

Definition dk_key (d : dkevent) : Z * Z := (ke_ident (dk_kevent d), ke_filter (dk_kevent d)).
Definition key_hash (key : Z * Z) : Z := _dispatch_kevent_hash key.1 key.2.

(** The kevent [k] is in the table. *)
Definition listed (w : sworld) (k : Z) : Prop := exists h, k ∈ bucket h w.

Definition mask_of (w : sworld) (x : Z) : Z :=
  match sw_src w !! x with Some s => u32 (ds_pending_data_mask s) | None => 0 end.
(** The flags that the sources of a list ask for. *)
Definition masks (w : sworld) (l : list Z) : Z := foldr (fun x m => Z.lor (mask_of w x) m) 0 l.

Record table_ok (w : sworld) : Prop := {
  g_bucket : forall h k, k ∈ bucket h w -> exists d, sw_dk w !! k = Some d /\ key_hash (dk_key d) = h;
  g_bucket_nodup : forall h, NoDup (bucket h w);
  (* one kevent for each handle and filter *)
  g_unique : forall k k' d d', listed w k -> listed w k' -> sw_dk w !! k = Some d -> sw_dk w !! k' = Some d' ->
               dk_key d = dk_key d' -> k = k';
  g_dk : forall k d, sw_dk w !! k = Some d -> k <> 0 /\ ke_udata (dk_kevent d) = k /\ NoDup (dk_sources d)
}.

(** Sources and kevents point to each other. *)
Record links_ok (w : sworld) : Prop := {
  g_sources : forall k d x, sw_dk w !! k = Some d -> x ∈ dk_sources d ->
                exists s, sw_src w !! x = Some s /\ ds_dkev s = k /\ ds_is_installed s = true;
  g_installed : forall x s, sw_src w !! x = Some s -> ds_is_installed s = true -> ds_dkev s <> 0 ->
                  exists d, sw_dk w !! ds_dkev s = Some d /\ x ∈ dk_sources d /\ listed w (ds_dkev s);
  (* the flags asked of the kernel are those of the sources *)
  g_masks : forall k d, listed w k -> sw_dk w !! k = Some d -> custom_filter (ke_filter (dk_kevent d)) = false ->
              ke_fflags (dk_kevent d) = masks w (dk_sources d);
  (* a source that is not installed has a kevent of its own *)
  g_own : forall x s, sw_src w !! x = Some s -> ds_is_installed s = false ->
            exists d, sw_dk w !! ds_dkev s = Some d /\ dk_sources d = [] /\ ~ listed w (ds_dkev s) /\
              ke_fflags (dk_kevent d) = u32 (ds_pending_data_mask s);
  g_own_inj : forall x y s s', sw_src w !! x = Some s -> sw_src w !! y = Some s' -> ds_is_installed s = false ->
                ds_is_installed s' = false -> ds_dkev s = ds_dkev s' -> x = y
}.

Record graph_ok (w : sworld) : Prop := { g_table :> table_ok w; g_links :> links_ok w }.

(** What the invariant says of a source; the mask counts while the source has a kevent. *)
Definition link (s : source) : Z * bool * Z :=
  (ds_dkev s, ds_is_installed s, if ds_dkev s =? 0 then 0 else u32 (ds_pending_data_mask s)).

Lemma core_link w w' : same_core w w' -> link <$> sw_src w' = link <$> sw_src w.
Proof.
  intros Q. apply map_eq. intros x. rewrite !lookup_fmap. destruct (sw_src w !! x) as [s|] eqn:Hs.
  - destruct (quiet_src_fwd _ _ _ _ Q Hs) as (s' & -> & E). apply core_fields in E as (E1 & E2 & E3 & _).
    simpl. unfold link. by rewrite E1, E2, E3.
  - destruct (sw_src w' !! x) as [s'|] eqn:Hs'; [|done].
    destruct (fmap_fwd core _ _ _ _ (eq_sym (q_src _ _ Q)) Hs') as (? & ? & _). congruence.
Qed.

Lemma masks_ext w w' l : (forall x, x ∈ l -> mask_of w' x = mask_of w x) -> masks w' l = masks w l.
Proof.
  induction l as [|x l IH]; intros Hl; simpl; [done|]. rewrite Hl by set_solver. f_equal. apply IH. set_solver.
Qed.

(** The invariant looks only at the links of the sources, and not at the flags of the kevents. *)
Section same_links.
Context (w w' : sworld) (QS : link <$> sw_src w' = link <$> sw_src w).
Context (QD : dk_core <$> sw_dk w' = dk_core <$> sw_dk w) (EB : sw_buckets w' = sw_buckets w) (G : graph_ok w).

Lemma links_bucket h : bucket h w' = bucket h w.
Proof. unfold bucket. by rewrite EB. Qed.
Lemma links_listed k : listed w' k <-> listed w k.
Proof. unfold listed. by setoid_rewrite links_bucket. Qed.
Lemma links_mask x s : sw_src w !! x = Some s -> ds_dkev s <> 0 -> mask_of w' x = mask_of w x.
Proof.
  intros Hs Hn. unfold mask_of. destruct (fmap_fwd _ _ _ _ _ QS Hs) as (s' & -> & [= E1 _ E3]). rewrite Hs.
  rewrite E1, (proj2 (Z.eqb_neq _ 0)) in E3 by done. done.
Qed.
Lemma links_src x s : sw_src w' !! x = Some s -> exists s0, sw_src w !! x = Some s0 /\ link s0 = link s.
Proof. by apply fmap_fwd. Qed.
Lemma links_dk k d : sw_dk w' !! k = Some d -> exists d0, sw_dk w !! k = Some d0 /\ dk_core d0 = dk_core d.
Proof. by apply fmap_fwd. Qed.

Lemma same_links_table : table_ok w'.
Proof.
  split.
  - intros h k Hk. rewrite links_bucket in Hk. destruct (g_bucket _ G _ _ Hk) as (d & Hd & Hh).
    destruct (fmap_fwd _ _ _ _ _ QD Hd) as (d' & Hd' & E). exists d'. split; [done|].
    unfold dk_key. by apply dk_core_fields in E as (-> & -> & _).
  - intros h. rewrite links_bucket. apply G.
  - intros k k' d d' Hk Hk' Hd Hd' Hkey. rewrite links_listed in Hk, Hk'.
    destruct (links_dk _ _ Hd) as (d0 & Hd0 & E). destruct (links_dk _ _ Hd') as (d0' & Hd0' & E').
    eapply (g_unique _ G); [done..|]. unfold dk_key in *.
    apply dk_core_fields in E as (-> & -> & _), E' as (-> & -> & _). done.
  - intros k d Hd. destruct (links_dk _ _ Hd) as (d0 & Hd0 & E). apply dk_core_fields in E as (_ & _ & _ & <- & <-).
    by apply (g_dk _ G).
Qed.

Lemma same_links_links : links_ok w'.
Proof.
  split.
  - intros k d x Hd Hx. destruct (links_dk _ _ Hd) as (d0 & Hd0 & E).
    apply dk_core_fields in E as (_ & _ & _ & _ & E). rewrite <- E in Hx.
    destruct (g_sources _ G _ _ _ Hd0 Hx) as (s & Hs & H1 & H2). destruct (fmap_fwd _ _ _ _ _ QS Hs) as (s' & Hs' & [= E1 E2 _]).
    exists s'. by rewrite E1, E2.
  - intros x s Hs. destruct (links_src _ _ Hs) as (s0 & Hs0 & [= <- <- _]).
    intros Hin Hnz. destruct (g_installed _ G _ _ Hs0 Hin Hnz) as (d & Hd & Hx & Hl).
    destruct (fmap_fwd _ _ _ _ _ QD Hd) as (d' & Hd' & E). exists d'. apply dk_core_fields in E as (_ & _ & _ & _ & ->).
    by rewrite links_listed.
  - intros k d Hk Hd. rewrite links_listed in Hk. destruct (links_dk _ _ Hd) as (d0 & Hd0 & E).
    apply dk_core_fields in E as (_ & <- & <- & _ & <-). rewrite (masks_ext w w'); [by apply (g_masks _ G k d0)|].
    intros x Hx. destruct (g_sources _ G _ _ _ Hd0 Hx) as (s & Hs & Es & _). apply (links_mask x s Hs). rewrite Es.
    by apply (g_dk _ G _ _ Hd0).
  - intros x s Hs. destruct (links_src _ _ Hs) as (s0 & Hs0 & [= E1 <- E3]). rewrite <- E1 in *.
    intros Hin. destruct (g_own _ G _ _ Hs0 Hin) as (d & Hd & Hx & Hl & Hm).
    rewrite (proj2 (Z.eqb_neq (ds_dkev s0) 0)) in E3 by (by apply (g_dk _ G _ _ Hd)). rewrite E3 in Hm.
    destruct (fmap_fwd _ _ _ _ _ QD Hd) as (d' & Hd' & E). exists d'. apply dk_core_fields in E as (_ & _ & -> & _ & ->).
    by rewrite links_listed.
  - intros x y s s' Hs Hs'. destruct (links_src _ _ Hs) as (s0 & Hs0 & [= <- <- _]).
    destruct (links_src _ _ Hs') as (s0' & Hs0' & [= <- <- _]). by apply (g_own_inj _ G).
Qed.

Lemma graph_ok_same_links : graph_ok w'.
Proof. split; [apply same_links_table|apply same_links_links]. Qed.
End same_links.

Lemma graph_ok_core w w' : same_core w w' -> graph_ok w -> graph_ok w'.
Proof. intros Q. apply graph_ok_same_links; [by apply core_link|apply Q..]. Qed.

(** An update of a source that leaves its links alone. *)
Lemma graph_ok_update w ds s s' :
  graph_ok w -> sw_src w !! ds = Some s -> link s' = link s -> graph_ok (set_src (insert ds s') w).
Proof. intros G Hs Hl. apply (graph_ok_same_links w); try done. by eapply insert_fmap_id. Qed.

Lemma graph_live w k d : graph_ok w -> sw_dk w !! k = Some d -> live_dk w k d.
Proof.
  intros G Hd. split_and!; [done|by apply (g_dk _ G _ d)|]. intros x Hx.
  destruct (g_sources _ G _ _ _ Hd Hx) as (s & -> & _). eauto.
Qed.

(** ** Search in the table *)

Lemma find_in_run w l i f :
  (forall k, k ∈ l -> is_Some (sw_dk w !! k)) -> 0 ∉ l ->
  exists r, find_in l i f w = Ret r w /\
    ((r = 0 /\ forall k d, k ∈ l -> sw_dk w !! k = Some d -> dk_key d <> (i, f)) \/
     (r ∈ l /\ exists d, sw_dk w !! r = Some d /\ dk_key d = (i, f))).
Proof.
  induction l as [|k l IH]; intros Hl H0; simpl.
  { exists 0. split; [done|]. left. split; [done|]. set_solver. }
  destruct (Hl k ltac:(set_solver)) as [d Hd]. rewrite (get_dk_bind _ d) by done.
  destruct (Z.eqb_spec (ke_ident (dk_kevent d)) i) as [Ei|Ei], (Z.eqb_spec (ke_filter (dk_kevent d)) f) as [Ef|Ef]; simpl.
  { exists k. split; [done|]. right. split; [set_solver|]. exists d. by rewrite <- Ei, <- Ef. }
  all: destruct IH as (r & Hr & [[-> Hn]|[Hr1 Hr2]]); [set_solver..| |]; rewrite Hr; eexists; (split; [done|]);
    [left; split; [done|]; intros k' d' Hk' Hd'; apply elem_of_cons in Hk' as [->|Hk'];
      [rewrite Hd in Hd'; injection Hd' as <-; unfold dk_key; congruence|by eapply Hn]
    |right; split; [set_solver|done]].
Qed.

(** The search finds the kevent with the handle and the filter exactly when the table has it. *)
Lemma kevent_find_run w i f :
  graph_ok w ->
  exists r, _dispatch_kevent_find i f w = Ret r w /\
    ((r = 0 /\ forall k d, listed w k -> sw_dk w !! k = Some d -> dk_key d <> (i, f)) \/
     (r <> 0 /\ listed w r /\ exists d, sw_dk w !! r = Some d /\ dk_key d = (i, f))).
Proof.
  intros G. unfold _dispatch_kevent_find. rewrite gets_bind. set (h := _dispatch_kevent_hash i f).
  destruct (find_in_run w (bucket h w) i f) as (r & Hr & Hcase).
  - intros k Hk. destruct (g_bucket _ G _ _ Hk) as (d & -> & _). eauto.
  - intros H0. destruct (g_bucket _ G _ _ H0) as (d & Hd & _). by apply (g_dk _ G) in Hd as [? _].
  - exists r. split; [done|]. destruct Hcase as [[-> Hn]|(Hin & d & Hd & Hk)]; [left|right].
    + split; [done|]. intros k d (h' & Hk) Hd Hkey. destruct (g_bucket _ G _ _ Hk) as (d' & Hd' & Hh).
      rewrite Hd in Hd'. injection Hd' as <-. rewrite Hkey in Hh. apply (Hn k d); try done. by rewrite <- Hh in Hk.
    + split; [by apply (g_dk _ G) in Hd as [? _]|]. split; [by exists h|by exists d].
Qed.

Lemma mask_of_insert w w' ds s :
  sw_src w' = <[ds:=s]> (sw_src w) -> forall x, mask_of w' x = if decide (x = ds) then u32 (ds_pending_data_mask s) else mask_of w x.
Proof.
  intros E x. unfold mask_of. rewrite E. case_decide; subst; [by rewrite lookup_insert_eq|by rewrite lookup_insert_ne].
Qed.
Lemma masks_app w l x : masks w (l ++ [x]) = Z.lor (masks w l) (mask_of w x).
Proof.
  induction l as [|y l IH]; simpl; [by rewrite Z.lor_0_r|]. rewrite IH. apply Z.lor_assoc.
Qed.

(** ** Installation keeps the invariant *)

Section install.
Context (w : sworld) (G : graph_ok w) (ds : Z) (s : source) (own : dkevent).
Context (Hs : sw_src w !! ds = Some s) (Hin : ds_is_installed s = false).
Context (Hown : sw_dk w !! ds_dkev s = Some own).

Let s' dk := set_ds_dkev dk (set_ds_state true (ds_needs_rearm s) (ds_is_armed s) s).

Lemma own_facts :
  dk_sources own = [] /\ ~ listed w (ds_dkev s) /\ ke_fflags (dk_kevent own) = u32 (ds_pending_data_mask s).
Proof. destruct (g_own _ G _ _ Hs Hin) as (d & Hd & ?). rewrite Hown in Hd. by injection Hd as <-. Qed.

(** The source is on no list. *)
Lemma uninstalled_nowhere k d : sw_dk w !! k = Some d -> ds ∉ dk_sources d.
Proof.
  intros Hd Hx. destruct (g_sources _ G _ _ _ Hd Hx) as (s0 & Hs0 & _ & Hi). rewrite Hs in Hs0. injection Hs0 as <-. congruence.
Qed.

(** On a kevent [k] that was there already, with the flags of both. *)
Section shared.
Context (k : Z) (d : dkevent) (w2 : sworld).
Context (Hk : listed w k) (Hd : sw_dk w !! k = Some d) (Hkey : dk_key d = dk_key own).
Let d2 := Dkevent (set_ke_fflags (Z.lor (ke_fflags (dk_kevent d)) (ke_fflags (dk_kevent own))) (dk_kevent d))
            (dk_sources d ++ [ds]).
Context (Es : sw_src w2 = <[ds:=s' k]> (sw_src w)) (Eb : sw_buckets w2 = sw_buckets w).
Context (Ed : sw_dk w2 = <[k:=d2]> (delete (ds_dkev s) (sw_dk w))).

Lemma shared_listed j : listed w2 j <-> listed w j.
Proof. unfold listed, bucket. by rewrite Eb. Qed.
Lemma shared_at : sw_dk w2 !! k = Some d2.
Proof. rewrite Ed. apply lookup_insert_eq. Qed.
Lemma shared_other j dj : j <> k -> sw_dk w2 !! j = Some dj <-> j <> ds_dkev s /\ sw_dk w !! j = Some dj.
Proof. intros Hjk. rewrite Ed, lookup_insert_ne, lookup_delete_Some by done. naive_solver. Qed.
Lemma shared_back j dj :
  sw_dk w2 !! j = Some dj -> exists d0, sw_dk w !! j = Some d0 /\ dk_key dj = dk_key d0 /\
    ke_udata (dk_kevent dj) = ke_udata (dk_kevent d0) /\ dk_sources dj = (if decide (j = k) then dk_sources d0 ++ [ds] else dk_sources d0).
Proof.
  intros Hdj. case_decide as Hjk; [|apply shared_other in Hdj as [_ Hdj]; eauto]. subst j.
  exists d. rewrite shared_at in Hdj. by injection Hdj as <-.
Qed.

Lemma shared_table : table_ok w2.
Proof.
  destruct own_facts as (_ & Ho2 & _). assert (forall h, bucket h w2 = bucket h w) as Eb' by (intros; unfold bucket; by rewrite Eb).
  split.
  - intros h j Hjb. rewrite Eb' in Hjb. destruct (g_bucket _ G _ _ Hjb) as (dj & Hdj & Hh).
    destruct (decide (j = k)) as [->|Hjk]; [exists d2; split; [apply shared_at|]; rewrite Hd in Hdj; by injection Hdj as <-|].
    exists dj. split; [|done]. apply shared_other; [done|]. split; [|done]. intros ->. apply Ho2. by exists h.
  - intros h. rewrite Eb'. apply G.
  - intros j j' dj dj' Lj Lj' Hdj Hdj' Hkk. rewrite shared_listed in Lj, Lj'.
    destruct (shared_back _ _ Hdj) as (e & He & Ke & _), (shared_back _ _ Hdj') as (e' & He' & Ke' & _).
    eapply (g_unique _ G j j'); [done..|]. congruence.
  - intros j dj Hdj. destruct (shared_back _ _ Hdj) as (e & He & _ & Ue & ->). destruct (g_dk _ G _ _ He) as (J1 & J2 & J3).
    split_and!; [done|congruence|]. case_decide; [|done]. apply NoDup_app. split_and!; [done| |apply NoDup_singleton].
    intros x Hx ->%list_elem_of_singleton. by eapply uninstalled_nowhere.
Qed.

Lemma shared_masks j dj :
  listed w2 j -> sw_dk w2 !! j = Some dj -> custom_filter (ke_filter (dk_kevent dj)) = false ->
  ke_fflags (dk_kevent dj) = masks w2 (dk_sources dj).
Proof.
  intros Lj Hdj Hc. rewrite shared_listed in Lj. destruct own_facts as (_ & _ & Ho3).
  assert (forall l, ds ∉ l -> masks w2 l = masks w l) as Hm.
  { intros l Hl. apply masks_ext. intros x Hx. rewrite (mask_of_insert w w2 ds _ Es). rewrite decide_False; [done|set_solver]. }
  destruct (decide (j = k)) as [->|Hjk].
  - rewrite shared_at in Hdj. injection Hdj as <-. simpl. rewrite masks_app, Hm by (by eapply uninstalled_nowhere).
    simpl in Hc. rewrite (g_masks _ G k d Hk Hd Hc), Ho3, (mask_of_insert w w2 ds _ Es). by rewrite decide_True.
  - apply shared_other in Hdj as [_ Hdj]; [|done]. rewrite Hm by (by eapply uninstalled_nowhere). by apply (g_masks _ G j dj).
Qed.

Lemma shared_links : links_ok w2.
Proof.
  destruct own_facts as (_ & Ho2 & _). split; [| |exact shared_masks|..].
  - intros j dj x Hdj Hx. destruct (shared_back _ _ Hdj) as (e & He & _ & _ & E). rewrite E in Hx. rewrite Es.
    destruct (decide (x = ds)) as [->|Hxd].
    + rewrite lookup_insert_eq. case_decide as Hjk; [subst; eexists; by split|]. by destruct (uninstalled_nowhere _ _ He).
    + rewrite lookup_insert_ne by done. apply (g_sources _ G j e); [done|]. case_decide; set_solver.
  - intros x sx. rewrite Es. destruct (decide (x = ds)) as [->|Hxd].
    { rewrite lookup_insert_eq. intros [= <-] _ _. exists d2. simpl. rewrite shared_at, shared_listed. split_and!; [done|set_solver|done]. }
    rewrite lookup_insert_ne by done. intros Hx Hi Hnz. destruct (g_installed _ G _ _ Hx Hi Hnz) as (e & He & Hxe & Le).
    destruct (decide (ds_dkev sx = k)) as [Ek|Hjk].
    + exists d2. rewrite shared_listed, Ek in *. split_and!; [apply shared_at| |done]. simpl. rewrite Hd in He. injection He as <-. set_solver.
    + exists e. rewrite shared_listed. split_and!; [|done..]. apply shared_other; [done|]. split; [|done]. intros E. by rewrite E in Le.
  - intros x sx. rewrite Es. destruct (decide (x = ds)) as [->|Hxd]; [rewrite lookup_insert_eq; by intros [= <-]|].
    rewrite lookup_insert_ne by done. intros Hx Hi. destruct (g_own _ G _ _ Hx Hi) as (e & He & E1 & E2 & E3).
    exists e. rewrite shared_listed. split_and!; [|done..]. apply shared_other; [intros E; by rewrite E in E2|]. split; [|done].
    intros E. apply Hxd. by apply (g_own_inj _ G x ds sx s).
  - intros x y sx sy. rewrite Es. destruct (decide (x = ds)) as [->|Hxd]; [rewrite lookup_insert_eq; by intros [= <-]|].
    destruct (decide (y = ds)) as [->|Hyd]; [rewrite lookup_insert_eq; by intros ? [= <-]|].
    rewrite !lookup_insert_ne by done. apply (g_own_inj _ G x y sx sy).
Qed.

Lemma install_shared : graph_ok w2.
Proof. split; [apply shared_table|apply shared_links]. Qed.
End shared.

(** On its own kevent, which enters the table. *)
Section inserted.
Context (w2 : sworld).
Context (Hnew : forall k d, listed w k -> sw_dk w !! k = Some d -> dk_key d <> dk_key own).
Let k := ds_dkev s.
Let d2 := Dkevent (dk_kevent own) [ds].
Let h := key_hash (dk_key own).
Context (Es : sw_src w2 = <[ds:=s' k]> (sw_src w)).
Context (Eb : sw_buckets w2 = <[h:=bucket h w ++ [k]]> (sw_buckets w)).
Context (Ed : sw_dk w2 = <[k:=d2]> (sw_dk w)).

Lemma inserted_bucket j x : x ∈ bucket j w2 <-> x ∈ bucket j w \/ (j = h /\ x = k).
Proof.
  unfold bucket. rewrite Eb. destruct (decide (j = h)) as [->|Hj].
  - rewrite lookup_insert_eq. simpl. rewrite elem_of_app, list_elem_of_singleton. naive_solver.
  - rewrite lookup_insert_ne by done. naive_solver.
Qed.
Lemma inserted_listed j : listed w2 j <-> listed w j \/ j = k.
Proof. unfold listed. setoid_rewrite inserted_bucket. naive_solver. Qed.
Lemma inserted_at : sw_dk w2 !! k = Some d2.
Proof. rewrite Ed. apply lookup_insert_eq. Qed.
Lemma inserted_other j : j <> k -> sw_dk w2 !! j = sw_dk w !! j.
Proof. intros Hj. by rewrite Ed, lookup_insert_ne. Qed.

Lemma inserted_table : table_ok w2.
Proof.
  destruct own_facts as (_ & Ho2 & _). fold k in Ho2. split.
  - intros j x Hx. apply inserted_bucket in Hx as [Hx|[-> ->]]; [|by exists d2; rewrite inserted_at].
    rewrite inserted_other; [by apply (g_bucket _ G)|]. intros ->. apply Ho2. by exists j.
  - intros j. unfold bucket. rewrite Eb. destruct (decide (j = h)) as [->|Hj]; [rewrite lookup_insert_eq|rewrite lookup_insert_ne by done; apply G].
    simpl. apply NoDup_app. split_and!; [apply G| |apply NoDup_singleton].
    intros x Hx ->%list_elem_of_singleton. apply Ho2. by exists h.
  - intros j j' dj dj' Lj Lj' Hdj Hdj' Hkk. apply inserted_listed in Lj as [Lj|Lj], Lj' as [Lj'|Lj']; [| | |by subst].
    + rewrite inserted_other in Hdj, Hdj' by (intros ->; done). by eapply (g_unique _ G).
    + subst j'. rewrite inserted_at in Hdj'. injection Hdj' as <-. rewrite inserted_other in Hdj by (intros ->; done).
      by destruct (Hnew j dj).
    + subst j. rewrite inserted_at in Hdj. injection Hdj as <-. rewrite inserted_other in Hdj' by (intros ->; done).
      by destruct (Hnew j' dj').
  - intros j dj Hdj. destruct (decide (j = k)) as [->|Hj]; [|rewrite inserted_other in Hdj by done; by apply (g_dk _ G)].
    rewrite inserted_at in Hdj. injection Hdj as <-. destruct (g_dk _ G _ _ Hown) as (? & ? & _). split_and!; [done..|].
    apply NoDup_singleton.
Qed.

Lemma inserted_links : links_ok w2.
Proof.
  destruct own_facts as (Ho1 & Ho2 & Ho3). fold k in Ho2. split.
  - intros j dj x Hdj Hx. rewrite Es. destruct (decide (j = k)) as [->|Hj].
    + rewrite inserted_at in Hdj. injection Hdj as <-. apply list_elem_of_singleton in Hx as ->. rewrite lookup_insert_eq. eexists. by split.
    + rewrite inserted_other in Hdj by done. rewrite lookup_insert_ne; [by apply (g_sources _ G j dj)|].
      intros <-. by apply (uninstalled_nowhere _ _ Hdj).
  - intros x sx. rewrite Es. destruct (decide (x = ds)) as [->|Hxd].
    { rewrite lookup_insert_eq. intros [= <-] _ _. exists d2. simpl. rewrite inserted_at, inserted_listed. split_and!; [done|set_solver|by right]. }
    rewrite lookup_insert_ne by done. intros Hx Hi Hnz. destruct (g_installed _ G _ _ Hx Hi Hnz) as (e & He & Hxe & Le).
    exists e. rewrite inserted_listed, inserted_other; [naive_solver|]. intros E. by rewrite E in Le.
  - intros j dj Lj Hdj Hc. destruct (decide (j = k)) as [->|Hj].
    + rewrite inserted_at in Hdj. injection Hdj as <-. simpl. rewrite Z.lor_0_r, Ho3, (mask_of_insert w w2 ds _ Es). by rewrite decide_True.
    + rewrite inserted_other in Hdj by done. apply inserted_listed in Lj as [Lj|]; [|done]. rewrite (g_masks _ G j dj Lj Hdj Hc).
      symmetry. apply masks_ext. intros x Hx. rewrite (mask_of_insert w w2 ds _ Es), decide_False; [done|].
      intros ->. by apply (uninstalled_nowhere _ _ Hdj).
  - intros x sx. rewrite Es. destruct (decide (x = ds)) as [->|Hxd]; [rewrite lookup_insert_eq; by intros [= <-]|].
    rewrite lookup_insert_ne by done. intros Hx Hi. destruct (g_own _ G _ _ Hx Hi) as (e & He & E1 & E2 & E3).
    assert (ds_dkev sx <> k) as Hne by (intros E; apply Hxd; by apply (g_own_inj _ G x ds sx s)).
    exists e. rewrite inserted_listed, inserted_other by done. naive_solver.
  - intros x y sx sy. rewrite Es. destruct (decide (x = ds)) as [->|Hxd]; [rewrite lookup_insert_eq; by intros [= <-]|].
    destruct (decide (y = ds)) as [->|Hyd]; [rewrite lookup_insert_eq; by intros ? [= <-]|].
    rewrite !lookup_insert_ne by done. apply (g_own_inj _ G x y sx sy).
Qed.

Lemma install_inserted : graph_ok w2.
Proof. split; [apply inserted_table|apply inserted_links]. Qed.
End inserted.
End install.

(** ** Installing a source *)

Lemma find_in_src w l i f r g : find_in l i f w = Ret r w -> find_in l i f (set_src g w) = Ret r (set_src g w).
Proof.
  induction l as [|k l IH]; simpl; [by intros [= <-]|]. unfold get_dk, mbind, M_bind. simpl.
  destruct (sw_dk w !! k); [|done]. destruct (_ && _); [by intros [= <-]|done].
Qed.
Lemma find_src w i f r g :
  _dispatch_kevent_find i f w = Ret r w -> _dispatch_kevent_find i f (set_src g w) = Ret r (set_src g w).
Proof. apply find_in_src. Qed.

(** The installation of a source whose handle and filter are new. *)
Lemma kevent_merge_new kq w ds s own :
  sw_src w !! ds = Some s -> ds_is_installed s = false -> sw_dk w !! ds_dkev s = Some own -> dk_sources own = [] ->
  _dispatch_kevent_find (ke_ident (dk_kevent own)) (ke_filter (dk_kevent own)) w = Ret 0 w ->
  let k := ds_dkev s in
  let s2 := set_ds_dkev k (set_ds_state true (ds_needs_rearm s) (ds_is_armed s) s) in
  let h := key_hash (dk_key own) in
  let w2 := set_src (insert ds s2) (set_dk (insert k (Dkevent (dk_kevent own) [ds]))
              (set_buckets (insert h (bucket h w ++ [k])) w)) in
  _dispatch_kevent_merge kq ds w =
    (upd_dk k (fun d => set_dk_kevent (set_ke_flags (Z.lor (ke_flags (dk_kevent d)) EV_ADD) (dk_kevent d)) d);;
     _dispatch_source_kevent_resume kq ds;; upd_src ds (set_ds_armed true)) w2.
Proof.
  intros Hs Hin Hown Hsrc Hfind k s2 h w2.
  unfold _dispatch_kevent_merge. rewrite (get_src_bind _ s), Hin, put_src_bind by done.
  rewrite (get_dk_bind _ own) by done. erewrite bind_step by (apply find_src; exact Hfind).
  simpl negb. cbv iota. rewrite bind_assoc. unfold _dispatch_kevent_insert. rewrite bind_assoc, (get_dk_bind _ own) by done.
  rewrite modify_bind, ret_bind. erewrite upd_dk_bind by (simpl; exact Hown). rewrite Hsrc.
  replace (set_ds_state true (ds_needs_rearm s) (ds_is_armed s) s) with s2 by (unfold s2, k; by destruct s). done.
Qed.

(** What the installation of [ds] leaves: the source on the kevent of its handle and filter, and no callback. *)
Definition installed_on (w w' : sworld) (ds : Z) (s : source) (own : dkevent) : Prop :=
  exists s' d, sw_src w' !! ds = Some s' /\ ds_is_installed s' = true /\ sw_dk w' !! ds_dkev s' = Some d /\
    dk_key d = dk_key own /\ ds ∈ dk_sources d /\ listed w' (ds_dkev s') /\
    core s' = set_ds_dkev (ds_dkev s') (set_ds_state true (ds_needs_rearm s) false (core s)) /\
    (forall x sx, x <> ds -> sw_src w !! x = Some sx -> exists sx', sw_src w' !! x = Some sx' /\ core sx' = core sx) /\
    sw_queue w' = sw_queue w /\ exists evs, sw_log w' = sw_log w ++ evs /\ Forall quiet_event evs.

(** The registration with the kernel, after the links are made. *)
Lemma install_resume kq w w2 ds s own k s2 d2 :
  kernel_ok kq -> graph_ok w2 -> sw_src w2 = <[ds:=s2]> (sw_src w) ->
  s2 = set_ds_dkev k (set_ds_state true (ds_needs_rearm s) (ds_is_armed s) s) ->
  sw_dk w2 !! k = Some d2 -> dk_key d2 = dk_key own -> ds ∈ dk_sources d2 -> listed w2 k ->
  sw_queue w2 = sw_queue w -> sw_log w2 = sw_log w ->
  exists w', (upd_dk k (fun d => set_dk_kevent (set_ke_flags (Z.lor (ke_flags (dk_kevent d)) EV_ADD) (dk_kevent d)) d);;
       _dispatch_source_kevent_resume kq ds;; upd_src ds (set_ds_armed true)) w2 = Ret tt w' /\
    graph_ok w' /\ installed_on w w' ds s own.
Proof.
  intros Hkq G Es -> Hd Hkey Hin Hl Eq Elog. set (s2 := set_ds_dkev k _) in *.
  assert (sw_src w2 !! ds = Some s2) as Hs2 by (rewrite Es; apply lookup_insert_eq).
  assert (runs_quiet (upd_dk k (fun d => set_dk_kevent (set_ke_flags (Z.lor (ke_flags (dk_kevent d)) EV_ADD) (dk_kevent d)) d);;
    _dispatch_source_kevent_resume kq ds) w2) as (w3 & Hrun & Q).
  { apply quiet_bind; [by apply (quiet_upd_dk w2 k d2)|]. intros w3 Q. pose proof (graph_ok_core _ _ Q G) as G3.
    destruct (quiet_src_fwd _ _ _ _ Q Hs2) as (s3 & Hs3 & E3). destruct (quiet_dk_fwd _ _ _ _ Q Hd) as (d3 & Hd3 & _).
    apply core_fields in E3 as (E3 & _). unfold _dispatch_source_kevent_resume, runs_quiet.
    rewrite (get_src_bind _ s3), E3 by done. apply (kevent_resume_quiet kq Hkq w3 k d3); [by apply graph_live|].
    by apply (g_dk _ G3). }
  destruct (quiet_src_fwd _ _ _ _ Q Hs2) as (s3 & Hs3 & E3). destruct (quiet_dk_fwd _ _ _ _ Q Hd) as (d3 & Hd3 & Ed3).
  pose proof (core_fields _ _ E3) as (Edk & Ein & _). pose proof (dk_core_fields _ _ Ed3) as (Ei & Ef & _ & _ & Eso).
  exists (set_src (insert ds (set_ds_armed true s3)) w3). split; [|split].
  - rewrite <- bind_assoc. erewrite bind_step by exact Hrun. unfold upd_src. by rewrite (get_src_bind _ s3).
  - eapply graph_ok_core; [|exact (graph_ok_core _ _ Q G)]. split; [by eapply insert_fmap_id|done..].
  - exists (set_ds_armed true s3), d3. simpl. rewrite lookup_insert_eq, Edk. split_and!; try done.
    + unfold dk_key in *. congruence.
    + by rewrite Eso.
    + unfold listed, bucket in *. simpl. by rewrite (q_buckets _ _ Q).
    + intros x sx Hx Hsx. rewrite lookup_insert_ne by done. apply (quiet_src_fwd w2 w3 x sx Q). by rewrite Es, lookup_insert_ne.
    + by rewrite (q_queue _ _ Q).
    + destruct (q_log _ _ Q) as (evs & -> & ?). exists evs. by rewrite Elog.
Qed.

Lemma install_run kq w ds s own :
  kernel_ok kq -> graph_ok w -> sw_src w !! ds = Some s -> ds_is_installed s = false -> sw_dk w !! ds_dkev s = Some own ->
  exists w', _dispatch_kevent_merge kq ds w = Ret tt w' /\ graph_ok w' /\ installed_on w w' ds s own.
Proof.
  intros Hkq G Hs Hin Hown. destruct (own_facts w G ds s own Hs Hin Hown) as (Ho1 & Ho2 & Ho3).
  destruct (kevent_find_run w (ke_ident (dk_kevent own)) (ke_filter (dk_kevent own)) G) as
    (k & Hf & [[-> Hn]|(Hk0 & Hk & d & Hd & Hkey)]).
  - rewrite (kevent_merge_new kq w ds s own) by done. set (w2 := set_src _ _).
    eapply (install_resume kq w w2 ds s own (ds_dkev s) _ (Dkevent (dk_kevent own) [ds])); try done.
    + by apply (install_inserted w G ds s own Hs Hin Hown).
    + unfold w2. simpl. by rewrite lookup_insert_eq.
    + set_solver.
    + exists (key_hash (dk_key own)). unfold w2, bucket. simpl. rewrite lookup_insert_eq. set_solver.
  - assert (k <> ds_dkev s) as Hne by (by intros ->).
    pose proof (kevent_merge_found kq w ds s own k d Hs Hin Hown (fun src => find_src _ _ _ _ src Hf) Hk0 Hne Hd) as Hrun.
    cbv zeta in Hrun. rewrite Hrun. set (w2 := set_src _ _).
    assert (graph_ok w2) as G2 by (by apply (install_shared w G ds s own Hs Hin Hown k d)).
    assert (sw_dk w2 !! k = Some (Dkevent (set_ke_fflags (Z.lor (ke_fflags (dk_kevent d)) (ke_fflags (dk_kevent own))) (dk_kevent d))
      (dk_sources d ++ [ds]))) as Hd2 by (unfold w2; simpl; by rewrite lookup_insert_eq).
    destruct (_ =? 0).
    + exists w2. split_and!; [done..|]. eexists _, _. unfold w2 at 1. simpl. rewrite lookup_insert_eq.
      split_and!; try done; [set_solver| |by exists []; rewrite app_nil_r].
      intros x sx Hx Hsx. rewrite lookup_insert_ne by done. eauto.
    + eapply (install_resume kq w w2 ds s own k); try done. set_solver.
Qed.


(** ** Uninstalling a source *)

Lemma masks_lor_in w l x : x ∈ l -> NoDup l -> masks w l = Z.lor (mask_of w x) (masks w (without x l)).
Proof.
  induction l as [|y l IH]; intros Hx Hnd; [set_solver|]. apply NoDup_cons in Hnd as [Hy Hnd].
  destruct (decide (y = x)) as [->|Hne]; [by rewrite remove_at_head|].
  rewrite filter_cons_True by done. simpl. rewrite IH by (done || set_solver).
  rewrite !Z.lor_assoc. f_equal. apply Z.lor_comm.
Qed.

(** The links are undone; [d1] is the kevent afterwards. *)
Section unlink.
Context (w w1 : sworld) (G : graph_ok w) (ds : Z) (s s1 : source) (k : Z) (d d1 : dkevent).
Context (Hs : sw_src w !! ds = Some s) (Hin : ds_is_installed s = true) (Hk : ds_dkev s = k) (Hk0 : k <> 0).
Context (Hd : sw_dk w !! k = Some d).
Context (Hs1 : ds_dkev s1 = 0) (Hin1 : ds_is_installed s1 = true).
Context (Hkey : dk_key d1 = dk_key d) (Hu : ke_udata (dk_kevent d1) = k) (Hl1 : dk_sources d1 = without ds (dk_sources d)).
Context (Hm : custom_filter (ke_filter (dk_kevent d)) = false -> ke_fflags (dk_kevent d1) = masks w (dk_sources d1)).
Context (Es : sw_src w1 = <[ds:=s1]> (sw_src w)) (Ed : sw_dk w1 = <[k:=d1]> (sw_dk w)).
Context (Eb : sw_buckets w1 = sw_buckets w).

Lemma unlink_listed j : listed w1 j <-> listed w j.
Proof. unfold listed, bucket. by rewrite Eb. Qed.
Lemma unlink_back j dj :
  sw_dk w1 !! j = Some dj -> exists e, sw_dk w !! j = Some e /\ dk_key dj = dk_key e /\
    ke_udata (dk_kevent dj) = ke_udata (dk_kevent e) /\ dk_sources dj = without ds (dk_sources e).
Proof.
  rewrite Ed. destruct (decide (j = k)) as [->|Hj].
  - rewrite lookup_insert_eq. intros [= <-]. exists d. split_and!; try done. rewrite Hu. by destruct (g_dk _ G _ _ Hd) as (_ & -> & _).
  - rewrite lookup_insert_ne by done. intros He. exists dj. split_and!; try done. symmetry. apply remove_absent. intros Hx.
    destruct (g_sources _ G _ _ _ He Hx) as (s0 & Hs0 & Ej & _). rewrite Hs in Hs0. injection Hs0 as <-. congruence.
Qed.
Lemma unlink_fwd j e :
  sw_dk w !! j = Some e -> exists dj, sw_dk w1 !! j = Some dj /\ dk_key dj = dk_key e.
Proof.
  intros He. rewrite Ed. destruct (decide (j = k)) as [->|Hj]; [rewrite lookup_insert_eq|rewrite lookup_insert_ne by done; eauto].
  rewrite Hd in He. injection He as <-. eauto.
Qed.

Lemma unlink_table : table_ok w1.
Proof.
  assert (forall h, bucket h w1 = bucket h w) as Eb' by (intros; unfold bucket; by rewrite Eb). split.
  - intros h j Hj. rewrite Eb' in Hj. destruct (g_bucket _ G _ _ Hj) as (e & He & Hh).
    destruct (unlink_fwd _ _ He) as (dj & Hdj & Ek). exists dj. by rewrite Ek.
  - intros h. rewrite Eb'. apply G.
  - intros j j' dj dj' Lj Lj' Hdj Hdj' Hkk. rewrite unlink_listed in Lj, Lj'.
    destruct (unlink_back _ _ Hdj) as (e & He & Ke & _), (unlink_back _ _ Hdj') as (e' & He' & Ke' & _).
    eapply (g_unique _ G j j'); [done..|]. congruence.
  - intros j dj Hdj. destruct (unlink_back _ _ Hdj) as (e & He & _ & -> & ->). destruct (g_dk _ G _ _ He) as (? & ? & ?).
    split_and!; [done..|by apply NoDup_filter].
Qed.

Lemma unlink_links : links_ok w1.
Proof.
  assert (forall l, masks w1 (without ds l) = masks w (without ds l)) as Hmw.
  { intros l. apply masks_ext. intros x [Hx _]%list_elem_of_filter. rewrite (mask_of_insert w w1 ds _ Es). by rewrite decide_False. }
  split.
  - intros j dj x Hdj Hx. destruct (unlink_back _ _ Hdj) as (e & He & _ & _ & E). rewrite E in Hx.
    apply list_elem_of_filter in Hx as [Hne Hx]. rewrite Es, lookup_insert_ne by done. by apply (g_sources _ G j e).
  - intros x sx. rewrite Es. destruct (decide (x = ds)) as [->|Hxd]; [rewrite lookup_insert_eq; intros [= <-]; by rewrite Hs1|].
    rewrite lookup_insert_ne by done. intros Hx Hi Hnz. destruct (g_installed _ G _ _ Hx Hi Hnz) as (e & He & Hxe & Le).
    destruct (unlink_fwd _ _ He) as (dj & Hdj & _). exists dj. rewrite unlink_listed. split_and!; [done| |done].
    destruct (unlink_back _ _ Hdj) as (e' & He' & _ & _ & ->). rewrite He in He'. injection He' as <-. by apply list_elem_of_filter.
  - intros j dj Lj Hdj Hc. rewrite unlink_listed in Lj. destruct (unlink_back _ _ Hdj) as (e & He & Ke & _ & El).
    rewrite El, Hmw. destruct (decide (j = k)) as [->|Hj].
    + rewrite Ed, lookup_insert_eq in Hdj. injection Hdj as <-. rewrite Hd in He. injection He as <-. rewrite Hm, Hl1; [done|].
      unfold dk_key in Ke. congruence.
    + rewrite Ed, lookup_insert_ne in Hdj by done. rewrite Hdj in He. injection He as <-. rewrite <- El. by apply (g_masks _ G j dj).
  - intros x sx. rewrite Es. destruct (decide (x = ds)) as [->|Hxd]; [rewrite lookup_insert_eq; intros [= <-]; by rewrite Hin1|].
    rewrite lookup_insert_ne by done. intros Hx Hi. destruct (g_own _ G _ _ Hx Hi) as (e & He & E1 & E2 & E3).
    exists e. rewrite unlink_listed, Ed, lookup_insert_ne; [done|]. intros E. apply E2. rewrite <- E, <- Hk.
    destruct (g_installed _ G _ _ Hs Hin) as (? & _ & _ & ?); [congruence|done].
  - intros x y sx sy. rewrite Es. destruct (decide (x = ds)) as [->|Hxd]; [rewrite lookup_insert_eq; intros [= <-]; by rewrite Hin1|].
    destruct (decide (y = ds)) as [->|Hyd]; [rewrite lookup_insert_eq; intros ? [= <-]; by rewrite Hin1|].
    rewrite !lookup_insert_ne by done. apply (g_own_inj _ G x y sx sy).
Qed.

Lemma unlink_ok : graph_ok w1.
Proof. split; [apply unlink_table|apply unlink_links]. Qed.
End unlink.

(** A kevent without sources leaves the table. *)
Section dispose.
Context (w w1 : sworld) (G : graph_ok w) (k : Z) (d : dkevent).
Context (Hd : sw_dk w !! k = Some d) (He : dk_sources d = []) (Hlk : listed w k).
Let h := key_hash (dk_key d).
Context (Es : sw_src w1 = sw_src w) (Ed : sw_dk w1 = delete k (sw_dk w)).
Context (Eb : sw_buckets w1 = <[h:=filter (fun x => x <> k) (bucket h w)]> (sw_buckets w)).

Lemma dispose_bucket j x : x ∈ bucket j w1 <-> x ∈ bucket j w /\ x <> k.
Proof.
  unfold bucket. rewrite Eb. destruct (decide (j = h)) as [->|Hj].
  - rewrite lookup_insert_eq. simpl. rewrite list_elem_of_filter. naive_solver.
  - rewrite lookup_insert_ne by done. split; [|naive_solver]. intros Hx. split; [done|]. intros ->. apply Hj.
    destruct (g_bucket _ G j k Hx) as (d' & Hd' & <-). rewrite Hd in Hd'. by injection Hd' as <-.
Qed.
Lemma dispose_listed j : listed w1 j <-> listed w j /\ j <> k.
Proof. unfold listed. setoid_rewrite dispose_bucket. naive_solver. Qed.
Lemma dispose_other j dj : sw_dk w1 !! j = Some dj <-> sw_dk w !! j = Some dj /\ j <> k.
Proof. rewrite Ed, lookup_delete_Some. naive_solver. Qed.

Lemma dispose_ok : graph_ok w1.
Proof.
  assert (forall x sx, sw_src w !! x = Some sx -> ds_dkev sx = k -> ds_is_installed sx = true -> False) as Hno.
  { intros x sx Hx Hdk Hi. assert (k <> 0) by (by apply (g_dk _ G k d)).
    destruct (g_installed _ G _ _ Hx Hi) as (e & H1 & H2 & _); [congruence|]. rewrite Hdk, Hd in H1. injection H1 as <-.
    rewrite He in H2. set_solver. }
  split; split.
  - intros j x [Hx Hxk]%dispose_bucket. destruct (g_bucket _ G _ _ Hx) as (e & H1 & H2). exists e. by rewrite dispose_other.
  - intros j. unfold bucket. rewrite Eb. destruct (decide (j = h)) as [->|Hj]; [rewrite lookup_insert_eq|rewrite lookup_insert_ne by done; apply G].
    apply NoDup_filter, G.
  - intros j j' dj dj' [Lj _]%dispose_listed [Lj' _]%dispose_listed [Hj _]%dispose_other [Hj' _]%dispose_other. by apply (g_unique _ G).
  - intros j dj [Hj _]%dispose_other. by apply (g_dk _ G).
  - intros j dj x [Hj _]%dispose_other Hx. rewrite Es. by apply (g_sources _ G j dj).
  - intros x sx. rewrite Es. intros Hx Hi Hnz. destruct (g_installed _ G _ _ Hx Hi Hnz) as (e & H1 & H2 & H3).
    assert (ds_dkev sx <> k) by (intros E; by eapply Hno). exists e. by rewrite dispose_other, dispose_listed.
  - intros j dj [Lj _]%dispose_listed [Hj _]%dispose_other Hc. rewrite (g_masks _ G j dj Lj Hj Hc). symmetry.
    apply masks_ext. intros x _. unfold mask_of. by rewrite Es.
  - intros x sx. rewrite Es. intros Hx Hi. destruct (g_own _ G _ _ Hx Hi) as (e & E1 & E2 & E3 & E4).
    exists e. rewrite dispose_other, dispose_listed. split_and!; try done; [by intros E; rewrite E in E3|naive_solver].
  - rewrite Es. apply (g_own_inj _ G).
Qed.
End dispose.

Lemma mask_union_run w l :
  (forall x, x ∈ l -> is_Some (sw_src w !! x)) -> mask_union l w = Ret (masks w l) w.
Proof.
  induction l as [|x l IH]; intros Hl; simpl; [done|]. destruct (Hl x ltac:(set_solver)) as [s Hs].
  rewrite (get_src_bind _ s) by done. erewrite bind_step by (apply IH; set_solver). unfold mask_of. by rewrite Hs.
Qed.

(** The kernel forgets a kevent, which leaves the table and is freed. *)
Lemma kevent_dispose_run kq w k d :
  kernel_ok kq -> sw_dk w !! k = Some d -> k <> 0 -> ke_udata (dk_kevent d) = k -> dk_sources d = [] ->
  exists w', _dispatch_kevent_dispose kq k w = Ret tt w' /\
    if custom_filter (ke_filter (dk_kevent d)) then w' = w
    else exists wq, quiet w wq /\ let h := key_hash (dk_key d) in
      w' = set_dk (delete k) (set_buckets (insert h (filter (fun x => x <> k) (bucket h wq))) wq).
Proof.
  intros Hkq Hd Hk Hu Hsrc. unfold _dispatch_kevent_dispose. rewrite (get_dk_bind _ d) by done.
  destruct (custom_filter _); [by eexists|].
  assert (forall w0 d0, sw_dk w0 !! k = Some d0 -> dk_sources d0 = [] -> live_dk w0 k d0) as Hlive.
  { intros w0 d0 H0 H1. split_and!; try done. rewrite H1. set_solver. }
  assert (runs_quiet (if (ke_filter (dk_kevent d) =? EVFILT_PROC) && has (ke_flags (dk_kevent d)) EV_ONESHOT then mret tt
     else if negb (has (ke_flags (dk_kevent d)) EV_DELETE) then
       let k' := set_ke_flags (Z.lor (ke_flags (dk_kevent d)) EV_DELETE) (dk_kevent d) in
       put_dk k (set_dk_kevent k' d);; _dispatch_update_kq kq k'
     else mret tt) w) as (wq & Hrun & Q).
  { destruct (_ && _); [apply quiet_ret|]. destruct (negb _); [|apply quiet_ret].
    apply quiet_bind; [by apply (quiet_put_dk w k d)|]. intros w1 Q1. destruct (quiet_dk_fwd _ _ _ _ Q1 Hd) as (d1 & Hd1 & E1).
    eapply (update_kq_quiet kq Hkq w1 _ d1). simpl. rewrite Hu. apply Hlive; [done|]. by apply dk_core_fields in E1 as (_ & _ & _ & _ & ->). }
  erewrite bind_step by exact Hrun. eexists. split; [done|]. by exists wq.
Qed.

(** What is left of the source [ds]. *)
Definition uninstalled (s : source) : source :=
  set_s_refs (s_ref s - 1) (s_xref s) (s_suspend s) (set_ds_state (ds_is_installed s) false false (set_ds_dkev 0 s)).

Section uninstall.
Context (kq : kernel) (Hkq : kernel_ok kq) (w : sworld) (G : graph_ok w) (ds : Z) (s : source) (d : dkevent).
Context (Hs : sw_src w !! ds = Some s) (Hin : ds_is_installed s = true) (Hk0 : ds_dkev s <> 0).
Context (Hd : sw_dk w !! ds_dkev s = Some d).
Let k := ds_dkev s.
Let s0 := set_ds_dkev 0 s.
Let l := without ds (dk_sources d).
Let w1 := set_dk (insert k (set_dk_sources l d)) (set_src (insert ds s0) w).

Lemma unlinked_ok wx fl fm :
  sw_src wx = sw_src w1 -> sw_buckets wx = sw_buckets w ->
  sw_dk wx = <[k:=Dkevent (set_ke_fflags fm (set_ke_flags fl (dk_kevent d))) l]> (sw_dk w) ->
  (custom_filter (ke_filter (dk_kevent d)) = false -> fm = masks w l) -> graph_ok wx.
Proof.
  intros Es Eb Ed Hm. destruct (g_dk _ G _ _ Hd) as (_ & Hu & _).
  by apply (unlink_ok w wx G ds s s0 k d (Dkevent (set_ke_fflags fm (set_ke_flags fl (dk_kevent d))) l)).
Qed.

(** What the rest of the release keeps. *)
Definition after_unlink (w2 : sworld) : Prop :=
  core <$> sw_src w2 = core <$> sw_src w1 /\ sw_queue w2 = sw_queue w /\
  (exists evs, sw_log w2 = sw_log w ++ evs /\ Forall quiet_event evs) /\
  (cancelled s = true -> sw_src w2 !! ds = Some s0).

Lemma quiet_after wx wy :
  quiet wx wy -> sw_src wx = sw_src w1 -> sw_queue wx = sw_queue w -> sw_log wx = sw_log w -> after_unlink wy.
Proof.
  intros [[QS _ _] QQ QL QC] E1 E2 E3. unfold after_unlink. rewrite QS, QQ, E1, E2. rewrite E3 in QL. split_and!; try done.
  intros Hc. apply QC; [|done]. rewrite E1. unfold w1. simpl. by rewrite lookup_insert_eq.
Qed.

Lemma unlinked_dk : sw_dk w1 !! k = Some (set_dk_sources l d).
Proof. unfold w1. simpl. by rewrite lookup_insert_eq. Qed.

(** It was the last source: the kevent is disposed of. *)
Lemma kevent_release_last :
  l = [] -> exists w2, _dispatch_kevent_dispose kq k w1 = Ret tt w2 /\ graph_ok w2 /\ after_unlink w2.
Proof.
  intros Hl. destruct (g_dk _ G _ _ Hd) as (_ & Hu & _).
  destruct (kevent_dispose_run kq w1 k (set_dk_sources l d) Hkq unlinked_dk Hk0 Hu Hl) as (w2 & Hrun & Hw2).
  exists w2. split; [exact Hrun|]. simpl in Hw2. destruct (custom_filter _) eqn:Hc.
  { subst w2. split; [|by apply (quiet_after w1 w1)].
    apply (unlinked_ok w1 (ke_flags (dk_kevent d)) (ke_fflags (dk_kevent d))); try done; [|by rewrite Hc].
    unfold w1. simpl. by destruct d as [[] ?]. }
  destruct Hw2 as (wq & Q & ->). split; [|by apply (quiet_after w1 wq)].
  set (wf := set_dk (insert k (Dkevent (set_ke_fflags 0 (set_ke_flags 0 (dk_kevent d))) l)) w1).
  assert (graph_ok wf) as Gf.
  { apply (unlinked_ok wf 0 0); try done; [unfold wf, w1; simpl; by rewrite insert_insert_eq|by rewrite Hl]. }
  set (h := key_hash (dk_key d)).
  assert (graph_ok (set_dk (delete k) (set_buckets (insert h (filter (fun x => x <> k) (bucket h wf))) wf))) as Gd.
  { eapply (dispose_ok wf _ Gf k); [unfold wf; simpl; apply lookup_insert_eq|done| |done..].
    destruct (g_installed _ G _ _ Hs Hin Hk0) as (_ & _ & _ & Hlk). exact Hlk. }
  eapply graph_ok_same_links; [..|exact Gd]; simpl.
  - exact (core_link _ _ Q).
  - rewrite !fmap_delete, (q_dk _ _ Q). unfold wf, w1. simpl. rewrite !fmap_insert. by rewrite !delete_insert_eq.
  - unfold bucket. by rewrite (q_buckets _ _ Q).
Qed.

(** There are others: the flags are reduced to theirs. *)
Lemma kevent_release_shared (fl := Z.lor (ke_flags (dk_kevent d)) EV_ADD) :
  exists w2, (if negb (Z.land (u32 (ds_pending_data_mask s)) (Z.lnot (masks w l)) =? 0) then
        put_dk k (set_dk_kevent (set_ke_fflags (masks w l) (set_ke_flags fl (dk_kevent d))) (set_dk_sources l d));;
        _dispatch_kevent_resume kq k
      else mret tt) w1 = Ret tt w2 /\ graph_ok w2 /\ after_unlink w2.
Proof.
  destruct (g_dk _ G _ _ Hd) as (_ & Hu & Hnd). destruct (Z.eqb_spec (Z.land (u32 (ds_pending_data_mask s)) (Z.lnot (masks w l))) 0) as [E|E].
  - exists w1. split; [done|]. split; [|by apply (quiet_after w1 w1)].
    apply (unlinked_ok w1 (ke_flags (dk_kevent d)) (ke_fflags (dk_kevent d))); try done; [unfold w1; simpl; by destruct d as [[] ?]|].
    intros Hc. destruct (g_installed _ G _ _ Hs Hin Hk0) as (d' & Hd' & Hx & Hlk). rewrite Hd in Hd'. injection Hd' as <-.
    rewrite (g_masks _ G k d Hlk Hd Hc), (masks_lor_in w _ ds Hx Hnd). fold l. unfold mask_of. rewrite Hs.
    apply Z.bits_inj'. intros n Hn. apply (f_equal (fun z => Z.testbit z n)) in E. rewrite Z.land_spec, Z.lnot_spec, Z.bits_0 in E by done.
    rewrite Z.lor_spec. destruct (Z.testbit _ _), (Z.testbit (masks w l) n); done.
  - cbn [negb]. rewrite put_dk_bind. set (wx := set_dk _ w1).
    assert (graph_ok wx) as Gx.
    { apply (unlinked_ok wx fl (masks w l)); try done. unfold wx, w1. simpl. by rewrite insert_insert_eq. }
    destruct (kevent_resume_quiet kq Hkq wx k (Dkevent (set_ke_fflags (masks w l) (set_ke_flags fl (dk_kevent d))) l)) as (w2 & Hrun & Q).
    + apply graph_live; [done|]. unfold wx. simpl. by rewrite lookup_insert_eq.
    + done.
    + exists w2. split; [exact Hrun|]. split; [exact (graph_ok_core _ _ Q Gx)|by apply (quiet_after wx w2)].
Qed.

Lemma release_middle :
  exists w2, (if bool_decide (l = []) then _dispatch_kevent_dispose kq k
    else fflags ← mask_union l;
      let del_flags := Z.land (u32 (ds_pending_data_mask s)) (Z.lnot fflags) in
      if negb (del_flags =? 0) then
        put_dk k (set_dk_kevent (set_ke_fflags fflags (set_ke_flags (Z.lor (ke_flags (dk_kevent d)) EV_ADD) (dk_kevent d)))
                    (set_dk_sources l d));;
        _dispatch_kevent_resume kq k
      else mret tt) w1 = Ret tt w2 /\ graph_ok w2 /\ after_unlink w2.
Proof.
  case_bool_decide as Hl; [by apply kevent_release_last|].
  assert (masks w1 l = masks w l) as Em.
  { apply masks_ext. intros x [Hne _]%list_elem_of_filter. rewrite (mask_of_insert w w1 ds (set_ds_dkev 0 s)) by done. by rewrite decide_False. }
  erewrite bind_step by (apply mask_union_run; intros x [Hne Hx']%list_elem_of_filter; unfold w1; simpl;
    rewrite lookup_insert_ne by done; destruct (g_sources _ G _ _ _ Hd Hx') as (sx & -> & _); eauto).
  rewrite Em. apply kevent_release_shared.
Qed.
End uninstall.

Lemma uninstall_run kq w ds s :
  kernel_ok kq -> graph_ok w -> sw_src w !! ds = Some s -> ds_is_installed s = true -> ds_dkev s <> 0 -> 2 <= s_ref s -> cancelled s = true ->
  exists w', _dispatch_kevent_release kq ds w = Ret tt w' /\ graph_ok w' /\ sw_src w' !! ds = Some (uninstalled s) /\
    (forall x sx, x <> ds -> sw_src w !! x = Some sx -> exists sx', sw_src w' !! x = Some sx' /\ core sx' = core sx) /\
    sw_queue w' = sw_queue w /\ exists evs, sw_log w' = sw_log w ++ evs /\ Forall quiet_event evs.
Proof.
  intros Hkq G Hs Hin Hk0 Href Hcan. destruct (g_installed _ G _ _ Hs Hin Hk0) as (d & Hd & Hx & Hlk).
  destruct (release_middle kq Hkq w G ds s d Hs Hin Hk0 Hd) as (w2 & Hrun & G2 & Ecore & Eq & Elog & Es). specialize (Es Hcan).
  unfold _dispatch_kevent_release. rewrite (get_src_bind _ s), put_src_bind, (upd_dk_bind _ _ d) by done.
  erewrite get_dk_bind by apply unlinked_dk. erewrite bind_step by exact Hrun. rewrite (upd_src_bind _ _ _ _ _ Es).
  unfold release_src. erewrite get_src_bind by (simpl; apply lookup_insert_eq). cbn [s_ref set_ds_state set_ds_dkev s_xref s_suspend].
  rewrite Z.gtb_ltb, (proj2 (Z.ltb_lt 1 (s_ref s))) by lia. set (w3 := set_src _ w2).
  exists (set_src (insert ds (uninstalled s)) w3). split_and!; try done.
  - eapply graph_ok_update; [eapply (graph_ok_update w2 ds); [done|exact Es|done]|simpl; apply lookup_insert_eq|done].
  - simpl. apply lookup_insert_eq.
  - intros x sx Hne Hsx. simpl. rewrite !lookup_insert_ne by done. eapply fmap_fwd; [exact Ecore|].
    simpl. by rewrite lookup_insert_ne.
Qed.

