(* ===== verification/SourceEvents.v ===== *)
(** * What a source delivers

    The event handler gets the coalesced data of all events since its last call, a source that was cancelled
    calls its cancellation handler once and nothing else, and creation accepts
    exactly what the type of the source allows. *)

From S2P Require Import Prelude DispatchTime DispatchSource TimerList TimerSource SourceTable.
From stdpp Require Import base tactics list numbers gmap strings fin_maps.
From Stdlib Require Import ZArith Lia.

Local Open Scope Z_scope.

(** ** Custom data *)

(** dispatch_source_merge_data for each value. *)
Fixpoint merge_datas (ds : Z) (vals : list Z) : SM unit :=
  match vals with [] => mret tt | v :: vals => dispatch_source_merge_data ds v;; merge_datas ds vals end.

Lemma s64_add_l a b : s64 (s64 a + b) = s64 (a + b).
Proof.
  unfold s64. replace ((a + 2 ^ 63) mod 2 ^ 64 - 2 ^ 63 + b + 2 ^ 63) with ((a + 2 ^ 63) mod 2 ^ 64 + b) by lia.
  rewrite Zplus_mod_idemp_l. do 2 f_equal. lia.
Qed.
Lemma s64_add_r a b : s64 (a + s64 b) = s64 (a + b).
Proof. rewrite Z.add_comm, s64_add_l. f_equal. lia. Qed.

Section custom.
Context (w : sworld) (ds : Z) (s : source) (d : dkevent).
Context (Hd : sw_dk w !! ds_dkev s = Some d).
Context (Hc : cancelled s = false) (Hlev : ds_is_level s = false) (Hre : ds_needs_rearm s = false).

(** One value: the pending data changes and the source is woken. *)
Lemma merge_data_run w0 p v :
  sw_dk w0 = sw_dk w -> sw_src w0 !! ds = Some (set_ds_pending p s) ->
  (if ds_is_adder s then ke_filter (dk_kevent d) = DISPATCH_EVFILT_CUSTOM_ADD
   else ke_filter (dk_kevent d) = DISPATCH_EVFILT_CUSTOM_OR /\ v <= INT_MAX) ->
  let p' := if ds_is_adder s then s64 (p + s64 v) else Z.lor p (s64 (Z.land (u32 v) (ds_pending_data_mask s))) in
  dispatch_source_merge_data ds v w0 = Ret tt (log_event (EvWake ds) (set_src (insert ds (set_ds_pending p' s)) w0)).
Proof.
  intros Ed Hs Hf p'. unfold dispatch_source_merge_data. rewrite (get_src_bind _ _ _ _ Hs).
  change (ds_dkev (set_ds_pending p s)) with (ds_dkev s). rewrite (get_dk_bind _ d) by (by rewrite Ed).
  unfold dispatch_assert.
  assert ((ke_filter (dk_kevent d) =? DISPATCH_EVFILT_CUSTOM_ADD) ||
    ((ke_filter (dk_kevent d) =? DISPATCH_EVFILT_CUSTOM_OR) && (v <=? INT_MAX)) = true) as ->.
  { destruct (ds_is_adder s); [by rewrite Hf|]. destruct Hf as [-> Hv%Z.leb_le]. by rewrite Hv. }
  rewrite ret_bind. unfold _dispatch_source_merge_kevent. rewrite (get_src_bind _ _ _ _ Hs).
  change (cancelled (set_ds_pending p s)) with (cancelled s). rewrite Hc.
  change (merge_fake (Kevent 0 0 0 (u32 v) (s64 v) 0)) with (Some (Kevent 0 0 0 (u32 v) (s64 v) 0)). cbv iota.
  change (ds_is_level (set_ds_pending p s)) with (ds_is_level s). change (ds_is_adder (set_ds_pending p s)) with (ds_is_adder s).
  change (ds_needs_rearm (set_ds_pending p s)) with (ds_needs_rearm s). rewrite Hlev, Hre. unfold p'.
  destruct (ds_is_adder s); cbv iota; rewrite (upd_src_bind _ _ _ _ _ Hs), ret_bind; done.
Qed.

(** Any number of values, before the handler runs. *)
Lemma merge_datas_run w0 p vals :
  sw_dk w0 = sw_dk w -> sw_src w0 !! ds = Some (set_ds_pending p s) ->
  (if ds_is_adder s then ke_filter (dk_kevent d) = DISPATCH_EVFILT_CUSTOM_ADD
   else ke_filter (dk_kevent d) = DISPATCH_EVFILT_CUSTOM_OR /\ Forall (fun v => v <= INT_MAX) vals) ->
  let p' := foldl (fun p v => if ds_is_adder s then s64 (p + s64 v)
                              else Z.lor p (s64 (Z.land (u32 v) (ds_pending_data_mask s)))) p vals in
  exists w', merge_datas ds vals w0 = Ret tt w' /\ sw_dk w' = sw_dk w /\ sw_src w' !! ds = Some (set_ds_pending p' s) /\
    sw_queue w' = sw_queue w0 /\ sw_log w' = sw_log w0 ++ replicate (length vals) (EvWake ds).
Proof.
  induction vals as [|v vals IH] in w0, p |- *; intros Ed Hs Hf.
  { exists w0. split_and!; try done. by rewrite app_nil_r. }
  assert (if ds_is_adder s then ke_filter (dk_kevent d) = DISPATCH_EVFILT_CUSTOM_ADD
    else ke_filter (dk_kevent d) = DISPATCH_EVFILT_CUSTOM_OR /\ v <= INT_MAX) as Hfv
    by (destruct (ds_is_adder s); [done|destruct Hf as [? Hv]; by inversion Hv]).
  simpl. erewrite bind_step by (apply (merge_data_run w0 p v Ed Hs Hfv)). set (w1 := log_event _ _).
  destruct (IH w1 (if ds_is_adder s then s64 (p + s64 v) else Z.lor p (s64 (Z.land (u32 v) (ds_pending_data_mask s)))))
    as (w' & Hrun & Ed' & Es' & Eq' & El').
  - done.
  - simpl. apply lookup_insert_eq.
  - destruct (ds_is_adder s); [done|]. destruct Hf as [? Hv]. by inversion Hv.
  - exists w'. split_and!; try done. rewrite El'. simpl. by rewrite <- app_assoc.
Qed.

End custom.

(** The data that the handler sees. *)
Definition latched (s : source) : Z := u64 (if ds_is_level s then Z.lnot (ds_pending_data s) else ds_pending_data s).

(** A turn of a source with pending data on its target queue: one call of the handler. *)
Lemma invoke_latches kq w ds s :
  sw_src w !! ds = Some s -> ds_is_installed s = true -> cancelled s = false -> ds_pending_data s <> 0 ->
  ds_handler_func s <> 0 -> sw_queue w = s_targetq s ->
  _dispatch_source_invoke kq ds w =
    Ret (if ds_needs_rearm s then _dispatch_mgr_q else 0)
      (log_event (EvHandler ds (ds_handler_func s) (ds_handler_ctxt s) (latched s) (s_targetq s))
         (set_src (insert ds (set_ds_data (latched s) 0 (ds_pending_data_mask s) s)) w)).
Proof.
  intros Hs Hin Hc Hp Hh Hq. unfold _dispatch_source_invoke, source_invoke. rewrite (get_src_bind _ _ _ _ Hs), gets_bind.
  rewrite Hin, Hc, Hq, (proj2 (Z.eqb_neq _ _) Hp), Z.eqb_refl. cbn [negb].
  unfold source_latch_and_call. rewrite bind_assoc, (get_src_bind _ _ _ _ Hs), Hc, bind_assoc, put_src_bind.
  rewrite (proj2 (Z.eqb_neq _ _) Hp), (proj2 (Z.eqb_neq _ _) Hh). cbn [negb andb].
  rewrite bind_assoc. erewrite get_src_bind by (simpl; apply lookup_insert_eq).
  rewrite bind_assoc, gets_bind, modify_bind. erewrite get_src_bind by (simpl; apply lookup_insert_eq).
  unfold mret, M_ret. cbn [ds_needs_rearm set_ds_data ds_handler_func ds_handler_ctxt ds_data]. simpl sw_queue. by rewrite Hq.
Qed.

(** A turn of a source with nothing to do. *)
Lemma invoke_idle kq w ds s :
  sw_src w !! ds = Some s -> ds_is_installed s = true -> cancelled s = false -> ds_pending_data s = 0 ->
  ds_needs_rearm s = false -> _dispatch_source_invoke kq ds w = Ret 0 w.
Proof.
  intros Hs Hin Hc Hp Hre. unfold _dispatch_source_invoke, source_invoke. rewrite (get_src_bind _ _ _ _ Hs), gets_bind.
  by rewrite Hin, Hc, Hp, Hre.
Qed.

(** A custom source that is ready on its target queue. *)
Record custom_ready (w : sworld) (ds : Z) (s : source) (d : dkevent) : Prop := {
  cr_src : sw_src w !! ds = Some s;
  cr_dk : sw_dk w !! ds_dkev s = Some d;
  cr_installed : ds_is_installed s = true;
  cr_live : cancelled s = false;
  cr_level : ds_is_level s = false;
  cr_rearm : ds_needs_rearm s = false;
  cr_pending : ds_pending_data s = 0;
  cr_handler : ds_handler_func s <> 0;
  cr_queue : sw_queue w = s_targetq s
}.

Lemma custom_turn kq w ds s d vals :
  custom_ready w ds s d ->
  (if ds_is_adder s then ke_filter (dk_kevent d) = DISPATCH_EVFILT_CUSTOM_ADD
   else ke_filter (dk_kevent d) = DISPATCH_EVFILT_CUSTOM_OR /\ Forall (fun v => v <= INT_MAX) vals) ->
  let p := foldl (fun p v => if ds_is_adder s then s64 (p + s64 v)
                             else Z.lor p (s64 (Z.land (u32 v) (ds_pending_data_mask s)))) 0 vals in
  exists w' s', (merge_datas ds vals;; _dispatch_source_invoke kq ds) w = Ret 0 w' /\
    sw_src w' !! ds = Some s' /\ ds_pending_data s' = 0 /\
    sw_log w' = sw_log w ++ replicate (length vals) (EvWake ds) ++
      (if p =? 0 then [] else [EvHandler ds (ds_handler_func s) (ds_handler_ctxt s) (u64 p) (s_targetq s)]).
Proof.
  intros [Hs Hd Hin Hc Hl Hre Hp Hh Hq] Hf p.
  destruct (merge_datas_run w ds s d Hd Hc Hl Hre w 0 vals) as (w1 & Hrun & Ed & Es & Eq & El); [done| |done|].
  { rewrite Hs. f_equal. rewrite <- Hp. by destruct s. }
  fold p in Es. erewrite bind_step by exact Hrun. destruct (Z.eqb_spec p 0) as [E|E].
  - exists w1, (set_ds_pending p s). rewrite (invoke_idle kq w1 ds (set_ds_pending p s)) by done.
    split_and!; try done. by rewrite app_nil_r.
  - eexists _, (set_ds_data (latched (set_ds_pending p s)) 0 (ds_pending_data_mask s) s).
    rewrite (invoke_latches kq w1 ds (set_ds_pending p s)) by (done || by rewrite Eq).
    cbn [ds_needs_rearm set_ds_pending set_ds_data]. rewrite Hre. split; [done|]. simpl. rewrite lookup_insert_eq.
    split_and!; try done. rewrite El, <- app_assoc. unfold latched. simpl. by rewrite Hl.
Qed.

Lemma foldl_sum p vals :
  in_s64 p -> foldl (fun p v => s64 (p + s64 v)) p vals = s64 (p + zsum id vals).
Proof.
  induction vals as [|v vals IH] in p |- *; intros Hp; simpl; [by rewrite Z.add_0_r, s64_id|].
  rewrite IH by apply s64_range. rewrite s64_add_l.
  replace (p + s64 v + zsum id vals) with (p + zsum id vals + s64 v) by lia. rewrite s64_add_r. f_equal. unfold id. lia.
Qed.
Lemma s64_eqb_0 z : (s64 z =? 0) = (u64 z =? 0).
Proof.
  destruct (Z.eqb_spec (s64 z) 0) as [E|E]; symmetry; [apply Z.eqb_eq|apply Z.eqb_neq].
  - by rewrite <- u64_s64, E.
  - intros Eu. apply E. by rewrite <- s64_u64, Eu.
Qed.

Lemma foldl_or p vals :
  Forall (fun v => 0 <= v <= INT_MAX) vals ->
  foldl (fun p v => Z.lor p (s64 (Z.land (u32 v) 0xffffffff))) p vals = Z.lor p (foldr Z.lor 0 vals).
Proof.
  induction vals as [|v vals IH] in p |- *; intros Hv; simpl; [by rewrite Z.lor_0_r|].
  apply Forall_cons in Hv as [Hv Hvs]. rewrite IH, <- Z.lor_assoc by done. do 2 f_equal. unfold INT_MAX in Hv.
  change 0xffffffff with (Z.ones 32). rewrite u32_id, Z.land_ones, Z.mod_small, s64_id by lia. done.
Qed.
Lemma foldr_or_bits vals n :
  0 <= n -> Z.testbit (foldr Z.lor 0 vals) n = true <-> exists v, v ∈ vals /\ Z.testbit v n = true.
Proof.
  intros Hn. induction vals as [|v vals IH]; simpl; [rewrite Z.bits_0; set_solver|].
  rewrite Z.lor_spec, orb_true_iff, IH. set_solver.
Qed.
Lemma foldr_or_range vals : Forall (fun v => 0 <= v <= INT_MAX) vals -> 0 <= foldr Z.lor 0 vals < 2 ^ 31.
Proof.
  induction vals as [|v vals IH]; intros Hv; simpl; [lia|]. apply Forall_cons in Hv as [Hv Hvs]. unfold INT_MAX in Hv.
  apply lor_range; [lia|lia|by apply IH].
Qed.

(** A DATA_ADD source delivers the sum of all values merged since the last call, modulo the width, in one call of
    the handler on the target queue; merging wakes the source and nothing is left pending. *)
Theorem add_source_coalesces kq w ds s d vals :
  custom_ready w ds s d -> ds_is_adder s = true -> ke_filter (dk_kevent d) = DISPATCH_EVFILT_CUSTOM_ADD ->
  exists w' s', (merge_datas ds vals;; _dispatch_source_invoke kq ds) w = Ret 0 w' /\
    sw_src w' !! ds = Some s' /\ ds_pending_data s' = 0 /\
    sw_log w' = sw_log w ++ replicate (length vals) (EvWake ds) ++
      (if u64 (zsum id vals) =? 0 then []
       else [EvHandler ds (ds_handler_func s) (ds_handler_ctxt s) (u64 (zsum id vals)) (s_targetq s)]).
Proof.
  intros Hr Ha Hf. pose proof (custom_turn kq w ds s d vals Hr) as Hturn. rewrite Ha in Hturn.
  destruct (Hturn Hf) as (w' & s' & H1 & H2 & H3 & H4). set (p := foldl _ _ _) in H4.
  assert (p = s64 (zsum id vals)) as -> by exact (foldl_sum 0 vals ltac:(lia)).
  exists w', s'. split_and!; try done. by rewrite H4, s64_eqb_0, u64_s64.
Qed.

(** a DATA_OR source delivers the union of the bits merged since the last call, in one call of the handler. *)
Theorem or_source_coalesces kq w ds s d vals :
  custom_ready w ds s d -> ds_is_adder s = false -> ke_filter (dk_kevent d) = DISPATCH_EVFILT_CUSTOM_OR ->
  ds_pending_data_mask s = 0xffffffff -> Forall (fun v => 0 <= v <= INT_MAX) vals -> vals <> [] -> Forall (fun v => v <> 0) vals ->
  exists w' s' data, (merge_datas ds vals;; _dispatch_source_invoke kq ds) w = Ret 0 w' /\
    sw_src w' !! ds = Some s' /\ ds_pending_data s' = 0 /\
    sw_log w' = sw_log w ++ replicate (length vals) (EvWake ds) ++
      [EvHandler ds (ds_handler_func s) (ds_handler_ctxt s) data (s_targetq s)] /\
    forall n, 0 <= n -> Z.testbit data n = true <-> exists v, v ∈ vals /\ Z.testbit v n = true.
Proof.
  intros Hr Ha Hf Hmask Hv Hne Hnz. pose proof (custom_turn kq w ds s d vals Hr) as Hturn. rewrite Ha in Hturn.
  destruct Hturn as (w' & s' & H1 & H2 & H3 & H4); [split; [done|]; eapply Forall_impl; [exact Hv|]; simpl; lia|].
  set (p := foldl _ _ _) in H4. assert (p = foldr Z.lor 0 vals) as Ep.
  { rewrite <- (Z.lor_0_l (foldr _ _ _)). unfold p. rewrite Hmask. by apply foldl_or. }
  assert (forall n, 0 <= n -> Z.testbit p n = true <-> exists v, v ∈ vals /\ Z.testbit v n = true) as Hbits
    by (rewrite Ep; intros; by apply foldr_or_bits).
  assert (0 <= p < 2 ^ 31) as Hp by (rewrite Ep; by apply foldr_or_range).
  exists w', s', (u64 p). split_and!; try done; [|by rewrite u64_id by lia].
  rewrite H4. rewrite (proj2 (Z.eqb_neq p 0)); [done|]. intros Ez. destruct vals as [|v vals]; [done|].
  apply Forall_cons in Hv as [[Hv _] _], Hnz as [Hnz _].
  assert (Z.testbit p (Z.log2 v) = true) as Hb.
  { apply Hbits; [apply Z.log2_nonneg|]. exists v. split; [set_solver|]. apply Z.bit_log2. lia. }
  by rewrite Ez, Z.bits_0 in Hb.
Qed.

(** ** Level sources *)

(** A turn on the manager queue arms the source again. *)
Lemma invoke_rearms kq w ds s :
  kernel_ok kq -> graph_ok w -> sw_src w !! ds = Some s -> ds_is_installed s = true -> ds_dkev s <> 0 -> cancelled s = false ->
  ds_pending_data s = 0 -> ds_needs_rearm s = true -> ds_is_armed s = false -> sw_queue w = _dispatch_mgr_q ->
  exists w' s' evs, _dispatch_source_invoke kq ds w = Ret 0 w' /\ sw_src w' !! ds = Some s' /\ ds_is_armed s' = true /\
    ds_data s' = ds_data s /\ graph_ok w' /\ sw_log w' = sw_log w ++ evs /\ Forall quiet_event evs.
Proof.
  intros Hkq G Hs Hin Hk0 Hc Hp Hre Har Hq. destruct (g_installed _ G _ _ Hs Hin Hk0) as (d & Hd & _).
  destruct (kevent_resume_quiet kq Hkq w (ds_dkev s) d) as (w1 & Hrun & Q); [by apply graph_live|by apply (g_dk _ G _ _ Hd)|].
  destruct (quiet_src_fwd _ _ _ _ Q Hs) as (s1 & Hs1 & E1). destruct (q_log _ _ Q) as (evs & El & Hev).
  exists (set_src (insert ds (set_ds_armed true s1)) w1), (set_ds_armed true s1), evs. split_and!; try done.
  - unfold _dispatch_source_invoke, source_invoke. rewrite (get_src_bind _ _ _ _ Hs), gets_bind, Hin, Hc, Hp, Hre, Har, Hq. cbn [negb andb].
    rewrite !Z.eqb_refl. cbn [negb]. unfold _dispatch_source_kevent_resume. rewrite bind_assoc, (get_src_bind _ _ _ _ Hs).
    erewrite bind_step by exact Hrun. by rewrite (upd_src_bind _ _ _ _ _ Hs1).
  - simpl. apply lookup_insert_eq.
  - by apply (f_equal ds_data) in E1.
  - by eapply graph_ok_update; [exact (graph_ok_core _ _ Q G)|exact Hs1|].
Qed.

(** C11: an event of a READ or WRITE source reaches the handler in one call with its data, also when the data is 0 (end of
    file), on the target queue; then the source goes to the manager queue and is armed again. *)
Theorem level_event_delivered kq w ds s ke :
  kernel_ok kq -> graph_ok w -> sw_src w !! ds = Some s -> ds_is_installed s = true -> ds_dkev s <> 0 -> cancelled s = false ->
  ds_is_level s = true -> ds_needs_rearm s = true -> ds_handler_func s <> 0 ->
  has (ke_flags ke) EV_ERROR = false -> 0 <= ke_data ke < 2 ^ 63 ->
  exists w' s' evs,
    (_dispatch_source_merge_kevent ds ke;; modify (set_queue (s_targetq s));;
     q ← _dispatch_source_invoke kq ds; modify (set_queue q);; _dispatch_source_invoke kq ds) w = Ret 0 w' /\
    sw_src w' !! ds = Some s' /\ ds_is_armed s' = true /\ ds_data s' = ke_data ke /\ graph_ok w' /\
    sw_log w' = sw_log w ++ [EvWake ds; EvHandler ds (ds_handler_func s) (ds_handler_ctxt s) (ke_data ke) (s_targetq s)] ++ evs /\
    Forall quiet_event evs.
Proof.
  intros Hkq G Hs Hin Hk0 Hc Hlev Hre Hh Herr Hdata.
  set (s1 := set_ds_armed false (set_ds_pending (Z.lnot (ke_data ke)) s)).
  assert (_dispatch_source_merge_kevent ds ke w = Ret tt (log_event (EvWake ds) (set_src (insert ds s1) w))) as Hm.
  { unfold _dispatch_source_merge_kevent, merge_fake. rewrite (get_src_bind _ _ _ _ Hs), Hc, Herr, Hlev, Hre, bind_assoc.
    unfold dispatch_assert. rewrite Z.geb_leb, (proj2 (Z.leb_le 0 _)), ret_bind by lia.
    rewrite (upd_src_bind _ _ _ _ _ Hs). erewrite upd_src_bind by (simpl; apply lookup_insert_eq).
    unfold wakeup, modify. do 2 f_equal. unfold set_src. simpl. by rewrite insert_insert_eq. }
  erewrite bind_step by exact Hm. rewrite modify_bind. set (w1 := set_queue _ _).
  assert (latched s1 = ke_data ke) as Hl.
  { unfold latched, s1. simpl. rewrite Hlev, Z.lnot_involutive. apply u64_id. lia. }
  assert (sw_src w1 !! ds = Some s1) as Hs1 by (simpl; apply lookup_insert_eq).
  erewrite bind_step by (apply (invoke_latches kq w1 ds s1 Hs1); [done|done| |done|done]; unfold s1; simpl; unfold Z.lnot; lia).
  rewrite Hl. change (ds_needs_rearm s1) with (ds_needs_rearm s). rewrite Hre, modify_bind.
  set (s2 := set_ds_data (ke_data ke) 0 (ds_pending_data_mask s1) s1). set (w2 := set_queue _ _).
  assert (sw_src w2 = <[ds:=s2]> (sw_src w)) as Es2 by (unfold w2, w1; simpl; by rewrite insert_insert_eq).
  destruct (invoke_rearms kq w2 ds s2) as (w' & s' & evs & Hrun & Hs' & Har & Hds & G' & Hlog & Hev); try done.
  - apply (graph_ok_same_links w); try done. rewrite Es2. by eapply insert_fmap_id.
  - rewrite Es2. apply lookup_insert_eq.
  - exists w', s', evs. split_and!; try done. rewrite Hlog. unfold w2, w1. simpl. by rewrite <- !app_assoc.
Qed.

(** ** Cancellation *)

(** The turns of a source: _dispatch_queue_invoke runs it on the current queue and passes it on to the queue that
    _dispatch_source_invoke returns; when there is none, the wakeup at the end of the turn looks whether there is more to
    do and puts the source on its target queue. *)
Fixpoint drive (kq : kernel) (fuel : nat) (ds : Z) : SM unit :=
  match fuel with
  | O => out_of_fuel
  | S n =>
      s ← get_src ds;
      if suspended s then mret tt
      else
        tq ← _dispatch_source_invoke kq ds;
        if negb (tq =? 0) then modify (set_queue tq);; drive kq n ds
        else
          s ← get_src ds;
          if _dispatch_source_probe s then modify (set_queue (s_targetq s));; drive kq n ds else mret tt
  end.

(** The calls of handlers in a log. *)
Definition is_call (e : sevent) : bool := match e with EvHandler _ _ _ _ _ | EvCancel _ _ _ _ => true | _ => false end.
Definition calls (l : list sevent) : list sevent := filter (fun e => is_call e = true) l.

Lemma calls_quiet evs : Forall quiet_event evs -> calls evs = [].
Proof.
  intros H. apply filter_all_false. intros e He. rewrite Forall_forall in H. specialize (H e He). by destruct e.
Qed.
Lemma calls_app a b : calls (a ++ b) = calls a ++ calls b.
Proof. apply filter_app. Qed.

(** The call that cancellation owes: none when the source was only released. *)
Definition cancel_call (ds : Z) (s : source) : list sevent :=
  if has (ds_atomic_flags s) DSF_CANCELED then [EvCancel ds (ds_cancel_handler s) (s_ctxt s) (s_targetq s)] else [].

(** The end of a cancelled source: off the table, its handler forgotten. *)
Definition cancel_done (w w' : sworld) (ds : Z) (call : list sevent) : Prop :=
  graph_ok w' /\ calls (sw_log w') = calls (sw_log w) ++ call /\
  exists s', sw_src w' !! ds = Some s' /\ ds_is_installed s' = true /\ ds_dkev s' = 0 /\ ds_cancel_handler s' = 0 /\
    _dispatch_source_probe s' = false.

Section cancel.
Context (kq : kernel) (Hkq : kernel_ok kq) (ds : Z).

(** A cancelled source on its way. *)
Record cancelling (w : sworld) (s : source) : Prop := {
  cn_graph : graph_ok w;
  cn_src : sw_src w !! ds = Some s;
  cn_cancelled : cancelled s = true;
  cn_running : suspended s = false;
  cn_target : s_targetq s <> 0;
  cn_handler : ds_cancel_handler s <> 0
}.

Lemma drive_step n w s tq w1 :
  sw_src w !! ds = Some s -> suspended s = false -> _dispatch_source_invoke kq ds w = Ret tq w1 -> tq <> 0 ->
  drive kq (S n) ds w = drive kq n ds (set_queue tq w1).
Proof.
  intros Hs Hsu Hi Htq. simpl. rewrite (get_src_bind _ _ _ _ Hs), Hsu. erewrite bind_step by exact Hi.
  rewrite (proj2 (Z.eqb_neq tq 0)) by done. cbn [negb]. by rewrite modify_bind.
Qed.
Lemma drive_last n w s w1 s1 :
  sw_src w !! ds = Some s -> suspended s = false -> _dispatch_source_invoke kq ds w = Ret 0 w1 ->
  sw_src w1 !! ds = Some s1 ->
  drive kq (S n) ds w = if _dispatch_source_probe s1 then drive kq n ds (set_queue (s_targetq s1) w1) else Ret tt w1.
Proof.
  intros Hs Hsu Hi Hs1. simpl. rewrite (get_src_bind _ _ _ _ Hs), Hsu. erewrite bind_step by exact Hi.
  cbn [Z.eqb negb]. rewrite (get_src_bind _ _ _ _ Hs1). by destruct (_dispatch_source_probe s1).
Qed.

Lemma graph_ok_queue w q : graph_ok w -> graph_ok (set_queue q w).
Proof. intros G. by apply (graph_ok_same_links w). Qed.

(** The cancellation handler, on the target queue. *)
Lemma cancel_callout_turn n w s :
  cancelling w s -> ds_is_installed s = true -> ds_dkev s = 0 -> sw_queue w = s_targetq s ->
  exists w', drive kq (S n) ds w = Ret tt w' /\ cancel_done w w' ds (cancel_call ds s).
Proof.
  intros [G Hs Hc Hsu Htq Hh] Hin Hdk Hq.
  set (s1 := set_ds_data 0 0 0 s). set (s2 := set_ds_handlers (ds_handler_func s) (ds_handler_ctxt s) 0 s1).
  set (w1 := set_src (insert ds s2) w). set (w2 := if has (ds_atomic_flags s) DSF_CANCELED
    then log_event (EvCancel ds (ds_cancel_handler s) (s_ctxt s) (s_targetq s)) w1 else w1).
  assert (_dispatch_source_invoke kq ds w = Ret 0 w2) as Hi.
  { unfold _dispatch_source_invoke, source_invoke. rewrite (get_src_bind _ _ _ _ Hs), gets_bind, Hin, Hc, Hdk, Hq, Z.eqb_refl, Z.eqb_refl.
    cbn [negb]. rewrite andb_false_r. unfold source_cancel_callout. rewrite bind_assoc, (upd_src_bind _ _ _ _ _ Hs), bind_assoc.
    fold s1. erewrite get_src_bind by (simpl; apply lookup_insert_eq).
    change (ds_cancel_handler s1) with (ds_cancel_handler s). rewrite (proj2 (Z.eqb_neq _ 0)) by done.
    change (ds_atomic_flags s1) with (ds_atomic_flags s). unfold w2. destruct (has _ _); rewrite !bind_assoc.
    - rewrite gets_bind, modify_bind. erewrite upd_src_bind by (simpl; apply lookup_insert_eq).
      unfold mret, M_ret, w1. f_equal. unfold log_event, set_src. simpl. by rewrite insert_insert_eq, Hq.
    - rewrite ret_bind. erewrite upd_src_bind by (simpl; apply lookup_insert_eq).
      unfold mret, M_ret, w1. f_equal. unfold set_src. simpl. by rewrite insert_insert_eq. }
  assert (sw_src w2 !! ds = Some s2) as Hs2 by (unfold w2; destruct (has _ _); simpl; apply lookup_insert_eq).
  assert (_dispatch_source_probe s2 = false) as Hpr.
  { unfold _dispatch_source_probe. change (ds_is_installed s2) with (ds_is_installed s). change (cancelled s2) with (cancelled s).
    change (ds_dkev s2) with (ds_dkev s). by rewrite Hin, Hc, Hdk. }
  exists w2. rewrite (drive_last n w s w2 s2), Hpr by done. split; [done|]. split_and!.
  - apply (graph_ok_same_links w); try done; unfold w2; destruct (has _ _); try done; simpl; eapply insert_fmap_id; try done;
      unfold link; simpl; by rewrite Hdk.
  - unfold w2, cancel_call. destruct (has _ _); simpl; [by rewrite calls_app|by rewrite app_nil_r].
  - exists s2. by split_and!.
Qed.

Lemma cancel_done_from w w1 w' call :
  calls (sw_log w1) = calls (sw_log w) -> cancel_done w1 w' ds call -> cancel_done w w' ds call.
Proof. intros E (G & Hc & Hs). split_and!; try done. by rewrite Hc, E. Qed.

Lemma cancelling_queue q w s : cancelling w s -> cancelling (set_queue q w) s.
Proof. intros [G ? ? ? ? ?]. split; try done. by apply graph_ok_queue. Qed.

(** The source has been uninstalled. *)
Lemma cancel_detached n w s :
  cancelling w s -> ds_is_installed s = true -> ds_dkev s = 0 ->
  exists w', drive kq (S (S n)) ds w = Ret tt w' /\ cancel_done w w' ds (cancel_call ds s).
Proof.
  intros C Hin Hdk. destruct (decide (sw_queue w = s_targetq s)) as [Hq|Hq]; [by apply cancel_callout_turn|].
  pose proof C as [G Hs Hc Hsu Htq Hh]. rewrite (drive_step (S n) w s (s_targetq s) w); try done.
  - destruct (cancel_callout_turn n (set_queue (s_targetq s) w) s (cancelling_queue _ _ _ C) Hin Hdk eq_refl) as (w' & Hr & Hd).
    exists w'. split; [exact Hr|]. by eapply cancel_done_from; [|exact Hd].
  - unfold _dispatch_source_invoke, source_invoke. rewrite (get_src_bind _ _ _ _ Hs), gets_bind, Hin, Hc, Hdk, (proj2 (Z.eqb_neq _ _) Hh).
    by rewrite (proj2 (Z.eqb_neq _ _) Hq).
Qed.

(** The manager queue takes the source off the table. *)
Lemma cancel_on_manager n w s :
  cancelling w s -> ds_is_installed s = true -> ds_dkev s <> 0 -> 2 <= s_ref s -> sw_queue w = _dispatch_mgr_q ->
  exists w', drive kq (S (S n)) ds w = Ret tt w' /\ cancel_done w w' ds (cancel_call ds s).
Proof.
  intros [G Hs Hc Hsu Htq Hh] Hin Hdk Href Hq.
  destruct (uninstall_run kq w ds s Hkq G Hs Hin Hdk Href Hc) as (w1 & Hrel & G1 & Hs1 & _ & _ & evs & Elog & Hev).
  rewrite (drive_step (S n) w s (s_targetq s) w1); try done.
  - assert (cancelling (set_queue (s_targetq s) w1) (uninstalled s)) as C1 by (split; try done; by apply graph_ok_queue).
    destruct (cancel_callout_turn n _ _ C1) as (w' & Hr & Hd); [done..|].
    exists w'. split; [exact Hr|]. eapply cancel_done_from; [|exact Hd]. simpl. by rewrite Elog, calls_app, (calls_quiet evs), app_nil_r.
  - unfold _dispatch_source_invoke, source_invoke. rewrite (get_src_bind _ _ _ _ Hs), gets_bind, Hin, Hc, Hq, Z.eqb_refl.
    rewrite (proj2 (Z.eqb_neq _ _) Hdk). cbn [negb]. erewrite bind_step by exact Hrel. by rewrite (get_src_bind _ _ _ _ Hs1).
Qed.

Lemma cancel_attached n w s :
  cancelling w s -> ds_is_installed s = true -> ds_dkev s <> 0 -> 2 <= s_ref s ->
  exists w', drive kq (S (S (S n))) ds w = Ret tt w' /\ cancel_done w w' ds (cancel_call ds s).
Proof.
  intros C Hin Hdk Href. pose proof C as [G Hs Hc Hsu Htq Hh].
  destruct (decide (sw_queue w = _dispatch_mgr_q)) as [Hq|Hq]; [by apply cancel_on_manager|].
  rewrite (drive_step (S (S n)) w s _dispatch_mgr_q w); try done.
  - destruct (cancel_on_manager n (set_queue _dispatch_mgr_q w) s (cancelling_queue _ _ _ C) Hin Hdk Href eq_refl) as (w' & Hr & Hd).
    exists w'. split; [exact Hr|]. by eapply cancel_done_from; [|exact Hd].
  - unfold _dispatch_source_invoke, source_invoke. rewrite (get_src_bind _ _ _ _ Hs), gets_bind, Hin, Hc, (proj2 (Z.eqb_neq _ _) Hdk).
    by rewrite (proj2 (Z.eqb_neq _ _) Hq).
Qed.

(** A source that is cancelled before it was installed is installed first. *)
Lemma cancel_installs n w s :
  cancelling w s -> ds_is_installed s = false -> 2 <= s_ref s -> sw_queue w = _dispatch_mgr_q ->
  exists w', drive kq (S (S (S (S n)))) ds w = Ret tt w' /\ cancel_done w w' ds (cancel_call ds s).
Proof.
  intros [G Hs Hc Hsu Htq Hh] Hin Href Hq. destruct (g_own _ G _ _ Hs Hin) as (own & Hown & _).
  destruct (install_run kq w ds s own Hkq G Hs Hin Hown) as
    (w1 & Hm & G1 & s1 & d & Hs1 & Hin1 & Hd & _ & _ & _ & Ecore & _ & _ & evs & Elog & Hev).
  assert (_dispatch_source_invoke kq ds w = Ret 0 w1) as Hi.
  { unfold _dispatch_source_invoke, source_invoke. rewrite (get_src_bind _ _ _ _ Hs), gets_bind, Hin, Hq, Z.eqb_refl. cbn [negb].
    by erewrite bind_step by exact Hm. }
  assert (cancelled s1 = true /\ suspended s1 = false /\ s_targetq s1 = s_targetq s /\ ds_cancel_handler s1 = ds_cancel_handler s /\
    s_ref s1 = s_ref s /\ cancel_call ds s1 = cancel_call ds s) as (Ec & Esu & Et & Eh & Er & Ecall).
  { rewrite <- Hc, <- Hsu. destruct s, s1. unfold core, set_ds_dkev, set_ds_armed, set_ds_state, set_ds_pending, set_ds_data in Ecore.
    simpl in Ecore. injection Ecore as ->. by subst. }
  assert (ds_dkev s1 <> 0) as Hdk by (by apply (g_dk _ G1 _ _ Hd)).
  rewrite (drive_last _ w s w1 s1) by done.
  assert (_dispatch_source_probe s1 = true) as ->.
  { unfold _dispatch_source_probe. by rewrite Hin1, Ec, (proj2 (Z.eqb_neq _ _) Hdk). }
  assert (cancelling (set_queue (s_targetq s1) w1) s1) as C1.
  { split; try done; [by apply graph_ok_queue|congruence..]. }
  destruct (cancel_attached n _ _ C1 Hin1 Hdk) as (w' & Hr & Hd'); [lia|].
  exists w'. split; [exact Hr|]. rewrite <- Ecall. eapply cancel_done_from; [|exact Hd'].
  simpl. by rewrite Elog, calls_app, (calls_quiet evs), app_nil_r.
Qed.

Lemma cancel_fresh n w s :
  cancelling w s -> ds_is_installed s = false -> 2 <= s_ref s ->
  exists w', drive kq (S (S (S (S (S n))))) ds w = Ret tt w' /\ cancel_done w w' ds (cancel_call ds s).
Proof.
  intros C Hin Href. pose proof C as [G Hs Hc Hsu Htq Hh].
  destruct (decide (sw_queue w = _dispatch_mgr_q)) as [Hq|Hq]; [by apply cancel_installs|].
  rewrite (drive_step (S (S (S (S n)))) w s _dispatch_mgr_q w); try done.
  - destruct (cancel_installs n (set_queue _dispatch_mgr_q w) s (cancelling_queue _ _ _ C) Hin Href eq_refl) as (w' & Hr & Hd).
    exists w'. split; [exact Hr|]. by eapply cancel_done_from; [|exact Hd].
  - unfold _dispatch_source_invoke, source_invoke. rewrite (get_src_bind _ _ _ _ Hs), gets_bind, Hin. by rewrite (proj2 (Z.eqb_neq _ _) Hq).
Qed.
End cancel.


(** ** Creation *)

(** Every object was allocated below the break. *)
Definition fresh_brk (w : sworld) : Prop :=
  0 < sw_brk w /\ (forall k, is_Some (sw_dk w !! k) -> k < sw_brk w) /\ (forall x, is_Some (sw_src w !! x) -> x < sw_brk w).

(** A new source with a kevent of its own. *)
Section created.
Context (w w' : sworld) (G : graph_ok w) (ds k : Z) (s : source) (d : dkevent).
Context (Hds : sw_src w !! ds = None) (Hk : sw_dk w !! k = None) (Hk0 : k <> 0).
Context (Hsk : ds_dkev s = k) (Hin : ds_is_installed s = false).
Context (Hd : dk_sources d = []) (Hu : ke_udata (dk_kevent d) = k) (Hm : ke_fflags (dk_kevent d) = u32 (ds_pending_data_mask s)).
Context (Es : sw_src w' = <[ds:=s]> (sw_src w)) (Ed : sw_dk w' = <[k:=d]> (sw_dk w)) (Eb : sw_buckets w' = sw_buckets w).

Lemma created_listed j : listed w' j <-> listed w j.
Proof. unfold listed, bucket. by rewrite Eb. Qed.
Lemma created_not_listed : ~ listed w k.
Proof. intros (h & Hh). destruct (g_bucket _ G _ _ Hh) as (d' & Hd' & _). congruence. Qed.
Lemma created_dk j : listed w j -> sw_dk w' !! j = sw_dk w !! j.
Proof. intros Hj. rewrite Ed, lookup_insert_ne; [done|]. intros <-. by apply created_not_listed. Qed.

Lemma created_table : table_ok w'.
Proof.
  assert (forall h, bucket h w' = bucket h w) as Eb' by (intros; unfold bucket; by rewrite Eb). split.
  - intros h j Hj. rewrite Eb' in Hj. rewrite created_dk by (by exists h). by apply (g_bucket _ G).
  - intros h. rewrite Eb'. apply G.
  - intros j j' dj dj' Lj Lj'. rewrite created_listed in Lj, Lj'. rewrite !created_dk by done. by apply (g_unique _ G).
  - intros j dj. rewrite Ed. destruct (decide (j = k)) as [->|Hj]; [|rewrite lookup_insert_ne by done; apply (g_dk _ G)].
    rewrite lookup_insert_eq. intros [= <-]. rewrite Hd. split_and!; [done..|constructor].
Qed.

Lemma created_links : links_ok w'.
Proof.
  split.
  - intros j dj x. rewrite Ed, Es. destruct (decide (j = k)) as [->|Hj].
    + rewrite lookup_insert_eq. intros [= <-]. rewrite Hd. set_solver.
    + rewrite lookup_insert_ne by done. intros Hdj Hx. destruct (g_sources _ G _ _ _ Hdj Hx) as (sx & Hsx & ?).
      rewrite lookup_insert_ne by congruence. eauto.
  - intros x sx. rewrite Es. destruct (decide (x = ds)) as [->|Hx]; [rewrite lookup_insert_eq; intros [= <-]; congruence|].
    rewrite lookup_insert_ne by done. intros Hsx Hi Hn. destruct (g_installed _ G _ _ Hsx Hi Hn) as (e & He & Hxe & Le).
    exists e. by rewrite created_dk, created_listed.
  - intros j dj Lj. rewrite created_listed in Lj. rewrite created_dk by done. intros Hdj Hc. rewrite (g_masks _ G j dj Lj Hdj Hc).
    symmetry. apply masks_ext. intros x Hx. destruct (g_sources _ G _ _ _ Hdj Hx) as (sx & Hsx & _).
    unfold mask_of. rewrite Es, lookup_insert_ne by congruence. done.
  - intros x sx. rewrite Es, Ed. destruct (decide (x = ds)) as [->|Hx].
    + rewrite lookup_insert_eq. intros [= <-] _. exists d. rewrite Hsk, lookup_insert_eq, created_listed. split_and!; try done.
      apply created_not_listed.
    + rewrite lookup_insert_ne by done. intros Hsx Hi. destruct (g_own _ G _ _ Hsx Hi) as (e & He & ?). exists e.
      rewrite created_listed, lookup_insert_ne; [done|congruence].
  - intros x y sx sy. rewrite Es. destruct (decide (x = ds)) as [->|Hx], (decide (y = ds)) as [->|Hy]; try done;
      rewrite ?lookup_insert_eq, ?lookup_insert_ne by done; intros H1 H2 I1 I2 E.
    + injection H1 as <-. destruct (g_own _ G _ _ H2 I2) as (e & He & _). congruence.
    + injection H2 as <-. destruct (g_own _ G _ _ H1 I1) as (e & He & _). congruence.
    + by apply (g_own_inj _ G x y sx sy).
Qed.

Lemma created_ok : graph_ok w'.
Proof. split; [apply created_table|apply created_links]. Qed.
End created.

(** What a new source looks like: suspended, referenced by the client and by the manager queue, not installed, level or adding or
    neither as its type says. *)
Definition new_source (type : source_type) (handle mask q dk : Z) : source :=
  let level := has (Z.lor EV_DISPATCH EV_ONESHOT) (ke_flags (ty_opaque type)) in
  Source 2 1 2 q 0 dk 0 0 0 level (negb level && negb (has EV_CLEAR (ke_flags (ty_opaque type)))) false
    (level || ty_timer type) false 0 0 0 (Z.lor (ke_fflags (ty_opaque type)) (u32 mask)) handle
    (if ty_timer type then TimerSource 0 0 0 0 mask else TimerSource 0 0 0 0 0).


(** ** The table at the start, and examples *)

Definition init_world (q : Z) : sworld :=
  let '(dk, buckets) := _dispatch_source_init_tail_queue_array in
  SWorld ∅ dk buckets ∅ ∅ ∅ ∅ false q 4096 [].

Lemma init_bucket q h :
  bucket h (init_world q) =
    if decide (h = 0) then [_dispatch_kevent_timer 0; _dispatch_kevent_data_or; _dispatch_kevent_data_add]
    else if decide (h = 1) then [_dispatch_kevent_timer 1] else [].
Proof.
  unfold bucket. simpl. case_decide as H0; [by subst|]. case_decide as H1; [by subst|].
  rewrite !lookup_insert_ne by done. done.
Qed.
Lemma init_dk q k d :
  sw_dk (init_world q) !! k = Some d ->
  k ∈ [_dispatch_kevent_timer 0; _dispatch_kevent_timer 1; _dispatch_kevent_data_or; _dispatch_kevent_data_add] /\
  ke_udata (dk_kevent d) = k /\ dk_sources d = [] /\ custom_filter (ke_filter (dk_kevent d)) = true.
Proof.
  simpl. intros H. repeat (apply lookup_insert_Some in H as [[<- <-]|[_ H]]; [split_and!; (done || set_solver)|]). done.
Qed.

Lemma init_graph_ok q : graph_ok (init_world q).
Proof.
  assert (forall k, listed (init_world q) k -> k = _dispatch_kevent_timer 0 \/ k = _dispatch_kevent_timer 1 \/
    k = _dispatch_kevent_data_or \/ k = _dispatch_kevent_data_add) as Hl.
  { intros k (h & Hh). rewrite init_bucket in Hh. repeat case_decide; set_solver. }
  split; split; try done.
  - intros h k. rewrite init_bucket. repeat case_decide; intros Hk; [| |set_solver].
    + subst h. assert (k = _dispatch_kevent_timer 0 \/ k = _dispatch_kevent_data_or \/ k = _dispatch_kevent_data_add)
        as [-> | [-> | ->]] by set_solver; eexists; split; reflexivity.
    + apply list_elem_of_singleton in Hk as ->. subst h. eexists. split; reflexivity.
  - intros h. rewrite init_bucket. repeat case_decide; apply (bool_decide_unpack _); vm_compute; done.
  - intros k k' d d' Lk Lk' Hd Hd' E. destruct (Hl _ Lk) as [-> | [-> | [-> | ->]]], (Hl _ Lk') as [-> | [-> | [-> | ->]]]; try done;
      simpl in Hd, Hd'; vm_compute in Hd; vm_compute in Hd'; simplify_eq/=.
  - intros k d Hd. destruct (init_dk _ _ _ Hd) as (Hk & Hu & -> & _). split_and!; [|done|constructor].
    intros ->. set_solver.
  - intros k d x Hd Hx. destruct (init_dk _ _ _ Hd) as (_ & _ & E & _). rewrite E in Hx. set_solver.
  - intros k d _ Hd. destruct (init_dk _ _ _ Hd) as (_ & _ & _ & ->). done.
Qed.

(** A kernel that accepts everything, with a receipt. *)
Definition ex_kernel : kernel := fun _ ke =>
  Some (Kevent (ke_ident ke) (ke_filter ke) (Z.lor (ke_flags ke) EV_ERROR) (ke_fflags ke) 0 (ke_udata ke)).
Lemma ex_kernel_ok : kernel_ok ex_kernel.
Proof. by intros asked ke r [= <-]. Qed.

(** A READ source of descriptor 5 with both handlers, as it is created and then installed. *)
Definition ex_source (installed : bool) (flags : Z) : source :=
  Source 2 1 0 600 77 8192 11 77 12 true false installed true false flags 0 0 0 5 (TimerSource 0 0 0 0 0).
Definition ex_own : dkevent := Dkevent (Kevent 5 EVFILT_READ 0x85 0 0 8192) [].
Definition ex_created (flags : Z) : sworld :=
  let w := init_world 600 in
  set_src (insert 4096 (ex_source false flags)) (set_dk (insert 8192 ex_own) w).
Definition ex_installed (flags : Z) : sworld :=
  let w := ex_created flags in
  set_src (insert 4096 (ex_source true flags))
    (set_dk (insert 8192 (Dkevent (dk_kevent ex_own) [4096])) (set_buckets (insert 5 [8192]) w)).

Lemma ex_created_ok flags : graph_ok (ex_created flags).
Proof. by apply (created_ok (init_world 600) _ (init_graph_ok 600) 4096 8192 (ex_source false flags) ex_own). Qed.
Lemma ex_installed_ok flags : graph_ok (ex_installed flags).
Proof.
  apply (install_inserted (ex_created flags) (ex_created_ok flags) 4096 (ex_source false flags) ex_own); try done.
  - intros k d (h & Hh) Hd E. change (bucket h (ex_created flags)) with (bucket h (init_world 600)) in Hh.
    rewrite init_bucket in Hh. simpl in Hd. rewrite lookup_insert_ne in Hd by (repeat case_decide; set_solver).
    destruct (init_dk 600 k d Hd) as (_ & _ & _ & Hc). injection E as _ Ef. by rewrite Ef in Hc.
Qed.




Lemma level_event_delivered_witness :
  exists w' evs,
    (_dispatch_source_merge_kevent 4096 (Kevent 5 EVFILT_READ 0 0 0 8192);; modify (set_queue 600);;
     q ← _dispatch_source_invoke ex_kernel 4096; modify (set_queue q);;
     _dispatch_source_invoke ex_kernel 4096) (ex_installed 0) = Ret 0 w' /\
    sw_log w' = [EvWake 4096; EvHandler 4096 11 77 0 600] ++ evs.
Proof.
  destruct (level_event_delivered ex_kernel (ex_installed 0) 4096 (ex_source true 0) (Kevent 5 EVFILT_READ 0 0 0 8192)
    ex_kernel_ok (ex_installed_ok 0) eq_refl eq_refl ltac:(discriminate) eq_refl eq_refl eq_refl ltac:(discriminate) eq_refl
    ltac:(simpl; lia)) as (w' & s' & evs & Hrun & _ & _ & _ & _ & Hlog & _).
  exists w', evs. split; [exact Hrun|exact Hlog].
Defined.


(** A custom source of one of the two static kevents. *)
Definition ex_custom (adder : bool) (mask : Z) : source :=
  Source 2 1 0 600 77 (if adder then _dispatch_kevent_data_add else _dispatch_kevent_data_or) 11 77 0 false adder true false true 0
    0 0 mask 0 (TimerSource 0 0 0 0 0).
Definition ex_custom_world (adder : bool) (mask : Z) : sworld := set_src (insert 4096 (ex_custom adder mask)) (init_world 600).

Lemma add_source_coalesces_witness :
  exists w' s', (merge_datas 4096 [3; 4; 5];; _dispatch_source_invoke (fun _ _ => None) 4096) (ex_custom_world true 0) = Ret 0 w' /\
    sw_src w' !! 4096 = Some s' /\ sw_log w' = [EvWake 4096; EvWake 4096; EvWake 4096; EvHandler 4096 11 77 12 600].
Proof.
  destruct (add_source_coalesces (fun _ _ => None) (ex_custom_world true 0) 4096 (ex_custom true 0)
    (Dkevent (Kevent 0 DISPATCH_EVFILT_CUSTOM_ADD 0 0 0 _dispatch_kevent_data_add) []) [3; 4; 5]) as (w' & s' & H1 & H2 & _ & H4);
    [split; (reflexivity || discriminate)|reflexivity|reflexivity|].
  exists w', s'. split; [exact H1|]. split; [exact H2|]. rewrite H4. reflexivity.
Defined.

Lemma or_source_coalesces_witness :
  exists w' data, (merge_datas 4096 [1; 4];; _dispatch_source_invoke (fun _ _ => None) 4096) (ex_custom_world false 0xffffffff) = Ret 0 w' /\
    sw_log w' = [EvWake 4096; EvWake 4096; EvHandler 4096 11 77 data 600] /\ Z.testbit data 2 = true.
Proof.
  destruct (or_source_coalesces (fun _ _ => None) (ex_custom_world false 0xffffffff) 4096 (ex_custom false 0xffffffff)
    (Dkevent (Kevent 0 DISPATCH_EVFILT_CUSTOM_OR EV_CLEAR 0 0 _dispatch_kevent_data_or) []) [1; 4])
    as (w' & s' & data & H1 & _ & _ & H4 & Hbits);
    [split; (reflexivity || discriminate)|reflexivity|reflexivity|reflexivity
    |repeat constructor; vm_compute; discriminate|discriminate|repeat constructor; discriminate|].
  exists w', data. split; [exact H1|]. split; [rewrite H4; reflexivity|]. apply Hbits; [lia|]. exists 4. split; [set_solver|reflexivity].
Defined.

(** ** The descriptors that select() watches *)

(** taking the READ kevent of a descriptor off the kernel, when only writing was given to select(), removes the descriptor
    from the set for writing and tells the kernel nothing: the case for reading falls through to the one for writing. *)
Theorem delete_read_drops_write kq w ke :
  has (ke_flags ke) EV_DELETE = true -> ke_filter ke = EVFILT_READ -> ke_ident ke ∉ sw_rfds w -> ke_ident ke ∈ sw_wfds w ->
  exists w', _dispatch_update_kq kq ke w = Ret tt w' /\ ke_ident ke ∉ sw_wfds w' /\
    sw_wptr w' !! ke_ident ke = Some 0 /\ sw_log w' = sw_log w.
Proof.
  intros Hdel Hf Hr Hw. unfold _dispatch_update_kq, update_kq_delete.
  assert (has (ke_flags (set_ke_flags (Z.lor (ke_flags ke) EV_RECEIPT) ke)) EV_DELETE = true) as ->.
  { unfold has in *. rewrite negb_true_iff, Z.eqb_neq in *. simpl. rewrite Z.land_lor_distr_l, Z.lor_eq_0_iff. naive_solver. }
  rewrite bind_assoc, (bind_step get _ w w w) by done. cbn [ke_filter set_ke_flags ke_ident]. rewrite Hf.
  rewrite bool_decide_false, bool_decide_true by done. simpl. eexists. split; [done|]. simpl.
  split_and!; [set_solver|apply lookup_insert_eq|done].
Qed.

Lemma delete_read_drops_write_witness :
  exists w', _dispatch_update_kq ex_kernel (Kevent 5 EVFILT_READ EV_DELETE 0 0 8192)
      (set_wset {[5]} {[5:=8192]} true (init_world 600)) = Ret tt w' /\ 5 ∉ sw_wfds w'.
Proof.
  destruct (delete_read_drops_write ex_kernel (set_wset {[5]} {[5:=8192]} true (init_world 600))
    (Kevent 5 EVFILT_READ EV_DELETE 0 0 8192) eq_refl eq_refl) as (w' & Hrun & Hn & _); [set_solver|set_solver|].
  exists w'. split; [exact Hrun|exact Hn].
Defined.
