(* ===== verification/Manager.v ===== *)
(** * The loop of the manager queue

    One round of _dispatch_mgr_invoke (queue_kevent.c): fire the timers, compute the timeout, wait in select() when some
    descriptor needs it, then in kevent(2), and deliver what happened.  The system calls are parameters. *)

From S2P Require Import Prelude DispatchTime DispatchSource TimerList TimerSource SourceTable SourceEvents.
From stdpp Require Import base tactics list numbers gmap strings sorting.
From Stdlib Require Import ZArith Lia.

Local Open Scope Z_scope.

Definition FD_SETSIZE : Z := 1024.

(** What select() and kevent(2) return. *)
Inductive select_result := SelFail (errno : Z) | SelReady (r : Z) (rfds wfds : gset Z).
Inductive wait_result := KFail (errno : Z) | KEvents (kev : list kevent).

Section round.
Context (kq : kernel).
Context (sys_select : option timeval -> gset Z -> gset Z -> select_result).
Context (sys_dup : Z -> bool).                              (* dup(2) succeeds *)
Context (sys_wait : option timespec -> wait_result).
Context (kqfd : Z).                                         (* _dispatch_get_kq() *)
Context (drain : SM unit).                                  (* _dispatch_queue_serial_drain_till_empty(&_dispatch_mgr_q) *)

Fixpoint for_fds (body : Z -> SM unit) (l : list Z) : SM unit :=
  match l with [] => mret tt | i :: l => body i;; for_fds body l end.

(** After EBADF: forget the descriptors that were closed. *)
Definition mgr_forget_closed (i : Z) : SM unit :=
  if i =? kqfd then mret tt
  else
    w ← get;
    if negb (bool_decide (i ∈ sw_rfds w)) && negb (bool_decide (i ∈ sw_wfds w)) then mret tt
    else if sys_dup i then mret tt
    else
      modify (fun w => set_rset (sw_rfds w ∖ {[i]}) (<[i:=0]> (sw_rptr w)) (sw_select w) w);;
      modify (fun w => set_wset (sw_wfds w ∖ {[i]}) (<[i:=0]> (sw_wptr w)) (sw_select w) w).

(** A descriptor that is ready: out of the set, which emulates EV_DISABLE, and delivered. *)
Definition mgr_deliver_fd (tmp_rfds tmp_wfds : gset Z) (i : Z) : SM unit :=
  if i =? kqfd then mret tt
  else
    (if bool_decide (i ∈ tmp_rfds) then
       w ← get;
       modify (set_rset (sw_rfds w ∖ {[i]}) (<[i:=0]> (sw_rptr w)) (sw_select w));;
       _dispatch_mgr_thread2 drain
         [Kevent i EVFILT_READ (Z.lor EV_ADD (Z.lor EV_ENABLE EV_DISPATCH)) 0 1 (default 0 (sw_rptr w !! i))]
     else mret tt);;
    (if bool_decide (i ∈ tmp_wfds) then
       w ← get;
       modify (set_wset (sw_wfds w ∖ {[i]}) (<[i:=0]> (sw_wptr w)) (sw_select w));;
       _dispatch_mgr_thread2 drain
         [Kevent i EVFILT_WRITE (Z.lor EV_ADD (Z.lor EV_ENABLE EV_DISPATCH)) 0 1 (default 0 (sw_wptr w !! i))]
     else mret tt).

(** The select() workaround; None is the continue of the loop. *)
Definition mgr_select (timeoutp : option timespec) : SM (option (option timespec)) :=
  w ← get;
  let sel_timeout := (fun ts => Timeval (tv_sec ts) (tv_nsec ts / 1000)) <$> timeoutp in
  match sys_select sel_timeout (sw_rfds w) (sw_wfds w) with
  | SelFail errno =>
      (if negb (errno =? EBADF) then mret tt else for_fds mgr_forget_closed (seqZ 0 FD_SETSIZE));; mret None
  | SelReady r tmp_rfds tmp_wfds =>
      (if r >? 0 then for_fds (mgr_deliver_fd tmp_rfds tmp_wfds) (seqZ 0 FD_SETSIZE) else mret tt);;
      mret (Some (Some (Timespec 0 0)))
  end.

(** kevent(2) and the switch on its result. *)
Definition mgr_wait (timeoutp : option timespec) : SM unit :=
  match sys_wait timeoutp with
  | KFail errno => if errno =? EBADF then crash "Do not close random Unix descriptors" else mret tt
  | KEvents [] => mret tt
  | KEvents kev => _dispatch_mgr_thread2 drain kev
  end.

Definition _dispatch_mgr_round (fuel : nat) (clk : host_clock) : SM unit :=
  _dispatch_run_timers kq fuel clk;;
  timeoutp ← _dispatch_get_next_timer_fire clk;
  sel ← gets sw_select;
  timeoutp ← (if (sel : bool) then mgr_select timeoutp else mret (Some timeoutp));
  match timeoutp with None => mret tt | Some timeoutp => mgr_wait timeoutp end.
End round.

(** ** The timeout *)

Section theorems.
Context (kq : kernel) (sys_select : option timeval -> gset Z -> gset Z -> select_result).
Context (sys_dup : Z -> bool) (sys_wait : option timespec -> wait_result) (kqfd : Z) (drain : SM unit).

Lemma not_due_left w l now t i :
  clock_list i w l -> (forall x, x ∈ l -> ~ due w now x) -> waits w l t -> 0 < time_left now t.
Proof.
  intros [_ [_ _ Hsrc]] Hnd (x & s & Hx & Hs & _ & <- & Hn0). specialize (Hnd x Hx). unfold due in Hnd.
  rewrite (target_of_src _ _ _ Hs) in Hnd. destruct (Hsrc x Hx) as (s' & Hs' & _ & _ & _ & [Hr _] & _).
  rewrite Hs in Hs'. injection Hs' as <-. unfold time_left. lia.
Qed.

(** What a round does once the timers are fired and the timeout is known. *)
Definition mgr_rest (timeoutp : option timespec) : SM unit :=
  sel ← gets sw_select;
  timeoutp ← (if (sel : bool) then mgr_select sys_select sys_dup kqfd drain timeoutp else mret (Some timeoutp));
  match timeoutp with None => mret tt | Some timeoutp => mgr_wait sys_wait drain timeoutp end.

End theorems.


(** ** Descriptors that were closed *)

Section closed.
Context (sys_dup : Z -> bool) (kqfd : Z).

(** What one descriptor keeps of a set. *)
Definition keeps (i x : Z) : Prop := x <> i \/ i = kqfd \/ sys_dup i = true.

Lemma forget_closed_run w i :
  exists w', mgr_forget_closed sys_dup kqfd i w = Ret tt w' /\ sw_src w' = sw_src w /\ sw_dk w' = sw_dk w /\ sw_log w' = sw_log w /\
    (forall x, x ∈ sw_rfds w' <-> x ∈ sw_rfds w /\ keeps i x) /\ (forall x, x ∈ sw_wfds w' <-> x ∈ sw_wfds w /\ keeps i x).
Proof.
  unfold mgr_forget_closed, keeps. destruct (Z.eqb_spec i kqfd) as [->|Hne]; [exists w; naive_solver|].
  rewrite (bind_step get _ w w w) by done. repeat case_bool_decide; cbn [negb andb].
  4: { exists w. split_and!; try done; intros x; destruct (decide (x = i)); naive_solver. }
  all: destruct (sys_dup i); [exists w; naive_solver|]; rewrite modify_bind; eexists; (split; [done|]); simpl; set_solver.
Qed.

Lemma for_fds_forget l w :
  exists w', for_fds (mgr_forget_closed sys_dup kqfd) l w = Ret tt w' /\
    sw_src w' = sw_src w /\ sw_dk w' = sw_dk w /\ sw_log w' = sw_log w /\
    (forall x, x ∈ sw_rfds w' <-> x ∈ sw_rfds w /\ (x ∈ l -> x = kqfd \/ sys_dup x = true)) /\
    (forall x, x ∈ sw_wfds w' <-> x ∈ sw_wfds w /\ (x ∈ l -> x = kqfd \/ sys_dup x = true)).
Proof.
  induction l as [|i l IH] in w |- *; simpl; [exists w; set_solver|].
  destruct (forget_closed_run w i) as (w1 & H1 & A1 & B1 & C1 & R1 & W1). erewrite bind_step by exact H1.
  destruct (IH w1) as (w2 & H2 & A2 & B2 & C2 & R2 & W2). exists w2. split; [done|]. rewrite A2, B2, C2. split_and!; try done.
  - intros x. rewrite R2, R1. unfold keeps. rewrite elem_of_cons. destruct (decide (x = i)) as [->|]; naive_solver.
  - intros x. rewrite W2, W1. unfold keeps. rewrite elem_of_cons. destruct (decide (x = i)) as [->|]; naive_solver.
Qed.

(** when select() fails with EBADF, the descriptors that are no longer open leave both sets and every other one stays; the
    round starts again and no source is disturbed. *)
Theorem select_forgets_closed sys_select drain w t :
  (forall sel r wr, sys_select sel r wr = SelFail EBADF) ->
  exists w', mgr_select sys_select sys_dup kqfd drain t w = Ret None w' /\ sw_src w' = sw_src w /\ sw_log w' = sw_log w /\
    (forall x, 0 <= x < FD_SETSIZE -> x ∈ sw_rfds w' <-> x ∈ sw_rfds w /\ (x = kqfd \/ sys_dup x = true)) /\
    (forall x, 0 <= x < FD_SETSIZE -> x ∈ sw_wfds w' <-> x ∈ sw_wfds w /\ (x = kqfd \/ sys_dup x = true)).
Proof.
  intros Hsel. unfold mgr_select. rewrite (bind_step get _ w w w), Hsel by done.
  destruct (for_fds_forget (seqZ 0 FD_SETSIZE) w) as (w' & Hrun & A & _ & C & R & W).
  exists w'. cbn [Z.eqb negb EBADF]. erewrite bind_step by exact Hrun. split_and!; try done; intros x Hx.
  - rewrite R, elem_of_seqZ. split; intros [H1 H2]; (split; [done|]); [apply H2; lia|done].
  - rewrite W, elem_of_seqZ. split; intros [H1 H2]; (split; [done|]); [apply H2; lia|done].
Qed.
End closed.

Lemma select_forgets_closed_witness :
  exists w', mgr_select (fun _ _ _ => SelFail EBADF) (fun i => i =? 5) 3 (mret tt) None
      (set_rset {[5; 6]} ∅ true (init_world _dispatch_mgr_q)) = Ret None w' /\ 5 ∈ sw_rfds w' /\ 6 ∉ sw_rfds w'.
Proof.
  destruct (select_forgets_closed (fun i => i =? 5) 3 (fun _ _ _ => SelFail EBADF) (mret tt)
    (set_rset {[5; 6]} ∅ true (init_world _dispatch_mgr_q)) None (fun _ _ _ => eq_refl)) as (w' & Hrun & _ & _ & R & _).
  exists w'. split; [exact Hrun|]. split.
  - apply R; [unfold FD_SETSIZE; lia|]. split; [set_solver|right; reflexivity].
  - rewrite R by (unfold FD_SETSIZE; lia). intros [_ [H|H]]; discriminate H.
Defined.
