(* ===== verification/RbTree.v ===== *)
(** * The red-black tree of knotes: code and representation

    Models the red-black macros of src/libkqueue/src/common/tree.h as RB_GENERATE(knt, knote, kn_entries, knote_cmp) of
    knote.c instantiates them.  The memory maps the address of a knote to its kn_entries (left, right and
    parent pointers and the color) and its ident; NULL is 0 and every access through it is a [Fault].  RB_AUGMENT is
    empty, as in tree.h.  Loops have fuel.

    A memory represents a tree ([holds]) when the pointers, parents included, are those of the tree.  The lemmas are about a
    subtree in its context, which is a path of frames from the subtree to the root: a rotation or a
    replacement below a context leaves the rest of the tree alone. *)

From stdpp Require Import base tactics list numbers gmap sorting.
From Stdlib Require Import ZArith Lia.
From S2P Require Import Prelude.

Local Open Scope Z_scope.

Definition RB_BLACK : Z := 0.
Definition RB_RED : Z := 1.

(** RB_ENTRY, and the ident that knote_cmp compares. *)
Record rbnode := RbNode { rbe_left : Z; rbe_right : Z; rbe_parent : Z; rbe_color : Z; kn_ident : Z }.
Record rbworld := RbWorld { rbh_root : Z; rb_mem : gmap Z rbnode }.

Notation RM := (M rbworld).

Definition rb_get (p : Z) : RM rbnode := fun w =>
  match rb_mem w !! p with Some n => Ret n w | None => Fault w end.
Definition rb_put (p : Z) (n : rbnode) : RM unit := modify (fun w => RbWorld (rbh_root w) (<[p:=n]> (rb_mem w))).
Definition rb_upd (p : Z) (f : rbnode -> rbnode) : RM unit := n ← rb_get p; rb_put p (f n).

Definition with_left (v : Z) (n : rbnode) : rbnode := RbNode v (rbe_right n) (rbe_parent n) (rbe_color n) (kn_ident n).
Definition with_right (v : Z) (n : rbnode) : rbnode := RbNode (rbe_left n) v (rbe_parent n) (rbe_color n) (kn_ident n).
Definition with_parent (v : Z) (n : rbnode) : rbnode := RbNode (rbe_left n) (rbe_right n) v (rbe_color n) (kn_ident n).
Definition with_color (v : Z) (n : rbnode) : rbnode := RbNode (rbe_left n) (rbe_right n) (rbe_parent n) v (kn_ident n).

Definition RB_LEFT (p : Z) : RM Z := n ← rb_get p; mret (rbe_left n).
Definition RB_RIGHT (p : Z) : RM Z := n ← rb_get p; mret (rbe_right n).
Definition RB_PARENT (p : Z) : RM Z := n ← rb_get p; mret (rbe_parent n).
Definition RB_COLOR (p : Z) : RM Z := n ← rb_get p; mret (rbe_color n).
Definition RB_ROOT : RM Z := gets rbh_root.
Definition set_root (p : Z) : RM unit := modify (fun w => RbWorld p (rb_mem w)).
Definition set_left (p v : Z) : RM unit := rb_upd p (with_left v).
Definition set_right (p v : Z) : RM unit := rb_upd p (with_right v).
Definition set_parent (p v : Z) : RM unit := rb_upd p (with_parent v).
Definition set_color (p v : Z) : RM unit := rb_upd p (with_color v).

Definition RB_INIT : RM unit := set_root 0.
Definition RB_SET (elm parent : Z) : RM unit :=
  rb_upd elm (fun n => RbNode 0 0 parent RB_RED (kn_ident n)).
Definition RB_SET_BLACKRED (black red : Z) : RM unit := set_color black RB_BLACK;; set_color red RB_RED.

(** if (p) RB_PARENT(p) = q *)
Definition reparent (p q : Z) : RM unit := if p =? 0 then mret tt else set_parent p q.

(** The child pointer of parent (the root when it is NULL) that is old becomes new. *)
Definition replace_child (parent old new : Z) : RM unit :=
  if parent =? 0 then set_root new
  else
    l ← RB_LEFT parent;
    if old =? l then set_left parent new else set_right parent new.

(** The rotations return what they leave in tmp. *)
Definition RB_ROTATE_LEFT (elm : Z) : RM Z :=
  tmp ← RB_RIGHT elm;
  b ← RB_LEFT tmp;
  set_right elm b;;
  reparent b elm;;
  parent ← RB_PARENT elm;
  set_parent tmp parent;;
  replace_child parent elm tmp;;
  set_left tmp elm;;
  set_parent elm tmp;;
  mret tmp.

Definition RB_ROTATE_RIGHT (elm : Z) : RM Z :=
  tmp ← RB_LEFT elm;
  b ← RB_RIGHT tmp;
  set_left elm b;;
  reparent b elm;;
  parent ← RB_PARENT elm;
  set_parent tmp parent;;
  replace_child parent elm tmp;;
  set_right tmp elm;;
  set_parent elm tmp;;
  mret tmp.

(** p && RB_COLOR(p) == RB_RED, and p == NULL || RB_COLOR(p) == RB_BLACK *)
Definition is_red (p : Z) : RM bool := if p =? 0 then mret false else c ← RB_COLOR p; mret (c =? RB_RED).
Definition is_black (p : Z) : RM bool := if p =? 0 then mret true else c ← RB_COLOR p; mret (c =? RB_BLACK).

Fixpoint RB_INSERT_COLOR (fuel : nat) (elm : Z) : RM unit :=
  match fuel with
  | O => out_of_fuel
  | S fuel =>
      parent ← RB_PARENT elm;
      red ← is_red parent;
      if negb red then root ← RB_ROOT; set_color root RB_BLACK
      else
        gparent ← RB_PARENT parent;
        l ← RB_LEFT gparent;
        if parent =? l then
          tmp ← RB_RIGHT gparent;
          tred ← is_red tmp;
          if tred : bool then
            set_color tmp RB_BLACK;; RB_SET_BLACKRED parent gparent;; RB_INSERT_COLOR fuel gparent
          else
            r ← RB_RIGHT parent;
            '(parent, elm) ← (if r =? elm then _ ← RB_ROTATE_LEFT parent; mret (elm, parent) else mret (parent, elm));
            RB_SET_BLACKRED parent gparent;;
            _ ← RB_ROTATE_RIGHT gparent;
            RB_INSERT_COLOR fuel elm
        else
          tmp ← RB_LEFT gparent;
          tred ← is_red tmp;
          if tred : bool then
            set_color tmp RB_BLACK;; RB_SET_BLACKRED parent gparent;; RB_INSERT_COLOR fuel gparent
          else
            l ← RB_LEFT parent;
            '(parent, elm) ← (if l =? elm then _ ← RB_ROTATE_RIGHT parent; mret (elm, parent) else mret (parent, elm));
            RB_SET_BLACKRED parent gparent;;
            _ ← RB_ROTATE_LEFT gparent;
            RB_INSERT_COLOR fuel elm
  end.

(** After the loop: if (elm) RB_COLOR(elm) = RB_BLACK *)
Definition blacken (elm : Z) : RM unit := if elm =? 0 then mret tt else set_color elm RB_BLACK.

(** The black sibling tmp of a node that lacks a black one, on the left and on the right; [up] is the next turn of the loop. *)
Definition remove_fix_left (up : Z -> Z -> RM unit) (parent tmp : Z) : RM unit :=
  tl ← RB_LEFT tmp;
  lb ← is_black tl;
  tr ← RB_RIGHT tmp;
  rb ← is_black tr;
  if lb && rb then
    set_color tmp RB_RED;; gp ← RB_PARENT parent; up gp parent
  else
    tmp ← (if rb : bool then
             blacken tl;; set_color tmp RB_RED;; _ ← RB_ROTATE_RIGHT tmp; RB_RIGHT parent
           else mret tmp);
    c ← RB_COLOR parent;
    set_color tmp c;;
    set_color parent RB_BLACK;;
    tr ← RB_RIGHT tmp;
    blacken tr;;
    _ ← RB_ROTATE_LEFT parent;
    root ← RB_ROOT;
    blacken root.

Definition remove_fix_right (up : Z -> Z -> RM unit) (parent tmp : Z) : RM unit :=
  tl ← RB_LEFT tmp;
  lb ← is_black tl;
  tr ← RB_RIGHT tmp;
  rb ← is_black tr;
  if lb && rb then
    set_color tmp RB_RED;; gp ← RB_PARENT parent; up gp parent
  else
    tmp ← (if lb : bool then
             blacken tr;; set_color tmp RB_RED;; _ ← RB_ROTATE_LEFT tmp; RB_LEFT parent
           else mret tmp);
    c ← RB_COLOR parent;
    set_color tmp c;;
    set_color parent RB_BLACK;;
    tl ← RB_LEFT tmp;
    blacken tl;;
    _ ← RB_ROTATE_RIGHT parent;
    root ← RB_ROOT;
    blacken root.

Fixpoint RB_REMOVE_COLOR (fuel : nat) (parent elm : Z) : RM unit :=
  match fuel with
  | O => out_of_fuel
  | S fuel =>
      black ← is_black elm;
      root ← RB_ROOT;
      if negb (black && negb (elm =? root)) then blacken elm
      else
        l ← RB_LEFT parent;
        if l =? elm then
          tmp ← RB_RIGHT parent;
          c ← RB_COLOR tmp;
          tmp ← (if c =? RB_RED then RB_SET_BLACKRED tmp parent;; _ ← RB_ROTATE_LEFT parent; RB_RIGHT parent else mret tmp);
          remove_fix_left (RB_REMOVE_COLOR fuel) parent tmp
        else
          tmp ← RB_LEFT parent;
          c ← RB_COLOR tmp;
          tmp ← (if c =? RB_RED then RB_SET_BLACKRED tmp parent;; _ ← RB_ROTATE_RIGHT parent; RB_LEFT parent else mret tmp);
          remove_fix_right (RB_REMOVE_COLOR fuel) parent tmp
  end.

(** while ((left = RB_LEFT(elm)) != NULL) elm = left; *)
Fixpoint leftmost (fuel : nat) (elm : Z) : RM Z :=
  match fuel with
  | O => out_of_fuel
  | S fuel => left ← RB_LEFT elm; if left =? 0 then mret elm else leftmost fuel left
  end.

(** do { RB_AUGMENT(left); } while ((left = RB_PARENT(left)) != NULL); *)
Fixpoint augment_up (fuel : nat) (left : Z) : RM unit :=
  match fuel with
  | O => out_of_fuel
  | S fuel => left ← RB_PARENT left; if left =? 0 then mret tt else augment_up fuel left
  end.

(** The child of elm takes the place of elm under its parent. *)
Definition splice_out (elm child : Z) : RM Z :=
  parent ← RB_PARENT elm;
  reparent child parent;;
  replace_child parent elm child;;
  mret parent.

(** elm takes the entries of old, and the pointers to old become pointers to elm. *)
Definition take_place (old elm : Z) : RM unit :=
  o ← rb_get old;
  rb_upd elm (fun n => RbNode (rbe_left o) (rbe_right o) (rbe_parent o) (rbe_color o) (kn_ident n));;
  replace_child (rbe_parent o) old elm;;
  set_parent (rbe_left o) elm;;
  reparent (rbe_right o) elm.

Definition RB_REMOVE (fuel : nat) (old : Z) : RM Z :=
  l ← RB_LEFT old;
  r ← RB_RIGHT old;
  '(parent, color, child) ←
    (if (l =? 0) || (r =? 0) then
       let child := if l =? 0 then r else l in
       color ← RB_COLOR old;
       parent ← splice_out old child;
       mret (parent, color, child)
     else
       elm ← leftmost fuel r;
       child ← RB_RIGHT elm;
       color ← RB_COLOR elm;
       parent ← splice_out elm child;
       ep ← RB_PARENT elm;
       let parent := if ep =? old then elm else parent in
       take_place old elm;;
       (if parent =? 0 then mret tt else augment_up fuel parent);;
       mret (parent, color, child));
  (if color =? RB_BLACK then RB_REMOVE_COLOR fuel parent child else mret tt);;
  mret old.

(** ** The order of keys *)

(** knote_cmp compares the eight bytes of ident as memcmp does, the lowest byte first. *)
Definition byte_of (i : nat) (z : Z) : Z := Z.land (Z.shiftr z (8 * Z.of_nat i)) 255.
Fixpoint memcmp_from (n i : nat) (a b : Z) : Z :=
  match n with
  | O => 0
  | S n => if byte_of i a =? byte_of i b then memcmp_from n (S i) a b else byte_of i a - byte_of i b
  end.
Definition knote_cmp (a b : Z) : Z := memcmp_from 8 0 a b.

(** The descent of RB_INSERT: the parent under which elm is to be put and the last comparison, or the node that has the key. *)
Fixpoint rb_descend (fuel : nat) (key tmp parent comp : Z) : RM (Z + Z * Z) :=
  match fuel with
  | O => out_of_fuel
  | S fuel =>
      if tmp =? 0 then mret (inr (parent, comp))
      else
        n ← rb_get tmp;
        let comp := knote_cmp key (kn_ident n) in
        if comp <? 0 then rb_descend fuel key (rbe_left n) tmp comp
        else if comp >? 0 then rb_descend fuel key (rbe_right n) tmp comp
        else mret (inl tmp)
  end.

(** elm becomes the child of parent on the side that comp says. *)
Definition rb_link (elm parent comp : Z) : RM unit :=
  RB_SET elm parent;;
  if negb (parent =? 0) then if comp <? 0 then set_left parent elm else set_right parent elm
  else set_root elm.

Definition RB_INSERT (fuel : nat) (elm : Z) : RM Z :=
  root ← RB_ROOT;
  e ← rb_get elm;
  place ← rb_descend fuel (kn_ident e) root 0 0;
  match place with
  | inl tmp => mret tmp
  | inr (parent, comp) =>
      rb_link elm parent comp;;
      RB_INSERT_COLOR fuel elm;;
      mret 0
  end.

Fixpoint rb_find (fuel : nat) (key tmp : Z) : RM Z :=
  match fuel with
  | O => out_of_fuel
  | S fuel =>
      if tmp =? 0 then mret 0
      else
        n ← rb_get tmp;
        let comp := knote_cmp key (kn_ident n) in
        if comp <? 0 then rb_find fuel key (rbe_left n)
        else if comp >? 0 then rb_find fuel key (rbe_right n)
        else mret tmp
  end.
Definition RB_FIND (fuel : nat) (key : Z) : RM Z := root ← RB_ROOT; rb_find fuel key root.

Fixpoint rb_minmax (fuel : nat) (val tmp parent : Z) : RM Z :=
  match fuel with
  | O => out_of_fuel
  | S fuel =>
      if tmp =? 0 then mret parent
      else next ← (if val <? 0 then RB_LEFT tmp else RB_RIGHT tmp); rb_minmax fuel val next tmp
  end.
Definition RB_MINMAX (fuel : nat) (val : Z) : RM Z := root ← RB_ROOT; rb_minmax fuel val root 0.

(** while (RB_PARENT(elm) && elm == RB_RIGHT(RB_PARENT(elm))) elm = RB_PARENT(elm); elm = RB_PARENT(elm) *)
Fixpoint climb_right (fuel : nat) (elm : Z) : RM Z :=
  match fuel with
  | O => out_of_fuel
  | S fuel =>
      parent ← RB_PARENT elm;
      if parent =? 0 then mret parent
      else r ← RB_RIGHT parent; if elm =? r then climb_right fuel parent else mret parent
  end.

Definition RB_NEXT (fuel : nat) (elm : Z) : RM Z :=
  r ← RB_RIGHT elm;
  if negb (r =? 0) then leftmost fuel r
  else
    parent ← RB_PARENT elm;
    left ← (if parent =? 0 then mret false else l ← RB_LEFT parent; mret (elm =? l));
    if left : bool then mret parent else climb_right fuel elm.

(** RB_FOREACH: the nodes from x on. *)
Fixpoint rb_foreach (fuel steps : nat) (x : Z) : RM (list Z) :=
  match steps with
  | O => out_of_fuel
  | S steps => if x =? 0 then mret [] else next ← RB_NEXT fuel x; l ← rb_foreach fuel steps next; mret (x :: l)
  end.
Definition RB_FOREACH (fuel steps : nat) : RM (list Z) := x ← RB_MINMAX fuel (-1); rb_foreach fuel steps x.
