(* ===== verification/RbHeap.v ===== *)
(** * The red-black tree of knotes: trees in memory

    When a memory represents a tree ([holds]), and what the single operations of RbTree do to the tree: reading
    and coloring a node, the rotations, taking a node out and putting one in its place.  Each lemma is about a subtree below a
    context, a path of frames up to the root. *)

From stdpp Require Import base tactics list numbers gmap.
From Stdlib Require Import ZArith Lia.
From S2P Require Import Prelude RbTree.

Local Open Scope Z_scope.

Inductive color := Red | Black.
#[export] Instance color_eq_dec : EqDecision color.
Proof. solve_decision. Defined.
Definition col (c : color) : Z := match c with Red => RB_RED | Black => RB_BLACK end.

Inductive tree := Leaf | Node (c : color) (l : tree) (a k : Z) (r : tree).

Definition rootp (t : tree) : Z := match t with Leaf => 0 | Node _ _ a _ _ => a end.
Definition color_of (t : tree) : color := match t with Leaf => Black | Node c _ _ _ _ => c end.

Fixpoint inorder (t : tree) : list (Z * Z) :=
  match t with Leaf => [] | Node _ l a k r => inorder l ++ (k, a) :: inorder r end.
Definition addrs (t : tree) : list Z := snd <$> inorder t.

Fixpoint rep (m : gmap Z rbnode) (par : Z) (t : tree) : Prop :=
  match t with
  | Leaf => True
  | Node c l a k r => m !! a = Some (RbNode (rootp l) (rootp r) par (col c) k) /\ rep m a l /\ rep m a r
  end.

(** A frame: the node above the hole and its other child. *)
Inductive frame := FL (c : color) (a k : Z) (r : tree) | FR (c : color) (l : tree) (a k : Z).
Notation ctx := (list frame).

Definition fill (f : frame) (t : tree) : tree :=
  match f with FL c a k r => Node c t a k r | FR c l a k => Node c l a k t end.
Definition frame_addr (f : frame) : Z := match f with FL _ a _ _ | FR _ _ a _ => a end.
Definition frame_color (f : frame) : color := match f with FL c _ _ _ | FR c _ _ _ => c end.
Fixpoint plug (K : ctx) (t : tree) : tree := match K with [] => t | f :: K => plug K (fill f t) end.
Definition ctxp (K : ctx) : Z := match K with [] => 0 | f :: _ => frame_addr f end.

Definition frame_addrs (f : frame) : list Z :=
  match f with FL _ a _ r => a :: addrs r | FR _ l a _ => addrs l ++ [a] end.
Definition ctx_addrs (K : ctx) : list Z := K ≫= frame_addrs.

Record holds (w : rbworld) (t : tree) : Prop := Holds {
  hd_root : rbh_root w = rootp t;
  hd_rep : rep (rb_mem w) 0 t;
  hd_nodup : NoDup (addrs t);
  hd_null : rb_mem w !! 0 = None
}.

(** Distinct addresses, one fact for each pair of lists. *)
Ltac nodups :=
  repeat match goal with
  | H : NoDup (_ ++ _) |- _ => apply NoDup_app in H as (? & ? & ?)
  | H : NoDup (_ :: _) |- _ => apply NoDup_cons in H as [? ?]
  end.

(** ** Addresses and contexts *)

Lemma addrs_node c l a k r : addrs (Node c l a k r) = addrs l ++ a :: addrs r.
Proof. unfold addrs. simpl. by rewrite fmap_app. Qed.

Lemma addrs_plug K : forall t, addrs (plug K t) ≡ₚ ctx_addrs K ++ addrs t.
Proof.
  induction K as [|f K IH]; intros t; [done|]. simpl. rewrite IH. unfold ctx_addrs. simpl.
  destruct f; simpl; rewrite addrs_node, <- ?app_assoc; simpl; solve_Permutation.
Qed.

Lemma ctx_snoc K1 K2 t : plug (K1 ++ K2) t = plug K2 (plug K1 t).
Proof. revert t. induction K1 as [|f K1 IH]; intros t; [done|]. simpl. apply IH. Qed.

Lemma rep_agree m m' t : forall par,
  (forall b, b ∈ addrs t -> m' !! b = m !! b) -> rep m par t -> rep m' par t.
Proof.
  induction t as [|c l IHl a k r IHr]; intros par Hm; [done|]. rewrite addrs_node in Hm. intros (Ha & Hl & Hr).
  split; [rewrite Hm; [done|set_solver]|]. split; [apply IHl|apply IHr]; try done; intros b Hb; apply Hm; set_solver.
Qed.

Lemma rep_elem m t : forall par b, rep m par t -> b ∈ addrs t -> is_Some (m !! b).
Proof.
  induction t as [|c l IHl a k r IHr]; intros par b; [by intros _ ?%elem_of_nil|]. rewrite addrs_node. intros (Ha & Hl & Hr).
  rewrite elem_of_app, elem_of_cons. intros [Hb|[->|Hb]]; eauto.
Qed.

Lemma rep_plug m K : forall t, rep m 0 (plug K t) -> rep m (ctxp K) t.
Proof.
  induction K as [|f K IH]; intros t H; [done|]. simpl in H. apply IH in H. by destruct f; destruct H as (_ & ? & ?).
Qed.

(** Another subtree with the same root in the same context. *)
Lemma rep_plug_same m m' K : forall t t',
  rep m 0 (plug K t) -> rep m' (ctxp K) t' -> rootp t' = rootp t -> (forall b, b ∈ ctx_addrs K -> m' !! b = m !! b) ->
  rep m' 0 (plug K t').
Proof.
  induction K as [|f K IH]; intros t t' H H' Er Hm; [done|]. simpl in *. pose proof (rep_plug _ _ _ H) as Hf.
  unfold ctx_addrs in Hm. simpl in Hm.
  apply (IH (fill f t)); [done| |by destruct f|intros b Hb; apply Hm; set_solver].
  destruct f; simpl in *; destruct Hf as (Ha & Hl & Hr); rewrite Er.
  - split; [rewrite Hm; [done|set_solver]|]. split; [done|]. apply (rep_agree m); [|done]. intros b Hb. apply Hm. set_solver.
  - split; [rewrite Hm; [done|set_solver]|]. split; [|done]. apply (rep_agree m); [|done]. intros b Hb. apply Hm. set_solver.
Qed.

Lemma rootp_plug K : forall t t', rootp t' = rootp t -> rootp (plug K t') = rootp (plug K t).
Proof. induction K as [|f K IH]; intros t t' E; [done|]. simpl. apply IH. by destruct f. Qed.

(** The memory and root after the pointer of the context to its hole was set to [p]. *)
Definition relink (K : ctx) (p : Z) (w : rbworld) : rbworld :=
  match K with
  | [] => RbWorld p (rb_mem w)
  | FL _ a _ _ :: _ => RbWorld (rbh_root w) (alter (with_left p) a (rb_mem w))
  | FR _ _ a _ :: _ => RbWorld (rbh_root w) (alter (with_right p) a (rb_mem w))
  end.

Lemma relink_other K p w b : b ∉ ctx_addrs K -> rb_mem (relink K p w) !! b = rb_mem w !! b.
Proof.
  intros Hb. destruct K as [|[]]; [done| |]; unfold ctx_addrs in Hb; simpl in *; apply lookup_alter_ne; set_solver.
Qed.

(** Another subtree in a context whose pointer was set to its root. *)
Lemma holds_relink w w' K t t' :
  holds w (plug K t) -> rbh_root w' = rbh_root (relink K (rootp t') w) ->
  (forall b, b ∈ ctx_addrs K -> rb_mem w' !! b = rb_mem (relink K (rootp t') w) !! b) ->
  rep (rb_mem w') (ctxp K) t' -> NoDup (addrs (plug K t')) -> rb_mem w' !! 0 = None -> holds w' (plug K t').
Proof.
  intros [Hr Hm Hn H0] Er Em Ht Hn' H0'. destruct K as [|f K]; [by split|].
  pose proof (rep_plug _ K (fill f t) Hm) as Hf. rewrite addrs_plug in Hn. simpl in *.
  unfold ctx_addrs in *. simpl in *. apply NoDup_app in Hn as (Hn & _). apply NoDup_app in Hn as (Hnf & Hfk & _).
  split; [| |done|done].
  - transitivity (rbh_root w); [by destruct f|]. rewrite Hr. apply rootp_plug. by destruct f.
  - apply (rep_plug_same (rb_mem w) _ K (fill f t)); [done| |by destruct f|].
    + destruct f as [c a k r|c l a k]; simpl in *; destruct Hf as (Ha & Hl & Hr').
      * apply NoDup_cons in Hnf as [Hnf _]. split; [rewrite Em by set_solver; by rewrite lookup_alter_eq, Ha|]. split; [done|].
        apply (rep_agree (rb_mem w)); [|done]. intros b Hb. rewrite Em by set_solver. apply lookup_alter_ne. set_solver.
      * apply NoDup_app in Hnf as (_ & Hnf & _). split; [rewrite Em by set_solver; by rewrite lookup_alter_eq, Ha|]. split; [|done].
        apply (rep_agree (rb_mem w)); [|done]. intros b Hb. rewrite Em by set_solver. apply lookup_alter_ne. set_solver.
    + intros b Hb. rewrite Em by set_solver. destruct f; simpl in *; apply lookup_alter_ne; set_solver.
Qed.

(** ** Running through the accessors *)

Definition wput (p : Z) (n : rbnode) (w : rbworld) : rbworld := RbWorld (rbh_root w) (<[p:=n]> (rb_mem w)).

Section run.
Context {B : Type} (f : unit -> RM B).

Lemma rb_get_bind {C} (g : rbnode -> RM C) p n w : rb_mem w !! p = Some n -> (rb_get p ≫= g) w = g n w.
Proof. intros H. unfold rb_get, mbind, M_bind. by rewrite H. Qed.
Lemma RB_LEFT_bind {C} (g : Z -> RM C) p n w : rb_mem w !! p = Some n -> (RB_LEFT p ≫= g) w = g (rbe_left n) w.
Proof. intros H. unfold RB_LEFT. by rewrite bind_assoc, (rb_get_bind _ _ n). Qed.
Lemma RB_RIGHT_bind {C} (g : Z -> RM C) p n w : rb_mem w !! p = Some n -> (RB_RIGHT p ≫= g) w = g (rbe_right n) w.
Proof. intros H. unfold RB_RIGHT. by rewrite bind_assoc, (rb_get_bind _ _ n). Qed.
Lemma RB_PARENT_bind {C} (g : Z -> RM C) p n w : rb_mem w !! p = Some n -> (RB_PARENT p ≫= g) w = g (rbe_parent n) w.
Proof. intros H. unfold RB_PARENT. by rewrite bind_assoc, (rb_get_bind _ _ n). Qed.
Lemma RB_COLOR_bind {C} (g : Z -> RM C) p n w : rb_mem w !! p = Some n -> (RB_COLOR p ≫= g) w = g (rbe_color n) w.
Proof. intros H. unfold RB_COLOR. by rewrite bind_assoc, (rb_get_bind _ _ n). Qed.
Lemma RB_ROOT_bind {C} (g : Z -> RM C) w : (RB_ROOT ≫= g) w = g (rbh_root w) w.
Proof. done. Qed.
Lemma rb_upd_run p g n w : rb_mem w !! p = Some n -> rb_upd p g w = Ret tt (wput p (g n) w).
Proof. intros H. unfold rb_upd. by rewrite (rb_get_bind _ _ n). Qed.
Lemma rb_upd_bind p g n w : rb_mem w !! p = Some n -> (rb_upd p g ≫= f) w = f tt (wput p (g n) w).
Proof. intros H. apply bind_step. by apply rb_upd_run. Qed.
End run.

Lemma wput_eq p n w : rb_mem (wput p n w) !! p = Some n.
Proof. apply lookup_insert_eq. Qed.
Lemma wput_ne p n w q : q <> p -> rb_mem (wput p n w) !! q = rb_mem w !! q.
Proof. intros H. by apply lookup_insert_ne. Qed.

Lemma alter_lookup {A} (g : A -> A) (m : gmap Z A) i x : m !! i = Some x -> alter g i m = <[i:=g x]> m.
Proof. intros H. by rewrite <- (insert_id m i x H) at 1; rewrite alter_insert_eq. Qed.

(** ** The node in focus *)

Lemma focus w K c l a k r :
  holds w (plug K (Node c l a k r)) ->
  rb_mem w !! a = Some (RbNode (rootp l) (rootp r) (ctxp K) (col c) k) /\ a <> 0.
Proof.
  intros [_ Hm _ H0]. apply rep_plug in Hm as (Ha & _). split; [done|]. intros ->. by rewrite Ha in H0.
Qed.

Lemma rootp_null w K t : holds w (plug K t) -> rootp t =? 0 = match t with Leaf => true | _ => false end.
Proof. destruct t as [|c l a k r]; [done|]. intros [_ Ha]%focus. simpl. by apply Z.eqb_neq. Qed.

Lemma distinct w K t : holds w (plug K t) -> NoDup (ctx_addrs K ++ addrs t).
Proof. intros H. rewrite <- addrs_plug. apply H. Qed.

Lemma holds_nodup_same w K t t' : holds w (plug K t) -> addrs t' = addrs t -> NoDup (addrs (plug K t')).
Proof. intros H E. rewrite addrs_plug, E. by eapply distinct. Qed.

Lemma rootp_elem t : rootp t <> 0 -> rootp t ∈ addrs t.
Proof. destruct t; [done|]. intros _. rewrite addrs_node. simpl. set_solver. Qed.

Lemma color_run w K c l a k r c' :
  holds w (plug K (Node c l a k r)) ->
  exists w', set_color a (col c') w = Ret tt w' /\ holds w' (plug K (Node c' l a k r)).
Proof.
  intros H. destruct (focus _ _ _ _ _ _ _ H) as [Ha Ha0]. pose proof (distinct _ _ _ H) as Hn. rewrite addrs_node in Hn.
  pose proof (rep_plug _ _ _ (hd_rep _ _ H)) as (_ & Hl & Hr).
  eexists. split; [by apply rb_upd_run|].
  split; [rewrite <- (rootp_plug K (Node c' l a k r) (Node c l a k r)) by done; apply H| | |].
  - apply (rep_plug_same (rb_mem w) _ K (Node c l a k r)); [apply H| |done|].
    + split; [by rewrite wput_eq|]. split; (apply (rep_agree (rb_mem w)); [|done]); intros b Hb; apply wput_ne; nodups; set_solver.
    + intros b Hb. apply wput_ne. nodups. set_solver.
  - by apply (holds_nodup_same w K (Node c l a k r)).
  - rewrite wput_ne by done. apply H.
Qed.

(** A subtree under another parent. *)
Lemma reparent_run w t p q :
  rep (rb_mem w) p t -> NoDup (addrs t) -> rb_mem w !! 0 = None ->
  exists w', reparent (rootp t) q w = Ret tt w' /\ rep (rb_mem w') q t /\ rbh_root w' = rbh_root w /\
    (forall b, b ∉ addrs t -> rb_mem w' !! b = rb_mem w !! b).
Proof.
  intros Ht Hn H0. unfold reparent. destruct (Z.eqb_spec (rootp t) 0) as [E|E].
  - exists w. split; [done|]. split; [|done]. destruct t as [|c l a k r]; [done|]. simpl in E. subst a.
    destruct Ht as [Ha _]. by rewrite Ha in H0.
  - destruct t as [|c l a k r]; [done|]. destruct Ht as (Ha & Hl & Hr). simpl. rewrite addrs_node in *.
    nodups. eexists. split; [by apply rb_upd_run|]. split; [|split; [done|intros b Hb; apply wput_ne; set_solver]].
    split; [by rewrite wput_eq|]. split; (apply (rep_agree (rb_mem w)); [|done]); intros b Hb; apply wput_ne; set_solver.
Qed.

(** The pointer of a context to its hole. *)
Lemma replace_child_run w K t p w1 :
  holds w (plug K t) -> rootp t <> 0 -> rb_mem w1 !! ctxp K = rb_mem w !! ctxp K ->
  replace_child (ctxp K) (rootp t) p w1 = Ret tt (relink K p w1).
Proof.
  intros H Ht E. unfold replace_child. destruct K as [|f K]; [done|].
  simpl in H. destruct f as [c a k r|c l a k]; simpl in *; destruct (focus _ _ _ _ _ _ _ H) as [Ha Ha0];
    rewrite <- E in Ha; rewrite (proj2 (Z.eqb_neq _ _) Ha0), (RB_LEFT_bind _ _ _ _ Ha); simpl.
  - rewrite Z.eqb_refl. unfold set_left. rewrite (rb_upd_run _ _ _ _ Ha). unfold wput. do 2 f_equal.
    symmetry. by apply alter_lookup.
  - destruct (Z.eqb_spec (rootp t) (rootp l)) as [El|_].
    + exfalso. apply distinct in H. rewrite addrs_node in H. apply NoDup_app in H as (_ & _ & H).
      apply NoDup_app in H as (_ & H & _). apply (H (rootp l)); [apply rootp_elem; congruence|].
      apply list_elem_of_further. rewrite <- El. by apply rootp_elem.
    + unfold set_right. rewrite (rb_upd_run _ _ _ _ Ha). unfold wput. do 2 f_equal. symmetry. by apply alter_lookup.
Qed.

(** Two addresses are different, or an address is not in a list, by the facts of [nodups]. *)
Ltac mem := unfold ctx_addrs in *; simpl; repeat first [rewrite elem_of_app|rewrite elem_of_cons]; first [tauto|intuition congruence].
Ltac apart :=
  intros;
  first
  [ by auto
  | match goal with |- _ ∈ _ => mem end
  | let E := fresh in intros E; try pose proof (eq_sym E);
    repeat match goal with
    | H : _ ∈ _ ++ _ |- _ => apply elem_of_app in H as [H|H]
    | H : _ ∈ _ :: _ |- _ => apply elem_of_cons in H as [H|H]; [pose proof (eq_sym H)|]
    | H : _ ∈ [] |- _ => by apply elem_of_nil in H
    end;
    repeat match goal with
    | E : ?b = ?c, Hb : ?b ∈ ?l |- _ => assert_fails (assert (c ∈ l) by assumption); assert (c ∈ l) by (rewrite <- E; exact Hb)
    end;
    match goal with
    | H : _ ∉ _ |- False => solve [apply H; mem]
    | H : forall x, x ∈ _ -> x ∉ _, Hb : ?b ∈ _ |- False => solve [apply (H b); mem]
    | H : forall x, x ∈ _ -> x ∉ _, Hb : ?b = _ |- False => solve [apply (H b); mem]
    end ].

Lemma relink_root K p w1 w2 : rbh_root w1 = rbh_root w2 -> rbh_root (relink K p w1) = rbh_root (relink K p w2).
Proof. by destruct K as [|[]]. Qed.
Lemma relink_ext K p w1 w2 b : rb_mem w1 !! b = rb_mem w2 !! b -> rb_mem (relink K p w1) !! b = rb_mem (relink K p w2) !! b.
Proof.
  intros E. destruct K as [|[c a k r|c l a k]]; simpl; [done| |];
    (destruct (decide (a = b)) as [->|Hb]; [by rewrite !lookup_alter_eq, E|by rewrite !lookup_alter_ne]).
Qed.
Lemma relink_at w1 w2 K (Hk : forall b, b ∈ ctx_addrs K -> rb_mem w1 !! b = rb_mem w2 !! b) :
  rb_mem w2 !! 0 = None -> rb_mem w1 !! 0 = None -> rb_mem w1 !! ctxp K = rb_mem w2 !! ctxp K.
Proof.
  intros H2 H1. destruct K as [|[] K]; simpl; [by rewrite H1, H2| |]; apply Hk; unfold ctx_addrs; simpl; apart.
Qed.
Lemma relink_null K p w : rb_mem w !! 0 = None -> rb_mem (relink K p w) !! 0 = None.
Proof.
  intros E. destruct K as [|[c a k r|c l a k]]; simpl; [done| |];
    (destruct (decide (a = 0)) as [->|Hb]; [by rewrite lookup_alter_eq, E|by rewrite lookup_alter_ne]).
Qed.
Lemma holds_null w K t : holds w (plug K t) -> 0 ∉ addrs t.
Proof. intros H Hin. destruct (rep_elem _ _ _ _ (rep_plug _ _ _ (hd_rep _ _ H)) Hin) as [n Hn]. by rewrite (hd_null _ _ H) in Hn. Qed.

Lemma rotate_left_run w K cx A x kx cy B y ky C :
  holds w (plug K (Node cx A x kx (Node cy B y ky C))) ->
  exists w', RB_ROTATE_LEFT x w = Ret y w' /\ holds w' (plug K (Node cy (Node cx A x kx B) y ky C)).
Proof.
  intros H. pose proof (distinct _ _ _ H) as Hn. rewrite !addrs_node in Hn. nodups.
  destruct (focus _ _ _ _ _ _ _ H) as [Hx Hx0]. destruct (focus _ (FR cx A x kx :: K) _ _ _ _ _ H) as [Hy Hy0].
  pose proof (rep_plug _ _ _ (hd_rep _ _ H)) as (_ & HA & _ & HB & HC). pose proof (hd_null _ _ H) as Hnull. pose proof (holds_null _ _ _ H) as Hz. rewrite !addrs_node in Hz.
  unfold RB_ROTATE_LEFT. rewrite (RB_RIGHT_bind _ _ _ _ Hx). cbn [rootp rbe_left rbe_right]. rewrite (RB_LEFT_bind _ _ _ _ Hy).
  cbn [rbe_left rbe_right]. unfold set_right. rewrite (rb_upd_bind _ _ _ _ _ Hx). set (w1 := wput x _ w).
  destruct (reparent_run w1 B y x) as (w2 & E2 & R2 & Rt2 & F2);
    [apply (rep_agree (rb_mem w)); [intros; apply wput_ne; apart|done]|done|unfold w1; by rewrite wput_ne|].
  rewrite (bind_step _ _ _ _ _ E2).
  assert (rb_mem w2 !! x = Some (RbNode (rootp A) (rootp B) (ctxp K) (col cx) kx)) as Hx2 by (rewrite F2; [apply wput_eq|apart]).
  assert (rb_mem w2 !! y = rb_mem w !! y) as Hy2 by (rewrite F2; [apply wput_ne; apart|apart]). rewrite Hy in Hy2.
  rewrite (RB_PARENT_bind _ _ _ _ Hx2). unfold set_parent. rewrite (rb_upd_bind _ _ _ _ _ Hy2). set (w3 := wput y _ w2).
  assert (forall b, b ∈ ctx_addrs K -> rb_mem w3 !! b = rb_mem w !! b) as F3.
  { intros b Hb. unfold w3. rewrite wput_ne, F2 by apart. apply wput_ne. apart. }
  assert (rb_mem w3 !! 0 = None) as Hnull3 by (unfold w3; rewrite wput_ne, F2 by apart; unfold w1; by rewrite wput_ne by apart).
  rewrite (bind_step _ _ _ _ _ (replace_child_run w K (Node cx A x kx (Node cy B y ky C)) y w3 H Hx0 (relink_at _ _ _ F3 Hnull Hnull3))).
  set (w4 := relink K y w3).
  assert (rb_mem w4 !! y = Some (RbNode (rootp B) (rootp C) (ctxp K) (col cy) ky)) as Hy4
    by (unfold w4; rewrite relink_other by apart; apply wput_eq).
  unfold set_left. rewrite (rb_upd_bind _ _ _ _ _ Hy4). set (w5 := wput y _ w4).
  assert (rb_mem w5 !! x = Some (RbNode (rootp A) (rootp B) (ctxp K) (col cx) kx)) as Hx5
    by (unfold w5, w4, w3; by rewrite wput_ne, relink_other, wput_ne by apart).
  rewrite (rb_upd_bind _ _ _ _ _ Hx5). eexists. split; [done|].
  assert (forall t p, rep (rb_mem w2) p t -> x ∉ addrs t -> y ∉ addrs t -> (forall b, b ∈ addrs t -> b ∉ ctx_addrs K) ->
    rep (rb_mem (wput x (with_parent y (RbNode (rootp A) (rootp B) (ctxp K) (col cx) kx)) w5)) p t) as Fr.
  { intros t p Ht Hxt Hyt Hk. apply (rep_agree (rb_mem w2)); [|done]. intros b Hb. unfold w5, w4, w3.
    by rewrite !wput_ne, relink_other, wput_ne by apart. }
  apply (holds_relink w _ K (Node cx A x kx (Node cy B y ky C))); [done| | | | |].
  - apply relink_root. exact Rt2.
  - intros b Hb. unfold w5. rewrite !wput_ne by apart. apply relink_ext, F3, Hb.
  - cbn [rep]. split; [unfold w5; by rewrite wput_ne, wput_eq by apart|]. split; [split; [by rewrite wput_eq|]; split|];
      (apply Fr; [|apart..]; first [exact R2|apply (rep_agree (rb_mem w)); [|done]; intros b Hb; rewrite F2 by apart; apply wput_ne; apart]).
  - apply (holds_nodup_same w K _ _ H). by rewrite !addrs_node, <- ?app_assoc.
  - unfold w5. rewrite !wput_ne by apart. by apply relink_null.
Qed.

Lemma rotate_right_run w K cx C x kx cy B y ky A :
  holds w (plug K (Node cx (Node cy A y ky B) x kx C)) ->
  exists w', RB_ROTATE_RIGHT x w = Ret y w' /\ holds w' (plug K (Node cy A y ky (Node cx B x kx C))).
Proof.
  intros H. pose proof (distinct _ _ _ H) as Hn. rewrite !addrs_node in Hn. nodups.
  destruct (focus _ _ _ _ _ _ _ H) as [Hx Hx0]. destruct (focus _ (FL cx x kx C :: K) _ _ _ _ _ H) as [Hy Hy0].
  pose proof (rep_plug _ _ _ (hd_rep _ _ H)) as (_ & (_ & HA & HB) & HC). pose proof (hd_null _ _ H) as Hnull. pose proof (holds_null _ _ _ H) as Hz. rewrite !addrs_node in Hz.
  unfold RB_ROTATE_RIGHT. rewrite (RB_LEFT_bind _ _ _ _ Hx). cbn [rootp rbe_left rbe_right]. rewrite (RB_RIGHT_bind _ _ _ _ Hy).
  cbn [rbe_left rbe_right]. unfold set_left. rewrite (rb_upd_bind _ _ _ _ _ Hx). set (w1 := wput x _ w).
  destruct (reparent_run w1 B y x) as (w2 & E2 & R2 & Rt2 & F2);
    [apply (rep_agree (rb_mem w)); [intros; apply wput_ne; apart|done]|done|unfold w1; by rewrite wput_ne|].
  rewrite (bind_step _ _ _ _ _ E2).
  assert (rb_mem w2 !! x = Some (RbNode (rootp B) (rootp C) (ctxp K) (col cx) kx)) as Hx2 by (rewrite F2; [apply wput_eq|apart]).
  assert (rb_mem w2 !! y = rb_mem w !! y) as Hy2 by (rewrite F2; [apply wput_ne; apart|apart]). rewrite Hy in Hy2.
  rewrite (RB_PARENT_bind _ _ _ _ Hx2). unfold set_parent. rewrite (rb_upd_bind _ _ _ _ _ Hy2). set (w3 := wput y _ w2).
  assert (forall b, b ∈ ctx_addrs K -> rb_mem w3 !! b = rb_mem w !! b) as F3.
  { intros b Hb. unfold w3. rewrite wput_ne, F2 by apart. apply wput_ne. apart. }
  assert (rb_mem w3 !! 0 = None) as Hnull3 by (unfold w3; rewrite wput_ne, F2 by apart; unfold w1; by rewrite wput_ne by apart).
  rewrite (bind_step _ _ _ _ _ (replace_child_run w K (Node cx (Node cy A y ky B) x kx C) y w3 H Hx0 (relink_at _ _ _ F3 Hnull Hnull3))).
  set (w4 := relink K y w3).
  assert (rb_mem w4 !! y = Some (RbNode (rootp A) (rootp B) (ctxp K) (col cy) ky)) as Hy4
    by (unfold w4; rewrite relink_other by apart; apply wput_eq).
  unfold set_right. rewrite (rb_upd_bind _ _ _ _ _ Hy4). set (w5 := wput y _ w4).
  assert (rb_mem w5 !! x = Some (RbNode (rootp B) (rootp C) (ctxp K) (col cx) kx)) as Hx5
    by (unfold w5, w4, w3; by rewrite wput_ne, relink_other, wput_ne by apart).
  rewrite (rb_upd_bind _ _ _ _ _ Hx5). eexists. split; [done|].
  assert (forall t p, rep (rb_mem w2) p t -> x ∉ addrs t -> y ∉ addrs t -> (forall b, b ∈ addrs t -> b ∉ ctx_addrs K) ->
    rep (rb_mem (wput x (with_parent y (RbNode (rootp B) (rootp C) (ctxp K) (col cx) kx)) w5)) p t) as Fr.
  { intros t p Ht Hxt Hyt Hk. apply (rep_agree (rb_mem w2)); [|done]. intros b Hb. unfold w5, w4, w3.
    by rewrite !wput_ne, relink_other, wput_ne by apart. }
  apply (holds_relink w _ K (Node cx (Node cy A y ky B) x kx C)); [done| | | | |].
  - apply relink_root. exact Rt2.
  - intros b Hb. unfold w5. rewrite !wput_ne by apart. apply relink_ext, F3, Hb.
  - cbn [rep]. split; [unfold w5; by rewrite wput_ne, wput_eq by apart|]. split; [|split; [by rewrite wput_eq|]; split];
      (apply Fr; [|apart..]; first [exact R2|apply (rep_agree (rb_mem w)); [|done]; intros b Hb; rewrite F2 by apart; apply wput_ne; apart]).
  - apply (holds_nodup_same w K _ _ H). by rewrite !addrs_node, <- ?app_assoc.
  - unfold w5. rewrite !wput_ne by apart. by apply relink_null.
Qed.

(** ** Taking nodes out and putting them in *)

(** A node with one child at most gives its place to the child; other nodes are not touched. *)
Lemma splice_out_run w K c l a k r t' :
  holds w (plug K (Node c l a k r)) -> (l = Leaf /\ t' = r) \/ (r = Leaf /\ t' = l) ->
  exists w', splice_out a (rootp t') w = Ret (ctxp K) w' /\ holds w' (plug K t') /\
    (forall b, b ∉ addrs (plug K t') -> rb_mem w' !! b = rb_mem w !! b).
Proof.
  intros H Hc. pose proof (distinct _ _ _ H) as Hn. rewrite addrs_node in Hn.
  destruct (focus _ _ _ _ _ _ _ H) as [Ha Ha0]. pose proof (hd_null _ _ H) as Hnull.
  assert (rep (rb_mem w) a t' /\ NoDup (ctx_addrs K ++ addrs t') /\ a ∉ addrs t' /\ a ∉ ctx_addrs K) as (Ht & Hn' & Hat & Hak).
  { pose proof (rep_plug _ _ _ (hd_rep _ _ H)) as (_ & Hl & Hr).
    destruct Hc as [[-> ->]|[-> ->]]; simpl in Hn; nodups; (split; [done|]); (split; [|split; apart]); apply NoDup_app; repeat split; done || apart. }
  unfold splice_out. rewrite (RB_PARENT_bind _ _ _ _ Ha). cbn [rbe_parent]. nodups.
  destruct (reparent_run w t' a (ctxp K)) as (w1 & E1 & R1 & Rt1 & F1); [done|done|done|].
  rewrite (bind_step _ _ _ _ _ E1).
  assert (forall b, b ∈ ctx_addrs K -> rb_mem w1 !! b = rb_mem w !! b) as Fk by (intros b Hb; apply F1; apart).
  assert (rb_mem w1 !! 0 = None) as Hnull1.
  { rewrite F1; [done|]. intros Hz. destruct (rep_elem _ _ _ _ Ht Hz) as [? E]. by rewrite Hnull in E. }
  rewrite (bind_step _ _ _ _ _ (replace_child_run w K (Node c l a k r) (rootp t') w1 H Ha0 (relink_at _ _ _ Fk Hnull Hnull1))).
  eexists. split; [done|]. split.
  - apply (holds_relink w _ K (Node c l a k r)); [done|by apply relink_root| | | |by apply relink_null].
    + intros b Hb. by apply relink_ext, Fk.
    + apply (rep_agree (rb_mem w1)); [|done]. intros b Hb. apply relink_other. apart.
    + rewrite addrs_plug. apply NoDup_app. repeat split; done || apart.
  - intros b Hb. rewrite addrs_plug in Hb. rewrite relink_other by apart. apply F1. apart.
Qed.

(** A node outside the tree takes the place of one with a left child. *)
Lemma take_place_run w K c l a k r b nb :
  holds w (plug K (Node c l a k r)) -> l <> Leaf -> b <> 0 -> b ∉ addrs (plug K (Node c l a k r)) -> rb_mem w !! b = Some nb ->
  exists w', take_place a b w = Ret tt w' /\ holds w' (plug K (Node c l b (kn_ident nb) r)).
Proof.
  intros H Hl Hb0 Hb Hnb. pose proof (distinct _ _ _ H) as Hn. rewrite addrs_plug in Hb. rewrite addrs_node in Hn, Hb. nodups.
  destruct (focus _ _ _ _ _ _ _ H) as [Ha Ha0]. pose proof (hd_null _ _ H) as Hnull.
  pose proof (rep_plug _ _ _ (hd_rep _ _ H)) as (_ & HL & HR). pose proof (holds_null _ _ _ H) as Hz. rewrite addrs_node in Hz.
  unfold take_place. rewrite (rb_get_bind _ _ _ _ Ha). cbn [rbe_left rbe_right rbe_parent rbe_color].
  rewrite (rb_upd_bind _ _ _ _ _ Hnb). set (w1 := wput b _ w).
  assert (forall x, x ∈ ctx_addrs K -> rb_mem w1 !! x = rb_mem w !! x) as Fk by (intros x Hx; apply wput_ne; apart).
  assert (rb_mem w1 !! 0 = None) as Hnull1 by (unfold w1; by rewrite wput_ne).
  rewrite (bind_step _ _ _ _ _ (replace_child_run w K (Node c l a k r) b w1 H Ha0 (relink_at _ _ _ Fk Hnull Hnull1))).
  set (w2 := relink K b w1).
  assert (forall x, x ∉ ctx_addrs K -> x <> b -> rb_mem w2 !! x = rb_mem w !! x) as F2.
  { intros x Hx Hxb. unfold w2. rewrite relink_other by done. by apply wput_ne. }
  destruct (reparent_run w2 l a b) as (w3 & E3 & R3 & Rt3 & F3);
    [apply (rep_agree (rb_mem w)); [intros; apply F2; apart|done]|done|by apply relink_null|].
  unfold reparent in E3. rewrite (rootp_null w (FL c a k r :: K) l H) in E3. destruct l as [|cl ll la lk lr]; [done|].
  rewrite (bind_step _ _ _ _ _ E3). rewrite addrs_node in *.
  destruct (reparent_run w3 r a b) as (w4 & E4 & R4 & Rt4 & F4);
    [apply (rep_agree (rb_mem w)); [intros; rewrite F3 by apart; apply F2; apart|done]|done|
     rewrite F3 by apart; by apply relink_null|].
  exists w4. split; [exact E4|].
  apply (holds_relink w _ K (Node c (Node cl ll la lk lr) a k r)); [done| | | | |].
  - rewrite Rt4, Rt3. by apply relink_root.
  - intros x Hx. rewrite F4, F3 by apart. by apply relink_ext, Fk.
  - cbn [rep]. split; [rewrite F4, F3 by apart; unfold w2; rewrite relink_other by apart; apply wput_eq|]. split; [|exact R4].
    apply (rep_agree (rb_mem w3) _ (Node cl ll la lk lr)); [|exact R3]. rewrite addrs_node. intros x Hx. apply F4. apart.
  - rewrite addrs_plug, !addrs_node. apply NoDup_app. split; [done|]. split; [apart|]. apply NoDup_app. split; [done|]. split; [apart|].
    apply NoDup_cons. split; [apart|done].
  - rewrite F4, F3 by apart. by apply relink_null.
Qed.

(** The side of a frame, as the comparison says it. *)
Definition side (f : frame) (comp : Z) : Prop := match f with FL _ _ _ _ => comp < 0 | FR _ _ _ _ => 0 < comp end.

Lemma link_run w K elm n comp :
  holds w (plug K Leaf) -> elm <> 0 -> elm ∉ addrs (plug K Leaf) -> rb_mem w !! elm = Some n ->
  match K with [] => True | f :: _ => side f comp end ->
  exists w', rb_link elm (ctxp K) comp w = Ret tt w' /\ holds w' (plug K (Node Red Leaf elm (kn_ident n) Leaf)).
Proof.
  intros H He0 He Hn Hs. pose proof (distinct _ _ _ H) as Hd. rewrite addrs_plug in He. nodups.
  unfold rb_link, RB_SET. rewrite (rb_upd_bind _ _ _ _ _ Hn). cbn [ctxp]. set (w1 := wput elm _ w).
  assert (rb_mem w1 !! 0 = None) as Hnull1 by (unfold w1; rewrite wput_ne by done; apply H).
  assert (forall x, x ∈ ctx_addrs K -> rb_mem w1 !! x = rb_mem w !! x) as Fk by (intros x Hx; apply wput_ne; apart).
  exists (relink K elm w1). split.
  - destruct K as [|f K]; [done|]. destruct f as [c a k r|c l a k]; cbn [plug fill ctxp frame_addr side] in *;
      destruct (focus _ _ _ _ _ _ _ H) as [Ha Ha0]; rewrite <- Fk in Ha by mem;
      rewrite (proj2 (Z.eqb_neq _ _) Ha0); cbn [negb].
    + rewrite (proj2 (Z.ltb_lt _ _) Hs). unfold set_left. rewrite (rb_upd_run _ _ _ _ Ha). unfold wput, relink.
      by rewrite (alter_lookup _ _ _ _ Ha).
    + rewrite (proj2 (Z.ltb_ge _ _)) by lia. unfold set_right. rewrite (rb_upd_run _ _ _ _ Ha). unfold wput, relink.
      by rewrite (alter_lookup _ _ _ _ Ha).
  - apply (holds_relink w _ K Leaf); [done|by apply relink_root| | | |by apply relink_null].
    + intros b Hb. by apply relink_ext, Fk.
    + split; [|done]. rewrite relink_other by apart. apply wput_eq.
    + rewrite addrs_plug, addrs_node. apply NoDup_app. split; [done|]. split; [apart|]. apply NoDup_singleton.
Qed.
