(* ===== verification/RbBalance.v ===== *)
(** * The red-black tree of knotes: balance

    A red node has black children and all paths from a node to a leaf have the same number of black nodes
    ([rb]).  RB_INSERT_COLOR and RB_REMOVE_COLOR restore this in a tree of which only one place violates it, without
    changing the order of the nodes, and a tree with the property has a height of at most 2 log2 (n + 1). *)

From stdpp Require Import base tactics list numbers gmap.
From Stdlib Require Import ZArith Lia.
From S2P Require Import Prelude RbTree RbHeap.

Local Open Scope Z_scope.

Inductive rb : tree -> nat -> Prop :=
| rb_leaf : rb Leaf 0
| rb_red l a k r n : rb l n -> rb r n -> color_of l = Black -> color_of r = Black -> rb (Node Red l a k r) n
| rb_black l a k r n : rb l n -> rb r n -> rb (Node Black l a k r) (S n).

(** The contexts that make a tree from a subtree of black height [n] whose root is black. *)
Inductive ctx_rb : ctx -> nat -> Prop :=
| cr_nil n : ctx_rb [] n
| cr_left_black a k r K n : rb r n -> ctx_rb K (S n) -> ctx_rb (FL Black a k r :: K) n
| cr_right_black l a k K n : rb l n -> ctx_rb K (S n) -> ctx_rb (FR Black l a k :: K) n
| cr_left_red a k r f K n :
    rb r n -> color_of r = Black -> frame_color f = Black -> ctx_rb (f :: K) n -> ctx_rb (FL Red a k r :: f :: K) n
| cr_right_red l a k f K n :
    rb l n -> color_of l = Black -> frame_color f = Black -> ctx_rb (f :: K) n -> ctx_rb (FR Red l a k :: f :: K) n.
Create HintDb rb.
#[export] Hint Constructors rb ctx_rb : rb.

Definition top_black (K : ctx) : Prop := match K with [] => True | f :: _ => frame_color f = Black end.

(** What the operations keep: the property, and a black root. *)
Definition balanced (t : tree) : Prop := (exists h, rb t h) /\ color_of t = Black.

Lemma plug_rb K n : ctx_rb K n -> forall t, rb t n -> color_of t = Black \/ top_black K ->
  exists h, rb (plug K t) h /\ (K <> [] -> color_of (plug K t) = Black).
Proof.
  induction 1 as [n|a k r K n Hr HK IH|l a k K n Hl HK IH|a k r f K n Hr Cr Cf HK IH|l a k f K n Hl Cl Cf HK IH];
    intros t Ht Ct; simpl.
  - by exists n.
  - destruct (IH (Node Black t a k r)) as (h & Hh & Ch); [by constructor|by left|]. exists h. split; [done|]. intros _.
    destruct K; [done|by apply Ch].
  - destruct (IH (Node Black l a k t)) as (h & Hh & Ch); [by constructor|by left|]. exists h. split; [done|]. intros _.
    destruct K; [done|by apply Ch].
  - destruct Ct as [Ct|Ct]; [|done]. destruct (IH (Node Red t a k r)) as (h & Hh & Ch); [by constructor|by right|]. exists h.
    split; [done|]. intros _. by apply Ch.
  - destruct Ct as [Ct|Ct]; [|done]. destruct (IH (Node Red l a k t)) as (h & Hh & Ch); [by constructor|by right|]. exists h.
    split; [done|]. intros _. by apply Ch.
Qed.

Lemma plug_balanced K n t : ctx_rb K n -> rb t n -> color_of t = Black -> balanced (plug K t).
Proof.
  intros HK Ht Ct. destruct (plug_rb K n HK t Ht) as (h & Hh & Ch); [by left|]. split; [by exists h|].
  destruct K; [done|by apply Ch].
Qed.

(** ** Order *)

Lemma inorder_fill f t t' : inorder t = inorder t' -> inorder (fill f t) = inorder (fill f t').
Proof. intros E. destruct f; simpl; by rewrite E. Qed.
Lemma inorder_plug K : forall t t', inorder t = inorder t' -> inorder (plug K t) = inorder (plug K t').
Proof. induction K as [|f K IH]; intros t t' E; [done|]. simpl. apply IH. by apply inorder_fill. Qed.

Definition blackened (t : tree) : tree := match t with Leaf => Leaf | Node _ l a k r => Node Black l a k r end.
Lemma inorder_blackened t : inorder (blackened t) = inorder t.
Proof. by destruct t. Qed.
Lemma blackened_id t : color_of t = Black -> blackened t = t.
Proof. destruct t as [|c]; [done|]. simpl. by intros ->. Qed.

(** ** Tests and colors *)

Lemma is_red_run w K t : holds w (plug K t) -> is_red (rootp t) w = Ret (bool_decide (color_of t = Red)) w.
Proof.
  intros H. unfold is_red. rewrite (rootp_null w K t H). destruct t as [|c l a k r]; [done|].
  destruct (focus _ _ _ _ _ _ _ H) as [Ha _]. simpl. rewrite (RB_COLOR_bind _ _ _ _ Ha). by destruct c.
Qed.
Lemma is_black_run w K t : holds w (plug K t) -> is_black (rootp t) w = Ret (bool_decide (color_of t = Black)) w.
Proof.
  intros H. unfold is_black. rewrite (rootp_null w K t H). destruct t as [|c l a k r]; [done|].
  destruct (focus _ _ _ _ _ _ _ H) as [Ha _]. simpl. rewrite (RB_COLOR_bind _ _ _ _ Ha). by destruct c.
Qed.

Lemma blacken_run w K t : holds w (plug K t) -> exists w', blacken (rootp t) w = Ret tt w' /\ holds w' (plug K (blackened t)).
Proof.
  intros H. unfold blacken. rewrite (rootp_null w K t H). destruct t as [|c l a k r]; [by exists w|].
  apply (color_run w K c l a k r Black H).
Qed.

Lemma node_leaf c l a k r : Node c l a k r <> Leaf.
Proof. done. Qed.

(** The two children of a node are different, as pointers. *)
Lemma siblings_ne w K c l a k r : holds w (plug K (Node c l a k r)) -> l <> Leaf \/ r <> Leaf -> rootp l <> rootp r.
Proof.
  intros H Hlr E. pose proof (rootp_null w (FL c a k r :: K) l H) as Nl. pose proof (rootp_null w (FR c l a k :: K) r H) as Nr.
  destruct (decide (rootp l = 0)) as [El|El].
  - rewrite E in El. rewrite E, El in Nl. rewrite El in Nr. destruct l, r; naive_solver.
  - pose proof (distinct _ _ _ H) as Hn. rewrite addrs_node in Hn. nodups.
    match goal with H : forall x, x ∈ addrs l -> _ |- _ => apply (H (rootp l)) end; [by apply rootp_elem|].
    apply list_elem_of_further. rewrite E. apply rootp_elem. by rewrite <- E.
Qed.

(** ** Insertion *)

(** The loop ends when the parent is black or there is none: the root is made black. *)
Lemma insert_color_done fuel w K c l a k r n :
  holds w (plug K (Node c l a k r)) -> top_black K -> rb (Node c l a k r) n -> ctx_rb K n ->
  exists w' T, RB_INSERT_COLOR (S fuel) a w = Ret tt w' /\ holds w' T /\
    inorder T = inorder (plug K (Node c l a k r)) /\ balanced T.
Proof.
  intros H Ht Hrb HK. destruct (focus _ _ _ _ _ _ _ H) as [Ha Ha0]. cbn [RB_INSERT_COLOR].
  rewrite (RB_PARENT_bind _ _ _ _ Ha). cbn [rbe_parent].
  assert (is_red (ctxp K) w = Ret false w) as E.
  { destruct K as [|f K]; [done|]. simpl in Ht.
    assert (forall t, color_of (fill f t) = Black) as Cf by (intros; by destruct f).
    replace (ctxp (f :: K)) with (rootp (fill f (Node c l a k r))) by (by destruct f).
    rewrite (is_red_run w K _ H), Cf. done. }
  rewrite (bind_step _ _ _ _ _ E). cbn [negb]. rewrite RB_ROOT_bind, (hd_root _ _ H).
  destruct (plug_rb K n HK _ Hrb (or_intror Ht)) as (h & Hh & Ch).
  destruct (blacken_run w [] _ H) as (w' & Eb & Hb). cbn [plug] in Hb. unfold blacken in Eb.
  pose proof (rootp_null w [] _ H) as Hnn. cbn [plug] in Hnn. rewrite Hnn in Eb.
  exists w', (blackened (plug K (Node c l a k r))). 
  assert (exists c' l' a' k' r', plug K (Node c l a k r) = Node c' l' a' k' r') as (c' & l' & a' & k' & r' & EP).
  { clear. revert c l a k r. induction K as [|[] K IH]; intros; simpl; [by eexists _, _, _, _, _|apply IH..]. }
  rewrite EP in *. split; [done|]. split; [done|]. split; [done|]. split; [|done].
  destruct c'; inversion Hh; subst; eauto with rb.
Qed.

Definition recolor (f : frame) (c : color) : frame :=
  match f with FL _ a k r => FL c a k r | FR _ l a k => FR c l a k end.

Lemma blackred_run w K f c l a k r :
  holds w (plug (f :: K) (Node c l a k r)) ->
  exists w', RB_SET_BLACKRED a (frame_addr f) w = Ret tt w' /\ holds w' (plug (recolor f Red :: K) (Node Black l a k r)).
Proof.
  intros H. unfold RB_SET_BLACKRED. destruct (color_run w (f :: K) c l a k r Black H) as (w1 & E1 & H1).
  rewrite (bind_step _ _ _ _ _ E1).
  destruct f as [cf p kp s|cf s p kp]; simpl in *.
  - exact (color_run w1 K cf _ p kp s Red H1).
  - exact (color_run w1 K cf s p kp _ Red H1).
Qed.

(** What the loop promises: the same nodes in the same order, balanced again. *)
Definition rebalances (m : RM unit) (w : rbworld) (l : list (Z * Z)) : Prop :=
  exists w' T, m w = Ret tt w' /\ holds w' T /\ inorder T = l /\ balanced T.

Lemma rebalances_eq m m' w w' l l' : m w = m' w' -> l = l' -> rebalances m' w' l' -> rebalances m w l.
Proof. intros E -> (w1 & T & E1 & H). exists w1, T. by rewrite E. Qed.

(** One turn of the loop below a red parent that is the left child of its parent. *)
Lemma insert_turn_left fuel w K tl p pk tr g gk u a na :
  holds w (plug K (Node Black (Node Red tl p pk tr) g gk u)) -> rb_mem w !! a = Some na -> rbe_parent na = p ->
  RB_INSERT_COLOR (S fuel) a w =
    (if bool_decide (color_of u = Red) then
       set_color (rootp u) RB_BLACK;; RB_SET_BLACKRED p g;; RB_INSERT_COLOR fuel g
     else
       '(parent, elm) ← (if rootp tr =? a then _ ← RB_ROTATE_LEFT p; mret (a, p) else mret (p, a));
       RB_SET_BLACKRED parent g;; _ ← RB_ROTATE_RIGHT g; RB_INSERT_COLOR fuel elm) w.
Proof.
  intros H Ha Hpa. destruct (focus _ _ _ _ _ _ _ H) as [Hg _].
  destruct (focus _ (FL Black g gk u :: K) _ _ _ _ _ H) as [Hp _].
  cbn [RB_INSERT_COLOR]. rewrite (RB_PARENT_bind _ _ _ _ Ha), Hpa.
  rewrite (bind_step _ _ _ _ _ (is_red_run w (FL Black g gk u :: K) (Node Red tl p pk tr) H)). cbn [color_of].
  rewrite (bool_decide_eq_true_2 _ eq_refl). cbn [negb]. rewrite (RB_PARENT_bind _ _ _ _ Hp). cbn [rbe_parent ctxp frame_addr].
  rewrite (RB_LEFT_bind _ _ _ _ Hg). cbn [rbe_left rootp]. rewrite Z.eqb_refl, (RB_RIGHT_bind _ _ _ _ Hg). cbn [rbe_right].
  rewrite (bind_step _ _ _ _ _ (is_red_run w (FR Black (Node Red tl p pk tr) g gk :: K) u H)).
  destruct (bool_decide _); [done|]. by rewrite (RB_RIGHT_bind _ _ _ _ Hp).
Qed.

Lemma insert_uncle_left w K tl p pk tr g gk ul ua uk ur :
  holds w (plug K (Node Black (Node Red tl p pk tr) g gk (Node Red ul ua uk ur))) ->
  exists w', (set_color ua RB_BLACK;; RB_SET_BLACKRED p g) w = Ret tt w' /\
    holds w' (plug K (Node Red (Node Black tl p pk tr) g gk (Node Black ul ua uk ur))).
Proof.
  intros H. destruct (color_run w (FR Black (Node Red tl p pk tr) g gk :: K) Red ul ua uk ur Black H) as (w1 & E1 & H1).
  rewrite (bind_step _ _ _ _ _ E1). exact (blackred_run w1 K (FL Black g gk (Node Black ul ua uk ur)) Red tl p pk tr H1).
Qed.

Lemma insert_rotate_left w K A p pk s g gk u :
  holds w (plug K (Node Black (Node Red A p pk s) g gk u)) ->
  exists w', (RB_SET_BLACKRED p g;; RB_ROTATE_RIGHT g) w = Ret p w' /\ holds w' (plug K (Node Black A p pk (Node Red s g gk u))).
Proof.
  intros H. destruct (blackred_run w K (FL Black g gk u) Red A p pk s H) as (w1 & E1 & H1). rewrite (bind_step _ _ _ _ _ E1).
  exact (rotate_right_run _ _ _ _ _ _ _ _ _ _ _ H1).
Qed.

(** The same below a red parent that is the right child. *)
Lemma insert_turn_right fuel w K tl p pk tr g gk u a na :
  holds w (plug K (Node Black u g gk (Node Red tl p pk tr))) -> rb_mem w !! a = Some na -> rbe_parent na = p ->
  RB_INSERT_COLOR (S fuel) a w =
    (if bool_decide (color_of u = Red) then
       set_color (rootp u) RB_BLACK;; RB_SET_BLACKRED p g;; RB_INSERT_COLOR fuel g
     else
       '(parent, elm) ← (if rootp tl =? a then _ ← RB_ROTATE_RIGHT p; mret (a, p) else mret (p, a));
       RB_SET_BLACKRED parent g;; _ ← RB_ROTATE_LEFT g; RB_INSERT_COLOR fuel elm) w.
Proof.
  intros H Ha Hpa. destruct (focus _ _ _ _ _ _ _ H) as [Hg _].
  destruct (focus _ (FR Black u g gk :: K) _ _ _ _ _ H) as [Hp _].
  cbn [RB_INSERT_COLOR]. rewrite (RB_PARENT_bind _ _ _ _ Ha), Hpa.
  rewrite (bind_step _ _ _ _ _ (is_red_run w (FR Black u g gk :: K) (Node Red tl p pk tr) H)). cbn [color_of].
  rewrite (bool_decide_eq_true_2 _ eq_refl). cbn [negb]. rewrite (RB_PARENT_bind _ _ _ _ Hp). cbn [rbe_parent ctxp frame_addr].
  rewrite (RB_LEFT_bind _ _ _ _ Hg). cbn [rbe_left].
  pose proof (siblings_ne _ _ _ _ _ _ _ H (or_intror (node_leaf _ _ _ _ _))) as Hne. cbn [rootp] in Hne.
  rewrite (proj2 (Z.eqb_neq p (rootp u))) by auto. rewrite (RB_LEFT_bind _ _ _ _ Hg). cbn [rbe_left].
  rewrite (bind_step _ _ _ _ _ (is_red_run w (FL Black g gk (Node Red tl p pk tr) :: K) u H)).
  destruct (bool_decide _); [done|]. by rewrite (RB_LEFT_bind _ _ _ _ Hp).
Qed.

Lemma insert_uncle_right w K tl p pk tr g gk ul ua uk ur :
  holds w (plug K (Node Black (Node Red ul ua uk ur) g gk (Node Red tl p pk tr))) ->
  exists w', (set_color ua RB_BLACK;; RB_SET_BLACKRED p g) w = Ret tt w' /\
    holds w' (plug K (Node Red (Node Black ul ua uk ur) g gk (Node Black tl p pk tr))).
Proof.
  intros H. destruct (color_run w (FL Black g gk (Node Red tl p pk tr) :: K) Red ul ua uk ur Black H) as (w1 & E1 & H1).
  rewrite (bind_step _ _ _ _ _ E1). exact (blackred_run w1 K (FR Black (Node Black ul ua uk ur) g gk) Red tl p pk tr H1).
Qed.

Lemma insert_rotate_right w K A p pk s g gk u :
  holds w (plug K (Node Black u g gk (Node Red s p pk A))) ->
  exists w', (RB_SET_BLACKRED p g;; RB_ROTATE_LEFT g) w = Ret p w' /\ holds w' (plug K (Node Black (Node Red u g gk s) p pk A)).
Proof.
  intros H. destruct (blackred_run w K (FR Black u g gk) Red s p pk A H) as (w1 & E1 & H1). rewrite (bind_step _ _ _ _ _ E1).
  exact (rotate_left_run _ _ _ _ _ _ _ _ _ _ _ H1).
Qed.

(** The recolored uncle, and the rotations with the rest of the loop after them. *)
Lemma insert_uncle_then fuel g w w1 ua p l :
  (set_color ua RB_BLACK;; RB_SET_BLACKRED p g) w = Ret tt w1 -> rebalances (RB_INSERT_COLOR fuel g) w1 l ->
  rebalances (set_color ua RB_BLACK;; RB_SET_BLACKRED p g;; RB_INSERT_COLOR fuel g) w l.
Proof. intros E. apply rebalances_eq; [|done]. by rewrite <- bind_assoc, (bind_step _ _ _ _ _ E). Qed.

Lemma insert_rotate_then fuel w w1 (p g elm x : Z) (rot : RM Z) l :
  (RB_SET_BLACKRED p g;; rot) w = Ret x w1 -> rebalances (RB_INSERT_COLOR fuel elm) w1 l ->
  rebalances (RB_SET_BLACKRED p g;; _ ← rot; RB_INSERT_COLOR fuel elm) w l.
Proof. intros E. apply rebalances_eq; [|done]. by rewrite <- bind_assoc, (bind_step _ _ _ _ _ E). Qed.

Lemma insert_done fuel w K c l a k r n L :
  holds w (plug K (Node c l a k r)) -> top_black K -> rb (Node c l a k r) n -> ctx_rb K n ->
  inorder (plug K (Node c l a k r)) = L -> (0 < fuel)%nat -> rebalances (RB_INSERT_COLOR fuel a) w L.
Proof.
  intros H Ht Hrb HK <- Hf. destruct fuel as [|fuel]; [lia|]. destruct (insert_color_done fuel w K c l a k r n) as (w' & T & HT); [done..|].
  by exists w', T.
Qed.

Ltac same_list := repeat (rewrite <- app_assoc; cbn [app]); reflexivity.
Ltac same_order := cbn [plug fill]; apply inorder_plug; cbn [inorder]; same_list.

Lemma insert_color_run fuel : forall K l a k r n w,
  (length K < fuel)%nat -> holds w (plug K (Node Red l a k r)) -> rb (Node Red l a k r) n -> ctx_rb K n ->
  rebalances (RB_INSERT_COLOR fuel a) w (inorder (plug K (Node Red l a k r))).
Proof.
  induction fuel as [|fuel IH]; [lia|]. intros K l a k r n w Hf H Hrb HK.
  destruct (focus _ _ _ _ _ _ _ H) as [Ha Ha0].
  assert (rb l n /\ rb r n /\ color_of l = Black /\ color_of r = Black) as (Hl & Hr & Cl & Cr) by (by inversion Hrb).
  destruct HK as [n|p pk s K n Hs HK|s p pk K n Hs HK|p pk s f K n Hs Cs Cf HK|s p pk f K n Hs Cs Cf HK];
    [eapply insert_done; [exact H|done|done|eauto with rb|done|lia]..| |]; cbn [length] in Hf;
    destruct f as [cg g gk u|cg u g gk]; simpl in Cf; subst cg;
    (assert (ctx_rb K (S n) /\ rb u n) as [HK' Hu] by (by inversion HK)).
  - (* left of left *)
    eapply rebalances_eq; [apply (insert_turn_left fuel w K (Node Red l a k r) p pk s g gk u a _ H Ha eq_refl)|done|].
    destruct (color_of u) eqn:Cu; [rewrite bool_decide_eq_true_2 by done|rewrite bool_decide_eq_false_2 by done].
    + destruct u as [|uc ul ua uk ur]; [done|]. simpl in Cu. subst uc.
      destruct (insert_uncle_left w K _ _ _ _ _ _ _ _ _ _ H) as (w1 & E1 & H1). apply (insert_uncle_then _ _ _ _ _ _ _ E1).
      eapply rebalances_eq; [done| |eapply (IH K _ _ _ _ (S n)); [lia|exact H1|inversion Hu; eauto with rb|done]]. same_order.
    + pose proof (siblings_ne w (FL Black g gk u :: K) _ _ _ _ _ H (or_introl (node_leaf _ _ _ _ _))) as Hne. cbn [rootp] in Hne.
      rewrite (proj2 (Z.eqb_neq (rootp s) a)) by auto.
      destruct (insert_rotate_left w K _ _ _ _ _ _ _ H) as (w1 & E1 & H1). apply (insert_rotate_then _ _ _ _ _ _ _ _ _ E1).
      eapply (insert_done _ w1 (FL Black p pk (Node Red s g gk u) :: K)); [exact H1|done|done|eauto with rb| |lia]. same_order.
  - (* left of right *)
    eapply rebalances_eq; [apply (insert_turn_right fuel w K (Node Red l a k r) p pk s g gk u a _ H Ha eq_refl)|done|].
    destruct (color_of u) eqn:Cu; [rewrite bool_decide_eq_true_2 by done|rewrite bool_decide_eq_false_2 by done].
    + destruct u as [|uc ul ua uk ur]; [done|]. simpl in Cu. subst uc.
      destruct (insert_uncle_right w K _ _ _ _ _ _ _ _ _ _ H) as (w1 & E1 & H1). apply (insert_uncle_then _ _ _ _ _ _ _ E1).
      eapply rebalances_eq; [done| |eapply (IH K _ _ _ _ (S n)); [lia|exact H1|inversion Hu; eauto with rb|done]]. same_order.
    + cbn [rootp]. rewrite Z.eqb_refl.
      destruct (rotate_right_run w (FR Black u g gk :: K) _ _ _ _ _ _ _ _ _ H) as (w1 & E1 & H1).
      eapply rebalances_eq; [rewrite bind_assoc, (bind_step _ _ _ _ _ E1), ret_bind; reflexivity|done|].
      destruct (insert_rotate_right w1 K _ _ _ _ _ _ _ H1) as (w2 & E2 & H2). apply (insert_rotate_then _ _ _ _ _ _ _ _ _ E2).
      eapply (insert_done _ w2 (FR Black (Node Red u g gk l) a k :: K)); [exact H2|done|eauto with rb|eauto with rb| |lia]. same_order.
  - (* right of left *)
    eapply rebalances_eq; [apply (insert_turn_left fuel w K s p pk (Node Red l a k r) g gk u a _ H Ha eq_refl)|done|].
    destruct (color_of u) eqn:Cu; [rewrite bool_decide_eq_true_2 by done|rewrite bool_decide_eq_false_2 by done].
    + destruct u as [|uc ul ua uk ur]; [done|]. simpl in Cu. subst uc.
      destruct (insert_uncle_left w K _ _ _ _ _ _ _ _ _ _ H) as (w1 & E1 & H1). apply (insert_uncle_then _ _ _ _ _ _ _ E1).
      eapply rebalances_eq; [done| |eapply (IH K _ _ _ _ (S n)); [lia|exact H1|inversion Hu; eauto with rb|done]]. same_order.
    + cbn [rootp]. rewrite Z.eqb_refl.
      destruct (rotate_left_run w (FL Black g gk u :: K) _ _ _ _ _ _ _ _ _ H) as (w1 & E1 & H1).
      eapply rebalances_eq; [rewrite bind_assoc, (bind_step _ _ _ _ _ E1), ret_bind; reflexivity|done|].
      destruct (insert_rotate_left w1 K _ _ _ _ _ _ _ H1) as (w2 & E2 & H2). apply (insert_rotate_then _ _ _ _ _ _ _ _ _ E2).
      eapply (insert_done _ w2 (FL Black a k (Node Red r g gk u) :: K)); [exact H2|done|eauto with rb|eauto with rb| |lia]. same_order.
  - (* right of right *)
    eapply rebalances_eq; [apply (insert_turn_right fuel w K s p pk (Node Red l a k r) g gk u a _ H Ha eq_refl)|done|].
    destruct (color_of u) eqn:Cu; [rewrite bool_decide_eq_true_2 by done|rewrite bool_decide_eq_false_2 by done].
    + destruct u as [|uc ul ua uk ur]; [done|]. simpl in Cu. subst uc.
      destruct (insert_uncle_right w K _ _ _ _ _ _ _ _ _ _ H) as (w1 & E1 & H1). apply (insert_uncle_then _ _ _ _ _ _ _ E1).
      eapply rebalances_eq; [done| |eapply (IH K _ _ _ _ (S n)); [lia|exact H1|inversion Hu; eauto with rb|done]]. same_order.
    + pose proof (siblings_ne w (FR Black u g gk :: K) _ _ _ _ _ H (or_intror (node_leaf _ _ _ _ _))) as Hne. cbn [rootp] in Hne.
      rewrite (proj2 (Z.eqb_neq (rootp s) a)) by auto.
      destruct (insert_rotate_right w K _ _ _ _ _ _ _ H) as (w1 & E1 & H1). apply (insert_rotate_then _ _ _ _ _ _ _ _ _ E1).
      eapply (insert_done _ w1 (FR Black (Node Red u g gk s) p pk :: K)); [exact H1|done|done|eauto with rb| |lia]. same_order.
Qed.

(** ** Removal *)

(** A subtree that lacks one black node: it will be made black, or the loop goes on above it. *)
Definition deficit (t : tree) (n : nat) : Prop :=
  (color_of t = Black /\ rb t n) \/ (exists l a k r, t = Node Red l a k r /\ rb l n /\ rb r n).

Lemma ctxp_elem K : K <> [] -> ctxp K ∈ ctx_addrs K.
Proof. destruct K as [|[] K]; [done|intros _; unfold ctx_addrs; simpl; set_solver..]. Qed.

Lemma plug_root K : forall t, K <> [] -> rootp (plug K t) ∈ ctx_addrs K.
Proof.
  induction K as [|f K IH]; intros t Hk; [done|]. unfold ctx_addrs. simpl. apply elem_of_app.
  destruct K as [|f' K]; [left; destruct f; simpl; set_solver|right; by apply IH].
Qed.

Lemma root_ne w K t : holds w (plug K t) -> K <> [] -> rootp t <> rbh_root w.
Proof.
  intros H Hk E. rewrite (hd_root _ _ H) in E. pose proof (plug_root K t Hk) as Hin. rewrite <- E in Hin.
  pose proof (distinct _ _ _ H) as Hn. nodups. destruct (decide (rootp t = 0)) as [E0|E0].
  - pose proof (holds_null w [] _ H) as Hz. rewrite addrs_plug, E0 in *. set_solver.
  - apply rootp_elem in E0. set_solver.
Qed.

Lemma remove_color_done fuel w K t n L :
  holds w (plug K t) -> deficit t n -> ctx_rb K (S n) -> color_of t = Red \/ K = [] -> inorder (plug K t) = L ->
  rebalances (RB_REMOVE_COLOR (S fuel) (ctxp K) (rootp t)) w L.
Proof.
  intros H Hd HK Hc <-. unfold rebalances. cbn [RB_REMOVE_COLOR].
  rewrite (bind_step _ _ _ _ _ (is_black_run w K t H)), RB_ROOT_bind.
  assert (bool_decide (color_of t = Black) && negb (rootp t =? rbh_root w) = false) as ->.
  { destruct Hc as [->| ->]; [done|]. rewrite (hd_root _ _ H). simpl. rewrite Z.eqb_refl. apply andb_false_r. }
  cbn [negb]. destruct (blacken_run w K t H) as (w' & E & H'). exists w', (plug K (blackened t)). split; [done|]. split; [done|].
  split; [apply inorder_plug, inorder_blackened|]. destruct Hd as [[Ct Ht]|(l & a & k & r & -> & Hl & Hr)].
  - destruct Hc as [Hc| ->]; [by rewrite Ct in Hc|]. rewrite (blackened_id t Ct). split; [by exists n|done].
  - apply (plug_balanced K (S n)); [done|by constructor|done].
Qed.

Lemma rb_node_black t n : rb t (S n) -> color_of t = Black -> exists l a k r, t = Node Black l a k r /\ rb l n /\ rb r n.
Proof. intros H. inversion H; subst; [done|]. intros _. by eexists _, _, _, _. Qed.

Lemma root_blacken_run w T : holds w T -> color_of T = Black ->
  exists w', (root ← RB_ROOT; blacken root) w = Ret tt w' /\ holds w' T.
Proof.
  intros H Hc. rewrite RB_ROOT_bind, (hd_root _ _ H). destruct (blacken_run w [] T H) as (w' & E & H').
  exists w'. split; [done|]. by rewrite <- (blackened_id T Hc).
Qed.

Lemma ctx_left_sibling c p pk s K n : ctx_rb (FL c p pk s :: K) n -> rb s n.
Proof. by inversion 1. Qed.
Lemma ctx_right_sibling c s p pk K n : ctx_rb (FR c s p pk :: K) n -> rb s n.
Proof. by inversion 1. Qed.
Lemma rb_red_inv l a k r n : rb (Node Red l a k r) n -> rb l n /\ rb r n /\ color_of l = Black /\ color_of r = Black.
Proof. by inversion 1. Qed.
Lemma ctx_red_sibling f K n s :
  ctx_rb (f :: K) n -> (exists p pk, f = FL (frame_color f) p pk s) \/ (exists p pk, f = FR (frame_color f) s p pk) ->
  color_of s = Red -> frame_color f = Black /\ ctx_rb K (S n).
Proof.
  intros H Hf Cs. inversion H; subst; simpl in *; try done; exfalso; destruct Hf as [(? & ? & [=])|(? & ? & [=])]; congruence.
Qed.
Lemma rb_children l a k r n : rb (Node Black l a k r) (S n) -> rb l n /\ rb r n.
Proof. by inversion 1. Qed.

(** What a context accepts in place of a node with one subtree of height [S n] below it. *)
Lemma ctx_refill f K n t' t'' p pk :
  ctx_rb (f :: K) (S n) -> rb t' (S n) -> rb t'' (S n) -> color_of t' = Black -> color_of t'' = Black ->
  balanced (plug K (Node (frame_color f) t' p pk t'')).
Proof.
  intros HK H1 H2 C1 C2.
  assert (exists m, ctx_rb K m /\ rb (Node (frame_color f) t' p pk t'') m /\ (frame_color f = Black \/ (top_black K /\ K <> []))) as (m & HK' & Ht & Hc).
  { inversion HK; subst; simpl; eexists; (split; [eassumption|]); (split; [eauto with rb|]); auto. }
  destruct (plug_rb K m HK' _ Ht) as (h & Hh & Ch); [by destruct Hc as [?|[??]]; [left|right]|].
  split; [by exists h|]. destruct K; [|by apply Ch]. by destruct Hc as [?|[_ ?]].
Qed.

(** The last rotation, with the black nephew on the far side. *)
Lemma remove_tail_left w K c t p pk c2 sl sa sk sr n L :
  holds w (plug K (Node c t p pk (Node c2 sl sa sk sr))) -> ctx_rb (FL c p pk (Node c2 sl sa sk sr) :: K) (S n) ->
  color_of t = Black -> rb t n -> rb sl n -> rb (blackened sr) (S n) ->
  inorder (plug K (Node c t p pk (Node c2 sl sa sk sr))) = L ->
  rebalances
    (c ← RB_COLOR p; set_color sa c;; set_color p RB_BLACK;; tr ← RB_RIGHT sa; blacken tr;; _ ← RB_ROTATE_LEFT p;
     root ← RB_ROOT; blacken root) w L.
Proof.
  intros H HK Ct Ht Hsl Hsr <-. unfold rebalances. destruct (focus _ _ _ _ _ _ _ H) as [Hp _].
  rewrite (RB_COLOR_bind _ _ _ _ Hp). cbn [rbe_color].
  destruct (color_run w (FR c t p pk :: K) c2 sl sa sk sr c H) as (w1 & E1 & H1). rewrite (bind_step _ _ _ _ _ E1).
  destruct (color_run w1 K c t p pk (Node c sl sa sk sr) Black H1) as (w2 & E2 & H2). rewrite (bind_step _ _ _ _ _ E2).
  destruct (focus _ (FR Black t p pk :: K) _ _ _ _ _ H2) as [Hs _]. rewrite (RB_RIGHT_bind _ _ _ _ Hs). cbn [rbe_right].
  destruct (blacken_run w2 (FR c sl sa sk :: FR Black t p pk :: K) sr H2) as (w3 & E3 & H3). rewrite (bind_step _ _ _ _ _ E3).
  destruct (rotate_left_run w3 K _ _ _ _ _ _ _ _ _ H3) as (w4 & E4 & H4). rewrite (bind_step _ _ _ _ _ E4).
  assert (balanced (plug K (Node c (Node Black t p pk sl) sa sk (blackened sr)))) as HB.
  { apply (ctx_refill (FL c p pk (Node c2 sl sa sk sr)) K n); [done|by constructor|done|done|by destruct sr]. }
  destruct (root_blacken_run w4 _ H4) as (w5 & E5 & H5); [apply HB|]. exists w5. eexists. split; [exact E5|]. split; [exact H5|].
  split; [|done]. apply inorder_plug. simpl. rewrite inorder_blackened. by rewrite <- app_assoc.
Qed.

Lemma remove_fix_left_run up w K c t p pk sl sa sk sr n L :
  holds w (plug K (Node c t p pk (Node Black sl sa sk sr))) -> ctx_rb (FL c p pk (Node Black sl sa sk sr) :: K) (S n) ->
  color_of t = Black -> rb t n -> inorder (plug K (Node c t p pk (Node Black sl sa sk sr))) = L ->
  (forall w', holds w' (plug K (Node c t p pk (Node Red sl sa sk sr))) -> rb (Node Red sl sa sk sr) n ->
     rebalances (up (ctxp K) p) w' L) ->
  rebalances (remove_fix_left up p sa) w L.
Proof.
  intros H HK Ct Ht HL Hup. assert (rb sl n /\ rb sr n) as [Hsl Hsr] by (by eapply rb_children, ctx_left_sibling).
  destruct (focus _ (FR c t p pk :: K) _ _ _ _ _ H) as [Hs _].
  set (K1 := FL Black sa sk sr :: FR c t p pk :: K). set (K2 := FR Black sl sa sk :: FR c t p pk :: K).
  eapply rebalances_eq; [|done|].
  { unfold remove_fix_left. rewrite (RB_LEFT_bind _ _ _ _ Hs). cbn [rbe_left].
    rewrite (bind_step _ _ _ _ _ (is_black_run w K1 sl H)), (RB_RIGHT_bind _ _ _ _ Hs). cbn [rbe_right].
    rewrite (bind_step _ _ _ _ _ (is_black_run w K2 sr H)). reflexivity. }
  destruct (color_of sr) eqn:Cr.
  - (* the far nephew is red *)
    rewrite (bool_decide_eq_false_2 (Red = Black)) by done. rewrite andb_false_r.
    eapply rebalances_eq; [rewrite ret_bind; reflexivity|done|].
    apply (remove_tail_left w K c t p pk Black sl sa sk sr n); try done. destruct sr; [done|]. simpl in *. subst. inversion Hsr. by constructor.
  - rewrite (bool_decide_eq_true_2 (Black = Black)) by done. rewrite andb_true_r. destruct (color_of sl) eqn:Cl.
    + (* only the near nephew is red *)
      rewrite bool_decide_eq_false_2 by done. destruct sl as [|slc A la lk B]; [done|]. simpl in Cl. subst slc.
      destruct (blacken_run w K1 _ H) as (w1 & E1 & H1). cbn [blackened] in H1.
      destruct (color_run w1 (FR c t p pk :: K) Black (Node Black A la lk B) sa sk sr Red H1) as (w2 & E2 & H2).
      destruct (rotate_right_run w2 (FR c t p pk :: K) _ _ _ _ _ _ _ _ _ H2) as (w3 & E3 & H3).
      destruct (focus _ K _ _ _ _ _ H3) as [Hp3 _].
      eapply rebalances_eq; [|done|].
      { rewrite bind_assoc, (bind_step _ _ _ _ _ E1), bind_assoc, (bind_step _ _ _ _ _ E2), bind_assoc, (bind_step _ _ _ _ _ E3).
        rewrite (RB_RIGHT_bind _ _ _ _ Hp3). reflexivity. }
      inversion Hsl; subst. cbn [rbe_right rootp].
      apply (remove_tail_left w3 K c t p pk Black A la lk (Node Red B sa sk sr) n); try done.
      * inversion HK; subst; eauto with rb.
      * simpl. by constructor.
      * apply inorder_plug. simpl. same_list.
    + (* both nephews are black *)
      rewrite bool_decide_eq_true_2 by done.
      destruct (color_run w (FR c t p pk :: K) Black sl sa sk sr Red H) as (w1 & E1 & H1).
      destruct (focus _ K _ _ _ _ _ H1) as [Hp1 _].
      eapply rebalances_eq; [rewrite (bind_step _ _ _ _ _ E1), (RB_PARENT_bind _ _ _ _ Hp1); reflexivity|done|].
      cbn [rbe_parent]. apply Hup; [done|by constructor].
Qed.

(** The same on the other side. *)
Lemma remove_tail_right w K c t p pk c2 sl sa sk sr n L :
  holds w (plug K (Node c (Node c2 sl sa sk sr) p pk t)) -> ctx_rb (FR c (Node c2 sl sa sk sr) p pk :: K) (S n) ->
  color_of t = Black -> rb t n -> rb sr n -> rb (blackened sl) (S n) ->
  inorder (plug K (Node c (Node c2 sl sa sk sr) p pk t)) = L ->
  rebalances
    (c ← RB_COLOR p; set_color sa c;; set_color p RB_BLACK;; tl ← RB_LEFT sa; blacken tl;; _ ← RB_ROTATE_RIGHT p;
     root ← RB_ROOT; blacken root) w L.
Proof.
  intros H HK Ct Ht Hsr Hsl <-. unfold rebalances. destruct (focus _ _ _ _ _ _ _ H) as [Hp _].
  rewrite (RB_COLOR_bind _ _ _ _ Hp). cbn [rbe_color].
  destruct (color_run w (FL c p pk t :: K) c2 sl sa sk sr c H) as (w1 & E1 & H1). rewrite (bind_step _ _ _ _ _ E1).
  destruct (color_run w1 K c (Node c sl sa sk sr) p pk t Black H1) as (w2 & E2 & H2). rewrite (bind_step _ _ _ _ _ E2).
  destruct (focus _ (FL Black p pk t :: K) _ _ _ _ _ H2) as [Hs _]. rewrite (RB_LEFT_bind _ _ _ _ Hs). cbn [rbe_left].
  destruct (blacken_run w2 (FL c sa sk sr :: FL Black p pk t :: K) sl H2) as (w3 & E3 & H3). rewrite (bind_step _ _ _ _ _ E3).
  destruct (rotate_right_run w3 K _ _ _ _ _ _ _ _ _ H3) as (w4 & E4 & H4). rewrite (bind_step _ _ _ _ _ E4).
  assert (balanced (plug K (Node c (blackened sl) sa sk (Node Black sr p pk t)))) as HB.
  { apply (ctx_refill (FR c (Node c2 sl sa sk sr) p pk) K n); [done|done|by constructor|by destruct sl|done]. }
  destruct (root_blacken_run w4 _ H4) as (w5 & E5 & H5); [apply HB|]. exists w5. eexists. split; [exact E5|]. split; [exact H5|].
  split; [|done]. apply inorder_plug. simpl. rewrite inorder_blackened. by rewrite <- app_assoc.
Qed.

Lemma remove_fix_right_run up w K c t p pk sl sa sk sr n L :
  holds w (plug K (Node c (Node Black sl sa sk sr) p pk t)) -> ctx_rb (FR c (Node Black sl sa sk sr) p pk :: K) (S n) ->
  color_of t = Black -> rb t n -> inorder (plug K (Node c (Node Black sl sa sk sr) p pk t)) = L ->
  (forall w', holds w' (plug K (Node c (Node Red sl sa sk sr) p pk t)) -> rb (Node Red sl sa sk sr) n ->
     rebalances (up (ctxp K) p) w' L) ->
  rebalances (remove_fix_right up p sa) w L.
Proof.
  intros H HK Ct Ht HL Hup. assert (rb sl n /\ rb sr n) as [Hsl Hsr] by (by eapply rb_children, ctx_right_sibling).
  destruct (focus _ (FL c p pk t :: K) _ _ _ _ _ H) as [Hs _].
  set (K1 := FL Black sa sk sr :: FL c p pk t :: K). set (K2 := FR Black sl sa sk :: FL c p pk t :: K).
  eapply rebalances_eq; [|done|].
  { unfold remove_fix_right. rewrite (RB_LEFT_bind _ _ _ _ Hs). cbn [rbe_left].
    rewrite (bind_step _ _ _ _ _ (is_black_run w K1 sl H)), (RB_RIGHT_bind _ _ _ _ Hs). cbn [rbe_right].
    rewrite (bind_step _ _ _ _ _ (is_black_run w K2 sr H)). reflexivity. }
  destruct (color_of sl) eqn:Cl.
  - (* the far nephew is red *)
    rewrite (bool_decide_eq_false_2 (Red = Black)) by done. rewrite andb_false_l.
    eapply rebalances_eq; [rewrite ret_bind; reflexivity|done|].
    apply (remove_tail_right w K c t p pk Black sl sa sk sr n); try done. destruct sl; [done|]. simpl in *. subst. inversion Hsl. by constructor.
  - rewrite (bool_decide_eq_true_2 (Black = Black)) by done. rewrite andb_true_l. destruct (color_of sr) eqn:Cr.
    + (* only the near nephew is red *)
      rewrite bool_decide_eq_false_2 by done. destruct sr as [|src A ra rk B]; [done|]. simpl in Cr. subst src.
      destruct (blacken_run w K2 _ H) as (w1 & E1 & H1). cbn [blackened] in H1.
      destruct (color_run w1 (FL c p pk t :: K) Black sl sa sk (Node Black A ra rk B) Red H1) as (w2 & E2 & H2).
      destruct (rotate_left_run w2 (FL c p pk t :: K) _ _ _ _ _ _ _ _ _ H2) as (w3 & E3 & H3).
      destruct (focus _ K _ _ _ _ _ H3) as [Hp3 _].
      eapply rebalances_eq; [|done|].
      { rewrite bind_assoc, (bind_step _ _ _ _ _ E1), bind_assoc, (bind_step _ _ _ _ _ E2), bind_assoc, (bind_step _ _ _ _ _ E3).
        rewrite (RB_LEFT_bind _ _ _ _ Hp3). reflexivity. }
      inversion Hsr; subst. cbn [rbe_left rootp].
      apply (remove_tail_right w3 K c t p pk Black (Node Red sl sa sk A) ra rk B n); try done.
      * inversion HK; subst; eauto with rb.
      * simpl. by constructor.
      * apply inorder_plug. simpl. same_list.
    + (* both nephews are black *)
      rewrite bool_decide_eq_true_2 by done.
      destruct (color_run w (FL c p pk t :: K) Black sl sa sk sr Red H) as (w1 & E1 & H1).
      destruct (focus _ K _ _ _ _ _ H1) as [Hp1 _].
      eapply rebalances_eq; [rewrite (bind_step _ _ _ _ _ E1), (RB_PARENT_bind _ _ _ _ Hp1); reflexivity|done|].
      cbn [rbe_parent]. apply Hup; [done|by constructor].
Qed.

(** The loop goes on: the test, and the rotation that gives a black sibling. *)
Lemma remove_goes_on w K t :
  holds w (plug K t) -> color_of t = Black -> K <> [] ->
  bool_decide (color_of t = Black) && negb (rootp t =? rbh_root w) = true.
Proof. intros H Ct Hk. rewrite bool_decide_eq_true_2 by done. by rewrite (proj2 (Z.eqb_neq _ _) (root_ne w K t H Hk)). Qed.

Lemma rb_nonleaf t n : rb t (S n) -> exists c l a k r, t = Node c l a k r.
Proof. destruct t; [by inversion 1|]. by eexists _, _, _, _, _. Qed.

Lemma remove_color_left fuel w K c t p pk s n L :
  holds w (plug K (Node c t p pk s)) -> color_of t = Black -> rb t n -> ctx_rb (FL c p pk s :: K) (S n) ->
  inorder (plug K (Node c t p pk s)) = L -> (0 < fuel)%nat ->
  (forall w' t' n', holds w' (plug K t') -> deficit t' n' -> ctx_rb K (S n') -> inorder (plug K t') = L ->
     rebalances (RB_REMOVE_COLOR fuel (ctxp K) (rootp t')) w' L) ->
  rebalances (RB_REMOVE_COLOR (S fuel) p (rootp t)) w L.
Proof.
  intros H Ct Ht HK HL Hf IH. destruct (focus _ _ _ _ _ _ _ H) as [Hp Hp0].
  destruct (rb_nonleaf s n (ctx_left_sibling _ _ _ _ _ _ HK)) as (cs & sl & sa & sk & sr & ->).
  destruct (focus _ (FR c t p pk :: K) _ _ _ _ _ H) as [Hs _].
  eapply rebalances_eq; [|reflexivity|].
  { cbn [RB_REMOVE_COLOR]. rewrite (bind_step _ _ _ _ _ (is_black_run w (FL c p pk _ :: K) t H)), RB_ROOT_bind.
    rewrite (remove_goes_on w (FL c p pk (Node cs sl sa sk sr) :: K) t H Ct) by done. cbn [negb].
    rewrite (RB_LEFT_bind _ _ _ _ Hp). cbn [rbe_left]. rewrite Z.eqb_refl, (RB_RIGHT_bind _ _ _ _ Hp). cbn [rbe_right rootp].
    rewrite (RB_COLOR_bind _ _ _ _ Hs). cbn [rbe_color]. reflexivity. }
  destruct cs; cbn [col].
  - (* red sibling *)
    assert (c = Black /\ ctx_rb K (S (S n)) /\ rb sl (S n) /\ rb sr (S n) /\ color_of sl = Black) as (-> & HK' & Hsl & Hsr & Csl).
    { destruct (ctx_red_sibling _ _ _ (Node Red sl sa sk sr) HK) as [Ec HK']; [left; by eexists _, _|done|]. simpl in Ec.
      by destruct (rb_red_inv _ _ _ _ _ (ctx_left_sibling _ _ _ _ _ _ HK)) as (? & ? & ? & ?). }
    destruct (blackred_run w K (FR Black t p pk) Red sl sa sk sr H) as (w1 & E1 & H1).
    destruct (rotate_left_run w1 K _ _ _ _ _ _ _ _ _ H1) as (w2 & E2 & H2).
    destruct (focus _ (FL Black sa sk sr :: K) _ _ _ _ _ H2) as [Hp2 _].
    eapply rebalances_eq; [|reflexivity|].
    { rewrite (Z.eqb_refl RB_RED), bind_assoc, (bind_step _ _ _ _ _ E1), bind_assoc, (bind_step _ _ _ _ _ E2).
      rewrite (RB_RIGHT_bind _ _ _ _ Hp2). reflexivity. }
    destruct (rb_node_black sl n Hsl Csl) as (A & la & lk & B & -> & HA & HB). cbn [rbe_right rootp].
    apply (remove_fix_left_run _ w2 (FL Black sa sk sr :: K) Red t p pk A la lk B n); [done|eauto with rb|done|done| |].
    + rewrite <- HL. same_order.
    + intros w' H' HR. destruct fuel as [|fuel]; [lia|].
      apply (remove_color_done fuel w' (FL Black sa sk sr :: K) _ n L H'); [right; by eexists _, _, _, _|eauto with rb|by left|].
      rewrite <- HL. same_order.
  - (* black sibling *)
    change (RB_BLACK =? RB_RED) with false. eapply rebalances_eq; [rewrite ret_bind; reflexivity|reflexivity|].
    apply (remove_fix_left_run _ w K c t p pk sl sa sk sr n); [done..|].
    intros w' H' HR.
    assert (exists n', deficit (Node c t p pk (Node Red sl sa sk sr)) n' /\ ctx_rb K (S n')) as (n' & Hd & HK').
    { inversion HK; subst; [exists (S n)|exists n]; (split; [|done]); [left|right]; [split; [done|by constructor]|by eexists _, _, _, _]. }
    apply (IH w' _ n' H' Hd HK'). rewrite <- HL. by apply inorder_plug.
Qed.

Lemma remove_color_right fuel w K c t p pk s n L :
  holds w (plug K (Node c s p pk t)) -> color_of t = Black -> rb t n -> ctx_rb (FR c s p pk :: K) (S n) ->
  inorder (plug K (Node c s p pk t)) = L -> (0 < fuel)%nat ->
  (forall w' t' n', holds w' (plug K t') -> deficit t' n' -> ctx_rb K (S n') -> inorder (plug K t') = L ->
     rebalances (RB_REMOVE_COLOR fuel (ctxp K) (rootp t')) w' L) ->
  rebalances (RB_REMOVE_COLOR (S fuel) p (rootp t)) w L.
Proof.
  intros H Ct Ht HK HL Hf IH. destruct (focus _ _ _ _ _ _ _ H) as [Hp Hp0].
  destruct (rb_nonleaf s n (ctx_right_sibling _ _ _ _ _ _ HK)) as (cs & sl & sa & sk & sr & ->).
  destruct (focus _ (FL c p pk t :: K) _ _ _ _ _ H) as [Hs _].
  pose proof (siblings_ne _ _ _ _ _ _ _ H (or_introl (node_leaf _ _ _ _ _))) as Hne. cbn [rootp] in Hne.
  eapply rebalances_eq; [|reflexivity|].
  { cbn [RB_REMOVE_COLOR]. rewrite (bind_step _ _ _ _ _ (is_black_run w (FR c _ p pk :: K) t H)), RB_ROOT_bind.
    rewrite (remove_goes_on w (FR c (Node cs sl sa sk sr) p pk :: K) t H Ct) by done. cbn [negb].
    rewrite (RB_LEFT_bind _ _ _ _ Hp). cbn [rbe_left rootp]. rewrite (proj2 (Z.eqb_neq _ _) Hne), (RB_LEFT_bind _ _ _ _ Hp).
    cbn [rbe_left rootp]. rewrite (RB_COLOR_bind _ _ _ _ Hs). cbn [rbe_color]. reflexivity. }
  destruct cs; cbn [col].
  - (* red sibling *)
    assert (c = Black /\ ctx_rb K (S (S n)) /\ rb sl (S n) /\ rb sr (S n) /\ color_of sr = Black) as (-> & HK' & Hsl & Hsr & Csr).
    { destruct (ctx_red_sibling _ _ _ (Node Red sl sa sk sr) HK) as [Ec HK']; [right; by eexists _, _|done|]. simpl in Ec.
      by destruct (rb_red_inv _ _ _ _ _ (ctx_right_sibling _ _ _ _ _ _ HK)) as (? & ? & ? & ?). }
    destruct (blackred_run w K (FL Black p pk t) Red sl sa sk sr H) as (w1 & E1 & H1).
    destruct (rotate_right_run w1 K _ _ _ _ _ _ _ _ _ H1) as (w2 & E2 & H2).
    destruct (focus _ (FR Black sl sa sk :: K) _ _ _ _ _ H2) as [Hp2 _].
    eapply rebalances_eq; [|reflexivity|].
    { rewrite (Z.eqb_refl RB_RED), bind_assoc, (bind_step _ _ _ _ _ E1), bind_assoc, (bind_step _ _ _ _ _ E2).
      rewrite (RB_LEFT_bind _ _ _ _ Hp2). reflexivity. }
    destruct (rb_node_black sr n Hsr Csr) as (A & ra & rk & B & -> & HA & HB). cbn [rbe_left rootp].
    apply (remove_fix_right_run _ w2 (FR Black sl sa sk :: K) Red t p pk A ra rk B n); [done|eauto with rb|done|done| |].
    + rewrite <- HL. same_order.
    + intros w' H' HR. destruct fuel as [|fuel]; [lia|].
      apply (remove_color_done fuel w' (FR Black sl sa sk :: K) _ n L H'); [right; by eexists _, _, _, _|eauto with rb|by left|].
      rewrite <- HL. same_order.
  - (* black sibling *)
    change (RB_BLACK =? RB_RED) with false. eapply rebalances_eq; [rewrite ret_bind; reflexivity|reflexivity|].
    apply (remove_fix_right_run _ w K c t p pk sl sa sk sr n); [done..|].
    intros w' H' HR.
    assert (exists n', deficit (Node c (Node Red sl sa sk sr) p pk t) n' /\ ctx_rb K (S n')) as (n' & Hd & HK').
    { inversion HK; subst; [exists (S n)|exists n]; (split; [|done]); [left|right]; [split; [done|by constructor]|by eexists _, _, _, _]. }
    apply (IH w' _ n' H' Hd HK'). rewrite <- HL. by apply inorder_plug.
Qed.

Lemma remove_color_run fuel : forall K t n w,
  (length K < fuel)%nat -> holds w (plug K t) -> deficit t n -> ctx_rb K (S n) ->
  rebalances (RB_REMOVE_COLOR fuel (ctxp K) (rootp t)) w (inorder (plug K t)).
Proof.
  induction fuel as [|fuel IH]; [lia|]. intros K t n w Hf H Hd HK.
  destruct Hd as [[Ct Ht]|Hd]; [|apply (remove_color_done fuel w K t n _ H); [by right|done|left; by destruct Hd as (? & ? & ? & ? & -> & _)|done]].
  destruct K as [|[c p pk s|c s p pk] K]; [apply (remove_color_done fuel w [] t n _ H); [by left|done|by right|done]|..]; cbn [length] in Hf.
  - apply (remove_color_left fuel w K c t p pk s n); [done|done|done|done|done|lia|].
    intros w' t' n' H' Hd' HK' <-. apply (IH K t' n' w'); [lia|done..].
  - apply (remove_color_right fuel w K c t p pk s n); [done|done|done|done|done|lia|].
    intros w' t' n' H' Hd' HK' <-. apply (IH K t' n' w'); [lia|done..].
Qed.
