(* ===== verification/RbMap.v ===== *)
(** * The red-black tree of knotes: a finite map

    The operations of tree.h on a balanced tree whose keys are ordered by knote_cmp are those of a finite map from idents to
    knotes, the map that Kqueue uses for kf_knote; they need a number of steps logarithmic in its size, and
    RB_FOREACH visits the knotes in order. *)

From stdpp Require Import base tactics list numbers gmap sorting.
From Stdlib Require Import ZArith Lia.
From S2P Require Import Prelude RbTree RbHeap RbBalance.

Local Open Scope Z_scope.

(** ** knote_cmp is a total order *)

Definition key_lt (a b : Z) : Prop := knote_cmp a b < 0.

Lemma memcmp_sym n : forall i a b, memcmp_from n i b a = - memcmp_from n i a b.
Proof.
  induction n as [|n IH]; intros i a b; [done|]. simpl. rewrite (Z.eqb_sym (byte_of i b)), IH.
  destruct (byte_of i a =? byte_of i b); lia.
Qed.

Lemma memcmp_trans n : forall i a b c,
  memcmp_from n i a b < 0 -> memcmp_from n i b c < 0 -> memcmp_from n i a c < 0.
Proof.
  induction n as [|n IH]; intros i a b c; simpl; [lia|].
  destruct (Z.eqb_spec (byte_of i a) (byte_of i b)) as [E1|N1], (Z.eqb_spec (byte_of i b) (byte_of i c)) as [E2|N2],
    (Z.eqb_spec (byte_of i a) (byte_of i c)) as [E3|N3]; try lia. apply IH.
Qed.

Lemma memcmp_bytes n : forall i a b, memcmp_from n i a b = 0 -> forall j, (i <= j < i + n)%nat -> byte_of j a = byte_of j b.
Proof.
  induction n as [|n IH]; intros i a b; simpl; [lia|]. destruct (Z.eqb_spec (byte_of i a) (byte_of i b)) as [E|N]; [|lia].
  intros H j Hj. destruct (decide (j = i)) as [->|Hne]; [done|]. apply (IH (S i) a b H). lia.
Qed.

Lemma byte_testbit a b m : 0 <= m -> byte_of (Z.to_nat (m / 8)) a = byte_of (Z.to_nat (m / 8)) b -> Z.testbit a m = Z.testbit b m.
Proof.
  intros Hm E. apply (f_equal (fun z => Z.testbit z (m mod 8))) in E. unfold byte_of in E.
  pose proof (Z.mod_pos_bound m 8 ltac:(lia)). pose proof (Z.div_pos m 8 Hm ltac:(lia)).
  rewrite !Z.land_spec, !Z.shiftr_spec, !Z2Nat.id in E by lia.
  rewrite (Z.add_comm (m mod 8)), <- Z.div_mod in E by lia.
  change 255 with (Z.ones 8) in E. rewrite Z.ones_spec_low, !andb_true_r in E by lia. done.
Qed.

Lemma cmp_eq a b : in_u64 a -> in_u64 b -> knote_cmp a b = 0 -> a = b.
Proof.
  intros Ha Hb H. apply Z.bits_inj'. intros m Hm. destruct (decide (m < 64)) as [Hlt|Hge].
  - apply byte_testbit; [done|]. apply (memcmp_bytes 8 0 a b H). pose proof (Z.div_pos m 8 Hm ltac:(lia)).
    assert (m / 8 < 8) by (apply Z.div_lt_upper_bound; lia). lia.
  - rewrite <- (Z.mod_small a (2 ^ 64)), <- (Z.mod_small b (2 ^ 64)) by done.
    by rewrite !Z.mod_pow2_bits_high by lia.
Qed.
Lemma cmp_refl a : knote_cmp a a = 0.
Proof. pose proof (memcmp_sym 8 0 a a). unfold knote_cmp. lia. Qed.
Lemma cmp_gt a b : 0 < knote_cmp a b <-> key_lt b a.
Proof. unfold key_lt, knote_cmp. rewrite (memcmp_sym 8 0 a b). lia. Qed.
#[export] Instance key_lt_trans : Transitive key_lt.
Proof. intros a b c. apply memcmp_trans. Qed.
Lemma key_lt_irrefl a : ~ key_lt a a.
Proof. unfold key_lt. rewrite cmp_refl. lia. Qed.

(** ** Ordered trees as maps *)

Definition ordered (l : list (Z * Z)) : Prop := StronglySorted key_lt l.*1 /\ Forall (fun k => in_u64 k) l.*1.
Definition to_map (t : tree) : gmap Z Z := list_to_map (inorder t).

Lemma ordered_nodup l : ordered l -> NoDup l.*1.
Proof.
  intros [H _]. induction l as [|[k a] l IH]; [constructor|]. simpl in *. apply StronglySorted_cons in H as [Hf H].
  constructor; [|by apply IH]. intros Hin. rewrite Forall_forall in Hf. apply Hf in Hin. by apply key_lt_irrefl in Hin.
Qed.

Lemma ordered_middle l1 k a l2 :
  ordered (l1 ++ (k, a) :: l2) <->
  ordered l1 /\ ordered l2 /\ in_u64 k /\ (forall x, x ∈ l1.*1 -> key_lt x k) /\ (forall x, x ∈ l2.*1 -> key_lt k x) /\
    (forall x y, x ∈ l1.*1 -> y ∈ l2.*1 -> key_lt x y).
Proof.
  unfold ordered. rewrite fmap_app, fmap_cons, StronglySorted_app, StronglySorted_cons, Forall_app, Forall_cons, Forall_forall. simpl.
  setoid_rewrite elem_of_cons. naive_solver.
Qed.

Lemma map_middle l1 k a l2 : NoDup (l1 ++ (k, a) :: l2).*1 ->
  (list_to_map (l1 ++ (k, a) :: l2) : gmap Z Z) = <[k:=a]> (list_to_map (l1 ++ l2)) /\
  (list_to_map (l1 ++ l2) : gmap Z Z) !! k = None.
Proof.
  intros Hn. assert (l1 ++ (k, a) :: l2 ≡ₚ (k, a) :: l1 ++ l2) as P by (by rewrite Permutation_middle).
  split; [by rewrite (list_to_map_proper _ _ Hn P)|]. apply not_elem_of_list_to_map. rewrite P in Hn. simpl in Hn. by apply NoDup_cons in Hn as [??].
Qed.

Lemma to_map_node c l a k r key : ordered (inorder (Node c l a k r)) -> in_u64 key ->
  to_map (Node c l a k r) !! key =
    if knote_cmp key k <? 0 then to_map l !! key else if knote_cmp key k >? 0 then to_map r !! key else Some a.
Proof.
  intros Ho Hk. pose proof (ordered_nodup _ Ho) as Hn. unfold to_map. simpl in *. apply ordered_middle in Ho as (_ & _ & Hku & Hl & Hr & _).
  rewrite list_to_map_app, list_to_map_cons.
  assert (forall m : list (Z * Z), key ∉ m.*1 -> (list_to_map m : gmap Z Z) !! key = None) as Hno by (intros; by apply not_elem_of_list_to_map).
  assert (key_lt key k -> key ∉ (inorder r).*1) as Nr.
  { intros Hlt Hin. apply Hr in Hin. exact (key_lt_irrefl k (key_lt_trans _ _ _ Hin Hlt)). }
  assert (key_lt k key -> key ∉ (inorder l).*1) as Nl.
  { intros Hlt Hin. apply Hl in Hin. exact (key_lt_irrefl k (key_lt_trans _ _ _ Hlt Hin)). }
  destruct (Z.ltb_spec (knote_cmp key k) 0) as [H1|H1]; [|rewrite Z.gtb_ltb; destruct (Z.ltb_spec 0 (knote_cmp key k)) as [H2|H2]].
  - assert (k <> key) by (intros ->; by apply key_lt_irrefl in H1). rewrite lookup_union, lookup_insert_ne, (Hno (inorder r)) by auto.
    by destruct (_ !! key).
  - rewrite cmp_gt in H2. assert (k <> key) by (intros ->; by apply key_lt_irrefl in H2).
    by rewrite lookup_union_r, lookup_insert_ne by auto.
  - assert (key = k) as -> by (apply cmp_eq; [done|done|lia]). rewrite lookup_union_r, lookup_insert_eq; [done|]. apply Hno.
    intros Hin. apply Hl in Hin. by apply key_lt_irrefl in Hin.
Qed.

(** ** Height *)

Fixpoint height (t : tree) : nat := match t with Leaf => 0 | Node _ l _ _ r => S (height l `max` height r) end.
Definition size_of (t : tree) : nat := length (inorder t).

Lemma size_node c l a k r : size_of (Node c l a k r) = S (size_of l + size_of r).
Proof. unfold size_of. simpl. rewrite length_app. simpl. lia. Qed.

Lemma rb_height t n : rb t n -> (height t <= 2 * n + match color_of t with Red => 1 | Black => 0 end)%nat /\ (2 ^ n <= S (size_of t))%nat.
Proof.
  induction 1 as [|l a k r n Hl [IHl Sl] Hr [IHr Sr] Cl Cr|l a k r n Hl [IHl Sl] Hr [IHr Sr]]; [simpl; lia|..]; rewrite size_node; simpl.
  - rewrite Cl in IHl. rewrite Cr in IHr. lia.
  - destruct (color_of l), (color_of r); lia.
Qed.

Lemma balanced_height t : balanced t -> (height t <= 2 * Nat.log2 (S (size_of t)))%nat.
Proof.
  intros [[n H] C]. apply rb_height in H as [Hh Hs]. rewrite C in Hh.
  assert (n <= Nat.log2 (S (size_of t)))%nat; [|lia]. rewrite <- (Nat.log2_pow2 n) by lia. by apply Nat.log2_le_mono.
Qed.

Lemma height_plug K : forall t, (length K + height t <= height (plug K t))%nat.
Proof.
  induction K as [|f K IH]; intros t; simpl; [lia|]. specialize (IH (fill f t)). destruct f; simpl in *; lia.
Qed.

(** ** Lookup *)

Lemma rb_find_run key t : forall fuel K w,
  holds w (plug K t) -> ordered (inorder t) -> in_u64 key -> (height t < fuel)%nat ->
  rb_find fuel key (rootp t) w = Ret (default 0 (to_map t !! key)) w.
Proof.
  induction t as [|c l IHl a k r IHr]; intros fuel K w H Ho Hk Hf; (destruct fuel as [|fuel]; [simpl in *; lia|]); [done|].
  destruct (focus _ _ _ _ _ _ _ H) as [Ha Ha0]. rewrite (to_map_node c l a k r key Ho Hk). simpl in Hf. cbn [rb_find rootp].
  rewrite (proj2 (Z.eqb_neq _ _) Ha0), (rb_get_bind _ _ _ _ Ha). cbn [kn_ident rbe_left rbe_right].
  simpl in Ho. apply ordered_middle in Ho as (Hol & Hor & _).
  destruct (_ <? 0); [apply (IHl fuel (FL c a k r :: K)); [done|done|done|lia]|].
  destruct (_ >? 0); [apply (IHr fuel (FR c l a k :: K)); [done|done|done|lia]|done].
Qed.

(** ** Positions *)

(** The nodes before and after the hole of a context. *)
Fixpoint ctx_before (K : ctx) : list (Z * Z) :=
  match K with
  | [] => []
  | FL _ _ _ _ :: K => ctx_before K
  | FR _ l a k :: K => ctx_before K ++ inorder l ++ [(k, a)]
  end.
Fixpoint ctx_after (K : ctx) : list (Z * Z) :=
  match K with
  | [] => []
  | FL _ a k r :: K => (k, a) :: inorder r ++ ctx_after K
  | FR _ _ _ _ :: K => ctx_after K
  end.

Lemma inorder_at K : forall t, inorder (plug K t) = ctx_before K ++ inorder t ++ ctx_after K.
Proof.
  induction K as [|f K IH]; intros t; simpl; [by rewrite app_nil_r|]. rewrite IH.
  destruct f; simpl; repeat (rewrite <- app_assoc; simpl); done.
Qed.

Lemma locate t : forall K0 l1 k a l2, inorder t = l1 ++ (k, a) :: l2 ->
  exists K c l r, plug K0 t = plug K (Node c l a k r) /\
    ctx_before K ++ inorder l = ctx_before K0 ++ l1 /\ inorder r ++ ctx_after K = l2 ++ ctx_after K0.
Proof.
  induction t as [|c l IHl b kb r IHr]; intros K0 l1 k a l2 E; simpl in E; [by destruct l1|].
  apply app_eq_inv in E as [(k' & El & E)|(k' & -> & E)].
  - destruct k' as [|x k']; simpl in E; simplify_eq.
    + rewrite app_nil_r in El. exists K0, c, l, r. by rewrite El.
    + destruct (IHl (FL c b kb r :: K0) l1 k a k' El) as (K & c' & l' & r' & E1 & E2 & E3).
      exists K, c', l', r'. split; [exact E1|]. split; [exact E2|]. rewrite E3. simpl. by rewrite <- app_assoc.
  - destruct k' as [|x k']; simpl in E; simplify_eq.
    + exists K0, c, l, r. by rewrite app_nil_r.
    + destruct (IHr (FR c l b kb :: K0) k' k a l2 ltac:(assumption)) as (K & c' & l' & r' & E1 & E2 & E3).
      exists K, c', l', r'. split; [exact E1|]. split; [|exact E3]. rewrite E2. simpl. by rewrite <- !app_assoc.
Qed.

(** A context of a balanced tree. *)
Lemma unplug K : forall t h, rb (plug K t) h -> color_of (plug K t) = Black ->
  exists n, ctx_rb K n /\ rb t n /\ (color_of t = Black \/ (top_black K /\ K <> [])).
Proof.
  induction K as [|f K IH]; intros t h H C; simpl in *; [exists h; eauto with rb|].
  destruct (IH (fill f t) h H C) as (n & HK & Hf & Hc).
  destruct f as [c a k r|c l a k]; simpl in *; destruct c; simpl in *; inversion Hf; subst.
  all: eexists; split; [|split; [eassumption|]]; [|first [by left|by right]]; eauto with rb.
  all: destruct Hc as [Hc|[Hc Hk]]; [done|]; destruct K as [|f K]; [done|]; by constructor.
Qed.

(** ** Insertion *)

Lemma rb_descend_run key t : forall fuel K w comp,
  holds w (plug K t) -> ordered (inorder t) -> in_u64 key -> (height t < fuel)%nat ->
  match K with [] => True | f :: _ => side f comp end ->
  (forall x, x ∈ (ctx_before K).*1 -> key_lt x key) -> (forall x, x ∈ (ctx_after K).*1 -> key_lt key x) ->
  match to_map t !! key with
  | Some a => rb_descend fuel key (rootp t) (ctxp K) comp w = Ret (inl a) w
  | None => exists K' comp', plug K t = plug K' Leaf /\ rb_descend fuel key (rootp t) (ctxp K) comp w = Ret (inr (ctxp K', comp')) w /\
      match K' with [] => True | f :: _ => side f comp' end /\
      (forall x, x ∈ (ctx_before K').*1 -> key_lt x key) /\ (forall x, x ∈ (ctx_after K').*1 -> key_lt key x)
  end.
Proof.
  induction t as [|c l IHl a k r IHr]; intros fuel K w comp H Ho Hk Hf Hs Hb Ha; (destruct fuel as [|fuel]; [simpl in *; lia|]).
  { assert (to_map Leaf !! key = None) as -> by done. by exists K, comp. }
  destruct (focus _ _ _ _ _ _ _ H) as [Hm Hm0]. rewrite (to_map_node c l a k r key Ho Hk). simpl in Hf. cbn [rb_descend rootp].
  rewrite (proj2 (Z.eqb_neq _ _) Hm0), (rb_get_bind _ _ _ _ Hm). cbn [kn_ident rbe_left rbe_right].
  simpl in Ho. apply ordered_middle in Ho as (Hol & Hor & Hku & Hl & Hr & _).
  destruct (Z.ltb_spec (knote_cmp key k) 0) as [H1|H1]; [|rewrite Z.gtb_ltb; destruct (Z.ltb_spec 0 (knote_cmp key k)) as [H2|H2]].
  - apply (IHl fuel (FL c a k r :: K) w (knote_cmp key k)); [done|done|done|lia|done|done|].
    intros x. simpl. rewrite fmap_app, elem_of_cons, elem_of_app. intros [->|[Hx|Hx]]; [done| |by apply Ha].
    exact (key_lt_trans _ _ _ H1 (Hr x Hx)).
  - apply (IHr fuel (FR c l a k :: K) w (knote_cmp key k)); [done|done|done|lia|done| |done].
    apply cmp_gt in H2. intros x. simpl. rewrite !fmap_app, !elem_of_app. simpl. rewrite list_elem_of_singleton.
    intros [Hx|[Hx| ->]]; [by apply Hb| |done]. exact (key_lt_trans _ _ _ (Hl x Hx) H2).
  - done.
Qed.

(** What insertion of [elm], a knote outside of the tree, does. *)
Lemma insert_run fuel w t elm n :
  holds w t -> balanced t -> ordered (inorder t) -> (height t < fuel)%nat ->
  rb_mem w !! elm = Some n -> in_u64 (kn_ident n) -> elm <> 0 -> elm ∉ addrs t ->
  match to_map t !! kn_ident n with
  | Some a => RB_INSERT fuel elm w = Ret a w
  | None => exists w' t', RB_INSERT fuel elm w = Ret 0 w' /\ holds w' t' /\ balanced t' /\ ordered (inorder t') /\
      to_map t' = <[kn_ident n:=elm]> (to_map t) /\ size_of t' = S (size_of t)
  end.
Proof.
  intros H [[h Hrb] Hc] Ho Hf Hn Hk He0 He. unfold RB_INSERT. rewrite RB_ROOT_bind, (rb_get_bind _ _ _ _ Hn), (hd_root _ _ H).
  pose proof (rb_descend_run (kn_ident n) t fuel [] w 0 H Ho Hk Hf I) as Hd. simpl in Hd.
  specialize (Hd ltac:(set_solver) ltac:(set_solver)). destruct (to_map t !! kn_ident n) as [a|] eqn:Em.
  { by rewrite (bind_step _ _ _ _ _ Hd). }
  destruct Hd as (K & comp & -> & E & Hs & Hb & Ha). rewrite (bind_step _ _ _ _ _ E).
  destruct (link_run w K elm n comp H He0 He Hn Hs) as (w1 & E1 & H1). rewrite (bind_step _ _ _ _ _ E1).
  destruct (unplug K Leaf h Hrb Hc) as (m & HK & HL & _). inversion HL; subst m.
  destruct (insert_color_run fuel K Leaf elm (kn_ident n) Leaf 0 w1) as (w2 & t' & E2 & H2 & I2 & B2);
    [pose proof (height_plug K Leaf); simpl in *; lia|done|eauto with rb|done|].
  rewrite (bind_step _ _ _ _ _ E2). exists w2, t'. split; [done|]. split; [done|]. split; [done|].
  rewrite inorder_at in *. simpl in *.
  assert (ordered (inorder t')) as Ho'.
  { rewrite I2. apply ordered_middle. destruct Ho as [Ho Hu]. rewrite fmap_app in Ho, Hu. apply StronglySorted_app in Ho as (Hx & H3 & H4).
    apply Forall_app in Hu as [Hu1 Hu2]. split; [by split|]. split; [by split|]. auto. }
  split; [done|]. pose proof (ordered_nodup _ Ho') as Hnd. rewrite I2 in Hnd. destruct (map_middle _ _ _ _ Hnd) as [E3 _].
  unfold to_map, size_of. rewrite I2, E3, inorder_at. simpl. split; [done|]. rewrite !length_app. simpl. lia.
Qed.

(** ** Removal *)

Lemma rb_deficit t n : rb t n -> deficit t n.
Proof.
  intros H. destruct (color_of t) eqn:C; [right|by left]. inversion H; subst; try done. by eexists _, _, _, _.
Qed.
Lemma rb_readdress c l a k r b kb n : rb (Node c l a k r) n -> rb (Node c l b kb r) n.
Proof. inversion 1; subst; eauto with rb. Qed.

(** A path to the left: its hole comes before everything else. *)
Lemma leftmost_run t : forall fuel K w, t <> Leaf -> holds w (plug K t) -> (height t <= fuel)%nat ->
  exists P c b kb r, t = plug P (Node c Leaf b kb r) /\ ctx_before P = [] /\ leftmost fuel (rootp t) w = Ret b w.
Proof.
  induction t as [|c l IHl a k r _]; intros fuel K w Ht H Hf; [done|]. simpl in Hf. destruct fuel as [|fuel]; [lia|].
  destruct (focus _ _ _ _ _ _ _ H) as [Ha _]. cbn [leftmost rootp]. rewrite (RB_LEFT_bind _ _ _ _ Ha). cbn [rbe_left].
  rewrite (rootp_null w (FL c a k r :: K) l H). destruct l as [|cl ll la lk lr]; [by exists [], c, a, k, r|].
  destruct (IHl fuel (FL c a k r :: K) w) as (P & c' & b & kb & r' & E & HP & Hrun); [done|done|lia|].
  exists (P ++ [FL c a k r]), c', b, kb, r'. rewrite ctx_snoc, <- E. split; [done|]. split; [|done].
  clear -HP. induction P as [|[] P IH]; simpl in *; [done|by apply IH|].
  apply app_eq_nil in HP as [_ HP]. by apply app_eq_nil in HP as [_ HP].
Qed.

Lemma augment_up_run K : forall fuel w t, K <> [] -> holds w (plug K t) -> (length K <= fuel)%nat ->
  augment_up fuel (ctxp K) w = Ret tt w.
Proof.
  induction K as [|f K IH]; intros fuel w t HK H Hf; [done|]. destruct fuel as [|fuel]; [simpl in Hf; lia|]. cbn [augment_up].
  assert (exists n, rb_mem w !! frame_addr f = Some n /\ rbe_parent n = ctxp K) as (n & Hn & Hp).
  { simpl in H. destruct f; destruct (focus _ _ _ _ _ _ _ H) as [Ha _]; by eexists. }
  cbn [ctxp]. rewrite (RB_PARENT_bind _ _ _ _ Hn), Hp. destruct K as [|f' K]; [done|].
  assert (ctxp (f' :: K) =? 0 = false) as ->.
  { simpl in H. destruct f'; destruct (focus _ _ _ _ _ _ _ H) as [_ Ha]; by apply Z.eqb_neq. }
  apply (IH fuel w (fill f t)); [done|done|simpl in *; lia].
Qed.

(** The color of the node that was taken out decides whether the tree is still balanced. *)
Lemma fix_after_removal fuel w K c l a k r t' h :
  holds w (plug K t') -> rb (plug K (Node c l a k r)) h -> color_of (plug K (Node c l a k r)) = Black ->
  (l = Leaf /\ t' = r) \/ (r = Leaf /\ t' = l) -> (length K < fuel)%nat ->
  rebalances (if col c =? RB_BLACK then RB_REMOVE_COLOR fuel (ctxp K) (rootp t') else mret tt) w (inorder (plug K t')).
Proof.
  intros H Hrb Hc Ht Hf. destruct (unplug K _ h Hrb Hc) as (n & HK & Hn & _). destruct c; cbn [col].
  - assert (rb t' n /\ color_of t' = Black) as [Ht' Ct'] by (apply rb_red_inv in Hn; naive_solver).
    exists w, (plug K t'). split; [done|]. split; [done|]. split; [done|]. by apply (plug_balanced K n).
  - inversion Hn as [| |? ? ? ? m Hl Hr]; subst. assert (rb t' m) as Ht' by naive_solver.
    apply (remove_color_run fuel K t' m w Hf H (rb_deficit _ _ Ht') HK).
Qed.

Lemma remove_two_run fuel w K c l a k r h :
  holds w (plug K (Node c l a k r)) -> rb (plug K (Node c l a k r)) h -> color_of (plug K (Node c l a k r)) = Black ->
  l <> Leaf -> r <> Leaf -> (height (plug K (Node c l a k r)) < fuel)%nat ->
  exists w' t', RB_REMOVE fuel a w = Ret a w' /\ holds w' t' /\ balanced t' /\
    inorder t' = ctx_before K ++ (inorder l ++ inorder r) ++ ctx_after K.
Proof.
  intros H Hrb Hc Hl Hr Hf. destruct (focus _ _ _ _ _ _ _ H) as [Ha Ha0].
  pose proof (height_plug K (Node c l a k r)) as Hh. simpl in Hh.
  destruct (leftmost_run r fuel (FR c l a k :: K) w Hr H) as (P & c2 & b & kb & r2 & -> & HP & Hrun); [lia|].
  set (K1 := P ++ FR c l a k :: K). set (K2 := P ++ FR c l b kb :: K).
  assert (forall t, plug K1 t = plug K (Node c l a k (plug P t))) as E1 by (intros; by unfold K1; rewrite ctx_snoc).
  assert (forall t, plug K2 t = plug K (Node c l b kb (plug P t))) as E2 by (intros; by unfold K2; rewrite ctx_snoc).
  pose proof H as H1. rewrite <- E1 in H1. destruct (focus _ _ _ _ _ _ _ H1) as [Hb Hb0].
  destruct (splice_out_run w K1 c2 Leaf b kb r2 r2 H1) as (w1 & Es & Hw1 & F1); [by left|].
  assert (b ∉ addrs (plug K1 r2)) as Hbt.
  { pose proof (distinct _ _ _ H1) as Hd. rewrite addrs_node in Hd. rewrite addrs_plug. nodups. apart. }
  assert (rb_mem w1 !! b = rb_mem w !! b) as Hb1 by (by apply F1). rewrite Hb in Hb1.
  rewrite E1 in Hw1, Hbt. destruct (take_place_run w1 K c l a k (plug P r2) b _ Hw1 Hl Hb0 Hbt Hb1) as (w2 & Et & Hw2).
  cbn [kn_ident] in Hw2. rewrite <- E2 in Hw2.
  assert ((if ctxp K1 =? a then b else ctxp K1) = ctxp K2 /\ K2 <> [] /\ length K2 = length K1) as (Ep & HK2 & Hlen).
  { unfold K1, K2. destruct P as [|f P]; simpl; [by rewrite Z.eqb_refl|]. split; [|by rewrite !length_app].
    rewrite (proj2 (Z.eqb_neq _ _)); [done|]. intros Efa. pose proof (distinct _ _ _ H1) as Hd. unfold K1 in Hd.
    unfold ctx_addrs in Hd. simpl in Hd. apply NoDup_app in Hd as (Hd & _). apply NoDup_app in Hd as (_ & Hd & _). apply (Hd a); [destruct f; simpl in *; subst; set_solver|].
    rewrite bind_app. simpl. set_solver. }
  assert (length K1 < fuel)%nat as Hl1 by (pose proof (height_plug K1 (Node c2 Leaf b kb r2)) as Hh1; rewrite E1 in Hh1; lia).
  assert (exists h', rb (plug K2 (Node c2 Leaf b kb r2)) h' /\ color_of (plug K2 (Node c2 Leaf b kb r2)) = Black) as (h' & Hrb2 & Hc2).
  { rewrite E2. destruct (unplug K _ h Hrb Hc) as (n & HK & Hn & Hcn).
    destruct (plug_rb K n HK _ (rb_readdress _ _ _ _ _ b kb _ Hn)) as (h' & Hh' & Ch'); [simpl in *; tauto|]. exists h'. split; [done|].
    destruct K; [simpl in *; done|by apply Ch']. }
  destruct (fix_after_removal fuel w2 K2 c2 Leaf b kb r2 r2 h' Hw2 Hrb2 Hc2) as (w3 & t3 & E3 & H3 & I3 & B3); [by left|lia|].
  exists w3, t3. split; [|split; [done|]; split; [done|]].
  - unfold RB_REMOVE. rewrite (RB_LEFT_bind _ _ _ _ Ha), (RB_RIGHT_bind _ _ _ _ Ha). cbn [rbe_left rbe_right].
    rewrite (rootp_null w (FL c a k _ :: K) l H), (rootp_null w (FR c l a k :: K) _ H). destruct l; [done|].
    destruct (plug P (Node c2 Leaf b kb r2)) eqn:Epr; [done|]. cbn [orb].
    rewrite bind_assoc, (bind_step _ _ _ _ _ Hrun), bind_assoc, (RB_RIGHT_bind _ _ _ _ Hb), bind_assoc, (RB_COLOR_bind _ _ _ _ Hb).
    cbn [rbe_right rbe_color]. rewrite bind_assoc, (bind_step _ _ _ _ _ Es), bind_assoc, (RB_PARENT_bind _ _ _ _ Hb1). cbn [rbe_parent].
    rewrite Ep. rewrite bind_assoc, (bind_step _ _ _ _ _ Et), bind_assoc.
    assert ((if ctxp K2 =? 0 then mret tt else augment_up fuel (ctxp K2)) w2 = Ret tt w2) as Ea.
    { destruct (ctxp K2 =? 0); [done|]. apply (augment_up_run K2 fuel w2 r2); [done|done|lia]. }
    rewrite (bind_step _ _ _ _ _ Ea), ret_bind. by rewrite (bind_step _ _ _ _ _ E3).
  - rewrite I3, E2, inorder_at. simpl. rewrite !inorder_at, HP. simpl. by rewrite <- !app_assoc.
Qed.

Lemma remove_one_run fuel w K c l a k r h :
  holds w (plug K (Node c l a k r)) -> rb (plug K (Node c l a k r)) h -> color_of (plug K (Node c l a k r)) = Black ->
  l = Leaf \/ r = Leaf -> (height (plug K (Node c l a k r)) < fuel)%nat ->
  exists w' t', RB_REMOVE fuel a w = Ret a w' /\ holds w' t' /\ balanced t' /\
    inorder t' = ctx_before K ++ (inorder l ++ inorder r) ++ ctx_after K.
Proof.
  intros H Hrb Hc Hlr Hf. destruct (focus _ _ _ _ _ _ _ H) as [Ha Ha0].
  pose proof (height_plug K (Node c l a k r)) as Hh.
  set (t' := match l with Leaf => r | _ => l end).
  assert ((l = Leaf /\ t' = r) \/ (r = Leaf /\ t' = l)) as Ht by (unfold t'; destruct l; naive_solver).
  destruct (splice_out_run w K c l a k r t' H Ht) as (w1 & Es & H1 & _).
  destruct (fix_after_removal fuel w1 K c l a k r t' h H1 Hrb Hc Ht) as (w2 & t2 & E2 & H2 & I2 & B2); [lia|].
  exists w2, t2. split; [|split; [done|]; split; [done|]].
  - unfold RB_REMOVE. rewrite (RB_LEFT_bind _ _ _ _ Ha), (RB_RIGHT_bind _ _ _ _ Ha). cbn [rbe_left rbe_right].
    rewrite (rootp_null w (FL c a k r :: K) l H), (rootp_null w (FR c l a k :: K) r H).
    replace (match l with Leaf => true | _ => false end || match r with Leaf => true | _ => false end) with true
      by (destruct l, r; naive_solver).
    replace (if match l with Leaf => true | _ => false end then rootp r else rootp l) with (rootp t') by (by destruct l).
    rewrite bind_assoc, (RB_COLOR_bind _ _ _ _ Ha). cbn [rbe_color]. rewrite bind_assoc, (bind_step _ _ _ _ _ Es), ret_bind.
    by rewrite (bind_step _ _ _ _ _ E2).
  - rewrite I2, inorder_at. do 2 f_equal. destruct Ht as [[-> ->]|[-> ->]]; simpl; by rewrite ?app_nil_r.
Qed.

Lemma remove_run fuel w t k a :
  holds w t -> balanced t -> ordered (inorder t) -> (height t < fuel)%nat -> to_map t !! k = Some a ->
  exists w' t', RB_REMOVE fuel a w = Ret a w' /\ holds w' t' /\ balanced t' /\ ordered (inorder t') /\
    to_map t' = delete k (to_map t) /\ S (size_of t') = size_of t.
Proof.
  intros H [[h Hrb] Hc] Ho Hf Hk. apply elem_of_list_to_map_2, list_elem_of_split in Hk as (l1 & l2 & E).
  destruct (locate t [] l1 k a l2 E) as (K & c & l & r & Et & E1 & E2). simpl in Et, E1, E2. rewrite app_nil_r in E2. subst l1 l2.
  assert (exists w' t', RB_REMOVE fuel a w = Ret a w' /\ holds w' t' /\ balanced t' /\
    inorder t' = ctx_before K ++ (inorder l ++ inorder r) ++ ctx_after K) as (w' & t' & Er & H' & B' & I').
  { subst t. destruct l as [|cl ll la lk lr]; [apply (remove_one_run fuel w K c _ a k r h); auto|].
    destruct r as [|cr rl ra rk rr]; [apply (remove_one_run fuel w K c _ a k _ h); auto|].
    by apply (remove_two_run fuel w K c _ a k _ h). }
  exists w', t'. split; [done|]. split; [done|]. split; [done|].
  rewrite <- app_assoc in I'. rewrite app_assoc in I'. pose proof (ordered_nodup _ Ho) as Hnd. rewrite E in Ho, Hnd.
  destruct (map_middle _ _ _ _ Hnd) as [M1 M2]. split.
  - rewrite I'. destruct Ho as [Hs Hu]. rewrite fmap_app, fmap_cons in Hs, Hu. apply StronglySorted_app in Hs as (Hx & Hs1 & Hs2).
    apply StronglySorted_cons in Hs2 as [_ Hs2]. apply Forall_app in Hu as [Hu1 Hu2]. apply Forall_cons in Hu2 as [_ Hu2].
    unfold ordered. rewrite fmap_app. split; [|by apply Forall_app]. apply StronglySorted_app_2; [|done|done].
    intros x y Hx1 Hy. apply Hx; [done|]. by apply list_elem_of_further.
  - unfold to_map, size_of. rewrite I', E, M1, delete_insert_id by done. split; [done|]. rewrite !length_app. simpl. rewrite !length_app. lia.
Qed.

(** ** The finite map *)

(** What a client asks of the tree: knote_lookup, knote_insert of a new knote, and the removal in knote_delete, which looks the
    key up first. *)
Inductive rb_op := OpFind (key : Z) | OpInsert (elm key : Z) | OpDelete (elm key : Z).

Definition rb_exec (fuel : nat) (op : rb_op) : RM Z :=
  match op with
  | OpFind key => RB_FIND fuel key
  | OpInsert elm key => rb_put elm (RbNode 0 0 0 0 key);; RB_INSERT fuel elm
  | OpDelete elm key => tmp ← RB_FIND fuel key; if tmp =? elm then RB_REMOVE fuel elm else mret 0
  end.
Fixpoint rb_execs (fuel : nat) (ops : list rb_op) : RM (list Z) :=
  match ops with [] => mret [] | op :: ops => r ← rb_exec fuel op; rs ← rb_execs fuel ops; mret (r :: rs) end.

Definition map_op (op : rb_op) (m : gmap Z Z) : Z * gmap Z Z :=
  match op with
  | OpFind key => (default 0 (m !! key), m)
  | OpInsert elm key => match m !! key with Some a => (a, m) | None => (0, <[key:=elm]> m) end
  | OpDelete elm key => if bool_decide (m !! key = Some elm) then (elm, delete key m) else (0, m)
  end.
Fixpoint map_ops (ops : list rb_op) (m : gmap Z Z) : list Z * gmap Z Z :=
  match ops with
  | [] => ([], m)
  | op :: ops => let '(r, m) := map_op op m in let '(rs, m) := map_ops ops m in (r :: rs, m)
  end.

(** A knote that is inserted is not in the tree. *)
Definition legal (op : rb_op) (m : gmap Z Z) : Prop :=
  match op with
  | OpFind key => in_u64 key
  | OpInsert elm key => in_u64 key /\ elm <> 0 /\ map_Forall (fun _ a => a <> elm) m
  | OpDelete elm key => in_u64 key /\ elm <> 0
  end.
Fixpoint legal_ops (ops : list rb_op) (m : gmap Z Z) : Prop :=
  match ops with [] => True | op :: ops => legal op m /\ legal_ops ops (map_op op m).2 end.

#[export] Instance legal_dec op m : Decision (legal op m).
Proof. destruct op; simpl; apply _. Defined.
#[export] Instance legal_ops_dec ops m : Decision (legal_ops ops m).
Proof. revert m. induction ops as [|op ops IH]; intros m; simpl; apply _. Defined.

(** The memory holds a balanced tree whose map is [m]. *)
Definition is_tree (w : rbworld) (m : gmap Z Z) : Prop :=
  exists t, holds w t /\ balanced t /\ ordered (inorder t) /\ to_map t = m.

Lemma to_map_size t : ordered (inorder t) -> size (to_map t) = size_of t.
Proof.
  intros Ho. unfold size_of, to_map. pose proof (ordered_nodup _ Ho) as Hn. clear Ho.
  induction (inorder t) as [|[k a] l IH]; [done|]. simpl in *. apply NoDup_cons in Hn as [Hk Hn].
  rewrite map_size_insert_None by (by apply not_elem_of_list_to_map). by rewrite IH.
Qed.

Lemma addrs_map t a : ordered (inorder t) -> a ∈ addrs t -> exists k, to_map t !! k = Some a.
Proof.
  intros Ho Ha. apply list_elem_of_fmap in Ha as ([k a'] & -> & Hin). exists k.
  by apply elem_of_list_to_map_1; [apply ordered_nodup|].
Qed.

Lemma find_run fuel w t key : holds w t -> ordered (inorder t) -> in_u64 key -> (height t < fuel)%nat ->
  RB_FIND fuel key w = Ret (default 0 (to_map t !! key)) w.
Proof. intros H Ho Hk Hf. unfold RB_FIND. rewrite RB_ROOT_bind, (hd_root _ _ H). by apply (rb_find_run key t fuel []). Qed.

Lemma holds_put w t elm n : holds w t -> elm ∉ addrs t -> elm <> 0 -> holds (wput elm n w) t.
Proof.
  intros [Hr Hm Hn H0] He He0. split; [done| |done|by rewrite wput_ne]. apply (rep_agree (rb_mem w)); [|done].
  intros b Hb. apply wput_ne. intros ->. done.
Qed.

Lemma rb_exec_run fuel op w m :
  is_tree w m -> legal op m -> (2 * Nat.log2 (S (size m)) < fuel)%nat ->
  exists w', rb_exec fuel op w = Ret (map_op op m).1 w' /\ is_tree w' (map_op op m).2.
Proof.
  intros (t & H & B & Ho & <-) Hlegal Hf. rewrite (to_map_size t Ho) in Hf. pose proof (balanced_height t B) as Hh.
  destruct op as [key|elm key|elm key]; simpl in Hlegal; cbn [rb_exec map_op].
  - exists w. rewrite (find_run fuel w t key H Ho Hlegal) by lia. split; [done|]. by exists t.
  - destruct Hlegal as (Hk & He0 & He).
    assert (elm ∉ addrs t) as Het by (intros [k Hin]%addrs_map; [by apply (He k elm)|done]).
    pose proof (insert_run fuel (wput elm (RbNode 0 0 0 0 key) w) t elm (RbNode 0 0 0 0 key) (holds_put _ _ _ _ H Het He0) B Ho
      ltac:(lia) (wput_eq _ _ _) Hk He0 Het) as Hi. cbn [kn_ident] in Hi. unfold rb_put. rewrite modify_bind. fold (wput elm (RbNode 0 0 0 0 key) w).
    destruct (to_map t !! key) as [a|].
    + eexists. split; [exact Hi|]. exists t. split; [by apply holds_put|done].
    + destruct Hi as (w' & t' & E & H' & B' & Ho' & Em & _). exists w'. split; [done|]. by exists t'.
  - destruct Hlegal as [Hk He0]. rewrite (bind_step _ _ _ _ _ (find_run fuel w t key H Ho Hk ltac:(lia))).
    destruct (to_map t !! key) as [a|] eqn:Em; cbn [from_option id]; [|rewrite (proj2 (Z.eqb_neq 0 elm)) by done].
    + destruct (Z.eqb_spec a elm) as [->|Hne].
      * rewrite bool_decide_eq_true_2 by done.
        destruct (remove_run fuel w t key elm H B Ho ltac:(lia) Em) as (w' & t' & E & H' & B' & Ho' & Ed & _). exists w'.
        split; [done|]. by exists t'.
      * rewrite bool_decide_eq_false_2 by congruence. exists w. split; [done|]. by exists t.
    + rewrite bool_decide_eq_false_2 by done. exists w. split; [done|]. by exists t.
Qed.

Lemma map_op_size op m : (size (map_op op m).2 <= S (size m))%nat.
Proof.
  destruct op as [key|elm key|elm key]; cbn [map_op snd]; [lia|..].
  - destruct (m !! key) eqn:E; simpl; [lia|]. by rewrite map_size_insert_None.
  - case_bool_decide as E; simpl; [|lia]. rewrite map_size_delete_Some by (by eexists). lia.
Qed.

(** C17: any sequence of lookups, insertions and removals that knote.c makes on the red-black tree gives the answers that a finite map from
    idents to knotes gives, and ends in a balanced tree whose map is the finite map's.  A fuel
    of 2 log2 (n + 1) + 1 is enough for trees of up to [n] knotes: no loop of an operation takes more turns. *)
Theorem rb_refines_map fuel ops w m :
  is_tree w m -> legal_ops ops m -> (2 * Nat.log2 (S (size m + length ops)) < fuel)%nat ->
  exists w', rb_execs fuel ops w = Ret (map_ops ops m).1 w' /\ is_tree w' (map_ops ops m).2.
Proof.
  revert w m. induction ops as [|op ops IH]; intros w m H Hl Hf; [by exists w|]. simpl in Hl. destruct Hl as [Hop Hl].
  destruct (rb_exec_run fuel op w m H Hop) as (w1 & E1 & H1).
  { assert (Nat.log2 (S (size m)) <= Nat.log2 (S (size m + length (op :: ops))))%nat by (apply Nat.log2_le_mono; simpl; lia). lia. }
  cbn [rb_execs map_ops]. rewrite (bind_step _ _ _ _ _ E1). pose proof (map_op_size op m) as Hs.
  destruct (map_op op m) as [r m1]. simpl in *. destruct (IH w1 m1 H1 Hl) as (w2 & E2 & H2).
  { assert (Nat.log2 (S (size m1 + length ops)) <= Nat.log2 (S (size m + S (length ops))))%nat by (apply Nat.log2_le_mono; lia). lia. }
  rewrite (bind_step _ _ _ _ _ E2). destruct (map_ops ops m1) as [rs m2]. by exists w2.
Qed.

Definition rb_empty : rbworld := RbWorld 0 ∅.
Lemma rb_empty_tree : is_tree rb_empty ∅.
Proof.
  exists Leaf. split; [by split; [| |constructor|]|]. split; [split; [by exists 0%nat; constructor|done]|]. split; [|done].
  split; constructor.
Qed.

(** Insertions in ascending order, a second knote with an ident that is there, a lookup, and removals with two children and with one. *)
Definition rb_ex_ops : list rb_op :=
  ((fun i => OpInsert (100 + i) i) <$> [1; 2; 3; 4; 5; 6; 7; 8; 300]) ++
  [OpInsert 999 5; OpFind 300; OpDelete 104 4; OpDelete 102 2; OpDelete 7 1; OpFind 2].

Lemma rb_refines_map_witness :
  legal_ops rb_ex_ops ∅ /\ exists w', rb_execs 12 rb_ex_ops rb_empty =
    Ret [0; 0; 0; 0; 0; 0; 0; 0; 0; 105; 400; 104; 102; 0; 0] w' /\ is_tree w' (map_ops rb_ex_ops ∅).2.
Proof.
  assert (legal_ops rb_ex_ops ∅) as Hl by (apply (bool_decide_unpack _); vm_compute; exact I). split; [exact Hl|].
  destruct (rb_refines_map 12 rb_ex_ops rb_empty ∅ rb_empty_tree Hl) as (w' & E & H); [vm_compute; lia|].
  exists w'. split; [|exact H]. rewrite E. f_equal.
Defined.

(** ** Iteration *)

(** Where RB_NEXT goes when there is nothing to the right: to the first node after the hole. *)
Definition first_addr (l : list (Z * Z)) : Z := match l with [] => 0 | (_, a) :: _ => a end.

Lemma climb_right_run K : forall fuel w t, t <> Leaf -> holds w (plug K t) -> (length K < fuel)%nat ->
  climb_right fuel (rootp t) w = Ret (first_addr (ctx_after K)) w.
Proof.
  induction K as [|f K IH]; intros fuel w t Ht H Hf; (destruct fuel as [|fuel]; [simpl in *; lia|]); cbn [climb_right];
    (destruct t as [|c l a k r]; [done|]); destruct (focus _ _ _ _ _ _ _ H) as [Ha Ha0];
    rewrite (RB_PARENT_bind _ _ _ _ Ha); cbn [rbe_parent ctxp]; [done|].
  simpl in H, Hf. destruct f as [cf p kp s|cf s p kp]; cbn [frame_addr fill] in *; destruct (focus _ _ _ _ _ _ _ H) as [Hp Hp0];
    rewrite (proj2 (Z.eqb_neq _ _) Hp0), (RB_RIGHT_bind _ _ _ _ Hp); cbn [rbe_right rootp].
  - pose proof (siblings_ne _ _ _ _ _ _ _ H (or_introl (node_leaf _ _ _ _ _))) as Hne. cbn [rootp] in Hne.
    by rewrite (proj2 (Z.eqb_neq _ _) Hne).
  - rewrite Z.eqb_refl. apply (IH fuel w (Node cf s p kp (Node c l a k r))); [done|done|lia].
Qed.

Lemma next_run fuel w K c l a k r :
  holds w (plug K (Node c l a k r)) -> (height (plug K (Node c l a k r)) < fuel)%nat ->
  RB_NEXT fuel a w = Ret (first_addr (inorder r ++ ctx_after K)) w.
Proof.
  intros H Hf. pose proof (height_plug K (Node c l a k r)) as Hh. simpl in Hh.
  destruct (focus _ _ _ _ _ _ _ H) as [Ha Ha0]. unfold RB_NEXT. rewrite (RB_RIGHT_bind _ _ _ _ Ha). cbn [rbe_right].
  rewrite (rootp_null w (FR c l a k :: K) r H). destruct r as [|cr rl ra rk rr]; cbn [negb].
  - simpl. rewrite (RB_PARENT_bind _ _ _ _ Ha). cbn [rbe_parent].
    pose proof (climb_right_run K fuel w (Node c l a k Leaf) (node_leaf _ _ _ _ _) H ltac:(lia)) as Hc. cbn [rootp] in Hc.
    destruct K as [|[cf p kp s|cf s p kp] K]; [done|..]; simpl in H; cbn [ctxp frame_addr]; destruct (focus _ _ _ _ _ _ _ H) as [Hp Hp0];
      rewrite (proj2 (Z.eqb_neq _ _) Hp0), bind_assoc, (RB_LEFT_bind _ _ _ _ Hp); cbn [rbe_left rootp]; rewrite ret_bind.
    + by rewrite Z.eqb_refl.
    + pose proof (siblings_ne _ _ _ _ _ _ _ H (or_intror (node_leaf _ _ _ _ _))) as Hne. cbn [rootp] in Hne.
      by rewrite (proj2 (Z.eqb_neq a (rootp s))) by done.
  - destruct (leftmost_run (Node cr rl ra rk rr) fuel (FR c l a k :: K) w) as (P & c2 & b & kb & r2 & -> & HP & Hrun); [done|done|simpl in *; lia|].
    rewrite Hrun, inorder_at, HP. done.
Qed.

Lemma minmax_run t : forall fuel K w p, holds w (plug K t) -> (height t < fuel)%nat ->
  rb_minmax fuel (-1) (rootp t) p w = Ret (match inorder t with [] => p | l => first_addr l end) w.
Proof.
  induction t as [|c l IHl a k r _]; intros fuel K w p H Hf; (destruct fuel as [|fuel]; [simpl in *; lia|]); [done|].
  destruct (focus _ _ _ _ _ _ _ H) as [Ha Ha0]. cbn [rb_minmax rootp]. rewrite (proj2 (Z.eqb_neq _ _) Ha0). simpl in Hf.
  change (-1 <? 0) with true. rewrite (RB_LEFT_bind _ _ _ _ Ha). cbn [rbe_left].
  rewrite (IHl fuel (FL c a k r :: K)) by (done || lia). simpl. by destruct (inorder l).
Qed.

Lemma foreach_run fuel w t : holds w t -> (height t < fuel)%nat ->
  forall l2 l1 steps, inorder t = l1 ++ l2 -> (length l2 < steps)%nat -> rb_foreach fuel steps (first_addr l2) w = Ret l2.*2 w.
Proof.
  intros H Hf. induction l2 as [|[k a] l2 IH]; intros l1 steps E Hs; (destruct steps as [|steps]; [simpl in *; lia|]); [done|].
  destruct (locate t [] l1 k a l2 E) as (K & c & l & r & Et & _ & E2). simpl in Et, E2. rewrite app_nil_r in E2. subst t l2.
  destruct (focus _ _ _ _ _ _ _ H) as [Ha Ha0]. cbn [rb_foreach first_addr]. rewrite (proj2 (Z.eqb_neq _ _) Ha0).
  rewrite (bind_step _ _ _ _ _ (next_run fuel w K c l a k r H Hf)).
  rewrite (bind_step _ _ _ _ _ (IH (l1 ++ [(k, a)]) steps ltac:(by rewrite <- app_assoc) ltac:(simpl in Hs; lia))). done.
Qed.

(** RB_FOREACH visits every knote of the tree once, in the order of knote_cmp. *)
Theorem foreach_in_order fuel steps w m :
  is_tree w m -> (2 * Nat.log2 (S (size m)) < fuel)%nat -> (size m < steps)%nat ->
  exists l, RB_FOREACH fuel steps w = Ret l.*2 w /\ StronglySorted key_lt l.*1 /\ list_to_map l = m.
Proof.
  intros (t & H & B & Ho & <-) Hf Hs. rewrite (to_map_size t Ho) in Hf, Hs. pose proof (balanced_height t B).
  exists (inorder t). split; [|split; [apply Ho|done]]. unfold RB_FOREACH, RB_MINMAX. rewrite bind_assoc, RB_ROOT_bind, (hd_root _ _ H).
  rewrite (bind_step _ _ _ _ _ (minmax_run t fuel [] w 0 H ltac:(lia))).
  replace (match inorder t with [] => 0 | l => first_addr l end) with (first_addr (inorder t)) by (by destruct (inorder t)).
  by apply (foreach_run fuel w t H ltac:(lia) (inorder t) []).
Qed.

Lemma foreach_in_order_witness : exists l, RB_FOREACH 1 1 rb_empty = Ret l.*2 rb_empty /\ StronglySorted key_lt l.*1 /\ (list_to_map l : gmap Z Z) = ∅.
Proof. apply (foreach_in_order 1 1 rb_empty ∅ rb_empty_tree); vm_compute; lia. Defined.
