(* ===== verification/Kqueue.v ===== *)
(** * The kqueue emulation: common code

    Models src/libkqueue/src/common (map.c, knote.c, filter.c, kqueue.c, kevent.c) in its Linux configuration.  System
    calls are a parameter: [os asked c] is the reply to the call [c] after the calls [asked]; each call is
    recorded.  The static filters are told apart by a tag, and their functions come from the platform
    ([filter_ops], [kqueue_vtable]), as in the C structures of function pointers.  The RB tree of knotes is a
    finite map on the ident, which is what knote_cmp compares; kevent() holds kq_mtx whenever it touches
    knotes, so the code is sequential. *)

From S2P Require Import Prelude DispatchTime DispatchSource.
From stdpp Require Import base tactics list numbers gmap strings.
From Stdlib Require Import ZArith Lia.

Local Open Scope Z_scope.

(** ** Constants *)

Definition EVFILT_TIMER : Z := -7.
Definition EVFILT_SYSCOUNT : Z := 11.
Definition EV_DISABLE : Z := 0x8.
Definition EV_EOF : Z := 0x8000.
Definition MAX_KEVENT : Z := 512.
Definition KNFL_PASSIVE_SOCKET : Z := 0x01.
Definition KNFL_REGULAR_FILE : Z := 0x02.
Definition KNFL_KNOTE_DELETED : Z := 0x10.
Definition ENOENT : Z := 2.
Definition EINTR : Z := 4.
Definition EAGAIN : Z := 11.
Definition EFAULT : Z := 14.
Definition EINVAL : Z := 22.
Definition ENOSYS : Z := 38.

(** ** System calls *)

Inductive syscall :=
| SysCalloc
| SysMmap
| SysGetrlimit
| SysEpollCreate
| SysEpollCtl (epfd op fd : Z) (ev : option (Z * Z))   (* events and data.ptr *)
| SysEpollWait (epfd maxevents timeout : Z)
| SysPpoll (fd : Z) (timeout : timespec)
| SysFstat (fd : Z)
| SysLseek (fd : Z)
| SysGetsockopt (fd : Z)
| SysIoctl (fd request : Z)
| SysEventfd
| SysFcntl (fd : Z)                                     (* F_SETFL, O_NONBLOCK *)
| SysRead (fd count : Z)
| SysWrite (fd : Z)
| SysClose (fd : Z)
| SysTimerfdCreate
| SysTimerfdSettime (fd : Z) (interval value : timespec)
| SysSignalfd (signum flags : Z)
| SysSigprocmask (signum : Z)
| SysInotifyInit
| SysInotifyAddWatch (fd path mask : Z)
| SysReadlink (fd : Z).

(** What a call returns and stores: the return value, errno when it failed, the value stored through a pointer (bytes
    to read, expirations, rlimit), the file's type, size and links, the mask and length of an inotify event, and
    the events of epoll_wait. *)
Record stat := Stat { st_isreg : bool; st_issock : bool; st_nlink : Z; st_size : Z }.
Record inotify_event := InotifyEvent { in_mask : Z; in_len : Z }.
Record reply := Reply {
  r_ret : Z; r_errno : Z; r_word : Z; r_stat : stat; r_inotify : inotify_event; r_events : list (Z * Z)
}.
Definition os : Type := list syscall -> syscall -> reply.

(** ** State *)

(** struct knote; data.events and data.pfd are the same int, and so are the descriptors of kdata. *)
Record knote := Knote {
  kn_kev : kevent; kn_flags : Z; kn_data : Z; kn_nlink : Z; kn_size : Z;
  kn_kq : Z; kn_ref : Z; kn_epollfd : Z; kn_fd : Z
}.

(** The static filters of the platform; a structure filled with zeros is EVFILT_NOTIMPL. *)
Inductive filter_impl := ImplNone | ImplRead | ImplWrite | ImplSignal | ImplVnode | ImplTimer | ImplUser.
#[export] Instance filter_impl_eq_dec : EqDecision filter_impl.
Proof. solve_decision. Defined.

Record kfilter := KFilter { kf_id : Z; kf_impl : filter_impl; kf_knote : gmap Z Z; kf_kqueue : Z }.
Definition zero_filter : kfilter := KFilter 0 ImplNone ∅ 0.

Record kqueue_s := KQueue { kq_id : Z; kq_filt : list kfilter; kq_nfds : Z }.

Record fdmap := KMap { m_len : Z; m_data : list Z }.

Record kworld := KWorld {
  kw_map : option fdmap;              (* kqmap, before and after libkqueue_init *)
  kw_kqs : gmap Z kqueue_s;
  kw_kns : gmap Z knote;
  kw_epevt : list (Z * Z);           (* the per-thread buffer epevt of linux/platform.c *)
  kw_sigflags : Z;                   (* the static flags of signalfd_create *)
  kw_errno : Z;
  kw_brk : Z;
  kw_log : list syscall
}.

Notation KM := (M kworld).

(** A struct filter * : the kqueue it is embedded in and its index in kq_filt. *)
Definition fptr : Type := Z * Z.

Definition set_map (m : option fdmap) (w : kworld) : kworld :=
  KWorld m (kw_kqs w) (kw_kns w) (kw_epevt w) (kw_sigflags w) (kw_errno w) (kw_brk w) (kw_log w).
Definition set_kqs (f : gmap Z kqueue_s -> gmap Z kqueue_s) (w : kworld) : kworld :=
  KWorld (kw_map w) (f (kw_kqs w)) (kw_kns w) (kw_epevt w) (kw_sigflags w) (kw_errno w) (kw_brk w) (kw_log w).
Definition set_kns (f : gmap Z knote -> gmap Z knote) (w : kworld) : kworld :=
  KWorld (kw_map w) (kw_kqs w) (f (kw_kns w)) (kw_epevt w) (kw_sigflags w) (kw_errno w) (kw_brk w) (kw_log w).
Definition set_epevt (l : list (Z * Z)) (w : kworld) : kworld :=
  KWorld (kw_map w) (kw_kqs w) (kw_kns w) l (kw_sigflags w) (kw_errno w) (kw_brk w) (kw_log w).
Definition set_sigflags (f : Z) (w : kworld) : kworld :=
  KWorld (kw_map w) (kw_kqs w) (kw_kns w) (kw_epevt w) f (kw_errno w) (kw_brk w) (kw_log w).
Definition set_errno (e : Z) (w : kworld) : kworld :=
  KWorld (kw_map w) (kw_kqs w) (kw_kns w) (kw_epevt w) (kw_sigflags w) e (kw_brk w) (kw_log w).
Definition set_kbrk (b : Z) (w : kworld) : kworld :=
  KWorld (kw_map w) (kw_kqs w) (kw_kns w) (kw_epevt w) (kw_sigflags w) (kw_errno w) b (kw_log w).
Definition log_sys (c : syscall) (w : kworld) : kworld :=
  KWorld (kw_map w) (kw_kqs w) (kw_kns w) (kw_epevt w) (kw_sigflags w) (kw_errno w) (kw_brk w) (kw_log w ++ [c]).

Definition set_kn_kev (k : kevent) (n : knote) : knote :=
  Knote k (kn_flags n) (kn_data n) (kn_nlink n) (kn_size n) (kn_kq n) (kn_ref n) (kn_epollfd n) (kn_fd n).
Definition set_kn_flags (f : Z) (n : knote) : knote :=
  Knote (kn_kev n) f (kn_data n) (kn_nlink n) (kn_size n) (kn_kq n) (kn_ref n) (kn_epollfd n) (kn_fd n).
Definition set_kn_data (d : Z) (n : knote) : knote :=
  Knote (kn_kev n) (kn_flags n) d (kn_nlink n) (kn_size n) (kn_kq n) (kn_ref n) (kn_epollfd n) (kn_fd n).
Definition set_kn_vnode (nlink size : Z) (n : knote) : knote :=
  Knote (kn_kev n) (kn_flags n) (kn_data n) nlink size (kn_kq n) (kn_ref n) (kn_epollfd n) (kn_fd n).
Definition set_kn_kq (kq : Z) (n : knote) : knote :=
  Knote (kn_kev n) (kn_flags n) (kn_data n) (kn_nlink n) (kn_size n) kq (kn_ref n) (kn_epollfd n) (kn_fd n).
Definition set_kn_ref (r : Z) (n : knote) : knote :=
  Knote (kn_kev n) (kn_flags n) (kn_data n) (kn_nlink n) (kn_size n) (kn_kq n) r (kn_epollfd n) (kn_fd n).
Definition set_kn_epollfd (fd : Z) (n : knote) : knote :=
  Knote (kn_kev n) (kn_flags n) (kn_data n) (kn_nlink n) (kn_size n) (kn_kq n) (kn_ref n) fd (kn_fd n).
Definition set_kn_fd (fd : Z) (n : knote) : knote :=
  Knote (kn_kev n) (kn_flags n) (kn_data n) (kn_nlink n) (kn_size n) (kn_kq n) (kn_ref n) (kn_epollfd n) fd.
Definition set_ke_data (d : Z) (k : kevent) : kevent :=
  Kevent (ke_ident k) (ke_filter k) (ke_flags k) (ke_fflags k) d (ke_udata k).
Definition set_ke_filter (f : Z) (k : kevent) : kevent :=
  Kevent (ke_ident k) f (ke_flags k) (ke_fflags k) (ke_data k) (ke_udata k).
Definition set_ke_udata (u : Z) (k : kevent) : kevent :=
  Kevent (ke_ident k) (ke_filter k) (ke_flags k) (ke_fflags k) (ke_data k) u.

(** Accesses through pointers: to memory that was freed or never allocated they are faults. *)
Definition get_kn (p : Z) : KM knote := fun w =>
  match kw_kns w !! p with Some n => Ret n w | None => Fault w end.
Definition upd_kn (p : Z) (f : knote -> knote) : KM unit :=
  n ← get_kn p; modify (set_kns (insert p (f n))).
Definition free_kn (p : Z) : KM unit := n ← get_kn p; modify (set_kns (delete p)).
Definition get_kq (p : Z) : KM kqueue_s := fun w =>
  match kw_kqs w !! p with Some q => Ret q w | None => Fault w end.
Definition upd_kq (p : Z) (f : kqueue_s -> kqueue_s) : KM unit :=
  q ← get_kq p; modify (set_kqs (insert p (f q))).
Definition get_filt (fp : fptr) : KM kfilter :=
  q ← get_kq (fp.1);
  match kq_filt q !! Z.to_nat (fp.2) with
  | Some f => if fp.2 <? 0 then fault else mret f
  | None => fault
  end.
Definition put_filt (fp : fptr) (f : kfilter) : KM unit :=
  upd_kq (fp.1) (fun q => KQueue (kq_id q) (<[Z.to_nat (fp.2):=f]> (kq_filt q)) (kq_nfds q)).
Definition set_filt_knote (t : gmap Z Z) (f : kfilter) : kfilter := KFilter (kf_id f) (kf_impl f) t (kf_kqueue f).

Definition kassert (b : bool) : KM unit := if b then mret tt else crash "assert".

Section os.
Context (sysos : os).

(** A system call: recorded, and errno is set when it fails. *)
Definition sys (c : syscall) : KM reply :=
  asked ← gets kw_log;
  modify (log_sys c);;
  let r := sysos asked c in
  (if r_ret r <? 0 then modify (set_errno (r_errno r)) else mret tt);;
  mret r.

(** ** map.c *)

(** m->data[idx] for an index that the caller has tested. *)
Definition map_at (m : fdmap) (idx : Z) : KM Z :=
  if (0 <=? idx) && (idx <? m_len m) then
    match m_data m !! Z.to_nat idx with Some p => mret p | None => fault end
  else fault.

(** atomic_ptr_cas on an entry of kqmap: the old value. *)
Definition map_cas (m : fdmap) (idx oval nval : Z) : KM Z :=
  p ← map_at m idx;
  if p =? oval then modify (set_map (Some (KMap (m_len m) (<[Z.to_nat idx:=nval]> (m_data m)))));; mret p
  else mret p.

(** calloc of the map, then mmap of the array. *)
Definition map_new (len : Z) : KM (option fdmap) :=
  r ← sys SysCalloc;
  if r_ret r <? 0 then mret None
  else
    r ← sys SysMmap;
    if r_ret r <? 0 then mret None
    else mret (Some (KMap len (replicate (Z.to_nat len) 0))).

Definition out_of_bounds (m : fdmap) (idx : Z) : bool := (idx <? 0) || (idx >? s32 (m_len m)).

Definition map_insert (m : fdmap) (idx ptr : Z) : KM Z :=
  if out_of_bounds m idx then mret (-1)
  else old ← map_cas m idx 0 ptr; if old =? 0 then mret 0 else mret (-1).

Definition map_remove (m : fdmap) (idx ptr : Z) : KM Z :=
  if out_of_bounds m idx then mret (-1)
  else old ← map_cas m idx ptr 0; if old =? 0 then mret 0 else mret (-1).

Definition map_replace (m : fdmap) (idx oldp newp : Z) : KM Z :=
  if out_of_bounds m idx then mret (-1)
  else tmp ← map_cas m idx oldp newp; if tmp =? oldp then mret 0 else mret (-1).

Definition map_lookup (m : fdmap) (idx : Z) : KM Z :=
  if out_of_bounds m idx then mret 0 else map_at m idx.

(** The loop ends in its first round unless another thread writes the entry. *)
Definition map_delete (m : fdmap) (idx : Z) : KM Z :=
  if out_of_bounds m idx then mret (u64 (-1))
  else
    oval ← map_at m idx;
    nval ← map_cas m idx oval 0;
    if nval =? oval then mret oval else out_of_fuel.

(** ** The operations of a filter and of the platform *)

(** struct filter's function pointers; op_copyout gets the event slot it overwrites and the epoll event, and returns
    the new contents of the slot. *)
Record filter_ops := FilterOps {
  op_id : Z;
  op_init : option (fptr -> KM Z);
  op_destroy : option (fptr -> KM unit);
  op_copyout : kevent -> Z -> Z * Z -> KM (Z * kevent);
  op_create : fptr -> Z -> KM Z;
  op_modify : fptr -> Z -> kevent -> KM Z;
  op_delete : fptr -> Z -> KM Z;
  op_enable : fptr -> Z -> KM Z;
  op_disable : fptr -> Z -> KM Z
}.

Section platform.
Context (ops : filter_impl -> option filter_ops).

(** A call through a function pointer of the filter at [fp]. *)
Definition with_ops {A} (fp : fptr) (k : filter_ops -> KM A) : KM A :=
  f ← get_filt fp;
  match ops (kf_impl f) with Some o => k o | None => fault end.

(** ** knote.c *)

Definition knote_new : KM Z :=
  r ← sys SysCalloc;
  if r_ret r <? 0 then mret 0
  else
    p ← gets kw_brk;
    modify (set_kbrk (p + 16));;
    modify (set_kns (insert p (Knote (Kevent 0 0 0 0 0 0) 0 0 0 0 0 1 0 0)));;
    mret p.

Definition knote_retain (kn : Z) : KM unit :=
  n ← get_kn kn;
  kassert (kn_ref n >? 0);;
  upd_kn kn (set_kn_ref (u32 (kn_ref n + 1))).

Definition knote_get_filter (n : knote) : fptr := (kn_kq n, Z.lnot (ke_filter (kn_kev n))).

Definition knote_release (kn : Z) : KM unit :=
  n ← get_kn kn;
  kassert (kn_ref n >? 0);;
  upd_kn kn (set_kn_ref (u32 (kn_ref n - 1)));;
  if u32 (kn_ref n - 1) =? 0 then
    if has (kn_flags n) KNFL_KNOTE_DELETED then free_kn kn
    else
      let filt := knote_get_filter n in
      upd_kn kn (fun n => set_kn_flags (Z.lor (kn_flags n) KNFL_KNOTE_DELETED) n);;
      with_ops filt (fun o => op_delete o filt kn);;
      free_kn kn
  else mret tt.

(** RB_INSERT leaves a tree that has the key as it is. *)
Definition knote_insert (filt : fptr) (kn : Z) : KM unit :=
  n ← get_kn kn;
  f ← get_filt filt;
  match kf_knote f !! ke_ident (kn_kev n) with
  | Some _ => mret tt
  | None => put_filt filt (set_filt_knote (<[ke_ident (kn_kev n):=kn]> (kf_knote f)) f)
  end.

Definition knote_delete (filt : fptr) (kn : Z) : KM Z :=
  n ← get_kn kn;
  if has (kn_flags n) KNFL_KNOTE_DELETED then mret (-1)
  else
    f ← get_filt filt;
    (if bool_decide (kf_knote f !! ke_ident (kn_kev n) = Some kn)
     then put_filt filt (set_filt_knote (delete (ke_ident (kn_kev n)) (kf_knote f)) f)
     else mret tt);;
    upd_kn kn (fun n => set_kn_flags (Z.lor (kn_flags n) KNFL_KNOTE_DELETED) n);;
    with_ops filt (fun o => op_delete o filt kn);;
    knote_release kn;;
    mret 0.

Definition knote_lookup (filt : fptr) (ident : Z) : KM Z :=
  f ← get_filt filt;
  mret (default 0 (kf_knote f !! ident)).

Definition KNOTE_DISABLE (n : knote) : knote :=
  set_kn_kev (set_ke_flags (Z.lor (ke_flags (kn_kev n)) EV_DISABLE) (kn_kev n)) n.

Definition KNOTE_ENABLE (n : knote) : knote :=
  set_kn_kev (set_ke_flags (Z.land (ke_flags (kn_kev n)) (Z.lnot EV_DISABLE)) (kn_kev n)) n.

Definition knote_disable (filt : fptr) (kn : Z) : KM Z :=
  n ← get_kn kn;
  kassert (negb (has (ke_flags (kn_kev n)) EV_DISABLE));;
  with_ops filt (fun o => op_disable o filt kn);;
  upd_kn kn KNOTE_DISABLE;;
  mret 0.

(** ** filter.c *)

(** kqops.filter_init is NULL on Linux. *)
Definition filter_instantiate (kq : Z) (dst : fptr) (src : filter_impl) : KM Z :=
  let id := match ops src with Some o => op_id o | None => 0 end in
  put_filt dst (KFilter id src ∅ kq);;
  if id =? 0 then mret 0
  else
    match ops src with
    | Some o =>
        match op_init o with
        | Some init =>
            rv ← init dst;
            if rv <? 0 then
              f ← get_filt dst;
              put_filt dst (KFilter 0 (kf_impl f) (kf_knote f) (kf_kqueue f));; mret (-1)
            else mret 0
        | None => mret 0
        end
    | None => mret 0
    end.

Definition filter_register (kq filter : Z) (src : filter_impl) : KM Z :=
  let filt := u32 (-1 * filter - 1) in
  if filt >=? EVFILT_SYSCOUNT then mret (-1) else filter_instantiate kq (kq, filt) src.

(** kqops.filter_free is NULL on Linux. *)
Fixpoint destroy_filters (kq : Z) (l : list Z) : KM unit :=
  match l with
  | [] => mret tt
  | i :: l =>
      f ← get_filt (kq, i);
      (if kf_id f =? 0 then mret tt
       else match ops (kf_impl f) ≫= op_destroy with Some d => d (kq, i) | None => mret tt end);;
      destroy_filters kq l
  end.
Definition filter_unregister_all (kq : Z) : KM unit :=
  destroy_filters kq (seqZ 0 EVFILT_SYSCOUNT);;
  upd_kq kq (fun q => KQueue (kq_id q) (replicate (Z.to_nat EVFILT_SYSCOUNT) zero_filter) (kq_nfds q)).

Definition filter_register_all (kq : Z) : KM Z :=
  r1 ← filter_register kq EVFILT_READ ImplRead;
  r2 ← filter_register kq EVFILT_WRITE ImplWrite;
  r3 ← filter_register kq EVFILT_SIGNAL ImplSignal;
  r4 ← filter_register kq EVFILT_VNODE ImplVnode;
  r5 ← filter_register kq EVFILT_PROC ImplNone;
  r6 ← filter_register kq EVFILT_TIMER ImplTimer;
  r7 ← filter_register kq EVFILT_USER ImplUser;
  upd_kq kq (fun q => KQueue (kq_id q) (kq_filt q) (kq_nfds q + 1));;
  if negb (0 + r1 + r2 + r3 + r4 + r5 + r6 + r7 =? 0) then filter_unregister_all kq;; mret (-1)
  else mret 0.

(** The filter, or the error in errno. *)
Definition filter_lookup (kq id : Z) : KM (option fptr) :=
  if (Z.lnot id <? 0) || (Z.lnot id >=? EVFILT_SYSCOUNT) then modify (set_errno EINVAL);; mret None
  else
    f ← get_filt (kq, Z.lnot id);
    match ops (kf_impl f) with
    | None => modify (set_errno ENOSYS);; mret None
    | Some _ => mret (Some (kq, Z.lnot id))
    end.

(** The return value and *knp. *)
Definition filter_knote_create (filt : fptr) (src : kevent) : KM (Z * Z) :=
  kn ← knote_new;
  if kn =? 0 then modify (set_errno ENOENT);; mret (-1, 0)
  else
    f ← get_filt filt;
    upd_kn kn (fun n => set_kn_kq (kf_kqueue f)
      (set_kn_kev (set_ke_flags (Z.lor (Z.land (ke_flags src) (Z.lnot EV_ENABLE)) EV_ADD) src) n));;
    rv ← with_ops filt (fun o => op_create o filt kn);
    if rv <? 0 then knote_release kn;; modify (set_errno EFAULT);; mret (-1, 0)
    else knote_insert filt kn;; mret (0, kn).

(** ** kevent.c *)

Definition kevent_copyin_one (kq : Z) (src : kevent) : KM Z :=
  if has (ke_flags src) EV_DISPATCH && has (ke_flags src) EV_ONESHOT then modify (set_errno EINVAL);; mret (-1)
  else
    lk ← filter_lookup kq (ke_filter src);
    match lk with
    | None => mret (-1)
    | Some filt =>
        kn ← knote_lookup filt (ke_ident src);
        if kn =? 0 then
          if has (ke_flags src) EV_ADD then
            '(rv, kn) ← filter_knote_create filt src;
            if negb (rv =? 0) then mret rv
            else if has (ke_flags src) EV_DISABLE then
              upd_kn kn KNOTE_DISABLE;;
              with_ops filt (fun o => op_disable o filt kn)
            else mret 0
          else modify (set_errno ENOENT);; mret (-1)
        else if has (ke_flags src) EV_DELETE then knote_delete filt kn
        else if has (ke_flags src) EV_DISABLE then
          upd_kn kn KNOTE_DISABLE;; with_ops filt (fun o => op_disable o filt kn)
        else if has (ke_flags src) EV_ENABLE then
          upd_kn kn KNOTE_ENABLE;; with_ops filt (fun o => op_enable o filt kn)
        else if has (ke_flags src) EV_ADD || (ke_flags src =? 0) || has (ke_flags src) EV_RECEIPT then
          upd_kn kn (fun n => set_kn_kev (set_ke_udata (ke_udata src) (kn_kev n)) n);;
          with_ops filt (fun o => op_modify o filt kn src)
        else mret 0
    end.

(** *eventlist at position [i] of the client's array. *)
Definition store_event (evl : list kevent) (i : Z) (k : kevent) : KM (list kevent) :=
  if (0 <=? i) && (i <? Z.of_nat (length evl)) then mret (<[Z.to_nat i:=k]> evl) else fault.

(** The number of events stored, and the event list. *)
Fixpoint kevent_copyin (kq : Z) (src : list kevent) (evl : list kevent) (nevents nret : Z) : KM (Z * list kevent) :=
  match src with
  | [] => mret (nret, evl)
  | s :: src =>
      rv ← kevent_copyin_one kq s;
      e ← gets kw_errno;
      let status := if rv <? 0 then Some e else if has (ke_flags s) EV_RECEIPT then Some 0 else None in
      match status with
      | None => kevent_copyin kq src evl nevents nret
      | Some status =>
          if nevents >? 0 then
            evl ← store_event evl nret (set_ke_data status s);
            kevent_copyin kq src evl (nevents - 1) (nret + 1)
          else mret (-1, evl)
      end
  end.

(** ** kqueue.c and the system calls of the library *)

(** kqops; kevent_copyout gets the number of ready events, the event list and the position where it continues. *)
Record kqueue_vtable := KqueueVtable {
  op_kqueue_init : Z -> KM Z;
  op_kqueue_free : Z -> KM unit;
  op_kevent_wait : Z -> Z -> option timespec -> KM Z;
  op_kevent_copyout : Z -> Z -> list kevent -> Z -> KM (Z * list kevent)
}.
Context (kqops : kqueue_vtable).

(** unsigned int of rlim_max. *)
Definition get_fd_limit : KM Z :=
  r ← sys SysGetrlimit;
  if r_ret r <? 0 then mret 65536 else mret (u32 (r_word r)).

(** knote_init returns 0. *)
Definition libkqueue_init : KM unit :=
  n ← get_fd_limit;
  m ← map_new n;
  match m with
  | None => crash "abort"
  | Some m => modify (set_map (Some m))
  end.

Definition kqmap : KM fdmap := fun w => match kw_map w with Some m => Ret m w | None => Fault w end.

Definition kqueue_lookup (kq : Z) : KM Z := m ← kqmap; map_lookup m kq.

Definition kqueue : KM Z :=
  init ← gets kw_map;
  match init with Some _ => mret tt | None => libkqueue_init end;;
  r ← sys SysCalloc;
  if r_ret r <? 0 then mret (-1)
  else
    kq ← gets kw_brk;
    modify (set_kbrk (kq + 16));;
    modify (set_kqs (insert kq (KQueue 0 (replicate (Z.to_nat EVFILT_SYSCOUNT) zero_filter) 0)));;
    rv ← op_kqueue_init kqops kq;
    if rv <? 0 then modify (set_kqs (delete kq));; mret (-1)
    else
      q ← get_kq kq;
      m ← kqmap;
      _ ← map_delete m (kq_id q);
      m ← kqmap;
      rv ← map_insert m (kq_id q) kq;
      if rv <? 0 then op_kqueue_free kqops kq;; mret (-1)
      else mret (kq_id q).

Definition kevent_call (kqfd : Z) (changelist eventlist : list kevent) (nevents : Z) (timeout : option timespec) :
    KM (Z * list kevent) :=
  kq ← kqueue_lookup kqfd;
  if kq =? 0 then modify (set_errno ENOENT);; mret (-1, eventlist)
  else
    '(rv, evl) ← (if bool_decide (changelist = []) then mret (0, eventlist)
                  else kevent_copyin kq changelist eventlist nevents 0);
    if rv <? 0 then mret (rv, evl)
    else
      let off := rv in
      let nevents := nevents - rv in
      let nevents := if nevents >? MAX_KEVENT then MAX_KEVENT else nevents in
      if nevents >? 0 then
        rv ← op_kevent_wait kqops kq nevents timeout;
        if rv >? 0 then op_kevent_copyout kqops kq rv evl off
        else mret (rv, evl)
      else mret (0, evl).

End platform.
End os.
