(* ===== verification/KqueueLinux.v ===== *)
(** * The kqueue emulation: the Linux platform

    Models src/libkqueue/src/linux: the filters (read.c, write.c, user.c, timer.c, signal.c, vnode.c) as functions on
    knotes, and platform.c.  The configuration is that of the build: ppoll is there, HAVE_EPOLLRDHUP is never
    defined.  Paths are what readlink(2) stored.  [tries] bounds the retries of an interrupted read in get_one_event. *)

From S2P Require Import Prelude DispatchTime DispatchSource Kqueue.
From stdpp Require Import base tactics list numbers gmap strings.
From Stdlib Require Import ZArith Lia.

Local Open Scope Z_scope.

Definition EPOLL_CTL_ADD : Z := 1.
Definition EPOLL_CTL_DEL : Z := 2.
Definition EPOLLIN : Z := 0x1.
Definition EPOLLOUT : Z := 0x4.
Definition EPOLLERR : Z := 0x8.
Definition EPOLLHUP : Z := 0x10.
Definition EPOLLONESHOT : Z := 0x40000000.
Definition EPOLLET : Z := 0x80000000.
Definition SIOCINQ : Z := 0x541B.
Definition SIOCOUTQ : Z := 0x5411.
Definition ENOTSOCK : Z := 88.
Definition EWOULDBLOCK : Z := 11.
Definition SFD_NONBLOCK : Z := 2048.
Definition sizeof_siginfo : Z := 128.

Definition NOTE_FFNOP : Z := 0x00000000.
Definition NOTE_FFAND : Z := 0x40000000.
Definition NOTE_FFOR : Z := 0x80000000.
Definition NOTE_FFCOPY : Z := 0xc0000000.
Definition NOTE_FFCTRLMASK : Z := 0xc0000000.
Definition NOTE_FFLAGSMASK : Z := 0x00ffffff.
Definition NOTE_DELETE : Z := 0x0001.
Definition NOTE_WRITE : Z := 0x0002.
Definition NOTE_EXTEND : Z := 0x0004.
Definition NOTE_ATTRIB : Z := 0x0008.
Definition NOTE_LINK : Z := 0x0010.
Definition NOTE_RENAME : Z := 0x0020.
Definition IN_MODIFY : Z := 0x2.
Definition IN_ATTRIB : Z := 0x4.
Definition IN_CLOSE_WRITE : Z := 0x8.
Definition IN_CLOSE_NOWRITE : Z := 0x10.
Definition IN_CLOSE : Z := 0x18.
Definition IN_DELETE_SELF : Z := 0x400.
Definition IN_MOVE_SELF : Z := 0x800.
Definition IN_IGNORED : Z := 0x8000.
Definition IN_ONESHOT : Z := 0x80000000.

Definition or_flags (f : Z) (k : kevent) : kevent := set_ke_flags (Z.lor (ke_flags k) f) k.
Definition or_fflags (f : Z) (k : kevent) : kevent := set_ke_fflags (Z.lor (ke_fflags k) f) k.
Definition clear_fflags (f : Z) (k : kevent) : kevent := set_ke_fflags (Z.land (ke_fflags k) (Z.lnot f)) k.
Definition upd_kev (kn : Z) (f : kevent -> kevent) : KM unit := upd_kn kn (fun n => set_kn_kev (f (kn_kev n)) n).

(** ident passed as a descriptor. *)
Definition ident_fd (n : knote) : Z := s32 (ke_ident (kn_kev n)).

Section linux.
Context (sysos : os) (tries : nat).

Definition kqueue_epfd (kq : Z) : KM Z := q ← get_kq kq; mret (kq_id q).
Definition filter_epfd (filt : fptr) : KM Z := f ← get_filt filt; kqueue_epfd (kf_kqueue f).

Definition epoll_ctl (epfd op fd : Z) (ev : option (Z * Z)) : KM Z :=
  r ← sys sysos (SysEpollCtl epfd op fd ev); mret (r_ret r).
Definition close (fd : Z) : KM Z := r ← sys sysos (SysClose fd); mret (r_ret r).

Definition epoll_update (op : Z) (filt : fptr) (kn : Z) (ev : option (Z * Z)) : KM Z :=
  n ← get_kn kn;
  epfd ← filter_epfd filt;
  rv ← epoll_ctl epfd op (ident_fd n) ev;
  if rv <? 0 then mret (-1) else mret 0.

Definition linux_get_descriptor_type (kn : Z) : KM Z :=
  n ← get_kn kn;
  r ← sys sysos (SysFstat (ident_fd n));
  if r_ret r <? 0 then mret (-1)
  else if st_isreg (r_stat r) then
    upd_kn kn (fun n => set_kn_flags (Z.lor (kn_flags n) KNFL_REGULAR_FILE) n);; mret 0
  else if negb (st_issock (r_stat r)) then mret 0
  else
    r ← sys sysos (SysGetsockopt (ident_fd n));
    if r_ret r <? 0 then
      e ← gets kw_errno;
      if e =? ENOTSOCK then mret 0 else mret (-1)
    else
      (if negb (r_word r =? 0) then upd_kn kn (fun n => set_kn_flags (Z.lor (kn_flags n) KNFL_PASSIVE_SOCKET) n)
       else mret tt);;
      mret 0.

(** The path of an open file: readlink(2) of its entry in /proc. *)
Definition linux_fd_to_path (fd : Z) : KM reply := sys sysos (SysReadlink fd).

(** ** read.c *)

Definition get_eof_offset (fd : Z) : KM Z :=
  r ← sys sysos (SysLseek fd);
  let curpos := if r_ret r =? -1 then 0 else r_ret r in
  r ← sys sysos (SysFstat fd);
  let st_size := if r_ret r <? 0 then 1 else st_size (r_stat r) in
  mret (s64 (st_size - curpos)).

(** ioctl(2) stores an int into the low half of data. *)
Definition store_int (data word : Z) : Z := s64 (Z.lor (Z.land data (Z.lnot (2 ^ 32 - 1))) (u32 word)).

(** EPOLLHUP and EPOLLERR, as both socket filters report them. *)
Definition epoll_status (events : Z) (k : kevent) : kevent :=
  let k := if has events EPOLLHUP then or_flags EV_EOF k else k in
  if has events EPOLLERR then set_ke_fflags 1 k else k.

Definition evfilt_read_copyout (dst : kevent) (src : Z) (ev : Z * Z) : KM (Z * kevent) :=
  n ← get_kn src;
  if has (kn_flags n) KNFL_REGULAR_FILE then
    off ← get_eof_offset (ident_fd n);
    let dst := set_ke_data off (kn_kev n) in
    if off =? 0 then
      let dst := set_ke_filter 0 dst in
      rv ← epoll_ctl (kn_epollfd n) EPOLL_CTL_DEL (kn_fd n) None;
      if rv <? 0 then mret (-1, dst) else mret (0, dst)
    else mret (0, dst)
  else
    let dst := epoll_status (ev.1) (kn_kev n) in
    if has (kn_flags n) KNFL_PASSIVE_SOCKET then mret (0, set_ke_data 1 dst)
    else
      r ← sys sysos (SysIoctl (ident_fd n) SIOCINQ);
      if r_ret r <? 0 then mret (0, set_ke_data 0 dst)
      else
        let dst := set_ke_data (store_int (ke_data dst) (r_word r)) dst in
        mret (0, if ke_data dst =? 0 then or_flags EV_EOF dst else dst).

(** data.events for the kevent: [base], one-shot and edge-triggered bits. *)
Definition epoll_events (base flags : Z) : Z :=
  let e := base in
  let e := if has flags EV_ONESHOT || has flags EV_DISPATCH then s32 (Z.lor e EPOLLONESHOT) else e in
  if has flags EV_CLEAR then s32 (Z.lor e EPOLLET) else e.

Definition evfilt_read_knote_create (filt : fptr) (kn : Z) : KM Z :=
  rv ← linux_get_descriptor_type kn;
  if rv <? 0 then mret (-1)
  else
    upd_kn kn (fun n => set_kn_data (epoll_events EPOLLIN (ke_flags (kn_kev n))) n);;
    n ← get_kn kn;
    let ev := (u32 (kn_data n), kn) in
    if has (kn_flags n) KNFL_REGULAR_FILE then
      epfd ← filter_epfd filt;
      upd_kn kn (set_kn_epollfd epfd);;
      r ← sys sysos SysEventfd;
      let evfd := r_ret r in
      if evfd <? 0 then mret (-1)
      else
        r ← sys sysos (SysWrite evfd);
        if r_ret r <? 0 then _ ← close evfd; mret (-1)
        else
          upd_kn kn (set_kn_fd evfd);;
          rv ← epoll_ctl epfd EPOLL_CTL_ADD evfd (Some ev);
          if rv <? 0 then mret (-1) else mret 0
    else epoll_update EPOLL_CTL_ADD filt kn (Some ev).

Definition evfilt_read_knote_modify (filt : fptr) (kn : Z) (kev : kevent) : KM Z := mret (-1).

Definition evfilt_read_knote_delete (filt : fptr) (kn : Z) : KM Z :=
  n ← get_kn kn;
  if has (ke_flags (kn_kev n)) EV_DISABLE then mret 0
  else if has (kn_flags n) KNFL_REGULAR_FILE && negb (kn_fd n =? -1) then
    rv ← epoll_ctl (kn_epollfd n) EPOLL_CTL_DEL (kn_fd n) None;
    if rv <? 0 then mret (-1)
    else _ ← close (kn_fd n); upd_kn kn (set_kn_fd (-1));; mret (-1)
  else epoll_update EPOLL_CTL_DEL filt kn None.

Definition evfilt_read_knote_enable (filt : fptr) (kn : Z) : KM Z :=
  n ← get_kn kn;
  let ev := (u32 (kn_data n), kn) in
  if has (kn_flags n) KNFL_REGULAR_FILE then
    rv ← epoll_ctl (kn_epollfd n) EPOLL_CTL_ADD (kn_fd n) (Some ev);
    if rv <? 0 then mret (-1) else mret 0
  else epoll_update EPOLL_CTL_ADD filt kn (Some ev).

Definition evfilt_read_knote_disable (filt : fptr) (kn : Z) : KM Z :=
  n ← get_kn kn;
  if has (kn_flags n) KNFL_REGULAR_FILE then
    rv ← epoll_ctl (kn_epollfd n) EPOLL_CTL_DEL (kn_fd n) None;
    if rv <? 0 then mret (-1) else mret 0
  else epoll_update EPOLL_CTL_DEL filt kn None.

Definition evfilt_read : filter_ops :=
  FilterOps EVFILT_READ None None evfilt_read_copyout evfilt_read_knote_create evfilt_read_knote_modify
    evfilt_read_knote_delete evfilt_read_knote_enable evfilt_read_knote_disable.

(** ** write.c *)

Definition evfilt_socket_copyout (dst : kevent) (src : Z) (ev : Z * Z) : KM (Z * kevent) :=
  n ← get_kn src;
  let dst := epoll_status (ev.1) (kn_kev n) in
  r ← sys sysos (SysIoctl (ident_fd n) SIOCOUTQ);
  if r_ret r <? 0 then mret (0, set_ke_data 0 dst)
  else mret (0, set_ke_data (store_int (ke_data dst) (r_word r)) dst).

Definition evfilt_socket_knote_create (filt : fptr) (kn : Z) : KM Z :=
  rv ← linux_get_descriptor_type kn;
  if rv <? 0 then mret (-1)
  else
    n ← get_kn kn;
    if has (kn_flags n) KNFL_REGULAR_FILE then mret (-1)
    else
      let events := epoll_events EPOLLOUT (ke_flags (kn_kev n)) in
      upd_kn kn (set_kn_data events);;
      epoll_update EPOLL_CTL_ADD filt kn (Some (u32 events, kn)).

Definition evfilt_socket_knote_modify (filt : fptr) (kn : Z) (kev : kevent) : KM Z := mret (-1).

Definition evfilt_socket_knote_delete (filt : fptr) (kn : Z) : KM Z :=
  n ← get_kn kn;
  if has (ke_flags (kn_kev n)) EV_DISABLE then mret 0 else epoll_update EPOLL_CTL_DEL filt kn None.

Definition evfilt_socket_knote_enable (filt : fptr) (kn : Z) : KM Z :=
  n ← get_kn kn;
  epoll_update EPOLL_CTL_ADD filt kn (Some (u32 (kn_data n), kn)).

Definition evfilt_socket_knote_disable (filt : fptr) (kn : Z) : KM Z := epoll_update EPOLL_CTL_DEL filt kn None.

Definition evfilt_write : filter_ops :=
  FilterOps EVFILT_WRITE None None evfilt_socket_copyout evfilt_socket_knote_create evfilt_socket_knote_modify
    evfilt_socket_knote_delete evfilt_socket_knote_enable evfilt_socket_knote_disable.

(** ** user.c *)

(** The result of a failed read or write of an eventfd. *)
Definition eventfd_error : KM Z :=
  e ← gets kw_errno;
  if e =? EAGAIN then mret 0 else if e =? EINTR then mret (- EINTR) else mret (-1).

Definition eventfd_raise (evfd : Z) : KM Z :=
  r ← sys sysos (SysWrite evfd);
  if r_ret r <? 0 then eventfd_error else mret 0.

Definition eventfd_lower (evfd : Z) : KM Z :=
  r ← sys sysos (SysRead evfd 8);
  if r_ret r <? 0 then eventfd_error
  else if negb (r_ret r =? 8) then mret (-1) else mret 0.

(** The eventfd entries of kqops (platform.c), of which the two above are copies.  A struct eventfd is its descriptor. *)
Definition linux_eventfd_init (ef_id : Z) : KM (Z * Z) :=
  r ← sys sysos SysEventfd;
  if r_ret r <? 0 then mret (-1, ef_id)
  else
    f ← sys sysos (SysFcntl (r_ret r));
    if r_ret f <? 0 then _ ← close (r_ret r); mret (-1, ef_id) else mret (0, r_ret r).
Definition linux_eventfd_close (ef_id : Z) : KM Z := _ ← close ef_id; mret (-1).
Definition linux_eventfd_raise (ef_id : Z) : KM Z :=
  r ← sys sysos (SysWrite ef_id);
  if r_ret r <? 0 then
    e ← gets kw_errno;
    mret (if e =? EAGAIN then 0 else if e =? EINTR then - EINTR else -1)
  else mret 0.
Definition linux_eventfd_lower (ef_id : Z) : KM Z :=
  r ← sys sysos (SysRead ef_id 8);
  if r_ret r <? 0 then
    e ← gets kw_errno;
    mret (if e =? EAGAIN then 0 else if e =? EINTR then - EINTR else -1)
  else mret (if r_ret r =? 8 then 0 else -1).
Definition linux_eventfd_descriptor (ef_id : Z) : Z := ef_id.

Definition linux_evfilt_user_copyout (dst : kevent) (src : Z) (ev : Z * Z) : KM (Z * kevent) :=
  n ← get_kn src;
  let kev := kn_kev n in
  let dst := clear_fflags NOTE_TRIGGER (clear_fflags NOTE_FFCTRLMASK kev) in
  let dst := if has (ke_flags kev) EV_ADD then set_ke_flags (Z.land (ke_flags dst) (Z.lnot EV_ADD)) dst else dst in
  (if has (ke_flags kev) EV_CLEAR then upd_kev src (clear_fflags NOTE_TRIGGER) else mret tt);;
  rv ← (if has (ke_flags kev) (Z.lor (Z.lor EV_DISPATCH EV_CLEAR) EV_ONESHOT) then eventfd_lower (kn_fd n) else mret 0);
  if rv <? 0 then mret (-1, dst)
  else
    (if has (ke_flags kev) EV_DISPATCH then upd_kev src (clear_fflags NOTE_TRIGGER) else mret tt);;
    mret (0, dst).

Definition linux_evfilt_user_knote_create (filt : fptr) (kn : Z) : KM Z :=
  let errout evfd := _ ← close evfd; upd_kn kn (set_kn_fd (-1));; mret (-1) in
  r ← sys sysos SysEventfd;
  let evfd := r_ret r in
  if evfd <? 0 then errout evfd
  else
    epfd ← filter_epfd filt;
    rv ← epoll_ctl epfd EPOLL_CTL_ADD evfd (Some (EPOLLIN, kn));
    if rv <? 0 then errout evfd
    else upd_kn kn (set_kn_fd evfd);; mret 0.

(** How the low bits of fflags are applied to the stored ones. *)
Definition ffctrl_apply (input stored : Z) : Z :=
  let ffctrl := Z.land input NOTE_FFCTRLMASK in
  let fflags := Z.land input NOTE_FFLAGSMASK in
  if ffctrl =? NOTE_FFNOP then stored
  else if ffctrl =? NOTE_FFAND then Z.land stored fflags
  else if ffctrl =? NOTE_FFOR then Z.lor stored fflags
  else if ffctrl =? NOTE_FFCOPY then fflags
  else stored.

Definition linux_evfilt_user_knote_modify (filt : fptr) (kn : Z) (kev : kevent) : KM Z :=
  upd_kev kn (fun k => set_ke_fflags (ffctrl_apply (ke_fflags kev) (ke_fflags k)) k);;
  n ← get_kn kn;
  if negb (has (ke_flags (kn_kev n)) EV_DISABLE) && has (ke_fflags kev) NOTE_TRIGGER then
    upd_kev kn (or_fflags NOTE_TRIGGER);;
    rv ← eventfd_raise (kn_fd n);
    if rv <? 0 then mret (-1) else mret 0
  else mret 0.

Definition linux_evfilt_user_knote_delete (filt : fptr) (kn : Z) : KM Z :=
  n ← get_kn kn;
  epfd ← filter_epfd filt;
  rv ← epoll_ctl epfd EPOLL_CTL_DEL (kn_fd n) None;
  if rv <? 0 then mret (-1)
  else
    rv ← close (kn_fd n);
    if rv <? 0 then mret (-1)
    else upd_kn kn (set_kn_fd (-1));; mret 0.

Definition linux_evfilt_user_knote_enable (filt : fptr) (kn : Z) : KM Z := linux_evfilt_user_knote_create filt kn.
Definition linux_evfilt_user_knote_disable (filt : fptr) (kn : Z) : KM Z := linux_evfilt_user_knote_delete filt kn.

Definition evfilt_user : filter_ops :=
  FilterOps EVFILT_USER None None linux_evfilt_user_copyout linux_evfilt_user_knote_create
    linux_evfilt_user_knote_modify linux_evfilt_user_knote_delete linux_evfilt_user_knote_enable
    linux_evfilt_user_knote_disable.

(** ** timer.c *)

(** it_interval and it_value; int division truncates. *)
Definition convert_msec_to_itimerspec (src : Z) (oneshot : bool) : timespec * timespec :=
  let sec := Z.quot src 1000 in
  let nsec := Z.rem src 1000 * 1000000 in
  (if oneshot then Timespec 0 0 else Timespec sec nsec, Timespec sec nsec).

Definition evfilt_timer_copyout (dst : kevent) (src : Z) (ev : Z * Z) : KM (Z * kevent) :=
  n ← get_kn src;
  let dst := if has (ev.1) EPOLLERR then set_ke_fflags 1 (kn_kev n) else kn_kev n in
  r ← sys sysos (SysRead (kn_data n) 8);
  let expired := if negb (r_ret r =? 8) then 1 else r_word r in
  mret (0, set_ke_data (s64 expired) dst).

Definition evfilt_timer_knote_create (filt : fptr) (kn : Z) : KM Z :=
  upd_kev kn (or_flags EV_CLEAR);;
  n ← get_kn kn;
  r ← sys sysos SysTimerfdCreate;
  let tfd := r_ret r in
  if tfd <? 0 then mret (-1)
  else
    let ts := convert_msec_to_itimerspec (s32 (ke_data (kn_kev n))) (has (ke_flags (kn_kev n)) EV_ONESHOT) in
    r ← sys sysos (SysTimerfdSettime tfd (ts.1) (ts.2));
    if r_ret r <? 0 then _ ← close tfd; mret (-1)
    else
      epfd ← filter_epfd filt;
      rv ← epoll_ctl epfd EPOLL_CTL_ADD tfd (Some (EPOLLIN, kn));
      if rv <? 0 then _ ← close tfd; mret (-1)
      else upd_kn kn (set_kn_data tfd);; mret 0.

Definition evfilt_timer_knote_modify (filt : fptr) (kn : Z) (kev : kevent) : KM Z := mret 0.

Definition evfilt_timer_knote_delete (filt : fptr) (kn : Z) : KM Z :=
  n ← get_kn kn;
  if kn_data n =? -1 then mret 0
  else
    epfd ← filter_epfd filt;
    rv1 ← epoll_ctl epfd EPOLL_CTL_DEL (kn_data n) None;
    rv2 ← close (kn_data n);
    upd_kn kn (set_kn_data (-1));;
    mret (if (rv1 <? 0) || (rv2 <? 0) then -1 else 0).

Definition evfilt_timer_knote_enable (filt : fptr) (kn : Z) : KM Z := evfilt_timer_knote_create filt kn.
Definition evfilt_timer_knote_disable (filt : fptr) (kn : Z) : KM Z := evfilt_timer_knote_delete filt kn.

Definition evfilt_timer : filter_ops :=
  FilterOps EVFILT_TIMER None None evfilt_timer_copyout evfilt_timer_knote_create evfilt_timer_knote_modify
    evfilt_timer_knote_delete evfilt_timer_knote_enable evfilt_timer_knote_disable.

(** ** signal.c *)

Definition signalfd_reset (sigfd : Z) : KM unit :=
  r ← sys sysos (SysRead sigfd sizeof_siginfo);
  if (r_ret r <? 0) || negb (r_ret r =? sizeof_siginfo) then
    e ← gets kw_errno;
    if e =? EWOULDBLOCK then mret tt else crash "abort"
  else mret tt.

Definition signalfd_add (epfd sigfd ptr : Z) : KM Z :=
  rv ← epoll_ctl epfd EPOLL_CTL_ADD sigfd (Some (EPOLLIN, ptr));
  if rv <? 0 then mret (-1) else mret 0.

Definition signalfd_create (epfd ptr signum : Z) : KM Z :=
  let errout sigfd := _ ← close sigfd; mret (-1) in
  flags ← gets kw_sigflags;
  r ← sys sysos (SysSignalfd signum flags);
  e ← gets kw_errno;
  sigfd ← (if (r_ret r <? 0) && (e =? EINVAL) && negb (flags =? 0) then
             modify (set_sigflags 0);; r ← sys sysos (SysSignalfd signum 0); mret (r_ret r)
           else mret (r_ret r));
  if sigfd <? 0 then errout sigfd
  else
    r ← sys sysos (SysSigprocmask signum);
    if r_ret r <? 0 then errout sigfd
    else
      signalfd_reset sigfd;;
      rv ← signalfd_add epfd sigfd ptr;
      if rv <? 0 then errout sigfd else mret sigfd.

Definition evfilt_signal_copyout (dst : kevent) (src : Z) (ev : Z * Z) : KM (Z * kevent) :=
  n ← get_kn src;
  signalfd_reset (kn_fd n);;
  mret (0, set_ke_data 1 (kn_kev n)).

Definition evfilt_signal_knote_create (filt : fptr) (kn : Z) : KM Z :=
  n ← get_kn kn;
  epfd ← filter_epfd filt;
  fd ← signalfd_create epfd kn (ident_fd n);
  if fd >? 0 then upd_kev kn (or_flags EV_CLEAR);; upd_kn kn (set_kn_fd fd);; mret 0
  else upd_kn kn (set_kn_fd (-1));; mret (-1).

Definition evfilt_signal_knote_modify (filt : fptr) (kn : Z) (kev : kevent) : KM Z := mret 0.

Definition evfilt_signal_knote_delete (filt : fptr) (kn : Z) : KM Z :=
  n ← get_kn kn;
  if kn_fd n =? -1 then mret 0
  else
    epfd ← filter_epfd filt;
    rv ← epoll_ctl epfd EPOLL_CTL_DEL (kn_fd n) None;
    if rv <? 0 then mret (-1)
    else
      rv ← close (kn_fd n);
      if rv <? 0 then mret (-1)
      else upd_kn kn (set_kn_fd (-1));; mret 0.

Definition evfilt_signal_knote_enable (filt : fptr) (kn : Z) : KM Z := evfilt_signal_knote_create filt kn.
Definition evfilt_signal_knote_disable (filt : fptr) (kn : Z) : KM Z := evfilt_signal_knote_delete filt kn.

Definition evfilt_signal : filter_ops :=
  FilterOps EVFILT_SIGNAL None None evfilt_signal_copyout evfilt_signal_knote_create evfilt_signal_knote_modify
    evfilt_signal_knote_delete evfilt_signal_knote_enable evfilt_signal_knote_disable.

(** ** vnode.c *)

Fixpoint read_event (fuel : nat) (inofd : Z) : KM (option inotify_event) :=
  match fuel with
  | O => out_of_fuel
  | S fuel =>
      r ← sys sysos (SysRead inofd 16);
      if r_ret r <? 0 then
        e ← gets kw_errno;
        if e =? EINTR then read_event fuel inofd else mret None
      else mret (Some (r_inotify r))
  end.
Definition get_one_event (inofd : Z) : KM (option inotify_event) :=
  evt ← read_event tries inofd;
  match evt with
  | None => mret None
  | Some evt => if negb (in_len evt =? 0) then crash "abort" else mret (Some evt)
  end.

Definition inotify_mask (fflags flags : Z) : Z :=
  let mask := IN_CLOSE in
  let mask := if has fflags NOTE_DELETE then Z.lor mask (Z.lor IN_ATTRIB IN_DELETE_SELF) else mask in
  let mask := if has fflags NOTE_WRITE then Z.lor mask (Z.lor IN_MODIFY IN_ATTRIB) else mask in
  let mask := if has fflags NOTE_EXTEND then Z.lor mask (Z.lor IN_MODIFY IN_ATTRIB) else mask in
  let mask := if has fflags NOTE_ATTRIB || has fflags NOTE_LINK then Z.lor mask IN_ATTRIB else mask in
  let mask := if has fflags NOTE_RENAME then Z.lor mask IN_MOVE_SELF else mask in
  if has flags EV_ONESHOT then Z.lor mask IN_ONESHOT else mask.

Definition add_watch (filt : fptr) (kn : Z) : KM Z :=
  let errout ifd := upd_kn kn (set_kn_fd (-1));; _ ← close ifd; mret (-1) in
  n ← get_kn kn;
  path ← linux_fd_to_path (ident_fd n);
  if r_ret path <? 0 then mret (-1)
  else
    let mask := inotify_mask (ke_fflags (kn_kev n)) (ke_flags (kn_kev n)) in
    r ← sys sysos SysInotifyInit;
    let ifd := r_ret r in
    if ifd <? 0 then mret (-1)
    else
      r ← sys sysos (SysInotifyAddWatch ifd (r_word path) mask);
      upd_kev kn (set_ke_data (r_ret r));;
      if r_ret r <? 0 then errout ifd
      else
        epfd ← filter_epfd filt;
        rv ← epoll_ctl epfd EPOLL_CTL_ADD ifd (Some (EPOLLIN, kn));
        if rv <? 0 then errout ifd
        else upd_kn kn (set_kn_fd ifd);; mret 0.

Definition delete_watch (filt : fptr) (kn : Z) : KM Z :=
  n ← get_kn kn;
  if kn_fd n <? 0 then mret 0
  else
    epfd ← filter_epfd filt;
    rv ← epoll_ctl epfd EPOLL_CTL_DEL (kn_fd n) None;
    if rv <? 0 then mret (-1)
    else _ ← close (kn_fd n); upd_kn kn (set_kn_fd (-1));; mret 0.

(** What the status of the file adds to the flags. *)
Definition vnode_stat_flags (sb : stat) (n : knote) (dst : kevent) : kevent :=
  let fflags := ke_fflags (kn_kev n) in
  let dst := if (st_nlink sb =? 0) && has fflags NOTE_DELETE then or_fflags NOTE_DELETE dst else dst in
  let dst := if negb (st_nlink sb =? kn_nlink n) && has fflags NOTE_LINK then or_fflags NOTE_LINK dst else dst in
  if (st_size sb >? kn_size n) && has fflags NOTE_WRITE then or_fflags NOTE_EXTEND dst else dst.

(** What the inotify event adds; the source does it twice. *)
Definition vnode_event_flags (mask fflags : Z) (dst : kevent) : kevent :=
  let dst := if has mask IN_MODIFY && has fflags NOTE_WRITE then or_fflags NOTE_WRITE dst else dst in
  let dst := if has mask IN_ATTRIB && has fflags NOTE_ATTRIB then or_fflags NOTE_ATTRIB dst else dst in
  let dst := if has mask IN_MOVE_SELF && has fflags NOTE_RENAME then or_fflags NOTE_RENAME dst else dst in
  if has mask IN_DELETE_SELF && has fflags NOTE_DELETE then or_fflags NOTE_DELETE dst else dst.

Definition evfilt_vnode_copyout (dst : kevent) (src : Z) (ev : Z * Z) : KM (Z * kevent) :=
  n ← get_kn src;
  evt ← get_one_event (kn_fd n);
  match evt with
  | None => mret (-1, dst)
  | Some evt =>
      let mask := in_mask evt in
      if has mask IN_IGNORED then mret (0, set_ke_filter 0 dst)
      else if has mask IN_CLOSE_WRITE || has mask IN_CLOSE_NOWRITE then
        upd_kn src (fun n => set_kn_flags (Z.lor (kn_flags n) EV_ONESHOT) n);;
        mret (0, set_ke_filter 0 dst)
      else
        let dst := set_ke_data 0 (kn_kev n) in
        dst ← (if has mask IN_ATTRIB || has mask IN_MODIFY then
                 r ← sys sysos (SysFstat (ident_fd n));
                 if r_ret r =? 0 then
                   upd_kn src (set_kn_vnode (st_nlink (r_stat r)) (st_size (r_stat r)));;
                   mret (vnode_stat_flags (r_stat r) n dst)
                 else mret dst
               else mret dst);
        let fflags := ke_fflags (kn_kev n) in
        mret (0, vnode_event_flags mask fflags (vnode_event_flags mask fflags dst))
  end.

Definition evfilt_vnode_knote_create (filt : fptr) (kn : Z) : KM Z :=
  n ← get_kn kn;
  r ← sys sysos (SysFstat (ident_fd n));
  if r_ret r <? 0 then mret (-1)
  else
    upd_kn kn (fun n => set_kn_kev (set_ke_data (-1) (kn_kev n))
                          (set_kn_vnode (st_nlink (r_stat r)) (st_size (r_stat r)) n));;
    add_watch filt kn.

Definition evfilt_vnode_knote_modify (filt : fptr) (kn : Z) (kev : kevent) : KM Z := mret (-1).
Definition evfilt_vnode_knote_delete (filt : fptr) (kn : Z) : KM Z := delete_watch filt kn.
Definition evfilt_vnode_knote_enable (filt : fptr) (kn : Z) : KM Z := add_watch filt kn.
Definition evfilt_vnode_knote_disable (filt : fptr) (kn : Z) : KM Z := delete_watch filt kn.

Definition evfilt_vnode : filter_ops :=
  FilterOps EVFILT_VNODE None None evfilt_vnode_copyout evfilt_vnode_knote_create evfilt_vnode_knote_modify
    evfilt_vnode_knote_delete evfilt_vnode_knote_enable evfilt_vnode_knote_disable.

(** ** platform.c *)

(** evfilt_proc is EVFILT_NOTIMPL. *)
Definition linux_filters (i : filter_impl) : option filter_ops :=
  match i with
  | ImplNone => None
  | ImplRead => Some evfilt_read
  | ImplWrite => Some evfilt_write
  | ImplSignal => Some evfilt_signal
  | ImplVnode => Some evfilt_vnode
  | ImplTimer => Some evfilt_timer
  | ImplUser => Some evfilt_user
  end.

Definition linux_kqueue_init (kq : Z) : KM Z :=
  r ← sys sysos SysEpollCreate;
  upd_kq kq (fun q => KQueue (r_ret r) (kq_filt q) (kq_nfds q));;
  if r_ret r <? 0 then mret (-1)
  else
    rv ← filter_register_all linux_filters kq;
    if rv <? 0 then _ ← close (r_ret r); mret (-1) else mret 0.

Definition linux_kqueue_free (kq : Z) : KM unit := crash "abort".

Definition linux_kevent_wait_hires (kq : Z) (timeout : timespec) : KM Z :=
  fd ← kqueue_epfd kq;
  r ← sys sysos (SysPpoll fd timeout);
  if r_ret r <? 0 then mret (-1) else mret (r_ret r).

(** int timeout of epoll_wait for a struct timespec. *)
Definition epoll_timeout (ts : option timespec) : Z :=
  match ts with
  | None => -1
  | Some ts => s32 (s64 (s64 (1000 * tv_sec ts) + Z.quot (tv_nsec ts) 1000000))
  end.

Definition epoll_wait (kq nevents timeout : Z) : KM Z :=
  fd ← kqueue_epfd kq;
  r ← sys sysos (SysEpollWait fd nevents timeout);
  modify (set_epevt (r_events r));;
  if r_ret r <? 0 then mret (-1) else mret (r_ret r).

Definition wants_hires (ts : option timespec) : option timespec :=
  match ts with
  | Some t => if (tv_sec t =? 0) && (tv_nsec t >? 0) && (tv_nsec t <? 1000000) then Some t else None
  | None => None
  end.

Definition linux_kevent_wait (kq nevents : Z) (ts : option timespec) : KM Z :=
  match wants_hires ts with
  | Some t =>
      nret ← linux_kevent_wait_hires kq t;
      if nret <=? 0 then mret nret else epoll_wait kq nevents 0
  | None => epoll_wait kq nevents (epoll_timeout ts)
  end.

(** One ready event: the slot's new contents. *)
Definition copyout_one (kq : Z) (ev : Z * Z) (slot : kevent) : KM kevent :=
  let kn := ev.2 in
  n ← get_kn kn;
  let filt := (kq, Z.lnot (ke_filter (kn_kev n))) in
  '(rv, e) ← with_ops linux_filters filt (fun o => op_copyout o slot kn ev);
  if rv <? 0 then crash "abort"
  else
    (if has (ke_flags e) EV_DISPATCH then _ ← knote_disable linux_filters filt kn; mret tt else mret tt);;
    (if has (ke_flags e) EV_ONESHOT then _ ← knote_delete linux_filters filt kn; mret tt else mret tt);;
    mret e.

(** The loop over the events that are ready; an event whose filter is 0 is overwritten by the next. *)
Fixpoint copyout_loop (kq : Z) (evs : list (Z * Z)) (evl : list kevent) (pos nret : Z) : KM (Z * list kevent) :=
  match evs with
  | [] => mret (nret, evl)
  | ev :: evs =>
      match evl !! Z.to_nat pos with
      | None => fault
      | Some slot =>
          e ← copyout_one kq ev slot;
          let evl := <[Z.to_nat pos:=e]> evl in
          if negb (ke_filter e =? 0) then copyout_loop kq evs evl (pos + 1) nret
          else copyout_loop kq evs evl pos (nret - 1)
      end
  end.

Definition linux_kevent_copyout (kq nready : Z) (evl : list kevent) (pos : Z) : KM (Z * list kevent) :=
  evs ← gets kw_epevt;
  copyout_loop kq (take (Z.to_nat nready) evs) evl pos nready.

Definition kqops : kqueue_vtable :=
  KqueueVtable linux_kqueue_init linux_kqueue_free linux_kevent_wait linux_kevent_copyout.

(** kqueue(2) and kevent(2) of the library. *)
Definition linux_kqueue : KM Z := kqueue sysos kqops.
Definition linux_kevent := kevent_call sysos linux_filters kqops.

End linux.
