(* ===== verification/KqueueTable.v ===== *)
(** * The table of knotes of the kqueue emulation

    What kevent() promises about its change list: the knotes that are registered, as a finite map from filter and ident to
    the client's data, follow an abstract specification of each change, on every error path too, and no
    freed memory is used.  The proofs use the operations of the filters only through the laws of [FilterLaws],
    which the Linux filters are shown to satisfy whatever the system calls return. *)

From S2P Require Import Prelude DispatchTime DispatchSource Kqueue KqueueLinux.
From stdpp Require Import base tactics list numbers gmap strings.
From Stdlib Require Import ZArith Lia.

Local Open Scope Z_scope.

(** ** What is relied on of the system *)

(** errno is not negative, and a read of a signalfd gives a whole record or would block (signalfd(2)). *)
Class OsOk (sysos : os) : Prop := {
  os_errno asked c : 0 <= r_errno (sysos asked c);
  os_signal_read asked fd :
    r_ret (sysos asked (SysRead fd sizeof_siginfo)) = sizeof_siginfo \/
    (r_ret (sysos asked (SysRead fd sizeof_siginfo)) < 0 /\ r_errno (sysos asked (SysRead fd sizeof_siginfo)) = EWOULDBLOCK)
}.

(** A system call as a step of the state. *)
Definition after_sys (sysos : os) (c : syscall) (w : kworld) : kworld :=
  let r := sysos (kw_log w) c in
  if r_ret r <? 0 then set_errno (r_errno r) (log_sys c w) else log_sys c w.

Lemma sys_run sysos c w : sys sysos c w = Ret (sysos (kw_log w) c) (after_sys sysos c w).
Proof. unfold sys, after_sys. rewrite gets_bind, modify_bind. by destruct (_ <? 0). Qed.

Lemma sys_bind {A} sysos c (f : reply -> KM A) w :
  (sys sysos c ≫= f) w = f (sysos (kw_log w) c) (after_sys sysos c w).
Proof. by rewrite (bind_step _ _ _ _ _ (sys_run _ _ _)). Qed.

(** ** Frames *)

Definition disabled (n : knote) : bool := has (ke_flags (kn_kev n)) EV_DISABLE.
Definition deleted (n : knote) : bool := has (kn_flags n) KNFL_KNOTE_DELETED.

(** What makes a knote the one it is, and what the client gave and asked. *)
Definition kn_key (n : knote) : Z * Z * Z * Z * bool :=
  (kn_kq n, ke_filter (kn_kev n), ke_ident (kn_kev n), kn_ref n, deleted n).
Definition kn_entry (n : knote) : Z * bool := (ke_udata (kn_kev n), disabled n).

(** [w'] is [w] but for errno, the calls made, the static flags, and the private part of the knote [p]. *)
Record touches (p : Z) (w w' : kworld) : Prop := Touches {
  touches_map : kw_map w' = kw_map w;
  touches_kqs : kw_kqs w' = kw_kqs w;
  touches_brk : kw_brk w' = kw_brk w;
  touches_errno : 0 <= kw_errno w -> 0 <= kw_errno w';
  touches_kn n : kw_kns w !! p = Some n ->
    exists n', kw_kns w' = <[p:=n']> (kw_kns w) /\ kn_key n' = kn_key n /\ kn_entry n' = kn_entry n
}.

Lemma touches_refl p w : touches p w w.
Proof. split; [done..|]. intros n Hn. exists n. by rewrite insert_id. Qed.

Lemma touches_trans p w1 w2 w3 : touches p w1 w2 -> touches p w2 w3 -> touches p w1 w3.
Proof.
  intros [] []. split; [congruence..|auto|]. intros n Hn.
  destruct (touches_kn0 n Hn) as (n2 & E2 & K2 & F2).
  destruct (touches_kn1 n2) as (n3 & E3 & K3 & F3); [by rewrite E2, lookup_insert_eq|].
  exists n3. rewrite E3, E2, insert_insert_eq. by rewrite K3, F3.
Qed.

(** The knote and the filter are there, and so is the kqueue of the filter. *)
Definition filt_at (kqs : gmap Z kqueue_s) (fp : fptr) : option kfilter :=
  if fp.2 <? 0 then None else kqs !! fp.1 ≫= (fun q => kq_filt q !! Z.to_nat (fp.2)).

Definition live (fp : fptr) (p : Z) (w : kworld) : Prop :=
  is_Some (kw_kns w !! p) /\ exists f, filt_at (kw_kqs w) fp = Some f /\ is_Some (kw_kqs w !! kf_kqueue f).

Lemma live_touches fp p w w' : touches p w w' -> live fp p w -> live fp p w'.
Proof.
  intros T [[n Hn] Hf]. destruct (touches_kn p w w' T n Hn) as (n' & E & _).
  split; [rewrite E, lookup_insert_eq; by eexists|]. by rewrite (touches_kqs p w w' T).
Qed.

(** A program that returns, whatever the system replies, and touches only the knote. *)
Definition keeps (fp : fptr) (p : Z) {A} (m : KM A) : Prop :=
  forall w, live fp p w -> exists a w', m w = Ret a w' /\ touches p w w'.

(** ** The laws of a filter *)

Class FilterLaws (o : filter_ops) : Prop := {
  law_create fp p : keeps fp p (op_create o fp p);
  law_modify fp p k : keeps fp p (op_modify o fp p k);
  law_delete fp p : keeps fp p (op_delete o fp p);
  law_enable fp p : keeps fp p (op_enable o fp p);
  law_disable fp p : keeps fp p (op_disable o fp p)
}.

Create HintDb keeps discriminated.

Section keeps.
Context (sysos : os) `{!OsOk sysos} (fp : fptr) (p : Z).

Lemma keeps_ret {A} (a : A) : keeps fp p (mret a : KM A).
Proof. intros w _. exists a, w. split; [done|apply touches_refl]. Qed.

Lemma keeps_bind {A B} (m : KM A) (f : A -> KM B) :
  keeps fp p m -> (forall a, keeps fp p (f a)) -> keeps fp p (m ≫= f).
Proof.
  intros Hm Hf w Hl. destruct (Hm w Hl) as (a & w1 & E1 & T1).
  destruct (Hf a w1) as (b & w2 & E2 & T2); [by eapply live_touches|].
  exists b, w2. split; [by rewrite (bind_step _ _ _ _ _ E1)|by eapply touches_trans].
Qed.

Lemma keeps_gets {A} (g : kworld -> A) : keeps fp p (gets g).
Proof. intros w _. exists (g w), w. split; [done|apply touches_refl]. Qed.

Lemma touches_outside w w' :
  kw_map w' = kw_map w -> kw_kqs w' = kw_kqs w -> kw_kns w' = kw_kns w -> kw_brk w' = kw_brk w ->
  (0 <= kw_errno w -> 0 <= kw_errno w') -> touches p w w'.
Proof. intros E1 E2 E3 E4 He. split; [done..|]. intros n Hn. exists n. by rewrite E3, insert_id. Qed.

Lemma keeps_sys c : keeps fp p (sys sysos c).
Proof.
  intros w _. pose proof (os_errno (sysos:=sysos) (kw_log w) c). eexists _, _. split; [apply sys_run|].
  unfold after_sys. destruct (_ <? 0); by apply touches_outside.
Qed.

Lemma keeps_sigflags f : keeps fp p (modify (set_sigflags f)).
Proof. intros w _. eexists _, _. split; [done|by apply touches_outside]. Qed.

Lemma keeps_get_kn : keeps fp p (get_kn p).
Proof. intros w [[n Hn] _]. exists n, w. unfold get_kn. rewrite Hn. split; [done|apply touches_refl]. Qed.

Lemma keeps_upd_kn f :
  (forall n, kn_key (f n) = kn_key n /\ kn_entry (f n) = kn_entry n) -> keeps fp p (upd_kn p f).
Proof.
  intros Hf w [[n Hn] _]. unfold upd_kn. rewrite (bind_step _ _ w n w) by (unfold get_kn; by rewrite Hn).
  eexists _, _. split; [done|]. split; [done..|]. intros n' Hn'. simplify_eq. exists (f n). by destruct (Hf n).
Qed.

Lemma keeps_epfd : keeps fp p (filter_epfd fp).
Proof.
  intros w [_ (f & Hf & [q Hq])]. exists (kq_id q), w. split; [|apply touches_refl].
  unfold filt_at in Hf. destruct (fp.2 <? 0) eqn:En; [done|].
  apply bind_Some in Hf as (q0 & Hq0 & Hf).
  unfold filter_epfd, get_filt, kqueue_epfd, get_kq, mbind, M_bind. rewrite Hq0, Hf, En. simpl. by rewrite Hq.
Qed.

End keeps.

#[export] Hint Resolve keeps_ret keeps_gets keeps_sys keeps_sigflags keeps_get_kn keeps_epfd : keeps.

(** Bits that a change leaves alone. *)
Lemma has_lor_other v f b : Z.land f b = 0 -> has (Z.lor v f) b = has v b.
Proof. intros H. unfold has. by rewrite Z.land_lor_distr_l, H, Z.lor_0_r. Qed.
Lemma has_clear_other v f b : Z.land f b = 0 -> has (Z.land v (Z.lnot f)) b = has v b.
Proof.
  intros H. unfold has. f_equal. f_equal. apply Z.bits_inj'. intros n Hn. rewrite !Z.land_spec, Z.lnot_spec by done.
  assert (Z.testbit (Z.land f b) n = false) as Hb by (by rewrite H, Z.bits_0).
  rewrite Z.land_spec in Hb. destruct (Z.testbit v n), (Z.testbit f n), (Z.testbit b n); done.
Qed.

(** Goes through a program: every call keeps, every test is split. *)
Ltac keep_step :=
  match goal with
  | |- keeps _ _ (mbind _ _) => apply keeps_bind; [|intros ?]
  | |- keeps _ _ (upd_kev _ _) => apply keeps_upd_kn; intros ?
  | |- keeps _ _ (upd_kn _ _) => apply keeps_upd_kn; intros ?
  | |- kn_key _ = _ /\ _ => split; unfold kn_key, kn_entry, deleted, disabled; simpl; rewrite ?has_lor_other by done; done
  | |- context [if ?b then _ else _] => destruct b
  | |- keeps _ _ _ => progress (auto with keeps)
  end.
Ltac keep_all := repeat keep_step.

(** ** The Linux filters *)

Section linux_laws.
Context (sysos : os) `{!OsOk sysos}.
Implicit Types (fp : fptr) (p : Z).

Lemma keeps_epoll_ctl fp p epfd op fd ev : keeps fp p (epoll_ctl sysos epfd op fd ev).
Proof. unfold epoll_ctl. keep_all. Qed.
Lemma keeps_close fp p fd : keeps fp p (close sysos fd).
Proof. unfold close. keep_all. Qed.
Hint Resolve keeps_epoll_ctl keeps_close : keeps.

Lemma keeps_epoll_update fp p op ev : keeps fp p (epoll_update sysos op fp p ev).
Proof. unfold epoll_update. keep_all. Qed.
Lemma keeps_descriptor_type fp p : keeps fp p (linux_get_descriptor_type sysos p).
Proof. unfold linux_get_descriptor_type. keep_all. Qed.
Hint Resolve keeps_epoll_update keeps_descriptor_type : keeps.

#[export] Instance read_laws : FilterLaws (evfilt_read sysos).
Proof.
  split; intros; simpl; unfold evfilt_read_knote_create, evfilt_read_knote_modify, evfilt_read_knote_delete,
    evfilt_read_knote_enable, evfilt_read_knote_disable; keep_all.
Qed.

#[export] Instance write_laws : FilterLaws (evfilt_write sysos).
Proof.
  split; intros; simpl; unfold evfilt_socket_knote_create, evfilt_socket_knote_modify, evfilt_socket_knote_delete,
    evfilt_socket_knote_enable, evfilt_socket_knote_disable; keep_all.
Qed.

Lemma keeps_raise fp p fd : keeps fp p (eventfd_raise sysos fd).
Proof. unfold eventfd_raise, eventfd_error. keep_all. Qed.
Lemma keeps_user_create fp p : keeps fp p (linux_evfilt_user_knote_create sysos fp p).
Proof. unfold linux_evfilt_user_knote_create. keep_all. Qed.
Lemma keeps_user_delete fp p : keeps fp p (linux_evfilt_user_knote_delete sysos fp p).
Proof. unfold linux_evfilt_user_knote_delete. keep_all. Qed.
Hint Resolve keeps_raise keeps_user_create keeps_user_delete : keeps.

#[export] Instance user_laws : FilterLaws (evfilt_user sysos).
Proof.
  split; intros; simpl; unfold linux_evfilt_user_knote_modify, linux_evfilt_user_knote_enable,
    linux_evfilt_user_knote_disable; keep_all.
Qed.

Lemma keeps_timer_create fp p : keeps fp p (evfilt_timer_knote_create sysos fp p).
Proof. unfold evfilt_timer_knote_create. keep_all. Qed.
Lemma keeps_timer_delete fp p : keeps fp p (evfilt_timer_knote_delete sysos fp p).
Proof. unfold evfilt_timer_knote_delete. keep_all. Qed.
Hint Resolve keeps_timer_create keeps_timer_delete : keeps.

#[export] Instance timer_laws : FilterLaws (evfilt_timer sysos).
Proof.
  split; intros; simpl; unfold evfilt_timer_knote_modify, evfilt_timer_knote_enable, evfilt_timer_knote_disable; keep_all.
Qed.

(** The abort of signalfd_reset is not reached. *)
Lemma keeps_signalfd_reset fp p fd : keeps fp p (signalfd_reset sysos fd).
Proof.
  intros w Hl. destruct (keeps_sys sysos fp p (SysRead fd sizeof_siginfo) w Hl) as (r & w' & E & T).
  rewrite sys_run in E. simplify_eq. unfold signalfd_reset. rewrite sys_bind.
  destruct (os_signal_read (kw_log w) fd) as [Hr|[Hr He]].
  - rewrite Hr. by eexists _, _.
  - rewrite (proj2 (Z.ltb_lt _ _) Hr). simpl. rewrite gets_bind. unfold after_sys in *.
    rewrite (proj2 (Z.ltb_lt _ _) Hr), He in *. by eexists _, _.
Qed.
Hint Resolve keeps_signalfd_reset : keeps.
Lemma keeps_signalfd_create fp p epfd ptr signum : keeps fp p (signalfd_create sysos epfd ptr signum).
Proof. unfold signalfd_create, signalfd_add. keep_all. Qed.
Hint Resolve keeps_signalfd_create : keeps.
Lemma keeps_signal_create fp p : keeps fp p (evfilt_signal_knote_create sysos fp p).
Proof. unfold evfilt_signal_knote_create. keep_all. Qed.
Lemma keeps_signal_delete fp p : keeps fp p (evfilt_signal_knote_delete sysos fp p).
Proof. unfold evfilt_signal_knote_delete. keep_all. Qed.
Hint Resolve keeps_signal_create keeps_signal_delete : keeps.

#[export] Instance signal_laws : FilterLaws (evfilt_signal sysos).
Proof.
  split; intros; simpl; unfold evfilt_signal_knote_modify, evfilt_signal_knote_enable, evfilt_signal_knote_disable; keep_all.
Qed.

Lemma keeps_add_watch fp p : keeps fp p (add_watch sysos fp p).
Proof. unfold add_watch, linux_fd_to_path. keep_all. Qed.
Lemma keeps_delete_watch fp p : keeps fp p (delete_watch sysos fp p).
Proof. unfold delete_watch. keep_all. Qed.
Hint Resolve keeps_add_watch keeps_delete_watch : keeps.

#[export] Instance vnode_laws tries : FilterLaws (evfilt_vnode sysos tries).
Proof.
  split; intros; simpl; unfold evfilt_vnode_knote_create, evfilt_vnode_knote_modify, evfilt_vnode_knote_delete,
    evfilt_vnode_knote_enable, evfilt_vnode_knote_disable; keep_all.
Qed.

Lemma linux_laws tries i o : linux_filters sysos tries i = Some o -> FilterLaws o.
Proof. destruct i; intros [= <-]; apply _. Qed.

End linux_laws.

(** ** The tables of a set of kqueues *)

Definition tbl (kqs : gmap Z kqueue_s) (k : Z) (i : nat) (x : Z) : option Z :=
  kqs !! k ≫= (fun q => kq_filt q !! i ≫= (fun f => kf_knote f !! x)).

(** The kqueues after the table of a filter was replaced. *)
Definition set_table (k : Z) (i : nat) (t : gmap Z Z) (q : kqueue_s) (f : kfilter) (kqs : gmap Z kqueue_s) :=
  <[k:=KQueue (kq_id q) (<[i:=set_filt_knote t f]> (kq_filt q)) (kq_nfds q)]> kqs.

Definition filters_ok (kqs : gmap Z kqueue_s) : Prop :=
  forall k q, kqs !! k = Some q ->
    length (kq_filt q) = 11%nat /\
    forall i f, kq_filt q !! i = Some f -> kf_impl f = ImplNone \/ kf_kqueue f = k.

(** Every knote of a table is live, with the key it is found by, one reference and not deleted; every live knote is in a
    table. *)
Record tables_ok (kqs : gmap Z kqueue_s) (kns : gmap Z knote) (brk : Z) : Prop := TablesOk {
  tables_filters : filters_ok kqs;
  tables_back k i x p : tbl kqs k i x = Some p ->
    exists n, kns !! p = Some n /\ kn_key n = (k, Z.lnot (Z.of_nat i), x, 1, false);
  tables_fwd p n : kns !! p = Some n -> 0 < p < brk /\ exists i, tbl kqs (kn_kq n) i (ke_ident (kn_kev n)) = Some p;
  tables_brk : 0 < brk
}.

Lemma tbl_set_table k i t q f kqs k' i' x :
  kqs !! k = Some q -> kq_filt q !! i = Some f ->
  tbl (set_table k i t q f kqs) k' i' x = if decide (k' = k /\ i' = i) then t !! x else tbl kqs k' i' x.
Proof.
  intros Hq Hf. unfold tbl, set_table. destruct (decide (k' = k)) as [->|Hk].
  - rewrite lookup_insert_eq, Hq. simpl. destruct (decide (i' = i)) as [->|Hi].
    + rewrite list_lookup_insert_eq by (by eapply lookup_lt_Some). by rewrite decide_True.
    + rewrite list_lookup_insert_ne by done. by rewrite decide_False by naive_solver.
  - rewrite lookup_insert_ne by done. by rewrite decide_False by naive_solver.
Qed.

Lemma filters_ok_set_table k i t q f kqs :
  kqs !! k = Some q -> kq_filt q !! i = Some f -> filters_ok kqs -> filters_ok (set_table k i t q f kqs).
Proof.
  intros Hq Hf Hok k' q' Hq'. unfold set_table in Hq'. destruct (decide (k' = k)) as [->|Hk].
  - rewrite lookup_insert_eq in Hq'. simplify_eq. destruct (Hok k q Hq) as [Hl Hi]. simpl. rewrite length_insert.
    split; [done|]. intros j g [(<- & <- & _)|[_ Hg]]%list_lookup_insert_Some; [by apply (Hi i f Hf)|by eapply Hi].
  - rewrite lookup_insert_ne in Hq' by done. by apply Hok.
Qed.

(** Two knotes of the tables are at different places. *)
Lemma tables_inj kqs kns brk p k i x k' i' x' :
  tables_ok kqs kns brk -> tbl kqs k i x = Some p -> tbl kqs k' i' x' = Some p -> k' = k /\ i' = i /\ x' = x.
Proof.
  intros T H1 H2. destruct (tables_back _ _ _ T _ _ _ _ H1) as (n & Hn & K).
  destruct (tables_back _ _ _ T _ _ _ _ H2) as (n' & Hn' & K'). simplify_eq. rewrite K in K'.
  injection K' as Hk Hi Hx. unfold Z.lnot in Hi. repeat split; [done|lia|done].
Qed.

Lemma tables_replace kqs kns brk p n n' :
  tables_ok kqs kns brk -> kns !! p = Some n -> kn_key n' = kn_key n -> tables_ok kqs (<[p:=n']> kns) brk.
Proof.
  intros T Hn K. split; [apply T| |  |apply T].
  - intros k i x p' Hp. destruct (tables_back _ _ _ T _ _ _ _ Hp) as (m & Hm & Km).
    destruct (decide (p' = p)) as [->|Hne]; [|exists m; by rewrite lookup_insert_ne].
    exists n'. rewrite lookup_insert_eq. split; [done|]. rewrite Hn in Hm. injection Hm as <-. by rewrite K.
  - intros p' m Hm. destruct (decide (p' = p)) as [->|Hne].
    + rewrite lookup_insert_eq in Hm. injection Hm as <-. injection K as E1 _ E2 _ _.
      destruct (tables_fwd _ _ _ T p n Hn) as (? & i & Hi). split; [done|]. exists i. by rewrite E1, E2.
    + rewrite lookup_insert_ne in Hm by done. by apply T.
Qed.

Lemma tables_add kqs kns brk k i q f n :
  tables_ok kqs kns brk -> kqs !! k = Some q -> kq_filt q !! i = Some f ->
  kf_knote f !! ke_ident (kn_kev n) = None -> kn_key n = (k, Z.lnot (Z.of_nat i), ke_ident (kn_kev n), 1, false) ->
  tables_ok (set_table k i (<[ke_ident (kn_kev n):=brk]> (kf_knote f)) q f kqs) (<[brk:=n]> kns) (brk + 16).
Proof.
  intros T Hq Hf Hx K. pose proof (tables_brk _ _ _ T) as Hb.
  assert (kns !! brk = None) as Hfresh.
  { destruct (kns !! brk) as [m|] eqn:E; [|done]. destruct (tables_fwd _ _ _ T _ _ E). lia. }
  split; [by apply filters_ok_set_table; [..|apply T]| | |lia].
  - intros k' i' x p. rewrite tbl_set_table by done. case_decide as Hd; [destruct Hd as [-> ->]|].
    + rewrite lookup_insert_Some. intros [[<- <-]|[Hne Hp]]; [exists n; by rewrite lookup_insert_eq|].
      destruct (tables_back _ _ _ T k i x p) as (m & Hm & Km); [unfold tbl; by rewrite Hq; simpl; rewrite Hf|].
      exists m. rewrite lookup_insert_ne by congruence. done.
    + intros Hp. destruct (tables_back _ _ _ T _ _ _ _ Hp) as (m & Hm & Km).
      exists m. rewrite lookup_insert_ne by congruence. done.
  - intros p m. rewrite lookup_insert_Some. intros [[<- <-]|[Hne Hm]].
    + split; [lia|]. exists i. rewrite tbl_set_table by done. injection K as -> _ _ _.
      by rewrite decide_True, lookup_insert_eq by done.
    + destruct (tables_fwd _ _ _ T p m Hm) as (? & j & Hj). split; [lia|]. exists j. rewrite tbl_set_table by done.
      case_decide as Hd; [destruct Hd as [Hk ->]|done]. rewrite lookup_insert_ne; [|].
      * unfold tbl in Hj. rewrite Hk, Hq in Hj. simpl in Hj. by rewrite Hf in Hj.
      * intros Hxx. unfold tbl in Hj. rewrite Hk, Hq in Hj. simpl in Hj. rewrite Hf in Hj. simpl in Hj. congruence.
Qed.

Lemma tables_remove kqs kns brk k i q f x p :
  tables_ok kqs kns brk -> kqs !! k = Some q -> kq_filt q !! i = Some f -> kf_knote f !! x = Some p ->
  tables_ok (set_table k i (delete x (kf_knote f)) q f kqs) (delete p kns) brk.
Proof.
  intros T Hq Hf Hx. assert (tbl kqs k i x = Some p) as Hp by (unfold tbl; rewrite Hq; simpl; by rewrite Hf).
  split; [by apply filters_ok_set_table; [..|apply T]| | |apply T].
  - intros k' i' x' p'. rewrite tbl_set_table by done. intros Hp'.
    assert (tbl kqs k' i' x' = Some p' /\ ~ (k' = k /\ i' = i /\ x' = x)) as [Ht Hne].
    { case_decide as Hd; [destruct Hd as [-> ->]|split; [done|naive_solver]].
      apply lookup_delete_Some in Hp' as [? ?]. split; [unfold tbl; rewrite Hq; simpl; by rewrite Hf|naive_solver]. }
    destruct (tables_back _ _ _ T _ _ _ _ Ht) as (m & Hm & Km). exists m. rewrite lookup_delete_ne; [done|].
    intros ->. apply Hne. by eapply tables_inj.
  - intros p' m [Hne Hm]%lookup_delete_Some. destruct (tables_fwd _ _ _ T p' m Hm) as (? & j & Hj). split; [done|].
    exists j. rewrite tbl_set_table by done. case_decide as Hd; [destruct Hd as [Hk ->]|done].
    unfold tbl in Hj. rewrite Hk, Hq in Hj. simpl in Hj. rewrite Hf in Hj. simpl in Hj.
    rewrite lookup_delete_ne; [done|]. congruence.
Qed.

(** ** The events that are registered, abstractly *)

(** From filter and ident to the client's udata and whether the event is disabled. *)
Notation registry := (gmap (Z * Z) (Z * bool)).

Definition views (kqs : gmap Z kqueue_s) (kns : gmap Z knote) (kq : Z) (reg : registry) : Prop :=
  forall i x, reg !! (Z.lnot (Z.of_nat i), x) = tbl kqs kq i x ≫= (fun p => kn_entry <$> kns !! p).

(** The state of the library is sound, and [reg] is what is registered with the kqueue. *)
Record holds (kq : Z) (reg : registry) (w : kworld) : Prop := Holds {
  holds_tables : tables_ok (kw_kqs w) (kw_kns w) (kw_brk w);
  holds_errno : 0 <= kw_errno w;
  holds_view : views (kw_kqs w) (kw_kns w) kq reg;
  holds_live : is_Some (kw_kqs w !! kq)
}.

(** What no change alters: the kqueues there are, and which filters they have. *)
Definition kq_shape (q : kqueue_s) : Z * list (filter_impl * Z) :=
  (kq_id q, (fun f => (kf_impl f, kf_kqueue f)) <$> kq_filt q).
Definition same_shape (w w' : kworld) : Prop :=
  kw_map w' = kw_map w /\ kq_shape <$> kw_kqs w' = kq_shape <$> kw_kqs w.

Lemma same_shape_trans w1 w2 w3 : same_shape w1 w2 -> same_shape w2 w3 -> same_shape w1 w3.
Proof. intros [] []. split; congruence. Qed.
Lemma same_shape_touches p w w' : touches p w w' -> same_shape w w'.
Proof. intros []. split; [done|congruence]. Qed.
Lemma same_shape_set_table w k i t q f :
  kw_kqs w !! k = Some q -> kq_filt q !! i = Some f -> same_shape w (set_kqs (set_table k i t q f) w).
Proof.
  intros Hq Hf. split; [done|]. simpl. unfold set_table. rewrite fmap_insert. apply insert_id. rewrite lookup_fmap, Hq.
  simpl. f_equal. unfold kq_shape. simpl. f_equal. rewrite list_fmap_insert. symmetry. apply list_insert_id.
  by rewrite list_lookup_fmap, Hf.
Qed.

Definition implemented (ops : filter_impl -> option filter_ops) (kqs : gmap Z kqueue_s) (kq id : Z) : Prop :=
  is_Some (filt_at kqs (kq, Z.lnot id) ≫= (fun f => ops (kf_impl f))).

Lemma filt_at_shape kqs fp :
  (fun f => (kf_impl f, kf_kqueue f)) <$> filt_at kqs fp =
  if fp.2 <? 0 then None else (kq_shape <$> kqs) !! fp.1 ≫= (fun s => s.2 !! Z.to_nat (fp.2)).
Proof.
  unfold filt_at. destruct (_ <? 0); [done|]. rewrite lookup_fmap. destruct (kqs !! fp.1) as [q|]; [|done]. simpl.
  by rewrite list_lookup_fmap.
Qed.

Lemma implemented_shape ops w w' kq id :
  same_shape w w' -> implemented ops (kw_kqs w') kq id <-> implemented ops (kw_kqs w) kq id.
Proof.
  intros [_ S]. unfold implemented. pose proof (filt_at_shape (kw_kqs w) (kq, Z.lnot id)) as E1.
  pose proof (filt_at_shape (kw_kqs w') (kq, Z.lnot id)) as E2. rewrite S, <- E1 in E2.
  destruct (filt_at (kw_kqs w) _), (filt_at (kw_kqs w') _); simpl in *; try done. by injection E2 as -> _.
Qed.

(** ** The specification of a change *)

Definition key_of (src : kevent) : Z * Z := (ke_filter src, ke_ident src).

(** What a change may do to the registered events, and the errno it fails with.  The filter may fail with an errno of its
    own once the table was changed. *)
Inductive change_spec (impl : Z -> Prop) (reg : registry) (src : kevent) : option Z -> registry -> Prop :=
| cs_flags :
    has (ke_flags src) EV_DISPATCH = true -> has (ke_flags src) EV_ONESHOT = true ->
    change_spec impl reg src (Some EINVAL) reg
| cs_invalid :
    ~ (0 <= Z.lnot (ke_filter src) < EVFILT_SYSCOUNT) -> change_spec impl reg src (Some EINVAL) reg
| cs_unimplemented :
    0 <= Z.lnot (ke_filter src) < EVFILT_SYSCOUNT -> ~ impl (ke_filter src) ->
    change_spec impl reg src (Some ENOSYS) reg
| cs_absent :
    impl (ke_filter src) -> reg !! key_of src = None -> has (ke_flags src) EV_ADD = false ->
    change_spec impl reg src (Some ENOENT) reg
| cs_refused e :
    impl (ke_filter src) -> reg !! key_of src = None -> has (ke_flags src) EV_ADD = true -> e = ENOENT \/ e = EFAULT ->
    change_spec impl reg src (Some e) reg
| cs_added st :
    impl (ke_filter src) -> reg !! key_of src = None -> has (ke_flags src) EV_ADD = true ->
    (has (ke_flags src) EV_DISABLE = false -> st = None) ->
    change_spec impl reg src st (<[key_of src:=(ke_udata src, has (ke_flags src) EV_DISABLE)]> reg)
| cs_deleted e :
    impl (ke_filter src) -> reg !! key_of src = Some e -> has (ke_flags src) EV_DELETE = true ->
    change_spec impl reg src None (delete (key_of src) reg)
| cs_disabled u d st :
    impl (ke_filter src) -> reg !! key_of src = Some (u, d) -> has (ke_flags src) EV_DELETE = false ->
    has (ke_flags src) EV_DISABLE = true ->
    change_spec impl reg src st (<[key_of src:=(u, true)]> reg)
| cs_enabled u d st :
    impl (ke_filter src) -> reg !! key_of src = Some (u, d) -> has (ke_flags src) EV_DELETE = false ->
    has (ke_flags src) EV_DISABLE = false -> has (ke_flags src) EV_ENABLE = true ->
    change_spec impl reg src st (<[key_of src:=(u, false)]> reg)
| cs_modified u d st :
    impl (ke_filter src) -> reg !! key_of src = Some (u, d) -> has (ke_flags src) EV_DELETE = false ->
    has (ke_flags src) EV_DISABLE = false -> has (ke_flags src) EV_ENABLE = false ->
    has (ke_flags src) EV_ADD || (ke_flags src =? 0) || has (ke_flags src) EV_RECEIPT = true ->
    change_spec impl reg src st (<[key_of src:=(ke_udata src, d)]> reg)
| cs_ignored e :
    impl (ke_filter src) -> reg !! key_of src = Some e -> has (ke_flags src) EV_DELETE = false ->
    has (ke_flags src) EV_DISABLE = false -> has (ke_flags src) EV_ENABLE = false ->
    has (ke_flags src) EV_ADD || (ke_flags src =? 0) || has (ke_flags src) EV_RECEIPT = false ->
    change_spec impl reg src None reg.

(** The errno that goes with a return value. *)
Definition status (rv : Z) (w : kworld) : option Z := if rv <? 0 then Some (kw_errno w) else None.

(** ** The operations on the table *)

Section changes.
Context (sysos : os) `{!OsOk sysos} (ops : filter_impl -> option filter_ops).
Context (ops_none : ops ImplNone = None) (ops_laws : forall i o, ops i = Some o -> FilterLaws o).
Implicit Types (w : kworld) (reg : registry).

Lemma get_filt_run w fp f : filt_at (kw_kqs w) fp = Some f -> get_filt fp w = Ret f w.
Proof.
  unfold filt_at, get_filt, get_kq, mbind, M_bind. destruct (fp.2 <? 0); [done|]. intros (q & -> & ->)%bind_Some. done.
Qed.

Lemma get_kn_run w p n : kw_kns w !! p = Some n -> get_kn p w = Ret n w.
Proof. unfold get_kn. by intros ->. Qed.

Lemma upd_kn_run w p n g : kw_kns w !! p = Some n -> upd_kn p g w = Ret tt (set_kns (insert p (g n)) w).
Proof. intros Hn. unfold upd_kn. by rewrite (bind_step _ _ _ _ _ (get_kn_run w p n Hn)). Qed.

(** A call of the filter's function. *)
Lemma with_ops_run w fp p f o (k : filter_ops -> KM Z) :
  filt_at (kw_kqs w) fp = Some f -> is_Some (kw_kqs w !! kf_kqueue f) -> ops (kf_impl f) = Some o ->
  is_Some (kw_kns w !! p) -> keeps fp p (k o) ->
  exists rv w', with_ops ops fp k w = Ret rv w' /\ touches p w w'.
Proof.
  intros Hf Hq Ho Hn Hk. destruct (Hk w) as (rv & w' & E & T); [split; [done|by exists f]|].
  exists rv, w'. split; [|done]. unfold with_ops. by rewrite (bind_step _ _ _ _ _ (get_filt_run w fp f Hf)), Ho.
Qed.

(** A filter that can be used: where it is, and its kqueue. *)
Record usable (w : kworld) (kq : Z) (i : nat) (q : kqueue_s) (f : kfilter) (o : filter_ops) : Prop := Usable {
  us_q : kw_kqs w !! kq = Some q;
  us_f : kq_filt q !! i = Some f;
  us_o : ops (kf_impl f) = Some o
}.

Lemma usable_filt w kq i q f o : usable w kq i q f o -> filt_at (kw_kqs w) (kq, Z.of_nat i) = Some f.
Proof.
  intros [Hq Hf _]. unfold filt_at. simpl. rewrite (proj2 (Z.ltb_ge _ _)) by lia. rewrite Hq, Nat2Z.id. by simpl.
Qed.
Lemma usable_kq w kq reg i q f o : holds kq reg w -> usable w kq i q f o -> kf_kqueue f = kq.
Proof.
  intros H [Hq Hf Ho]. destruct (tables_filters _ _ _ (holds_tables _ _ _ H) kq q Hq) as [_ Hi].
  destruct (Hi i f Hf) as [E|]; [|done]. rewrite E in Ho. congruence.
Qed.
Lemma usable_tbl w kq i q f o x : usable w kq i q f o -> tbl (kw_kqs w) kq i x = kf_knote f !! x.
Proof. intros [Hq Hf _]. unfold tbl. rewrite Hq. simpl. by rewrite Hf. Qed.
Lemma usable_same w w' kq i q f o : kw_kqs w' = kw_kqs w -> usable w kq i q f o -> usable w' kq i q f o.
Proof. intros E []. split; by rewrite ?E. Qed.

Lemma put_filt_run w kq i q f o g :
  usable w kq i q f o -> put_filt (kq, Z.of_nat i) (set_filt_knote g f) w = Ret tt (set_kqs (set_table kq i g q f) w).
Proof.
  intros [Hq _ _]. unfold put_filt, upd_kq, get_kq, mbind, M_bind. simpl. rewrite Hq. unfold modify, set_table. simpl.
  by rewrite Nat2Z.id.
Qed.

(** A function of the filter, called on a knote. *)
Lemma usable_call w kq reg i q f o p (k : filter_ops -> KM Z) :
  holds kq reg w -> usable w kq i q f o -> is_Some (kw_kns w !! p) -> keeps (kq, Z.of_nat i) p (k o) ->
  exists rv w', with_ops ops (kq, Z.of_nat i) k w = Ret rv w' /\ touches p w w'.
Proof.
  intros H U Hn Hk. eapply with_ops_run; [by eapply usable_filt| |apply U|done|done].
  rewrite (usable_kq _ _ _ _ _ _ _ H U). apply H.
Qed.

Lemma holds_touches kq reg p n w w' : holds kq reg w -> kw_kns w !! p = Some n -> touches p w w' -> holds kq reg w'.
Proof.
  intros H Hn T. destruct (touches_kn _ _ _ T n Hn) as (n' & E & K & F). destruct T as [_ Ek Eb He _].
  split; rewrite ?Ek, ?Eb, ?E.
  - by apply (tables_replace _ _ _ _ n); [apply H|..].
  - apply He, H.
  - intros i x. rewrite (holds_view _ _ _ H i x). destruct (tbl _ _ _ _) as [p'|]; [simpl|done].
    destruct (decide (p' = p)) as [->|]; [by rewrite lookup_insert_eq, Hn; simpl; rewrite F|by rewrite lookup_insert_ne].
  - apply H.
Qed.

(** A knote that is registered. *)
Lemma holds_lookup kq reg w i x p :
  holds kq reg w -> tbl (kw_kqs w) kq i x = Some p ->
  exists n, kw_kns w !! p = Some n /\ kn_key n = (kq, Z.lnot (Z.of_nat i), x, 1, false) /\ 0 < p /\
    reg !! (Z.lnot (Z.of_nat i), x) = Some (kn_entry n).
Proof.
  intros H Hp. destruct (tables_back _ _ _ (holds_tables _ _ _ H) _ _ _ _ Hp) as (n & Hn & K).
  exists n. rewrite (holds_view _ _ _ H i x), Hp. simpl. rewrite Hn.
  destruct (tables_fwd _ _ _ (holds_tables _ _ _ H) _ _ Hn) as [? _]. repeat split; [done|lia].
Qed.

Lemma views_replace kqs kns brk kq reg i x p n' :
  tables_ok kqs kns brk -> views kqs kns kq reg -> tbl kqs kq i x = Some p ->
  views kqs (<[p:=n']> kns) kq (<[(Z.lnot (Z.of_nat i), x):=kn_entry n']> reg).
Proof.
  intros T V Hp j y. destruct (decide ((j, y) = (i, x))) as [E|Hne].
  - injection E as -> ->. by rewrite lookup_insert_eq, Hp; simpl; rewrite lookup_insert_eq.
  - rewrite lookup_insert_ne; [|intros [= E1 E2]; unfold Z.lnot in E1; apply Hne; f_equal; lia].
    rewrite (V j y). destruct (tbl kqs kq j y) as [p'|] eqn:E; [|done]. simpl. rewrite lookup_insert_ne; [done|].
    intros ->. destruct (tables_inj _ _ _ _ _ _ _ _ _ _ T Hp E) as (_ & -> & ->). done.
Qed.

(** A change of the knote's event that leaves its key alone. *)
Lemma holds_upd kq reg w i x p n g :
  holds kq reg w -> tbl (kw_kqs w) kq i x = Some p -> kw_kns w !! p = Some n -> kn_key (g n) = kn_key n ->
  holds kq (<[(Z.lnot (Z.of_nat i), x):=kn_entry (g n)]> reg) (set_kns (insert p (g n)) w).
Proof.
  intros [T He V L] Hp Hn K. split; simpl; [by eapply tables_replace|done| |done]. by eapply views_replace.
Qed.

(** The client's change of a knote followed by a call of the filter. *)
Lemma change_knote kq reg w i q f o x p n g (k : filter_ops -> KM Z) :
  holds kq reg w -> usable w kq i q f o -> tbl (kw_kqs w) kq i x = Some p -> kw_kns w !! p = Some n ->
  kn_key (g n) = kn_key n -> keeps (kq, Z.of_nat i) p (k o) ->
  exists rv w', (upd_kn p g;; with_ops ops (kq, Z.of_nat i) k) w = Ret rv w' /\ same_shape w w' /\
    holds kq (<[(Z.lnot (Z.of_nat i), x):=kn_entry (g n)]> reg) w'.
Proof.
  intros H U Hp Hn K Hk. rewrite (bind_step _ _ _ _ _ (upd_kn_run w p n g Hn)).
  pose proof (holds_upd kq reg w i x p n g H Hp Hn K) as H1. set (w1 := set_kns _ _) in *.
  assert (kw_kns w1 !! p = Some (g n)) as Hn1 by (unfold w1; simpl; by rewrite lookup_insert_eq).
  destruct (usable_call w1 kq _ i q f o p k H1) as (rv & w' & E & T); [by apply (usable_same w)|by eexists|done|].
  exists rv, w'. split; [done|]. split; [exact (same_shape_touches _ _ _ T)|by eapply holds_touches].
Qed.

Definition mark_deleted (n : knote) : knote := set_kn_flags (Z.lor (kn_flags n) KNFL_KNOTE_DELETED) n.

Lemma has_lor_self v b : b <> 0 -> has (Z.lor v b) b = true.
Proof.
  intros Hb. unfold has. rewrite Z.land_comm, Z.lor_comm, Z.land_comm, Z.land_lor_distr_l, Z.land_diag.
  destruct (Z.eqb_spec (Z.lor b (Z.land v b)) 0) as [E|]; [|done]. by apply Z.lor_eq_0_iff in E as [].
Qed.

(** The last reference of a knote that was deleted. *)
Lemma release_deleted w p n :
  kw_kns w !! p = Some n -> kn_ref n = 1 -> deleted n = true ->
  knote_release ops p w = Ret tt (set_kns (delete p) w).
Proof.
  intros Hn Hr Hd. unfold knote_release. rewrite (bind_step _ _ _ _ _ (get_kn_run w p n Hn)), Hr. simpl.
  unfold kassert. simpl. rewrite ret_bind. rewrite (bind_step _ _ _ _ _ (upd_kn_run w p n _ Hn)).
  unfold deleted in Hd. rewrite Hd. simpl. unfold free_kn, set_kns. simpl.
  erewrite (bind_step (get_kn p)) by (apply get_kn_run; simpl; by rewrite lookup_insert_eq).
  unfold modify. simpl. by rewrite delete_insert_eq.
Qed.

Lemma usable_set_table w kq i q f o t :
  usable w kq i q f o ->
  usable (set_kqs (set_table kq i t q f) w) kq i
    (KQueue (kq_id q) (<[i:=set_filt_knote t f]> (kq_filt q)) (kq_nfds q)) (set_filt_knote t f) o.
Proof.
  intros [Hq Hf Ho]. split; simpl; [unfold set_table; by rewrite lookup_insert_eq| |done].
  rewrite list_lookup_insert_eq; [done|by eapply lookup_lt_Some].
Qed.

Lemma views_remove kqs kns brk kq reg i q f x p :
  tables_ok kqs kns brk -> views kqs kns kq reg -> kqs !! kq = Some q -> kq_filt q !! i = Some f -> kf_knote f !! x = Some p ->
  views (set_table kq i (delete x (kf_knote f)) q f kqs) (delete p kns) kq (delete (Z.lnot (Z.of_nat i), x) reg).
Proof.
  intros T V Hq Hf Hx j y. assert (tbl kqs kq i x = Some p) as Hp by (unfold tbl; rewrite Hq; simpl; by rewrite Hf).
  rewrite tbl_set_table by done. destruct (decide ((j, y) = (i, x))) as [E|Hne].
  - injection E as -> ->. by rewrite lookup_delete_eq, decide_True, lookup_delete_eq.
  - rewrite lookup_delete_ne by (intros [= E1 E2]; unfold Z.lnot in E1; apply Hne; f_equal; lia). rewrite (V j y).
    assert ((if decide (kq = kq /\ j = i) then delete x (kf_knote f) !! y else tbl kqs kq j y) = tbl kqs kq j y) as ->.
    { case_decide as Hd; [destruct Hd as [_ ->]|done]. unfold tbl. rewrite Hq. simpl. rewrite Hf. simpl.
      rewrite lookup_delete_ne; congruence. }
    destruct (tbl kqs kq j y) as [p'|] eqn:E; [|done]. simpl. rewrite lookup_delete_ne; [done|].
    intros ->. destruct (tables_inj _ _ _ _ _ _ _ _ _ _ T Hp E) as (_ & -> & ->). done.
Qed.

Lemma knote_delete_run kq reg w i q f o x p :
  holds kq reg w -> usable w kq i q f o -> kf_knote f !! x = Some p ->
  exists w', knote_delete ops (kq, Z.of_nat i) p w = Ret 0 w' /\ same_shape w w' /\
    holds kq (delete (Z.lnot (Z.of_nat i), x) reg) w' /\
    kw_kqs w' = set_table kq i (delete x (kf_knote f)) q f (kw_kqs w) /\ kw_kns w' = delete p (kw_kns w).
Proof.
  intros H U Hx. assert (tbl (kw_kqs w) kq i x = Some p) as Hp by (by rewrite (usable_tbl _ _ _ _ _ _ _ U)).
  destruct (holds_lookup _ _ _ _ _ _ H Hp) as (n & Hn & K & Hpos & _). injection K as Ekq Efl Eid Eref Edel.
  unfold knote_delete. rewrite (bind_step _ _ _ _ _ (get_kn_run w p n Hn)). unfold deleted in Edel. rewrite Edel.
  rewrite (bind_step _ _ _ _ _ (get_filt_run w _ f (usable_filt _ _ _ _ _ _ U))), Eid.
  rewrite bool_decide_eq_true_2 by done. rewrite (bind_step _ _ _ _ _ (put_filt_run _ _ _ _ _ _ _ U)).
  set (w1 := set_kqs _ w). assert (kw_kns w1 !! p = Some n) as Hn1 by done.
  rewrite (bind_step _ _ _ _ _ (upd_kn_run w1 p n mark_deleted Hn1)). set (w2 := set_kns _ w1).
  pose proof (usable_set_table w kq i q f o (delete x (kf_knote f)) U) as U1. fold w1 in U1.
  assert (usable w2 kq i _ _ o) as U2 by exact (usable_same w1 w2 _ _ _ _ _ eq_refl U1).
  assert (kw_kns w2 !! p = Some (mark_deleted n)) as Hn2 by (unfold w2; simpl; by rewrite lookup_insert_eq).
  destruct (with_ops_run w2 (kq, Z.of_nat i) p _ o (fun o => op_delete o (kq, Z.of_nat i) p) (usable_filt _ _ _ _ _ _ U2))
    as (rv & w3 & E3 & T3).
  { change (is_Some (kw_kqs w2 !! kf_kqueue f)). rewrite (usable_kq _ _ _ _ _ _ _ H U), (us_q _ _ _ _ _ _ U2). by eexists. }
  { apply U2. } { done. } { destruct (ops_laws _ _ (us_o _ _ _ _ _ _ U2)). done. }
  rewrite (bind_step _ _ _ _ _ E3). destruct (touches_kn _ _ _ T3 _ Hn2) as (n3 & En3 & K3 & _).
  injection K3 as _ _ _ R3 D3.
  assert (deleted n3 = true) as Hd3 by (rewrite D3; unfold deleted, mark_deleted; simpl; by apply has_lor_self).
  erewrite (bind_step (knote_release ops p)); cycle 1.
  { apply (release_deleted w3 p n3); [by rewrite En3, lookup_insert_eq|by rewrite R3|done]. }
  eexists. split; [done|]. assert (kw_kns (set_kns (delete p) w3) = delete p (kw_kns w)) as Ekns.
  { simpl. rewrite En3. unfold w2. simpl. by rewrite delete_insert_eq, delete_insert_eq. }
  split; [exact (same_shape_trans w w1 w3 (same_shape_set_table w kq i _ q f (us_q _ _ _ _ _ _ U) (us_f _ _ _ _ _ _ U))
                   (same_shape_touches _ _ _ T3))|].
  destruct H as [T He V L]. destruct T3 as [_ Ek3 Eb3 He3 _]. split; [|split; [exact Ek3|exact Ekns]].
  split; rewrite ?Ekns; simpl; rewrite ?Ek3, ?Eb3; simpl.
  - eapply tables_remove; [done|apply U|apply U|done].
  - auto.
  - eapply views_remove; [done|done|apply U|apply U|done].
  - unfold set_table. rewrite lookup_insert_eq. by eexists.
Qed.

Lemma tables_fresh kqs kns brk : tables_ok kqs kns brk -> kns !! brk = None.
Proof. intros T. destruct (kns !! brk) as [n|] eqn:E; [|done]. destruct (tables_fwd _ _ _ T _ _ E). lia. Qed.

Lemma tables_brk_mono kqs kns brk b : tables_ok kqs kns brk -> brk <= b -> tables_ok kqs kns b.
Proof.
  intros [F B W Hb] Hle. split; [done|done| |lia]. intros p n Hn. destruct (W p n Hn) as [? ?]. split; [lia|done].
Qed.

Lemma views_add kqs kns brk kq reg i q f n :
  tables_ok kqs kns brk -> views kqs kns kq reg -> kqs !! kq = Some q -> kq_filt q !! i = Some f ->
  views (set_table kq i (<[ke_ident (kn_kev n):=brk]> (kf_knote f)) q f kqs) (<[brk:=n]> kns) kq
    (<[(Z.lnot (Z.of_nat i), ke_ident (kn_kev n)):=kn_entry n]> reg).
Proof.
  intros T V Hq Hf j y. rewrite tbl_set_table by done. set (x := ke_ident (kn_kev n)).
  destruct (decide ((j, y) = (i, x))) as [E|Hne].
  - injection E as -> ->. rewrite lookup_insert_eq, decide_True, lookup_insert_eq by done. simpl. by rewrite lookup_insert_eq.
  - rewrite lookup_insert_ne by (intros [= E1 E2]; unfold Z.lnot in E1; apply Hne; f_equal; lia). rewrite (V j y).
    assert ((if decide (kq = kq /\ j = i) then <[x:=brk]> (kf_knote f) !! y else tbl kqs kq j y) = tbl kqs kq j y) as ->.
    { case_decide as Hd; [destruct Hd as [_ ->]|done]. unfold tbl. rewrite Hq. simpl. rewrite Hf. simpl.
      rewrite lookup_insert_ne; congruence. }
    destruct (tbl kqs kq j y) as [p'|] eqn:E; [|done]. simpl. rewrite lookup_insert_ne; [done|]. intros <-.
    destruct (tables_back _ _ _ T _ _ _ _ E) as (m & Hm & _). by rewrite (tables_fresh _ _ _ T) in Hm.
Qed.

(** The only reference of a knote that is in no table: the filter is told, then it is freed. *)
Lemma release_created w kq i q f o p n :
  usable w kq i q f o -> kf_kqueue f = kq -> kw_kns w !! p = Some n -> 0 <= kw_errno w ->
  kn_key n = (kq, Z.lnot (Z.of_nat i), ke_ident (kn_kev n), 1, false) ->
  exists w', knote_release ops p w = Ret tt w' /\ kw_kns w' = delete p (kw_kns w) /\ kw_kqs w' = kw_kqs w /\
    kw_map w' = kw_map w /\ kw_brk w' = kw_brk w.
Proof.
  intros U Hf Hn He K. injection K as Ekq Efl Eref Edel. unfold deleted in Edel.
  unfold knote_release. rewrite (bind_step _ _ _ _ _ (get_kn_run w p n Hn)), Eref, Edel. simpl.
  unfold kassert. simpl. rewrite ret_bind, (bind_step _ _ _ _ _ (upd_kn_run w p n _ Hn)).
  set (w1 := set_kns _ w). assert (kw_kns w1 !! p = Some (set_kn_ref (u32 0) n)) as Hn1 by (unfold w1; simpl; by rewrite lookup_insert_eq).
  rewrite (bind_step _ _ _ _ _ (upd_kn_run w1 p _ mark_deleted Hn1)). set (w2 := set_kns _ w1).
  assert (knote_get_filter n = (kq, Z.of_nat i)) as -> by (unfold knote_get_filter; by rewrite Ekq, Efl, Z.lnot_involutive).
  assert (usable w2 kq i q f o) as U2 by exact (usable_same w w2 _ _ _ _ _ eq_refl U).
  assert (kw_kns w2 !! p = Some (mark_deleted (set_kn_ref (u32 0) n))) as Hn2 by (unfold w2; simpl; by rewrite lookup_insert_eq).
  destruct (with_ops_run w2 (kq, Z.of_nat i) p f o (fun o => op_delete o (kq, Z.of_nat i) p) (usable_filt _ _ _ _ _ _ U2))
    as (rv & w3 & E3 & T3).
  { rewrite Hf, (us_q _ _ _ _ _ _ U2). by eexists. }
  { apply U2. } { done. } { destruct (ops_laws _ _ (us_o _ _ _ _ _ _ U2)). done. }
  rewrite (bind_step _ _ _ _ _ E3). destruct (touches_kn _ _ _ T3 _ Hn2) as (n3 & En3 & _).
  unfold free_kn. erewrite (bind_step (get_kn p)) by (apply get_kn_run; by rewrite En3, lookup_insert_eq).
  eexists. split; [done|]. destruct T3 as [Em3 Ek3 Eb3 _ _]. simpl. rewrite Em3, Ek3, Eb3, En3. unfold w2, w1. simpl.
  by rewrite !delete_insert_eq.
Qed.

(** The knote that filter_knote_create hands to the filter. *)
Definition new_knote (kq : Z) (src : kevent) : knote :=
  Knote (set_ke_flags (Z.lor (Z.land (ke_flags src) (Z.lnot EV_ENABLE)) EV_ADD) src) 0 0 0 0 kq 1 0 0.

Lemma new_knote_key kq src i :
  Z.lnot (ke_filter src) = Z.of_nat i -> kn_key (new_knote kq src) = (kq, Z.lnot (Z.of_nat i), ke_ident src, 1, false).
Proof. intros E. unfold kn_key. simpl. by rewrite <- E, Z.lnot_involutive. Qed.
Lemma new_knote_entry kq src : kn_entry (new_knote kq src) = (ke_udata src, has (ke_flags src) EV_DISABLE).
Proof. unfold kn_entry, disabled. simpl. by rewrite has_lor_other, has_clear_other. Qed.

Lemma after_sys_touches p c w : touches p w (after_sys sysos c w).
Proof.
  pose proof (os_errno (sysos:=sysos) (kw_log w) c). unfold after_sys. destruct (_ <? 0); by apply touches_outside.
Qed.
Lemma after_sys_kns c w : kw_kns (after_sys sysos c w) = kw_kns w.
Proof. unfold after_sys. by destruct (_ <? 0). Qed.

(** Up to the call of kn_create: a new knote, not in the table. *)
Lemma knote_create_starts kq w i q f o src :
  tables_ok (kw_kqs w) (kw_kns w) (kw_brk w) -> usable w kq i q f o -> kf_kqueue f = kq ->
  let p := kw_brk w in
  (exists w', filter_knote_create sysos ops (kq, Z.of_nat i) src w = Ret (-1, 0) w' /\ touches p w w' /\
     kw_kns w' = kw_kns w /\ kw_errno w' = ENOENT) \/
  (exists w2 rv w3, filter_knote_create sysos ops (kq, Z.of_nat i) src w =
     (if rv <? 0 then knote_release ops p;; modify (set_errno EFAULT);; mret (-1, 0)
      else knote_insert (kq, Z.of_nat i) p;; mret (0, p)) w3 /\
     kw_kqs w2 = kw_kqs w /\ kw_map w2 = kw_map w /\ kw_brk w2 = p + 16 /\ (0 <= kw_errno w -> 0 <= kw_errno w2) /\
     kw_kns w2 = <[p:=new_knote kq src]> (kw_kns w) /\ touches p w2 w3).
Proof.
  intros T U Hf p. unfold filter_knote_create, knote_new. rewrite bind_assoc, sys_bind.
  destruct (r_ret _ <? 0).
  { left. rewrite ret_bind. simpl. rewrite modify_bind. eexists. split; [done|]. split; [|by simpl; rewrite after_sys_kns].
    eapply touches_trans; [apply after_sys_touches|by apply touches_outside]. }
  right. rewrite bind_assoc, gets_bind, bind_assoc, modify_bind, bind_assoc, modify_bind, ret_bind.
  destruct (after_sys_touches p SysCalloc w) as [Em Ek Eb He _]. rewrite Eb. fold p.
  pose proof (tables_brk _ _ _ T) as Hb. fold p in Hb. rewrite (proj2 (Z.eqb_neq p 0)) by lia.
  set (w1 := set_kns _ _). assert (usable w1 kq i q f o) as U1 by (by apply (usable_same w)).
  rewrite (bind_step _ _ _ _ _ (get_filt_run w1 _ f (usable_filt _ _ _ _ _ _ U1))), Hf.
  erewrite (bind_step (upd_kn p _)) by (apply upd_kn_run; unfold w1; simpl; by rewrite lookup_insert_eq).
  set (w2 := set_kns _ w1). assert (usable w2 kq i q f o) as U2 by (by apply (usable_same w)).
  assert (kw_kns w2 = <[p:=new_knote kq src]> (kw_kns w)) as Ekns.
  { unfold w2, w1. simpl. by rewrite insert_insert_eq, after_sys_kns. }
  destruct (with_ops_run w2 (kq, Z.of_nat i) p f o (fun o => op_create o (kq, Z.of_nat i) p) (usable_filt _ _ _ _ _ _ U2))
    as (rv & w3 & E3 & T3).
  { rewrite Hf, (us_q _ _ _ _ _ _ U2). by eexists. }
  { apply U2. } { rewrite Ekns, lookup_insert_eq. by eexists. } { destruct (ops_laws _ _ (us_o _ _ _ _ _ _ U2)). done. }
  exists w2, rv, w3. by rewrite (bind_step _ _ _ _ _ E3).
Qed.

Lemma knote_create_run kq reg w i q f o src :
  holds kq reg w -> usable w kq i q f o -> Z.lnot (ke_filter src) = Z.of_nat i -> kf_knote f !! ke_ident src = None ->
  exists rv p w', filter_knote_create sysos ops (kq, Z.of_nat i) src w = Ret (rv, p) w' /\ same_shape w w' /\
    ((rv = -1 /\ holds kq reg w' /\ (kw_errno w' = ENOENT \/ kw_errno w' = EFAULT)) \/
     (rv = 0 /\ holds kq (<[key_of src:=(ke_udata src, has (ke_flags src) EV_DISABLE)]> reg) w' /\
      exists q' f', usable w' kq i q' f' o /\ kf_knote f' !! ke_ident src = Some p)).
Proof.
  intros H U Hi Hx. pose proof (usable_kq _ _ _ _ _ _ _ H U) as Hf. pose proof (holds_tables _ _ _ H) as T.
  destruct (knote_create_starts kq w i q f o src T U Hf) as
    [(w' & E & T' & Ekns & Ee)|(w2 & rv & w3 & E & Ek & Em & Eb & He & Ekns & T3)].
  { exists (-1), 0, w'. split; [done|]. split; [by eapply same_shape_touches|]. left. split; [done|].
    split; [|by left]. destruct T' as [_ Ek' Eb' He' _]. split; rewrite ?Ek', ?Eb', ?Ekns; [apply H|apply He', H|apply H|apply H]. }
  assert (kw_kns w2 !! kw_brk w = Some (new_knote kq src)) as Hn2 by (by rewrite Ekns, lookup_insert_eq).
  destruct (touches_kn _ _ _ T3 _ Hn2) as (n3 & En3 & K3 & F3). rewrite Ekns, insert_insert_eq in En3.
  destruct T3 as [Em3 Ek3 Eb3 He3 _]. rewrite Ek in Ek3. rewrite Em in Em3. rewrite Eb in Eb3.
  rewrite (new_knote_key kq src i Hi) in K3. rewrite new_knote_entry in F3.
  assert (ke_ident (kn_kev n3) = ke_ident src) as Eid by (by injection K3).
  assert (kw_kns w3 !! kw_brk w = Some n3) as Hn3 by (by rewrite En3, lookup_insert_eq).
  assert (usable w3 kq i q f o) as U3 by (by apply (usable_same w)).
  rewrite E. destruct (rv <? 0).
  - destruct (release_created w3 kq i q f o (kw_brk w) n3 U3 Hf Hn3) as (w4 & E4 & Ekns4 & Ek4 & Em4 & Eb4).
    { apply He3, He, H. } { by rewrite Eid. }
    rewrite (bind_step _ _ _ _ _ E4), modify_bind. eexists _, _, _. split; [done|].
    assert (kw_kns w4 = kw_kns w) as Ekns'.
    { by rewrite Ekns4, En3, delete_insert_id by (apply (tables_fresh _ _ _ T)). }
    split; [split; simpl; congruence|]. left. split; [done|]. split; [|by right].
    split; simpl; rewrite ?Ek4, ?Ek3, ?Ekns', ?Eb4, ?Eb3; [|done|apply H|apply H].
    eapply tables_brk_mono; [apply H|lia].
  - unfold knote_insert. rewrite bind_assoc, (bind_step _ _ _ _ _ (get_kn_run w3 _ n3 Hn3)), bind_assoc.
    rewrite (bind_step _ _ _ _ _ (get_filt_run w3 _ f (usable_filt _ _ _ _ _ _ U3))), Eid, Hx.
    rewrite (bind_step _ _ _ _ _ (put_filt_run _ _ _ _ _ _ _ U3)).
    eexists _, _, _. split; [done|]. destruct (same_shape_set_table w3 kq i (<[ke_ident src:=kw_brk w]> (kf_knote f)) q f
      (us_q _ _ _ _ _ _ U3) (us_f _ _ _ _ _ _ U3)) as [Sm Sk].
    split; [split; [congruence|by rewrite Sk, Ek3]|]. right. split; [done|]. split.
    + split; simpl; rewrite ?Ek3, ?En3, ?Eb3.
      * rewrite <- Eid. apply tables_add; [done|apply U|apply U|by rewrite Eid|by rewrite Eid].
      * apply He3, He, H.
      * rewrite <- F3. unfold key_of. replace (ke_filter src) with (Z.lnot (Z.of_nat i)) by (rewrite <- Hi; apply Z.lnot_involutive).
        rewrite <- Eid. eapply views_add; [apply T|apply H|apply U|apply U].
      * unfold set_table. rewrite lookup_insert_eq. by eexists.
    + eexists _, _. split; [by apply usable_set_table|]. simpl. by rewrite lookup_insert_eq.
Qed.

(** filter_lookup on a sound state. *)
Lemma filter_lookup_run kq reg w id :
  holds kq reg w ->
  (~ (0 <= Z.lnot id < EVFILT_SYSCOUNT) /\ filter_lookup ops kq id w = Ret None (set_errno EINVAL w)) \/
  (0 <= Z.lnot id < EVFILT_SYSCOUNT /\ ~ implemented ops (kw_kqs w) kq id /\
     filter_lookup ops kq id w = Ret None (set_errno ENOSYS w)) \/
  (implemented ops (kw_kqs w) kq id /\ exists i q f o, Z.lnot id = Z.of_nat i /\ usable w kq i q f o /\
     filter_lookup ops kq id w = Ret (Some (kq, Z.of_nat i)) w).
Proof.
  intros [T _ _ [q Hq]]. unfold filter_lookup. rewrite Z.geb_leb.
  destruct (Z.ltb_spec (Z.lnot id) 0); simpl; [left; split; [lia|done]|].
  destruct (Z.leb_spec EVFILT_SYSCOUNT (Z.lnot id)); simpl; [left; split; [lia|done]|]. right.
  destruct (tables_filters _ _ _ T kq q Hq) as [Hlen _].
  destruct (lookup_lt_is_Some_2 (kq_filt q) (Z.to_nat (Z.lnot id))) as [f Hf];
    [rewrite Hlen; unfold EVFILT_SYSCOUNT in *; lia|].
  assert (filt_at (kw_kqs w) (kq, Z.lnot id) = Some f) as Hat.
  { unfold filt_at. simpl. rewrite (proj2 (Z.ltb_ge _ _)) by lia. rewrite Hq. by simpl. }
  rewrite (bind_step _ _ _ _ _ (get_filt_run w _ f Hat)). unfold implemented. rewrite Hat. simpl.
  destruct (ops (kf_impl f)) as [o|] eqn:Ho; [right|left].
  - split; [done|]. exists (Z.to_nat (Z.lnot id)), q, f, o. rewrite Z2Nat.id by lia. done.
  - split; [lia|]. split; [by intros [? ?]|done].
Qed.

Lemma holds_set_errno kq reg w e : 0 <= e -> holds kq reg w -> holds kq reg (set_errno e w).
Proof. intros He []. by split. Qed.

Lemma kn_entry_disable n : kn_entry (KNOTE_DISABLE n) = (ke_udata (kn_kev n), true).
Proof. unfold kn_entry, disabled, KNOTE_DISABLE. simpl. by rewrite has_lor_self. Qed.
Lemma kn_entry_enable n : kn_entry (KNOTE_ENABLE n) = (ke_udata (kn_kev n), false).
Proof.
  unfold kn_entry, disabled, KNOTE_ENABLE, has. simpl. do 2 f_equal. rewrite <- Z.land_assoc.
  replace (Z.land (Z.lnot EV_DISABLE) EV_DISABLE) with 0 by done. by rewrite Z.land_0_r.
Qed.

(** What becomes of a change. *)
Definition copied_in (kq : Z) (reg : registry) (w : kworld) (src : kevent) (m : KM Z) : Prop :=
  exists rv w' reg', m w = Ret rv w' /\ same_shape w w' /\ holds kq reg' w' /\
    change_spec (implemented ops (kw_kqs w) kq) reg src (status rv w') reg'.

Lemma copied_in_error kq reg w src e :
  holds kq reg w -> 0 <= e -> change_spec (implemented ops (kw_kqs w) kq) reg src (Some e) reg ->
  copied_in kq reg w src (modify (set_errno e);; mret (-1)).
Proof. intros H He C. exists (-1), (set_errno e w), reg. split; [done|]. split; [done|]. split; [by apply holds_set_errno|done]. Qed.

(** A change of an event that is not registered. *)
Lemma copyin_absent kq reg w i q f o src :
  holds kq reg w -> usable w kq i q f o -> Z.lnot (ke_filter src) = Z.of_nat i -> kf_knote f !! ke_ident src = None ->
  implemented ops (kw_kqs w) kq (ke_filter src) -> reg !! key_of src = None ->
  copied_in kq reg w src
    (if has (ke_flags src) EV_ADD then
       '(rv, kn) ← filter_knote_create sysos ops (kq, Z.of_nat i) src;
       if negb (rv =? 0) then mret rv
       else if has (ke_flags src) EV_DISABLE then
         upd_kn kn KNOTE_DISABLE;; with_ops ops (kq, Z.of_nat i) (fun o => op_disable o (kq, Z.of_nat i) kn)
       else mret 0
     else modify (set_errno ENOENT);; mret (-1)).
Proof.
  intros H U Hi Hx Himp Hr. destruct (has (ke_flags src) EV_ADD) eqn:Ea; [|by apply copied_in_error; [..|apply cs_absent]].
  destruct (knote_create_run kq reg w i q f o src H U Hi Hx) as (rv & p & w' & E & S & Hc). unfold copied_in.
  rewrite (bind_step _ _ _ _ _ E). destruct Hc as [(-> & H' & He)|(-> & H' & q' & f' & U' & Hp)]; simpl.
  { exists (-1), w', reg. split; [done|]. split; [done|]. split; [done|]. unfold status. simpl. by apply cs_refused. }
  destruct (has (ke_flags src) EV_DISABLE) eqn:Ed.
  - assert (tbl (kw_kqs w') kq i (ke_ident src) = Some p) as Ht by (by rewrite (usable_tbl _ _ _ _ _ _ _ U')).
    destruct (holds_lookup _ _ _ _ _ _ H' Ht) as (n & Hn & K & _ & Hreg).
    destruct (change_knote kq _ w' i q' f' o (ke_ident src) p n KNOTE_DISABLE (fun o => op_disable o (kq, Z.of_nat i) p)
                H' U' Ht Hn eq_refl) as (rv & w2 & E2 & S2 & H2).
    { destruct (ops_laws _ _ (us_o _ _ _ _ _ _ U')). done. }
    exists rv, w2, (<[key_of src:=(ke_udata src, has (ke_flags src) EV_DISABLE)]> reg).
    split; [done|]. split; [by eapply same_shape_trans|]. split; [|by apply cs_added; [..|rewrite Ed]].
    assert (key_of src = (Z.lnot (Z.of_nat i), ke_ident src)) as Ekey by (unfold key_of; by rewrite <- Hi, Z.lnot_involutive).
    rewrite Ekey, lookup_insert_eq in Hreg. injection Hreg as Hu Hdis. rewrite Ekey, insert_insert_eq in H2.
    rewrite Ekey, Ed. by rewrite kn_entry_disable, <- Hu in H2.
  - eexists 0, w', _. split; [done|]. split; [done|]. split; [done|]. rewrite <- Ed. by apply cs_added.
Qed.

(** A change of an event that is registered. *)
Lemma copyin_present kq reg w i q f o src p :
  holds kq reg w -> usable w kq i q f o -> Z.lnot (ke_filter src) = Z.of_nat i -> kf_knote f !! ke_ident src = Some p ->
  implemented ops (kw_kqs w) kq (ke_filter src) ->
  copied_in kq reg w src
    (if has (ke_flags src) EV_DELETE then knote_delete ops (kq, Z.of_nat i) p
     else if has (ke_flags src) EV_DISABLE then
       upd_kn p KNOTE_DISABLE;; with_ops ops (kq, Z.of_nat i) (fun o => op_disable o (kq, Z.of_nat i) p)
     else if has (ke_flags src) EV_ENABLE then
       upd_kn p KNOTE_ENABLE;; with_ops ops (kq, Z.of_nat i) (fun o => op_enable o (kq, Z.of_nat i) p)
     else if has (ke_flags src) EV_ADD || (ke_flags src =? 0) || has (ke_flags src) EV_RECEIPT then
       upd_kn p (fun n => set_kn_kev (set_ke_udata (ke_udata src) (kn_kev n)) n);;
       with_ops ops (kq, Z.of_nat i) (fun o => op_modify o (kq, Z.of_nat i) p src)
     else mret 0).
Proof.
  intros H U Hi Hx Himp.
  assert (tbl (kw_kqs w) kq i (ke_ident src) = Some p) as Ht by (by rewrite (usable_tbl _ _ _ _ _ _ _ U)).
  destruct (holds_lookup _ _ _ _ _ _ H Ht) as (n & Hn & K & _ & Hreg).
  assert (key_of src = (Z.lnot (Z.of_nat i), ke_ident src)) as Ekey by (unfold key_of; by rewrite <- Hi, Z.lnot_involutive).
  rewrite <- Ekey in Hreg. destruct (ops_laws _ _ (us_o _ _ _ _ _ _ U)) as [_ Lm _ Le Ld].
  assert (forall g (k : filter_ops -> KM Z), kn_key (g n) = kn_key n -> keeps (kq, Z.of_nat i) p (k o) ->
    exists rv w', (upd_kn p g;; with_ops ops (kq, Z.of_nat i) k) w = Ret rv w' /\ same_shape w w' /\
      holds kq (<[key_of src:=kn_entry (g n)]> reg) w') as Hch.
  { intros g k Hg Hk. rewrite Ekey. by eapply change_knote. }
  destruct (has (ke_flags src) EV_DELETE) eqn:E1.
  { destruct (knote_delete_run kq reg w i q f o (ke_ident src) p H U Hx) as (w' & E & S & H' & _).
    exists 0, w', (delete (key_of src) reg). rewrite Ekey. split; [done|]. split; [done|]. split; [done|].
    rewrite <- Ekey. by eapply cs_deleted. }
  destruct (has (ke_flags src) EV_DISABLE) eqn:E2.
  { destruct (Hch KNOTE_DISABLE (fun o => op_disable o (kq, Z.of_nat i) p) eq_refl (Ld _ _)) as (rv & w' & E & S & H').
    eexists rv, w', _. split; [done|]. split; [done|]. split; [done|]. rewrite kn_entry_disable. by eapply cs_disabled. }
  destruct (has (ke_flags src) EV_ENABLE) eqn:E3.
  { destruct (Hch KNOTE_ENABLE (fun o => op_enable o (kq, Z.of_nat i) p) eq_refl (Le _ _)) as (rv & w' & E & S & H').
    eexists rv, w', _. split; [done|]. split; [done|]. split; [done|]. rewrite kn_entry_enable. by eapply cs_enabled. }
  destruct (_ || _ || _) eqn:E4.
  - destruct (Hch (fun n => set_kn_kev (set_ke_udata (ke_udata src) (kn_kev n)) n)
      (fun o => op_modify o (kq, Z.of_nat i) p src) eq_refl (Lm _ _ _)) as (rv & w' & E & S & H').
    eexists rv, w', _. split; [done|]. split; [done|]. split; [done|].
    change (kn_entry _) with (ke_udata src, disabled n). by eapply cs_modified.
  - exists 0, w, reg. split; [done|]. split; [done|]. split; [done|]. by eapply cs_ignored.
Qed.

Lemma copyin_one_run kq reg w src : holds kq reg w -> copied_in kq reg w src (kevent_copyin_one sysos ops kq src).
Proof.
  intros H. unfold kevent_copyin_one. destruct (_ && _) eqn:Ef.
  { apply andb_true_iff in Ef as [? ?]. by apply copied_in_error; [..|apply cs_flags]. }
  destruct (filter_lookup_run kq reg w (ke_filter src) H) as
    [[Hb E]|[(Hb & Hn & E)|(Himp & i & q & f & o & Hi & U & E)]]; unfold copied_in.
  - rewrite (bind_step _ _ _ _ _ E). exists (-1), (set_errno EINVAL w), reg. split; [done|]. split; [done|].
    split; [by apply holds_set_errno|by apply cs_invalid].
  - rewrite (bind_step _ _ _ _ _ E). exists (-1), (set_errno ENOSYS w), reg. split; [done|]. split; [done|].
    split; [by apply holds_set_errno|by apply cs_unimplemented].
  - rewrite (bind_step _ _ _ _ _ E). unfold knote_lookup.
    rewrite bind_assoc, (bind_step _ _ _ _ _ (get_filt_run w _ f (usable_filt _ _ _ _ _ _ U))), ret_bind.
    destruct (kf_knote f !! ke_ident src) as [p|] eqn:Hx; simpl.
    + assert (tbl (kw_kqs w) kq i (ke_ident src) = Some p) as Ht by (by rewrite (usable_tbl _ _ _ _ _ _ _ U)).
      destruct (holds_lookup _ _ _ _ _ _ H Ht) as (n & _ & _ & Hp & _). rewrite (proj2 (Z.eqb_neq p 0)) by lia.
      by eapply copyin_present.
    + eapply copyin_absent; [done..|]. unfold key_of. rewrite <- (Z.lnot_involutive (ke_filter src)), Hi.
      rewrite (holds_view _ _ _ H i). by rewrite (usable_tbl _ _ _ _ _ _ _ U), Hx.
Qed.

(** ** Change lists *)

(** The event that reports the outcome of a change; a change that succeeds is reported on demand only. *)
Definition receipt (src : kevent) (st : option Z) : list kevent :=
  match st with
  | Some e => [set_ke_data e src]
  | None => if has (ke_flags src) EV_RECEIPT then [set_ke_data 0 src] else []
  end.

Inductive changes_spec (impl : Z -> Prop) : registry -> list kevent -> list kevent -> registry -> Prop :=
| ch_nil reg : changes_spec impl reg [] [] reg
| ch_cons reg src st reg1 l rs reg2 :
    change_spec impl reg src st reg1 -> changes_spec impl reg1 l rs reg2 ->
    changes_spec impl reg (src :: l) (receipt src st ++ rs) reg2.

Lemma change_spec_impl (impl impl' : Z -> Prop) reg src st reg' :
  (forall id, impl id <-> impl' id) -> change_spec impl reg src st reg' -> change_spec impl' reg src st reg'.
Proof.
  intros Hi. destruct 1; rewrite ?Hi in *; [by apply cs_flags|by apply cs_invalid|by apply cs_unimplemented|by apply cs_absent
    |by apply cs_refused|by apply cs_added|by eapply cs_deleted|by eapply cs_disabled|by eapply cs_enabled|by eapply cs_modified
    |by eapply cs_ignored].
Qed.
Lemma changes_spec_impl (impl impl' : Z -> Prop) reg l rs reg' :
  (forall id, impl id <-> impl' id) -> changes_spec impl reg l rs reg' -> changes_spec impl' reg l rs reg'.
Proof. intros Hi. induction 1; [constructor|]. eapply ch_cons; [by eapply change_spec_impl|done]. Qed.

(** How the receipts [rs] are in the client's array from position [k] on: all of them, or as many as there is room
    for. *)
Definition reported (k room : nat) (evl : list kevent) (rest rs : list kevent) (rv : Z) (evl' : list kevent) : Prop :=
  (rest = [] /\ rv = Z.of_nat (k + length rs) /\ (length rs <= room)%nat /\
     evl' = take k evl ++ rs ++ drop (k + length rs) evl) \/
  (rv = -1 /\ length rs = S room /\ evl' = take k evl ++ take room rs).

Lemma reported_cons k room evl rest rs rv evl' r :
  (k + S room = length evl)%nat -> reported (S k) room (<[k:=r]> evl) rest rs rv evl' ->
  reported k (S room) evl rest (r :: rs) rv evl'.
Proof.
  intros Hl. assert (take (S k) (<[k:=r]> evl) = take k evl ++ [r]) as Et.
  { rewrite (take_S_r _ k r) by (apply list_lookup_insert_eq; lia). by rewrite take_insert_ge by lia. }
  intros [(-> & -> & Hle & ->)|(-> & Hle & ->)]; [left|right]; rewrite Et, <- app_assoc; simpl.
  - rewrite drop_insert_lt by lia. split; [done|]. split; [lia|]. split; [lia|]. by rewrite Nat.add_succ_r.
  - split; [done|]. split; [lia|]. done.
Qed.

(** One change, then the others. *)
Lemma copyin_cons kq reg w src l evl room k :
  holds kq reg w ->
  exists st reg1 w1, same_shape w w1 /\ holds kq reg1 w1 /\
    change_spec (implemented ops (kw_kqs w) kq) reg src st reg1 /\
    kevent_copyin sysos ops kq (src :: l) evl room k w =
      match receipt src st with
      | [] => kevent_copyin sysos ops kq l evl room k w1
      | r :: _ => (if room >? 0 then evl ← store_event evl k r; kevent_copyin sysos ops kq l evl (room - 1) (k + 1)
                   else mret (-1, evl)) w1
      end.
Proof.
  intros H. destruct (copyin_one_run kq reg w src H) as (rv & w1 & reg1 & E & S & H1 & C).
  exists (status rv w1), reg1, w1. split; [done|]. split; [done|]. split; [done|]. simpl.
  rewrite (bind_step _ _ _ _ _ E), gets_bind. unfold status, receipt. destruct (rv <? 0); [done|].
  by destruct (has _ _).
Qed.

Lemma copyin_run kq reg w l evl room k :
  holds kq reg w -> (k + room = length evl)%nat ->
  exists rv evl' w' reg' before rest rs, l = before ++ rest /\
    kevent_copyin sysos ops kq l evl (Z.of_nat room) (Z.of_nat k) w = Ret (rv, evl') w' /\ same_shape w w' /\ holds kq reg' w' /\
    changes_spec (implemented ops (kw_kqs w) kq) reg before rs reg' /\ reported k room evl rest rs rv evl'.
Proof.
  revert reg w evl room k. induction l as [|src l IH]; intros reg w evl room k H Hl.
  { exists (Z.of_nat k), evl, w, reg, [], [], []. split; [done|]. split; [done|]. split; [done|]. split; [done|].
    split; [constructor|]. left. simpl. rewrite Nat.add_0_r, take_drop. split; [done|]. split; [done|]. split; [lia|done]. }
  destruct (copyin_cons kq reg w src l evl (Z.of_nat room) (Z.of_nat k) H) as (st & reg1 & w1 & S & H1 & C & ->).
  assert (forall id, implemented ops (kw_kqs w1) kq id <-> implemented ops (kw_kqs w) kq id) as Himp
    by (intros; by apply implemented_shape).
  destruct (receipt src st) as [|r rs0] eqn:Er.
  - destruct (IH reg1 w1 evl room k H1 Hl) as (rv & evl' & w' & reg' & before & rest & rs & -> & E & S' & H' & C' & R).
    exists rv, evl', w', reg', (src :: before), rest, rs. split; [done|]. split; [done|].
    split; [by eapply same_shape_trans|]. split; [done|]. split; [|done]. apply (changes_spec_impl _ _ _ _ _ _ Himp) in C'.
    pose proof (ch_cons _ _ _ _ _ _ _ _ C C') as C2. by rewrite Er in C2.
  - assert (rs0 = []) as -> by (unfold receipt in Er; destruct st; [by simplify_eq|]; destruct (has _ _); by simplify_eq).
    destruct room as [|room].
    + simpl. exists (-1), evl, w1, reg1, [src], l, [r]. split; [done|]. split; [done|]. split; [done|]. split; [done|].
      split; [rewrite <- (app_nil_r [r]), <- Er; by eapply ch_cons, ch_nil|]. right. simpl.
      split; [done|]. split; [done|]. by rewrite app_nil_r, take_ge by lia.
    + rewrite Z.gtb_ltb, (proj2 (Z.ltb_lt 0 _)) by lia. unfold store_event.
      rewrite (proj2 (Z.leb_le 0 (Z.of_nat k))), (proj2 (Z.ltb_lt (Z.of_nat k) _)) by lia. cbn [andb].
      rewrite ret_bind, Nat2Z.id. replace (Z.of_nat (Datatypes.S room) - 1) with (Z.of_nat room) by lia.
      replace (Z.of_nat k + 1) with (Z.of_nat (Datatypes.S k)) by lia.
      destruct (IH reg1 w1 (<[k:=r]> evl) room (Datatypes.S k) H1) as
        (rv & evl' & w' & reg' & before & rest & rs & -> & E & S' & H' & C' & R); [rewrite length_insert; lia|].
      exists rv, evl', w', reg', (src :: before), rest, (r :: rs). split; [done|]. split; [done|].
      split; [by eapply same_shape_trans|]. split; [done|]. apply (changes_spec_impl _ _ _ _ _ _ Himp) in C'.
      split; [pose proof (ch_cons _ _ _ _ _ _ _ _ C C') as C2; by rewrite Er in C2|]. by apply reported_cons.
Qed.
End changes.
