(* ===== verification/KqueueTree.v ===== *)
(** * The knotes of a filter as a red-black tree

    Kqueue keeps the knotes of a filter in a finite map; the code keeps them in the tree of tree.h.  Here the two meet: on a memory
    that holds a tree with the knotes of a filter, the tree operations that knote_lookup, knote_insert and knote_delete (knote.c) make
    give what these functions give on the map, and leave a tree with the knotes that the filter has then. *)

From S2P Require Import Prelude DispatchTime DispatchSource RbTree RbMap Kqueue KqueueLinux KqueueTable.
From stdpp Require Import base tactics list numbers gmap strings.
From Stdlib Require Import ZArith Lia.

Local Open Scope Z_scope.

Section tree.
Context (sysos : os) `{!OsOk sysos} (ops : filter_impl -> option filter_ops).
Context (ops_none : ops ImplNone = None) (ops_laws : forall i o, ops i = Some o -> FilterLaws o).
Context (kq : Z) (i : nat) (w : kworld) (q : kqueue_s) (f : kfilter) (o : filter_ops) (U : usable ops w kq i q f o).
Context (tw : rbworld) (fuel : nat) (T : is_tree tw (kf_knote f)) (Hfuel : (2 * Nat.log2 (S (size (kf_knote f))) < fuel)%nat).
Notation filt := (kq, Z.of_nat i).

(** A filter of [w'] whose knotes are the ones of the tree in [tw']. *)
Definition tree_of (w' : kworld) (tw' : rbworld) : Prop :=
  exists f', filt_at (kw_kqs w') filt = Some f' /\ is_tree tw' (kf_knote f').

Lemma tree_of_table w' tw' m :
  kw_kqs w' = set_table kq i m q f (kw_kqs w) -> is_tree tw' m -> tree_of w' tw'.
Proof.
  intros E Ht. exists (set_filt_knote m f). split; [|done]. unfold filt_at. simpl. rewrite (proj2 (Z.ltb_ge _ _)) by lia.
  rewrite E. unfold set_table. rewrite lookup_insert_eq, Nat2Z.id. simpl. apply list_lookup_insert_eq. by eapply lookup_lt_Some, U.
Qed.

(** knote_lookup finds in the map what RB_FIND finds in the tree. *)
Lemma knote_lookup_tree x :
  in_u64 x -> exists a, knote_lookup filt x w = Ret a w /\ exists tw', RB_FIND fuel x tw = Ret a tw' /\ tree_of w tw'.
Proof.
  intros Hx. exists (default 0 (kf_knote f !! x)). split.
  - unfold knote_lookup. by rewrite (bind_step _ _ _ _ _ (get_filt_run w _ f (usable_filt ops _ _ _ _ _ _ U))).
  - destruct (rb_exec_run fuel (OpFind x) tw _ T Hx Hfuel) as (tw' & E & T'). exists tw'. split; [exact E|]. exists f.
    split; [by eapply usable_filt|exact T'].
Qed.

(** knote_insert of a knote that is not in the table. *)
Lemma knote_insert_tree p n :
  kw_kns w !! p = Some n -> p <> 0 -> in_u64 (ke_ident (kn_kev n)) -> map_Forall (fun _ a => a <> p) (kf_knote f) ->
  exists w' tw' rv, knote_insert filt p w = Ret tt w' /\ rb_exec fuel (OpInsert p (ke_ident (kn_kev n))) tw = Ret rv tw' /\
    tree_of w' tw' /\ (rv = 0 <-> kf_knote f !! ke_ident (kn_kev n) = None).
Proof.
  intros Hn Hp Hx Hnew. set (x := ke_ident (kn_kev n)) in *.
  destruct (rb_exec_run fuel (OpInsert p x) tw _ T (conj Hx (conj Hp Hnew)) Hfuel) as (tw' & E & T'). cbn [map_op] in E, T'.
  unfold knote_insert. rewrite (bind_step _ _ _ _ _ (get_kn_run w p n Hn)).
  rewrite (bind_step _ _ _ _ _ (get_filt_run w _ f (usable_filt ops _ _ _ _ _ _ U))). fold x.
  destruct (kf_knote f !! x) as [a|] eqn:Ex.
  - exists w, tw', a. split_and!; [done|exact E|exists f; split; [by eapply usable_filt|exact T']|].
    split; [intros ->|done]. destruct T as (t & Ht & _ & Ho & Hm). exfalso.
    rewrite <- Hm in Ex. apply elem_of_list_to_map_2, (list_elem_of_fmap_2 snd) in Ex. destruct (RbHeap.rep_elem _ _ _ _ (RbHeap.hd_rep _ _ Ht) Ex) as [? Hn0]. simpl in Hn0. rewrite (RbHeap.hd_null _ _ Ht) in Hn0. done.
  - rewrite (put_filt_run ops _ _ _ _ _ _ _ U). eexists _, tw', 0. split_and!; [done|exact E| |done]. by eapply tree_of_table.
Qed.

(** knote_delete of a knote of the table. *)
Lemma knote_delete_tree reg x p :
  holds kq reg w -> kf_knote f !! x = Some p -> in_u64 x ->
  exists w' tw', knote_delete ops filt p w = Ret 0 w' /\ rb_exec fuel (OpDelete p x) tw = Ret p tw' /\ tree_of w' tw'.
Proof.
  intros H Hx Hu. destruct (knote_delete_run ops ops_none ops_laws kq reg w i q f o x p H U Hx) as (w' & E & _ & _ & Ek & _).
  assert (p <> 0) as Hp.
  { assert (tbl (kw_kqs w) kq i x = Some p) as Hp by by rewrite (usable_tbl ops _ _ _ _ _ _ _ U).
    destruct (holds_lookup _ _ _ _ _ _ H Hp) as (n & _ & _ & Hpos & _). lia. }
  destruct (rb_exec_run fuel (OpDelete p x) tw _ T (conj Hu Hp) Hfuel) as (tw' & E' & T'). cbn [map_op] in E', T'.
  rewrite bool_decide_eq_true_2 in E', T' by done. exists w', tw'. split_and!; [done|exact E'|]. by eapply tree_of_table.
Qed.
End tree.
