(* ===== verification/KqueueEvents.v ===== *)
(** * Events of the kqueue emulation

    The library as its client sees it: the map of descriptors, kqueue(), and kevent() with a change list. *)

From stdpp Require Import base tactics list numbers gmap strings.
From Stdlib Require Import ZArith Lia.
From S2P Require Import Prelude DispatchTime DispatchSource Kqueue KqueueLinux KqueueTable.

Local Open Scope Z_scope.

(** ** The descriptor map *)

Definition map_ok (m : fdmap) : Prop := m_len m = Z.of_nat (length (m_data m)) /\ m_len m <= INT_MAX.

Lemma in_bounds m idx : map_ok m -> out_of_bounds m idx = bool_decide (~ (0 <= idx <= m_len m)).
Proof.
  intros [Hl Hm]. unfold out_of_bounds. rewrite s32_id by (unfold INT_MAX in *; lia). rewrite Z.gtb_ltb.
  destruct (Z.ltb_spec idx 0), (Z.ltb_spec (m_len m) idx); simpl; symmetry;
    (apply bool_decide_eq_true_2; lia) || (apply bool_decide_eq_false_2; lia).
Qed.

Lemma map_at_run m idx w :
  map_ok m -> 0 <= idx < m_len m -> map_at m idx w = Ret (default 0 (m_data m !! Z.to_nat idx)) w.
Proof.
  intros [Hl _] Hi. unfold map_at. rewrite (proj2 (Z.leb_le 0 idx)), (proj2 (Z.ltb_lt idx _)) by lia. simpl.
  by destruct (lookup_lt_is_Some_2 (m_data m) (Z.to_nat idx)) as [p ->]; [lia|].
Qed.

(** The map after an entry was stored. *)
Definition map_put (m : fdmap) (idx p : Z) : fdmap := KMap (m_len m) (<[Z.to_nat idx:=p]> (m_data m)).

Lemma map_put_ok m idx p : map_ok m -> map_ok (map_put m idx p).
Proof. intros [? ?]. split; simpl; by rewrite ?length_insert. Qed.

Lemma map_put_at m idx p w : map_ok m -> 0 <= idx < m_len m -> map_at (map_put m idx p) idx w = Ret p w.
Proof.
  intros Hm Hi. rewrite map_at_run by (done || by apply map_put_ok). simpl. rewrite list_lookup_insert_eq; [done|].
  destruct Hm. lia.
Qed.

Lemma map_delete_run m idx w :
  map_ok m -> 0 <= idx < m_len m ->
  map_delete m idx w = Ret (default 0 (m_data m !! Z.to_nat idx)) (set_map (Some (map_put m idx 0)) w).
Proof.
  intros Hm Hi. unfold map_delete, map_cas. rewrite in_bounds, bool_decide_eq_false_2 by (done || lia).
  rewrite (bind_step _ _ _ _ _ (map_at_run m idx w Hm Hi)), bind_assoc, (bind_step _ _ _ _ _ (map_at_run m idx w Hm Hi)).
  rewrite Z.eqb_refl, bind_assoc, modify_bind, ret_bind. by rewrite Z.eqb_refl.
Qed.

Lemma map_insert_run m idx p w :
  map_ok m -> 0 <= idx < m_len m -> m_data m !! Z.to_nat idx = Some 0 ->
  map_insert m idx p w = Ret 0 (set_map (Some (map_put m idx p)) w).
Proof.
  intros Hm Hi H0. unfold map_insert, map_cas. rewrite in_bounds, bool_decide_eq_false_2 by (done || lia).
  rewrite bind_assoc, (bind_step _ _ _ _ _ (map_at_run m idx w Hm Hi)), H0. simpl. by rewrite bind_assoc, modify_bind, ret_bind.
Qed.

(** map_lookup returns the entry for every valid descriptor and NULL for a negative one or one beyond the end; for the
    descriptor equal to the length, which its test lets through, it reads past the array. *)
Theorem map_lookup_bounds m idx w :
  map_ok m ->
  map_lookup m idx w =
    if bool_decide (0 <= idx < m_len m) then Ret (default 0 (m_data m !! Z.to_nat idx)) w
    else if bool_decide (idx = m_len m) then Fault w else Ret 0 w.
Proof.
  intros Hm. unfold map_lookup. rewrite in_bounds by done. destruct (decide (0 <= idx < m_len m)) as [Hi|Hi].
  - rewrite bool_decide_eq_false_2, bool_decide_eq_true_2 by lia. by apply map_at_run.
  - rewrite (bool_decide_eq_false_2 (0 <= idx < m_len m)) by done. destruct (decide (idx = m_len m)) as [He|He].
    + destruct Hm as [Hl ?]. rewrite bool_decide_eq_false_2, bool_decide_eq_true_2 by lia. unfold map_at.
      by rewrite (proj2 (Z.ltb_ge idx _)), andb_false_r by lia.
    + by rewrite bool_decide_eq_true_2, bool_decide_eq_false_2 by lia.
Qed.

Lemma map_lookup_bounds_witness :
  map_ok (KMap 4 [0; 0; 96; 0]) /\
  map_lookup (KMap 4 [0; 0; 96; 0]) 4 (KWorld None ∅ ∅ [] 0 0 16 []) = Fault (KWorld None ∅ ∅ [] 0 0 16 []).
Proof. split; [done|]. rewrite map_lookup_bounds; done. Defined.

(** map_remove of an entry that is there removes it and reports failure; when it reports success there was nothing to
    remove. *)
Theorem map_remove_inverted m idx p w :
  map_ok m -> 0 <= idx < m_len m -> p <> 0 -> m_data m !! Z.to_nat idx = Some p ->
  map_remove m idx p w = Ret (-1) (set_map (Some (map_put m idx 0)) w).
Proof.
  intros Hm Hi Hp H0. unfold map_remove, map_cas. rewrite in_bounds, bool_decide_eq_false_2 by (done || lia).
  rewrite bind_assoc, (bind_step _ _ _ _ _ (map_at_run m idx w Hm Hi)), H0. simpl.
  rewrite Z.eqb_refl, bind_assoc, modify_bind, ret_bind. by rewrite (proj2 (Z.eqb_neq p 0)).
Qed.

Lemma map_remove_inverted_witness :
  map_remove (KMap 4 [0; 0; 96; 0]) 2 96 (KWorld None ∅ ∅ [] 0 0 16 []) =
  Ret (-1) (KWorld (Some (KMap 4 [0; 0; 0; 0])) ∅ ∅ [] 0 0 16 []).
Proof. rewrite (map_remove_inverted (KMap 4 [0; 0; 96; 0]) 2 96); done. Defined.

(** ** kqueue() *)

Section kqueue.
Context (sysos : os) `{!OsOk sysos} (tries : nat).
Notation filters := (linux_filters sysos tries).

Definition impl_id (i : filter_impl) : Z := match filters i with Some o => op_id o | None => 0 end.

(** Registering a filter is one store into kq_filt. *)
Lemma register_run kq q w id src :
  kw_kqs w !! kq = Some q -> 0 <= Z.lnot id < EVFILT_SYSCOUNT ->
  filter_register filters kq id src w =
    Ret 0 (set_kqs (insert kq (KQueue (kq_id q) (<[Z.to_nat (Z.lnot id):=KFilter (impl_id src) src ∅ kq]> (kq_filt q))
             (kq_nfds q))) w).
Proof.
  intros Hq Hid. unfold EVFILT_SYSCOUNT in Hid. unfold filter_register, filter_instantiate.
  replace (u32 (-1 * id - 1)) with (Z.lnot id) by (unfold Z.lnot in *; rewrite u32_id; lia).
  rewrite Z.geb_leb, (proj2 (Z.leb_gt _ _)) by (unfold EVFILT_SYSCOUNT; lia).
  unfold put_filt, upd_kq, get_kq, mbind, M_bind. simpl. rewrite Hq. unfold modify, impl_id. by destruct src.
Qed.

(** The filters of a new kqueue. *)
Definition linux_kq_filt (kq : Z) : list kfilter :=
  let filt id src := KFilter id src ∅ kq in
  [filt EVFILT_READ ImplRead; filt EVFILT_WRITE ImplWrite; zero_filter; filt EVFILT_VNODE ImplVnode; filt 0 ImplNone;
   filt EVFILT_SIGNAL ImplSignal; filt EVFILT_TIMER ImplTimer; zero_filter; zero_filter; zero_filter;
   filt EVFILT_USER ImplUser].

(** The world with the kqueue [kq] as given. *)
Definition with_kq (kq id : Z) (l : list kfilter) (nfds : Z) (w : kworld) : kworld :=
  set_kqs (insert kq (KQueue id l nfds)) w.

Lemma register_step kq id l nfds w filt src :
  0 <= Z.lnot filt < EVFILT_SYSCOUNT ->
  filter_register filters kq filt src (with_kq kq id l nfds w) =
    Ret 0 (with_kq kq id (<[Z.to_nat (Z.lnot filt):=KFilter (impl_id src) src ∅ kq]> l) nfds w).
Proof.
  intros Hf. rewrite (register_run kq (KQueue id l nfds)) by (done || apply lookup_insert_eq).
  unfold with_kq, set_kqs. simpl. by rewrite insert_insert_eq.
Qed.

Lemma upd_kq_run kq q g w : kw_kqs w !! kq = Some q -> upd_kq kq g w = Ret tt (set_kqs (insert kq (g q)) w).
Proof. intros Hq. unfold upd_kq, get_kq, mbind, M_bind. by rewrite Hq. Qed.

Lemma register_all_run kq id nfds w :
  filter_register_all filters kq (with_kq kq id (replicate (Z.to_nat EVFILT_SYSCOUNT) zero_filter) nfds w) =
    Ret 0 (with_kq kq id (linux_kq_filt kq) (nfds + 1) w).
Proof.
  unfold filter_register_all.
  do 7 (erewrite bind_step by (apply register_step; done)).
  rewrite (bind_step _ _ _ _ _ (upd_kq_run _ (KQueue _ _ _) _ _ (lookup_insert_eq _ _ _))). cbn [negb Z.eqb Z.add].
  unfold mret, M_ret, with_kq, set_kqs. simpl. by rewrite insert_insert_eq.
Qed.

(** A kqueue without events is added to a sound state. *)
Lemma tables_new_kq kqs kns brk id nfds :
  tables_ok kqs kns brk -> (forall k, brk <= k -> kqs !! k = None) ->
  tables_ok (<[brk:=KQueue id (linux_kq_filt brk) nfds]> kqs) kns (brk + 16) /\
  views (<[brk:=KQueue id (linux_kq_filt brk) nfds]> kqs) kns brk ∅.
Proof.
  intros T Hfree. assert (forall i x, tbl (<[brk:=KQueue id (linux_kq_filt brk) nfds]> kqs) brk i x = None) as Hnew.
  { intros i x. unfold tbl. rewrite lookup_insert_eq. simpl.
    do 11 (destruct i as [|i]; [simpl; by rewrite ?lookup_empty|]). done. }
  assert (forall k i x, k <> brk -> tbl (<[brk:=KQueue id (linux_kq_filt brk) nfds]> kqs) k i x = tbl kqs k i x) as Hold.
  { intros k i x Hk. unfold tbl. by rewrite lookup_insert_ne. }
  split; [|intros i x; by rewrite Hnew, lookup_empty].
  split; [| | |pose proof (tables_brk _ _ _ T); lia].
  - intros k q. rewrite lookup_insert_Some. intros [[<- <-]|[Hne Hq]]; [|by apply T]. split; [done|]. intros i f Hf. simpl in Hf.
    do 11 (destruct i as [|i]; [simpl in Hf; injection Hf as <-; by (left; reflexivity) || (right; reflexivity)|]). done.
  - intros k i x p. destruct (decide (k = brk)) as [->|Hk]; [by rewrite Hnew|]. rewrite Hold by done. by apply T.
  - intros p n Hn. destruct (tables_fwd _ _ _ T p n Hn) as (? & i & Hi). split; [lia|]. exists i. rewrite Hold; [done|].
    intros E. unfold tbl in Hi. by rewrite E, Hfree in Hi by lia.
Qed.

Lemma after_sys_ok c w : 0 <= r_ret (sysos (kw_log w) c) -> after_sys sysos c w = log_sys c w.
Proof. intros H. unfold after_sys. by rewrite (proj2 (Z.ltb_ge _ _) H). Qed.

(** The platform's part. *)
Lemma kqueue_init_run kq nfds fd w :
  0 <= fd -> r_ret (sysos (kw_log w) SysEpollCreate) = fd ->
  linux_kqueue_init sysos tries kq (with_kq kq 0 (replicate (Z.to_nat EVFILT_SYSCOUNT) zero_filter) nfds w) =
    Ret 0 (with_kq kq fd (linux_kq_filt kq) (nfds + 1) (log_sys SysEpollCreate w)).
Proof.
  intros Hfd Hr. unfold linux_kqueue_init. rewrite sys_bind. simpl kw_log. rewrite Hr.
  rewrite after_sys_ok by (simpl; lia).
  rewrite (bind_step _ _ _ _ _ (upd_kq_run _ (KQueue _ _ _) _ _ (lookup_insert_eq _ _ _))).
  rewrite (proj2 (Z.ltb_ge fd 0)) by lia. cbn [kq_filt kq_nfds].
  set (w1 := set_kqs _ _). assert (w1 = with_kq kq fd (replicate (Z.to_nat EVFILT_SYSCOUNT) zero_filter) nfds
    (log_sys SysEpollCreate w)) as ->.
  { unfold w1, with_kq, set_kqs. simpl. by rewrite insert_insert_eq. }
  by rewrite (bind_step _ _ _ _ _ (register_all_run _ _ _ _)).
Qed.

Lemma kqueue_run w m fd :
  kw_map w = Some m -> map_ok m -> 0 <= fd < m_len m ->
  (forall asked, 0 <= r_ret (sysos asked SysCalloc)) -> (forall asked, r_ret (sysos asked SysEpollCreate) = fd) ->
  exists log, linux_kqueue sysos tries w =
    Ret fd (KWorld (Some (map_put (map_put m fd 0) fd (kw_brk w)))
              (<[kw_brk w:=KQueue fd (linux_kq_filt (kw_brk w)) 1]> (kw_kqs w)) (kw_kns w) (kw_epevt w) (kw_sigflags w)
              (kw_errno w) (kw_brk w + 16) log).
Proof.
  intros Hm Hok Hfd Hc He. unfold linux_kqueue, kqueue. rewrite gets_bind, Hm, ret_bind, sys_bind.
  rewrite after_sys_ok by apply Hc. rewrite (proj2 (Z.ltb_ge _ _) (Hc _)), gets_bind, modify_bind, modify_bind. simpl.
  rewrite (bind_step _ _ _ _ _ (kqueue_init_run (kw_brk w) 0 fd (set_kbrk (kw_brk w + 16) (log_sys SysCalloc w)) (proj1 Hfd) (He _))).
  cbn [Z.ltb Z.compare]. erewrite bind_step by (unfold get_kq; simpl; by rewrite lookup_insert_eq).
  erewrite (bind_step kqmap) by (unfold kqmap; simpl; by rewrite Hm). cbn [kq_id].
  erewrite bind_step by (by apply map_delete_run).
  erewrite (bind_step kqmap) by (unfold kqmap; done).
  erewrite bind_step by (apply map_insert_run; [by apply map_put_ok|done|
    simpl; rewrite list_lookup_insert_eq; [done|destruct Hok; lia]]).
  by eexists.
Qed.

(** kqueue() returns a descriptor under which the library finds a new kqueue that has no events and the six filters of
    Linux, when memory and the descriptor are had; the events of other kqueues stay. *)
Theorem kqueue_ready w m fd :
  tables_ok (kw_kqs w) (kw_kns w) (kw_brk w) -> (forall k, kw_brk w <= k -> kw_kqs w !! k = None) -> 0 <= kw_errno w ->
  kw_map w = Some m -> map_ok m -> 0 <= fd < m_len m ->
  (forall asked, 0 <= r_ret (sysos asked SysCalloc)) -> (forall asked, r_ret (sysos asked SysEpollCreate) = fd) ->
  exists w', linux_kqueue sysos tries w = Ret fd w' /\ kqueue_lookup fd w' = Ret (kw_brk w) w' /\
    holds (kw_brk w) ∅ w' /\
    (forall id, implemented filters (kw_kqs w') (kw_brk w) id <->
       id ∈ [EVFILT_READ; EVFILT_WRITE; EVFILT_VNODE; EVFILT_SIGNAL; EVFILT_TIMER; EVFILT_USER]) /\
    (forall k reg, k <> kw_brk w -> holds k reg w -> holds k reg w').
Proof.
  intros T Hfree He Hm Hok Hfd Hc Hep. destruct (kqueue_run w m fd Hm Hok Hfd Hc Hep) as (log & E).
  destruct (tables_new_kq _ _ _ fd 1 T Hfree) as [T' V']. eexists. split; [exact E|].
  split; [|split; [split; simpl; [done|done|done|rewrite lookup_insert_eq; exact (mk_is_Some _ _ eq_refl)]|split]].
  - unfold kqueue_lookup, kqmap, mbind, M_bind. simpl. unfold map_lookup.
    rewrite in_bounds by (by repeat apply map_put_ok). rewrite bool_decide_eq_false_2 by (simpl; lia).
    apply map_put_at; [by apply map_put_ok|done].
  - intros id. unfold implemented, filt_at. cbn [fst snd]. simpl kw_kqs.
    destruct (Z.ltb_spec (Z.lnot id) 0) as [Hn|Hn].
    { split; [by intros []|]. unfold Z.lnot in Hn. set_unfold. unfold EVFILT_READ, EVFILT_WRITE, EVFILT_VNODE,
        EVFILT_SIGNAL, EVFILT_TIMER, EVFILT_USER. lia. }
    rewrite lookup_insert_eq. simpl.
    destruct (decide (Z.lnot id < 11)) as [Hlt|Hge].
    + assert (exists j : nat, (j < 11)%nat /\ id = Z.lnot (Z.of_nat j)) as (j & Hj & ->).
      { exists (Z.to_nat (Z.lnot id)). split; [lia|]. rewrite Z2Nat.id by lia. by rewrite Z.lnot_involutive. }
      rewrite Z.lnot_involutive, Nat2Z.id.
      do 11 (destruct j as [|j]; [simpl; split; [intros []; first [done|set_solver]|intros Hin; first [exact (mk_is_Some _ _ eq_refl)|exfalso; set_unfold; naive_solver]]|]).
      lia.
    + rewrite lookup_ge_None_2 by (simpl; lia). simpl. split; [by intros []|]. unfold Z.lnot in Hge. set_unfold.
      unfold EVFILT_READ, EVFILT_WRITE, EVFILT_VNODE, EVFILT_SIGNAL, EVFILT_TIMER, EVFILT_USER. lia.
  - intros k reg Hk [_ _ V L]. split; simpl; [done|done| |by rewrite lookup_insert_ne].
    intros i x. rewrite (V i x). unfold tbl. by rewrite lookup_insert_ne.
Qed.
End kqueue.

(** ** A system to run the library on *)

Definition reply_of (r : Z) : reply := Reply r 0 0 (Stat false true 1 0) (InotifyEvent 0 0) [].

(** Descriptors are numbered as they are asked for; files are sockets; reads return what they ask for. *)
Definition ex_os : os := fun asked c =>
  match c with
  | SysEpollCreate => reply_of 3
  | SysEventfd | SysTimerfdCreate | SysInotifyInit | SysSignalfd _ _ => reply_of (10 + Z.of_nat (length asked))
  | SysRead _ n => reply_of n
  | _ => reply_of 0
  end.

#[export] Instance ex_os_ok : OsOk ex_os.
Proof. split; intros; [by destruct c|by left]. Qed.

Definition ex_w0 : kworld := KWorld (Some (KMap 16 (replicate 16 0))) ∅ ∅ [] SFD_NONBLOCK 0 4096 [].

Definition world_of {A} (o : outcome kworld A) : kworld :=
  match o with Ret _ w | Crash _ w | Fault w => w | NoFuel => ex_w0 end.

Definition ex_w : kworld := world_of (linux_kqueue ex_os 1 ex_w0).

Lemma kqueue_ready_witness :
  exists w', linux_kqueue ex_os 1 ex_w0 = Ret 3 w' /\ kqueue_lookup 3 w' = Ret 4096 w' /\ holds 4096 ∅ w'.
Proof.
  destruct (kqueue_ready ex_os 1 ex_w0 (KMap 16 (replicate 16 0)) 3) as (w' & E & L & H & _);
    [split; [by intros ??|by intros ????|by intros ??|done]|done|done|done|done|done|done|done|exists w'; exact (conj E (conj L H))].
Defined.

Lemma ex_holds : holds 4096 ∅ ex_w.
Proof.
  destruct (tables_new_kq ∅ ∅ 4096 3 1) as [T V]; [split; [by intros ??|by intros ????|by intros ??|done]|done|].
  split; [exact T|done|exact V|by eexists].
Qed.

Section kqueue.
Context (sysos : os) `{!OsOk sysos} (tries : nat).
Notation filters := (linux_filters sysos tries).

(** C15: whatever the system replies, the changes that kevent() is given take effect one after the other as the specification
    says: which events are registered, with which data and whether disabled, the errno of each failure, and the
    receipts in the client's array, up to the one there is no room for.  No freed knote is used and no knote
    is lost. *)
Theorem kevent_changes_refine kq reg w l evl :
  holds kq reg w ->
  exists rv evl' w' reg' before rest rs, l = before ++ rest /\
    kevent_copyin sysos filters kq l evl (Z.of_nat (length evl)) 0 w = Ret (rv, evl') w' /\
    holds kq reg' w' /\ changes_spec (implemented filters (kw_kqs w) kq) reg before rs reg' /\
    ((rest = [] /\ rv = Z.of_nat (length rs) /\ evl' = rs ++ drop (length rs) evl) \/
     (rv = -1 /\ length rs = S (length evl) /\ evl' = take (length evl) rs)).
Proof.
  intros H. destruct (copyin_run sysos filters eq_refl (linux_laws sysos tries) kq reg w l evl (length evl) 0 H eq_refl)
    as (rv & evl' & w' & reg' & before & rest & rs & El & E & _ & H' & C & R).
  exists rv, evl', w', reg', before, rest, rs. split; [done|]. split; [done|]. split; [done|]. split; [done|].
  destruct R as [(-> & -> & _ & ->)|(-> & Hl & ->)]; [by left|by right].
Qed.

End kqueue.

(** An event that is added twice, modified, disabled and deleted. *)
Definition ex_changes : list kevent :=
  [Kevent 7 EVFILT_USER EV_ADD 0 0 100; Kevent 7 EVFILT_USER (Z.lor EV_ADD EV_RECEIPT) 0 0 200;
   Kevent 8 EVFILT_USER EV_DELETE 0 0 0; Kevent 7 EVFILT_USER EV_DELETE 0 0 0].

Lemma kevent_changes_refine_witness :
  holds 4096 ∅ ex_w /\
  exists rv evl' w' reg', kevent_copyin ex_os (linux_filters ex_os 1) 4096 ex_changes ex_changes 4 0 ex_w = Ret (rv, evl') w' /\
    holds 4096 reg' w'.
Proof.
  split; [exact ex_holds|].
  destruct (kevent_changes_refine ex_os 1 4096 ∅ ex_w ex_changes ex_changes ex_holds) as
    (rv & evl' & w' & reg' & before & rest & rs & _ & E & H' & _).
  exists rv, evl', w', reg'. exact (conj E H').
Defined.

Example ex_receipts :
  match kevent_copyin ex_os (linux_filters ex_os 1) 4096 ex_changes ex_changes 4 0 ex_w with
  | Ret (rv, evl) w => (rv, ke_data <$> take 2 evl, size (kw_kns w)) = (2, [0; ENOENT], 0%nat)
  | _ => False
  end.
Proof. vm_compute. reflexivity. Qed.
