(* ===== verification/KqueueDelivery.v ===== *)
(** * Waiting and delivery in the kqueue emulation

    Timeouts, the flags of EVFILT_USER, the delivery of ready events to the client, and two failures: of a timer and of
    a closed file. *)

From stdpp Require Import base tactics list numbers gmap strings.
From Stdlib Require Import ZArith Lia.
From S2P Require Import Prelude DispatchTime DispatchSource Kqueue KqueueLinux KqueueTable KqueueEvents.

Local Open Scope Z_scope.

(** ** Running through system calls *)

Section state.
Context (sysos : os).

Lemma after_kns c w : kw_kns (after_sys sysos c w) = kw_kns w.
Proof. unfold after_sys. by destruct (_ <? 0). Qed.
Lemma after_kqs c w : kw_kqs (after_sys sysos c w) = kw_kqs w.
Proof. unfold after_sys. by destruct (_ <? 0). Qed.
Lemma after_brk c w : kw_brk (after_sys sysos c w) = kw_brk w.
Proof. unfold after_sys. by destruct (_ <? 0). Qed.
Lemma after_log c w : kw_log (after_sys sysos c w) = kw_log w ++ [c].
Proof. unfold after_sys. by destruct (_ <? 0). Qed.

Lemma get_kn_bind {A} p n (f : knote -> KM A) w : kw_kns w !! p = Some n -> (get_kn p ≫= f) w = f n w.
Proof. intros Hn. by rewrite (bind_step _ _ _ _ _ (get_kn_run w p n Hn)). Qed.
Lemma upd_kn_bind {A} p n g (f : unit -> KM A) w :
  kw_kns w !! p = Some n -> (upd_kn p g ≫= f) w = f tt (set_kns (insert p (g n)) w).
Proof. intros Hn. by rewrite (bind_step _ _ _ _ _ (upd_kn_run w p n g Hn)). Qed.
Lemma epoll_ctl_bind {A} epfd op fd ev (f : Z -> KM A) w :
  (epoll_ctl sysos epfd op fd ev ≫= f) w =
  f (r_ret (sysos (kw_log w) (SysEpollCtl epfd op fd ev))) (after_sys sysos (SysEpollCtl epfd op fd ev) w).
Proof. unfold epoll_ctl. by rewrite bind_assoc, sys_bind, ret_bind. Qed.
Lemma close_bind {A} fd (f : Z -> KM A) w :
  (close sysos fd ≫= f) w = f (r_ret (sysos (kw_log w) (SysClose fd))) (after_sys sysos (SysClose fd) w).
Proof. unfold close. by rewrite bind_assoc, sys_bind, ret_bind. Qed.

Lemma kqueue_epfd_bind {A} kq q (f : Z -> KM A) w : kw_kqs w !! kq = Some q -> (kqueue_epfd kq ≫= f) w = f (kq_id q) w.
Proof. intros Hq. unfold kqueue_epfd, get_kq, mbind, M_bind. by rewrite Hq. Qed.

End state.

Create Rewrite HintDb kstate.
#[export] Hint Rewrite after_kns after_kqs after_brk after_log : kstate.

(** ** Timeouts *)

(** C20: a wait below a millisecond is given to ppoll(2) as it is; a longer one to epoll_wait(2), rounded down to the millisecond and
    so never late, as long as it fits an int.  From 2^31 up to 2^32 milliseconds (24.9 to 49.7 days) the conversion to int
    makes it negative, which waits for ever. *)
Theorem kevent_wait_timeout sysos kq q nevents ts w :
  kw_kqs w !! kq = Some q -> 0 <= tv_sec ts -> 0 <= tv_nsec ts < 1000000000 ->
  let ns := tv_sec ts * 1000000000 + tv_nsec ts in
  ns < 2 ^ 32 * 1000000 ->
  exists rv w' rest, linux_kevent_wait sysos kq nevents (Some ts) w = Ret rv w' /\
    ((0 < ns < 1000000 /\ kw_log w' = kw_log w ++ SysPpoll (kq_id q) ts :: rest) \/
     (exists ms, kw_log w' = kw_log w ++ [SysEpollWait (kq_id q) nevents ms] /\ ~ (0 < ns < 1000000) /\
        (ns < 2 ^ 31 * 1000000 -> ms * 1000000 <= ns < (ms + 1) * 1000000) /\
        (2 ^ 31 * 1000000 <= ns -> ms < 0))).
Proof.
  intros Hq Hs Hn ns Hb. unfold linux_kevent_wait, wants_hires.
  assert ((tv_sec ts =? 0) && (tv_nsec ts >? 0) && (tv_nsec ts <? 1000000) = bool_decide (0 < ns < 1000000)) as ->.
  { rewrite Z.gtb_ltb. destruct (Z.eqb_spec (tv_sec ts) 0), (Z.ltb_spec 0 (tv_nsec ts)), (Z.ltb_spec (tv_nsec ts) 1000000); simpl;
      symmetry; (apply bool_decide_eq_true_2; lia) || (apply bool_decide_eq_false_2; unfold ns; lia). }
  assert (forall w1 t, kw_kqs w1 = kw_kqs w -> exists rv w', epoll_wait sysos kq nevents t w1 = Ret rv w' /\
    kw_log w' = kw_log w1 ++ [SysEpollWait (kq_id q) nevents t]) as Hew.
  { intros w1 t E1. unfold epoll_wait. rewrite (kqueue_epfd_bind kq q) by (by rewrite E1).
    rewrite sys_bind, modify_bind. destruct (_ <? 0); (eexists _, _; split; [done|apply after_log]). }
  case_bool_decide as Hh.
  - unfold linux_kevent_wait_hires. rewrite bind_assoc, (kqueue_epfd_bind kq q), bind_assoc, sys_bind by done.
    set (w1 := after_sys _ _ _). destruct (r_ret _ <? 0); rewrite ret_bind.
    + exists (-1), w1, []. split; [done|]. left. split; [done|]. unfold w1. by rewrite after_log.
    + destruct (_ <=? 0); [eexists _, _, []; split; [done|]; left; split; [done|]; unfold w1; by rewrite after_log|].
      destruct (Hew w1 0) as (rv & w' & E & L); [apply after_kqs|]. eexists rv, w', _. split; [done|]. left. split; [done|].
      rewrite L. unfold w1. by rewrite after_log, <- app_assoc.
  - destruct (Hew w (epoll_timeout (Some ts)) eq_refl) as (rv & w' & E & L). exists rv, w', []. split; [done|]. right.
    eexists. split; [done|]. split; [done|]. unfold epoll_timeout.
    pose proof (Z.quot_div_nonneg (tv_nsec ts) 1000000 ltac:(lia) ltac:(lia)) as Eq. rewrite Eq.
    pose proof (Z.div_mod (tv_nsec ts) 1000000 ltac:(lia)). pose proof (Z.mod_pos_bound (tv_nsec ts) 1000000 ltac:(lia)).
    unfold ns in *. set (d := tv_nsec ts / 1000000) in *. rewrite !s64_id; [|lia|rewrite !s64_id; lia].
    split; intros Hlim; [rewrite s32_id by lia; lia|].
    unfold s32. rewrite <- (Z_mod_plus_full _ (-1)), Z.mod_small by lia. lia.
Qed.

(** The earliest timer is in 30 days: the manager would wait for ever. *)
Lemma kevent_wait_timeout_witness :
  exists ms, kw_log (world_of (linux_kevent_wait ex_os 4096 1 (Some (Timespec 2592000 0)) ex_w)) =
    kw_log ex_w ++ [SysEpollWait 3 1 ms] /\ ms < 0.
Proof.
  destruct (kevent_wait_timeout ex_os 4096 (default (KQueue 0 [] 0) (kw_kqs ex_w !! 4096)) 1 (Timespec 2592000 0) ex_w)
    as (rv & w' & rest & E & [[H _]|(ms & L & _ & _ & H)]); [by vm_compute|simpl; lia|simpl; lia|simpl; lia|simpl in H; lia|].
  exists ms. rewrite E. split; [exact L|]. apply H. simpl. lia.
Defined.

(** ** EVFILT_USER *)

Definition low24 (v : Z) : Prop := 0 <= v < 2 ^ 24.

(** A stored value: the client's 24 bits, and whether the event was triggered. *)
Definition user_stored (v t s : Z) : Prop := low24 v /\ (t = 0 \/ t = NOTE_TRIGGER) /\ s = Z.lor v t.

Lemma mask_low24 i : low24 (Z.land i NOTE_FFLAGSMASK).
Proof.
  unfold low24, NOTE_FFLAGSMASK. change 0x00ffffff with (Z.ones 24). rewrite Z.land_ones by done.
  apply Z.mod_pos_bound. lia.
Qed.

Lemma low24_trigger v : low24 v -> Z.land NOTE_TRIGGER v = 0.
Proof.
  intros [H1 H2]. rewrite <- (Z.mod_small v (2 ^ 24)), <- Z.land_ones by lia. rewrite (Z.land_comm v), Z.land_assoc. done.
Qed.

(** The client's bits evolve as if nothing else was stored beside them. *)
Lemma ffctrl_stored i v t s :
  user_stored v t s -> exists t', user_stored (ffctrl_apply i v) t' (ffctrl_apply i s).
Proof.
  intros (Hv & Ht & ->). unfold ffctrl_apply. set (c := Z.land i NOTE_FFCTRLMASK). pose proof (mask_low24 i) as Hm.
  set (f := Z.land i NOTE_FFLAGSMASK) in *.
  destruct (_ =? NOTE_FFNOP); [by exists t|].
  destruct (_ =? NOTE_FFAND).
  { exists 0. split; [by apply (land_range v f 24)|]. split; [by left|]. rewrite Z.land_lor_distr_l.
    assert (Z.land t f = 0) as -> by (destruct Ht as [->| ->]; [done|by apply low24_trigger]). done. }
  destruct (_ =? NOTE_FFOR).
  { exists t. split; [by apply (lor_range v f 24)|]. split; [done|].
    by rewrite <- Z.lor_assoc, (Z.lor_comm t f), Z.lor_assoc. }
  destruct (_ =? NOTE_FFCOPY); [exists 0; split; [done|]; split; [by left|by rewrite Z.lor_0_r]|by exists t].
Qed.

(** What event.h says of the input: the top two bits say how the low 24 bits are applied to the stored ones. *)
Definition user_flags_spec (input stored : Z) : Z :=
  let f := input mod 2 ^ 24 in
  match input / 2 ^ 30 with
  | 0 => stored
  | 1 => Z.land stored f
  | 2 => Z.lor stored f
  | _ => f
  end.

Lemma ffctrl_spec i v : in_u32 i -> ffctrl_apply i v = user_flags_spec i v.
Proof.
  intros Hi. unfold ffctrl_apply, user_flags_spec.
  assert (Z.land i NOTE_FFLAGSMASK = i mod 2 ^ 24) as -> by (change NOTE_FFLAGSMASK with (Z.ones 24); by apply Z.land_ones).
  assert (Z.land i NOTE_FFCTRLMASK = i / 2 ^ 30 * 2 ^ 30) as ->.
  { change NOTE_FFCTRLMASK with (Z.ldiff (Z.ones 32) (Z.ones 30)).
    assert (Z.land i (Z.ldiff (Z.ones 32) (Z.ones 30)) = Z.ldiff (Z.land i (Z.ones 32)) (Z.ones 30)) as ->.
    { apply Z.bits_inj'. intros k Hk. by rewrite Z.land_spec, !Z.ldiff_spec, Z.land_spec, andb_assoc. }
    rewrite Z.land_ones, Z.ldiff_ones_r, Z.shiftl_mul_pow2, Z.shiftr_div_pow2, Z.mod_small by lia. done. }
  pose proof (Z.div_pos i (2 ^ 30) ltac:(lia) ltac:(lia)). pose proof (Z.div_lt_upper_bound i (2 ^ 30) 4 ltac:(lia) ltac:(lia)).
  assert (i / 2 ^ 30 = 0 \/ i / 2 ^ 30 = 1 \/ i / 2 ^ 30 = 2 \/ i / 2 ^ 30 = 3) as [->|[->|[->| ->]]] by lia; done.
Qed.

(** What the client gets to see: no control bits, no trigger. *)
Lemma user_reported v t s : user_stored v t s -> Z.land (Z.land s (Z.lnot NOTE_FFCTRLMASK)) (Z.lnot NOTE_TRIGGER) = v.
Proof.
  intros ([H1 H2] & Ht & ->). rewrite <- Z.land_assoc. set (m := Z.land _ (Z.lnot NOTE_TRIGGER)).
  rewrite Z.land_lor_distr_l. assert (Z.land t m = 0) as -> by (by destruct Ht as [->| ->]). rewrite Z.lor_0_r.
  rewrite <- (Z.mod_small v (2 ^ 24)) at 1 by lia. rewrite <- Z.land_ones, <- Z.land_assoc by lia.
  replace (Z.land (Z.ones 24) m) with (Z.ones 24) by done. rewrite Z.land_ones by lia. by apply Z.mod_small.
Qed.

Section user.
Context (sysos : os) (eventfd_write_ok : forall asked fd, 0 <= r_ret (sysos asked (SysWrite fd))).
Context (eventfd_read_ok : forall asked fd, r_ret (sysos asked (SysRead fd 8)) = 8).

Lemma user_modify_run fp p n kev v t w :
  kw_kns w !! p = Some n -> disabled n = false -> user_stored v t (ke_fflags (kn_kev n)) ->
  exists w' n' t', linux_evfilt_user_knote_modify sysos fp p kev w = Ret 0 w' /\ kw_kns w' = <[p:=n']> (kw_kns w) /\
    user_stored (ffctrl_apply (ke_fflags kev) v) t' (ke_fflags (kn_kev n')) /\
    n' = set_kn_kev (set_ke_fflags (ke_fflags (kn_kev n')) (kn_kev n)) n.
Proof.
  intros Hn Hd Hs. unfold linux_evfilt_user_knote_modify, upd_kev. rewrite (upd_kn_bind p n) by done.
  destruct (ffctrl_stored (ke_fflags kev) v t _ Hs) as (t' & Hs'). simpl.
  erewrite get_kn_bind by (simpl; apply lookup_insert_eq). simpl. unfold disabled in Hd. rewrite Hd. simpl.
  destruct (has (ke_fflags kev) NOTE_TRIGGER).
  - erewrite upd_kn_bind by (simpl; apply lookup_insert_eq). unfold eventfd_raise. simpl.
    rewrite bind_assoc, sys_bind. simpl. rewrite (proj2 (Z.ltb_ge _ _) (eventfd_write_ok _ _)), ret_bind. simpl.
    eexists _, _, NOTE_TRIGGER. split; [done|]. rewrite after_kns. simpl. rewrite insert_insert_eq. split; [done|]. simpl.
    split; [|done]. destruct Hs' as (Hv & Ht & E). split; [done|]. split; [by right|]. rewrite E, <- Z.lor_assoc. f_equal.
    by destruct Ht as [->| ->].
  - eexists _, _, t'. split; [done|]. simpl. split; [done|]. by split.
Qed.

Fixpoint modify_all (fp : fptr) (p : Z) (l : list kevent) : KM Z :=
  match l with [] => mret 0 | k :: l => _ ← linux_evfilt_user_knote_modify sysos fp p k; modify_all fp p l end.

Lemma modify_all_run fp p l : forall n v t w,
  kw_kns w !! p = Some n -> disabled n = false -> user_stored v t (ke_fflags (kn_kev n)) ->
  exists w' n' t', modify_all fp p l w = Ret 0 w' /\ kw_kns w' !! p = Some n' /\
    user_stored (foldl (fun v k => ffctrl_apply (ke_fflags k) v) v l) t' (ke_fflags (kn_kev n')) /\
    n' = set_kn_kev (set_ke_fflags (ke_fflags (kn_kev n')) (kn_kev n)) n.
Proof.
  induction l as [|k l IH]; intros n v t w Hn Hd Hs; simpl.
  { exists w, n, t. split; [done|]. split; [done|]. split; [done|]. by destruct n as [[]]. }
  destruct (user_modify_run fp p n k v t w Hn Hd Hs) as (w1 & n1 & t1 & E & Ek & Hs1 & En1).
  rewrite (bind_step _ _ _ _ _ E). destruct (IH n1 (ffctrl_apply (ke_fflags k) v) t1 w1) as (w' & n' & t' & E' & Hn' & Hs' & En').
  { by rewrite Ek, lookup_insert_eq. } { by rewrite En1. } { done. }
  exists w', n', t'. split; [done|]. split; [done|]. split; [done|]. rewrite En', En1. done.
Qed.

(** An enabled EVFILT_USER event reports the flags that the modifications since EV_ADD leave in the low 24 bits, each
    applied as its top two bits say and whether or not it triggers, with the control bits and NOTE_TRIGGER
    cleared; nothing else of the event changes but EV_ADD, which is cleared. *)
Theorem user_event_flags fp p n l dst ev w :
  Forall (fun k => in_u32 (ke_fflags k)) l -> kw_kns w !! p = Some n -> disabled n = false -> low24 (ke_fflags (kn_kev n)) -> has (ke_flags (kn_kev n)) EV_ADD = true ->
  exists w', (modify_all fp p l;; linux_evfilt_user_copyout sysos dst p ev) w =
    Ret (0, set_ke_flags (Z.land (ke_flags (kn_kev n)) (Z.lnot EV_ADD))
              (set_ke_fflags (foldl (fun v k => user_flags_spec (ke_fflags k) v) (ke_fflags (kn_kev n)) l) (kn_kev n))) w'.
Proof.
  intros Hl Hn Hd Hv Ha.
  assert (foldl (fun v k => user_flags_spec (ke_fflags k) v) (ke_fflags (kn_kev n)) l =
          foldl (fun v k => ffctrl_apply (ke_fflags k) v) (ke_fflags (kn_kev n)) l) as ->.
  { generalize (ke_fflags (kn_kev n)). induction Hl as [|k l Hk _ IH]; intros v; simpl; [done|]. by rewrite ffctrl_spec. }
  destruct (modify_all_run fp p l n (ke_fflags (kn_kev n)) 0 w Hn Hd) as (w1 & n1 & t1 & E & Hn1 & Hs1 & En1).
  { split; [done|]. split; [by left|]. by rewrite Z.lor_0_r. }
  rewrite (bind_step _ _ _ _ _ E). apply user_reported in Hs1.
  unfold linux_evfilt_user_copyout. rewrite (get_kn_bind p n1) by done.
  assert (ke_flags (kn_kev n1) = ke_flags (kn_kev n)) as Ef by (by rewrite En1). rewrite Ef, Ha.
  set (res := set_ke_flags _ (set_ke_fflags (foldl _ _ _) _)). set (dst1 := set_ke_flags _ _).
  assert (dst1 = res) as ->.
  { unfold dst1, res, clear_fflags, set_ke_flags. simpl. rewrite Hs1, En1. done. }
  assert (forall b w2 n2, kw_kns w2 !! p = Some n2 -> exists w' n3, (if b : bool then upd_kev p (clear_fflags NOTE_TRIGGER) else mret tt) w2 = Ret tt w' /\
    kw_kns w' !! p = Some n3) as Hup.
  { intros b w2 n2 Hn2. destruct b; [|by eexists _, _]. eexists _, _. split; [by apply upd_kn_run|]. simpl. apply lookup_insert_eq. }
  destruct (Hup (has (ke_flags (kn_kev n)) EV_CLEAR) w1 n1 Hn1) as (w2 & n2 & E2 & Hn2). rewrite (bind_step _ _ _ _ _ E2).
  assert (exists w3, (if has (ke_flags (kn_kev n)) (Z.lor (Z.lor EV_DISPATCH EV_CLEAR) EV_ONESHOT)
                      then eventfd_lower sysos (kn_fd n1) else mret 0) w2 = Ret 0 w3 /\ kw_kns w3 = kw_kns w2) as (w3 & E3 & K3).
  { destruct (has (ke_flags (kn_kev n)) (Z.lor _ EV_ONESHOT)); [|by eexists]. exists (after_sys sysos (SysRead (kn_fd n1) 8) w2). split; [|apply after_kns].
    unfold eventfd_lower. by rewrite sys_bind, eventfd_read_ok. }
  rewrite (bind_step _ _ _ _ _ E3). simpl.
  destruct (Hup (has (ke_flags (kn_kev n)) EV_DISPATCH) w3 n2) as (w4 & n4 & E4 & _); [by rewrite K3|].
  rewrite (bind_step _ _ _ _ _ E4). by eexists.
Qed.
End user.

(** An event with the flags 0xf0, to which 0x0f is added with a trigger before 0x3c is kept. *)
Lemma user_event_flags_witness :
  exists w', let n := Knote (Kevent 7 EVFILT_USER 0x21 0xf0 0 99) 0 0 0 0 4096 1 0 10 in
    (modify_all ex_os (4096, 10) 5000 [Kevent 7 EVFILT_USER 0 0x8100000f 0 99; Kevent 7 EVFILT_USER 0 0x4000003c 0 99];;
     linux_evfilt_user_copyout ex_os (kn_kev n) 5000 (1, 5000)) (set_kns (insert 5000 n) ex_w) =
    Ret (0, Kevent 7 EVFILT_USER 0x20 0x3c 0 99) w'.
Proof.
  destruct (user_event_flags ex_os (fun asked fd => Z.le_refl 0) (fun asked fd => eq_refl) (4096, 10) 5000
    (Knote (Kevent 7 EVFILT_USER 0x21 0xf0 0 99) 0 0 0 0 4096 1 0 10)
    [Kevent 7 EVFILT_USER 0 0x8100000f 0 99; Kevent 7 EVFILT_USER 0 0x4000003c 0 99]
    (Kevent 7 EVFILT_USER 0x21 0xf0 0 99) (1, 5000)
    (set_kns (insert 5000 (Knote (Kevent 7 EVFILT_USER 0x21 0xf0 0 99) 0 0 0 0 4096 1 0 10)) ex_w)) as (w' & E);
    [by repeat constructor|reflexivity|reflexivity|split; simpl; lia|reflexivity|].
  exists w'. exact E.
Defined.

(** ** Two failures *)

Lemma filter_epfd_bind {A} fp f q (g : Z -> KM A) w :
  filt_at (kw_kqs w) fp = Some f -> kw_kqs w !! kf_kqueue f = Some q -> (filter_epfd fp ≫= g) w = g (kq_id q) w.
Proof.
  intros Hf Hq. unfold filter_epfd. rewrite bind_assoc, (bind_step _ _ _ _ _ (get_filt_run w fp f Hf)).
  by rewrite (kqueue_epfd_bind (kf_kqueue f) q).
Qed.

Section failures.
Context (sysos : os) (tries : nat).
Notation filters := (linux_filters sysos tries).

(** The timer filter of a kqueue, and the calls of a creation that fails when the timer is set. *)
Lemma timer_create_fails fp p n f q tfd w :
  filt_at (kw_kqs w) fp = Some f -> kw_kqs w !! kf_kqueue f = Some q -> kw_kns w !! p = Some n ->
  (forall asked, r_ret (sysos asked SysTimerfdCreate) = tfd) -> 0 <= tfd ->
  (forall asked i v, r_ret (sysos asked (SysTimerfdSettime tfd i v)) < 0) ->
  exists w' i v, evfilt_timer_knote_create sysos fp p w = Ret (-1) w' /\
    kw_kns w' = <[p:=set_kn_kev (or_flags EV_CLEAR (kn_kev n)) n]> (kw_kns w) /\ kw_kqs w' = kw_kqs w /\
    kw_log w' = kw_log w ++ [SysTimerfdCreate; SysTimerfdSettime tfd i v; SysClose tfd].
Proof.
  intros Hf Hq Hn Htfd Ht Hset. unfold evfilt_timer_knote_create, upd_kev. rewrite (upd_kn_bind p n) by done.
  erewrite get_kn_bind by (simpl; apply lookup_insert_eq). rewrite sys_bind. simpl. rewrite Htfd.
  rewrite (proj2 (Z.ltb_ge tfd 0)) by lia. rewrite sys_bind. rewrite (proj2 (Z.ltb_lt _ _) (Hset _ _ _)), close_bind.
  eexists _, _, _. split; [done|]. autorewrite with kstate. simpl. by rewrite <- !app_assoc.
Qed.

(** Deleting a timer whose descriptor was never set: its field is still 0. *)
Lemma timer_delete_unset fp p n f q w :
  filt_at (kw_kqs w) fp = Some f -> kw_kqs w !! kf_kqueue f = Some q -> kw_kns w !! p = Some n -> kn_data n = 0 ->
  exists rv w', evfilt_timer_knote_delete sysos fp p w = Ret rv w' /\ is_Some (kw_kns w' !! p) /\ kw_kqs w' = kw_kqs w /\
    kw_log w' = kw_log w ++ [SysEpollCtl (kq_id q) EPOLL_CTL_DEL 0 None; SysClose 0].
Proof.
  intros Hf Hq Hn Hd. unfold evfilt_timer_knote_delete. rewrite (get_kn_bind p n) by done. rewrite Hd. simpl.
  rewrite (filter_epfd_bind fp f q), epoll_ctl_bind, close_bind by done.
  erewrite upd_kn_bind by (autorewrite with kstate; exact Hn). eexists _, _. split; [done|]. simpl. autorewrite with kstate.
  split; [rewrite lookup_insert_eq; by eexists|]. split; [done|]. by rewrite <- app_assoc.
Qed.

Lemma with_ops_bind {A} fp f o (k : filter_ops -> KM Z) (g : Z -> KM A) w :
  filt_at (kw_kqs w) fp = Some f -> filters (kf_impl f) = Some o -> (with_ops filters fp k ≫= g) w = (k o ≫= g) w.
Proof.
  intros Hf Ho. unfold with_ops. rewrite bind_assoc, (bind_step _ _ _ _ _ (get_filt_run w fp f Hf)). by rewrite Ho.
Qed.

(** The release of a new knote that the timer filter refused. *)
Lemma timer_release_unset kq f q p n w :
  filt_at (kw_kqs w) (kq, 6) = Some f -> kf_impl f = ImplTimer -> kw_kqs w !! kf_kqueue f = Some q -> kw_kns w !! p = Some n ->
  kn_ref n = 1 -> deleted n = false -> knote_get_filter n = (kq, 6) -> kn_data n = 0 ->
  exists w', knote_release filters p w = Ret tt w' /\
    kw_log w' = kw_log w ++ [SysEpollCtl (kq_id q) EPOLL_CTL_DEL 0 None; SysClose 0].
Proof.
  intros Hat Hi Hq Hn Hr Hd Hg H0. unfold knote_release. rewrite (get_kn_bind p n), Hr by done. simpl.
  unfold kassert. rewrite ret_bind, (upd_kn_bind p n) by done. unfold deleted in Hd. rewrite Hd, Hg. simpl.
  erewrite upd_kn_bind by (simpl; apply lookup_insert_eq).
  rewrite (with_ops_bind _ f (evfilt_timer sysos)) by (done || by rewrite Hi). simpl.
  set (w1 := set_kns _ _). destruct (timer_delete_unset (kq, 6) p _ f q w1 Hat Hq (lookup_insert_eq _ _ _) H0)
    as (rv & w' & E & [n' Hn'] & _ & L).
  rewrite (bind_step _ _ _ _ _ E). unfold free_kn. rewrite (get_kn_bind p n') by done. eexists. split; [done|]. exact L.
Qed.

Lemma timer_refused kq q f tfd src w :
  filt_at (kw_kqs w) (kq, 6) = Some f -> kf_impl f = ImplTimer -> kf_kqueue f = kq -> kw_kqs w !! kq = Some q -> 0 < kw_brk w ->
  Z.lnot (ke_filter src) = 6 ->
  (forall asked, 0 <= r_ret (sysos asked SysCalloc)) -> (forall asked, r_ret (sysos asked SysTimerfdCreate) = tfd) -> 0 <= tfd ->
  (forall asked i v, r_ret (sysos asked (SysTimerfdSettime tfd i v)) < 0) ->
  exists w' i v, filter_knote_create sysos filters (kq, 6) src w = Ret (-1, 0) w' /\
    kw_log w' = kw_log w ++ [SysCalloc; SysTimerfdCreate; SysTimerfdSettime tfd i v; SysClose tfd;
                             SysEpollCtl (kq_id q) EPOLL_CTL_DEL 0 None; SysClose 0].
Proof.
  intros Hat Hi Hk Hq Hb Hs Hc Htfd Ht Hset. unfold filter_knote_create, knote_new.
  rewrite ?bind_assoc, sys_bind, (proj2 (Z.ltb_ge _ _) (Hc _)).
  rewrite ?bind_assoc, gets_bind, ?bind_assoc, modify_bind, ?bind_assoc, modify_bind, ret_bind. autorewrite with kstate.
  set (p := kw_brk w) in *. rewrite (proj2 (Z.eqb_neq p 0)) by lia. set (w1 := set_kns _ _).
  assert (kw_kqs w1 = kw_kqs w) as K1 by apply after_kqs. rewrite <- K1 in Hat, Hq.
  rewrite (bind_step _ _ _ _ _ (get_filt_run w1 _ f Hat)), Hk. erewrite upd_kn_bind by (unfold w1; simpl; apply lookup_insert_eq).
  set (w2 := set_kns _ w1). rewrite (with_ops_bind _ f (evfilt_timer sysos)) by (done || by rewrite Hi).
  rewrite <- Hk in Hq at 1.
  destruct (timer_create_fails (kq, 6) p _ f q tfd w2 Hat Hq (lookup_insert_eq _ _ _) Htfd Ht Hset)
    as (w3 & i & v & E3 & K3 & Q3 & L3).
  cbn [op_create evfilt_timer]. rewrite (bind_step _ _ _ _ _ E3). simpl.
  destruct (timer_release_unset kq f q p (set_kn_kev (or_flags EV_CLEAR (kn_kev (new_knote kq src))) (new_knote kq src)) w3)
    as (w4 & E4 & L4); [by rewrite Q3|done|by rewrite Q3|by rewrite K3, lookup_insert_eq|done|done| |done|].
  { unfold knote_get_filter. simpl. by rewrite Hs. }
  rewrite (bind_step _ _ _ _ _ E4). eexists _, i, v. split; [done|]. simpl. rewrite L4, L3.
  unfold w2, w1. simpl. by rewrite after_log, <- !app_assoc.
Qed.

(** C21: adding a timer that timerfd_settime(2) refuses, for example because its period is negative, closes descriptor 0 of the
    program: the knote is given to the filter's delete function although its descriptor was not set. *)
Theorem timer_failure_closes_stdin `{!OsOk sysos} kq reg q f tfd src w :
  holds kq reg w -> kw_kqs w !! kq = Some q -> kq_filt q !! 6%nat = Some f -> kf_impl f = ImplTimer ->
  ke_filter src = EVFILT_TIMER -> has (ke_flags src) EV_ADD = true -> has (ke_flags src) EV_ONESHOT = false ->
  kf_knote f !! ke_ident src = None ->
  (forall asked, 0 <= r_ret (sysos asked SysCalloc)) -> (forall asked, r_ret (sysos asked SysTimerfdCreate) = tfd) -> 0 <= tfd ->
  (forall asked i v, r_ret (sysos asked (SysTimerfdSettime tfd i v)) < 0) ->
  exists w' i v, kevent_copyin_one sysos filters kq src w = Ret (-1) w' /\
    kw_log w' = kw_log w ++ [SysCalloc; SysTimerfdCreate; SysTimerfdSettime tfd i v; SysClose tfd;
                             SysEpollCtl (kq_id q) EPOLL_CTL_DEL 0 None; SysClose 0].
Proof.
  intros H Hq Hf Himpl Hsrc Ha Ho Hx Hc Htfd Ht Hset.
  assert (usable filters w kq 6 q f (evfilt_timer sysos)) as U by (split; [done|done|by rewrite Himpl]).
  pose proof (usable_kq filters eq_refl _ _ _ _ _ _ _ H U) as Hfk.
  pose proof (usable_filt filters _ _ _ _ _ _ U) as Hat. change (Z.of_nat 6) with 6 in Hat.
  destruct (timer_refused kq q f tfd src w) as (w' & i & v & E & L); [done|done|done|done|apply H|by rewrite Hsrc|done..|].
  unfold kevent_copyin_one. rewrite Ho, andb_false_r.
  rewrite (bind_step (filter_lookup filters kq (ke_filter src)) _ w (Some (kq, 6)) w).
  2: { rewrite Hsrc. unfold filter_lookup. simpl. change (kq, Z.lnot EVFILT_TIMER) with (kq, 6).
       rewrite (bind_step _ _ _ _ _ (get_filt_run w _ f Hat)). by rewrite Himpl. }
  unfold knote_lookup. rewrite bind_assoc, (bind_step _ _ _ _ _ (get_filt_run w _ f Hat)), ret_bind, Hx. simpl. rewrite Ha.
  rewrite (bind_step _ _ _ _ _ E). exists w', i, v. by split.
Qed.
(** Once the file of a VNODE event was closed the event cannot be deleted any more: EV_ONESHOT is set in the flags of the
    knote, where the same bit says that it was deleted already, and the event stays registered. *)
Theorem vnode_close_stuck `{!OsOk sysos} kq reg q f x p mask slot ev w :
  holds kq reg w -> kw_kqs w !! kq = Some q -> kq_filt q !! 3%nat = Some f -> kf_impl f = ImplVnode ->
  kf_knote f !! x = Some p -> (0 < tries)%nat -> has mask IN_IGNORED = false -> has mask IN_CLOSE = true ->
  (forall asked fd, 0 <= r_ret (sysos asked (SysRead fd 16)) /\ r_inotify (sysos asked (SysRead fd 16)) = InotifyEvent mask 0) ->
  exists w1, evfilt_vnode_copyout sysos tries slot p ev w = Ret (0, set_ke_filter 0 slot) w1 /\
    forall udata, let src := Kevent x EVFILT_VNODE EV_DELETE 0 0 udata in
      kevent_copyin_one sysos filters kq src w1 = Ret (-1) w1 /\ tbl (kw_kqs w1) kq 3 x = Some p.
Proof.
  intros H Hq Hf Himpl Hx Htr Hig Hcl Hos.
  assert (tbl (kw_kqs w) kq 3 x = Some p) as Ht by (unfold tbl; rewrite Hq; simpl; by rewrite Hf).
  destruct (holds_lookup _ _ _ _ _ _ H Ht) as (n & Hn & K & Hp & _).
  destruct tries as [|t] eqn:Et; [lia|]. unfold evfilt_vnode_copyout, get_one_event. rewrite (get_kn_bind p n) by done.
  cbn [read_event]. destruct (Hos (kw_log w) (kn_fd n)) as [Hr Hev].
  rewrite ?bind_assoc, sys_bind, (proj2 (Z.ltb_ge _ _) Hr), ?ret_bind, Hev. simpl. rewrite ret_bind. simpl. rewrite Hig.
  assert (has mask IN_CLOSE_WRITE || has mask IN_CLOSE_NOWRITE = true) as ->.
  { unfold has in *. destruct (Z.eqb_spec (Z.land mask IN_CLOSE_WRITE) 0) as [E1|], (Z.eqb_spec (Z.land mask IN_CLOSE_NOWRITE) 0) as [E2|];
      try done. change IN_CLOSE with (Z.lor IN_CLOSE_WRITE IN_CLOSE_NOWRITE) in Hcl.
    by rewrite Z.land_lor_distr_r, E1, E2 in Hcl. }
  rewrite (upd_kn_bind p n) by (by rewrite after_kns). eexists. split; [done|]. intros udata.
  set (w1 := set_kns _ _). assert (kw_kqs w1 = kw_kqs w) as Kq by apply after_kqs. split; [|by rewrite Kq].
  unfold kevent_copyin_one. simpl.
  assert (filt_at (kw_kqs w1) (kq, 3) = Some f) as Hat by (rewrite Kq; unfold filt_at; simpl; by rewrite Hq).
  unfold filter_lookup. simpl. change (kq, Z.lnot EVFILT_VNODE) with (kq, 3).
  rewrite bind_assoc, (bind_step _ _ _ _ _ (get_filt_run w1 _ f Hat)), Himpl. simpl. rewrite ret_bind. unfold knote_lookup.
  rewrite bind_assoc, (bind_step _ _ _ _ _ (get_filt_run w1 _ f Hat)), ret_bind, Hx. simpl.
  rewrite (proj2 (Z.eqb_neq p 0)) by lia. unfold knote_delete.
  erewrite get_kn_bind by (unfold w1; simpl; apply lookup_insert_eq). simpl. by rewrite has_lor_self.
Qed.
End failures.

(** A system on which timers cannot be set, and on which files are closed. *)
Definition ex_bad_os : os := fun asked c =>
  match c with
  | SysTimerfdSettime _ _ _ => Reply (-1) EINVAL 0 (Stat false true 1 0) (InotifyEvent 0 0) []
  | SysTimerfdCreate => reply_of 9
  | SysRead _ n => Reply n 0 0 (Stat false true 1 0) (InotifyEvent IN_CLOSE_NOWRITE 0) []
  | c => ex_os asked c
  end.
#[export] Instance ex_bad_os_ok : OsOk ex_bad_os.
Proof. split; intros; [by destruct c|by left]. Qed.

Lemma timer_failure_closes_stdin_witness :
  exists w' i v, kevent_copyin_one ex_bad_os (linux_filters ex_bad_os 1) 4096 (Kevent 1 EVFILT_TIMER EV_ADD 0 (-5) 0) ex_w = Ret (-1) w' /\
    kw_log w' = kw_log ex_w ++ [SysCalloc; SysTimerfdCreate; SysTimerfdSettime 9 i v; SysClose 9;
                                SysEpollCtl 3 EPOLL_CTL_DEL 0 None; SysClose 0].
Proof.
  destruct (timer_failure_closes_stdin ex_bad_os 1 4096 ∅ (KQueue 3 (linux_kq_filt 4096) 1) (KFilter EVFILT_TIMER ImplTimer ∅ 4096) 9
    (Kevent 1 EVFILT_TIMER EV_ADD 0 (-5) 0) ex_w ex_holds) as (w' & i & v & E & L);
    [by vm_compute|done|done|done|done|done|done|done|done|done|done|]. exists w', i, v. exact (conj E L).
Defined.

(** The kqueue with a VNODE event for descriptor 5. *)
Definition ex_vnode_w : kworld :=
  world_of (kevent_copyin_one ex_bad_os (linux_filters ex_bad_os 1) 4096 (Kevent 5 EVFILT_VNODE EV_ADD NOTE_DELETE 0 0) ex_w).
Lemma ex_vnode_holds : exists reg, holds 4096 reg ex_vnode_w.
Proof.
  destruct (copyin_one_run ex_bad_os (linux_filters ex_bad_os 1) eq_refl (linux_laws ex_bad_os 1) 4096 ∅ ex_w
    (Kevent 5 EVFILT_VNODE EV_ADD NOTE_DELETE 0 0) ex_holds) as (rv & w' & reg' & E & _ & H & _).
  exists reg'. unfold ex_vnode_w. rewrite E. exact H.
Qed.

Lemma vnode_close_stuck_witness :
  exists w1, evfilt_vnode_copyout ex_bad_os 1 (Kevent 0 0 0 0 0 0) 4112 (1, 4112) ex_vnode_w = Ret (0, Kevent 0 0 0 0 0 0) w1 /\
    kevent_copyin_one ex_bad_os (linux_filters ex_bad_os 1) 4096 (Kevent 5 EVFILT_VNODE EV_DELETE 0 0 0) w1 = Ret (-1) w1.
Proof.
  destruct ex_vnode_holds as (reg & H).
  destruct (vnode_close_stuck ex_bad_os 1 4096 reg (KQueue 3 (<[3%nat:=KFilter EVFILT_VNODE ImplVnode {[5:=4112]} 4096]> (linux_kq_filt 4096)) 1)
    (KFilter EVFILT_VNODE ImplVnode {[5:=4112]} 4096) 5 4112 IN_CLOSE_NOWRITE (Kevent 0 0 0 0 0 0) (1, 4112) ex_vnode_w H)
    as (w1 & E & Hd); [by vm_compute|done|done|done|lia|done|done|done|].
  exists w1. exact (conj E (proj1 (Hd 0))).
Defined.

(** ** Delivery of ready events *)

(** The event [e] stands for the kevent [k] of a knote: its identity and the flags that decide what becomes of the knote; its
    filter is 0 when it is to be discarded. *)
Definition reports (k e : kevent) : Prop :=
  ke_ident e = ke_ident k /\ ke_udata e = ke_udata k /\ has (ke_flags e) EV_DISPATCH = has (ke_flags k) EV_DISPATCH /\
  has (ke_flags e) EV_ONESHOT = has (ke_flags k) EV_ONESHOT /\ (ke_filter e = 0 \/ ke_filter e = ke_filter k).

Definition keeps_with (fp : fptr) (p : Z) {A} (m : KM A) (Q : A -> Prop) : Prop :=
  forall w, live fp p w -> exists a w', m w = Ret a w' /\ touches p w w' /\ Q a.

(** The last system call was refused: it failed, or an eventfd did not give its eight bytes. *)
Definition refused (c : syscall) (r : reply) : Prop := r_ret r < 0 \/ (exists fd, c = SysRead fd 8 /\ r_ret r <> 8).
Definition last_refused (sysos : os) (w : kworld) : Prop :=
  exists pre c, kw_log w = pre ++ [c] /\ refused c (sysos pre c).

(** The laws of kf_copyout. *)
Class CopyoutLaws (sysos : os) (o : filter_ops) : Prop := {
  law_copyout fp p n slot ev w : live fp p w -> kw_kns w !! p = Some n ->
    exists rv e w', op_copyout o slot p ev w = Ret (rv, e) w' /\ touches p w w' /\ reports (kn_kev n) e;
  law_copyout_fails p slot ev w rv e w' : op_copyout o slot p ev w = Ret (rv, e) w' -> rv < 0 -> last_refused sysos w'
}.

Section copyout_laws.
Context (sysos : os) `{!OsOk sysos} (fp : fptr) (p : Z).

Lemma keeps_with_ret {A} (a : A) (Q : A -> Prop) : Q a -> keeps_with fp p (mret a : KM A) Q.
Proof. intros HQ w _. exists a, w. split; [done|]. split; [apply touches_refl|done]. Qed.
Lemma keeps_with_bind {A B} (m : KM A) (f : A -> KM B) Q :
  keeps fp p m -> (forall a, keeps_with fp p (f a) Q) -> keeps_with fp p (m ≫= f) Q.
Proof.
  intros Hm Hf w Hl. destruct (Hm w Hl) as (a & w1 & E1 & T1).
  destruct (Hf a w1) as (b & w2 & E2 & T2 & HQ); [by eapply live_touches|].
  exists b, w2. split; [by rewrite (bind_step _ _ _ _ _ E1)|]. split; [by eapply touches_trans|done].
Qed.

(** A copyout function that reads the knote first. *)
Lemma copyout_law_intro n w (f : knote -> KM (Z * kevent)) :
  live fp p w -> kw_kns w !! p = Some n -> keeps_with fp p (f n) (fun r => reports (kn_kev n) (r.2)) ->
  exists rv e w', (get_kn p ≫= f) w = Ret (rv, e) w' /\ touches p w w' /\ reports (kn_kev n) e.
Proof.
  intros Hl Hn Hf. rewrite (get_kn_bind p n) by done. destruct (Hf w Hl) as ([rv e] & w' & E & T & R). by exists rv, e, w'.
Qed.
End copyout_laws.

Ltac solve_reports :=
  repeat split; simpl; rewrite ?has_lor_other, ?has_clear_other by done; first [done|by left|by right].
Ltac keep_with_step :=
  match goal with
  | |- keeps_with _ _ (let _ := _ in _) _ => cbv zeta
  | |- keeps_with _ _ (mret _) _ => apply keeps_with_ret; unfold epoll_status; repeat case_match; solve_reports
  | |- keeps_with _ _ (mbind _ _) _ => apply keeps_with_bind; [keep_all|intros ?]
  | |- context [if ?b then _ else _] => destruct b
  end.

Section copyout_instances.
Context (sysos : os) `{!OsOk sysos}.
Hint Resolve keeps_epoll_ctl keeps_close keeps_signalfd_reset : keeps.

Lemma keeps_eof_offset fp p fd : keeps fp p (get_eof_offset sysos fd).
Proof. unfold get_eof_offset. keep_all. Qed.
Lemma keeps_lower fp p fd : keeps fp p (eventfd_lower sysos fd).
Proof. unfold eventfd_lower, eventfd_error. keep_all. Qed.
Hint Resolve keeps_eof_offset keeps_lower : keeps.

Lemma sys_refused c w r w' : sys sysos c w = Ret r w' -> refused c r -> last_refused sysos w'.
Proof. rewrite sys_run. intros [= <- <-] H. exists (kw_log w), c. by rewrite after_log. Qed.
Lemma epoll_ctl_refused epfd op fd ev w rv w' :
  epoll_ctl sysos epfd op fd ev w = Ret rv w' -> rv < 0 -> last_refused sysos w'.
Proof.
  intros (r & w1 & H & [= <- <-])%bind_ret_inv Hr. apply (sys_refused _ _ _ _ H). by left.
Qed.
(** The functions of user.c that a comment calls copies of the entries of kqops are such: for every reply of the system they return the
    same and leave the same state. *)
Theorem eventfd_copies fd w :
  eventfd_raise sysos fd w = linux_eventfd_raise sysos fd w /\ eventfd_lower sysos fd w = linux_eventfd_lower sysos fd w.
Proof.
  unfold eventfd_raise, linux_eventfd_raise, eventfd_lower, linux_eventfd_lower, eventfd_error, mbind, M_bind.
  split; destruct (sys sysos _ w) as [r w1| | |]; try done; destruct (r_ret r <? 0); try (by destruct (r_ret r =? 8));
    unfold gets; by repeat case_match.
Qed.

Lemma eventfd_lower_refused fd w rv w' : eventfd_lower sysos fd w = Ret rv w' -> rv < 0 -> last_refused sysos w'.
Proof.
  intros (r & w1 & H & H1)%bind_ret_inv Hr. destruct (Z.ltb_spec (r_ret r) 0) as [Hl|Hl].
  - assert (w' = w1) as ->.
    { unfold eventfd_error in H1. rewrite gets_bind in H1. repeat case_match; by injection H1. }
    apply (sys_refused _ _ _ _ H). by left.
  - destruct (Z.eqb_spec (r_ret r) 8); injection H1 as <- <-; [lia|]. apply (sys_refused _ _ _ _ H). right. by exists fd.
Qed.

(** The failures of a copyout function, by running it backwards. *)
Ltac copyout_fails :=
  intros p slot ev w rv e w' H Hrv; simpl in H; unfold evfilt_read_copyout, evfilt_socket_copyout,
    evfilt_timer_copyout, evfilt_signal_copyout, linux_evfilt_user_copyout in H;
  repeat match goal with
  | H : (_ ≫= _) _ = Ret (_, _) _ |- _ => apply bind_ret_inv in H as (? & ? & ? & H); cbv beta zeta in H
  | H : (if ?b then _ else _) _ = Ret (_, _) _ |- _ => destruct b eqn:?
  | H : mret _ _ = Ret (_, _) _ |- _ => injection H as <- ? <-
  | H : (if ?b then eventfd_lower _ _ else mret 0) _ = Ret _ _ |- _ => destruct b
  | H : mret _ _ = Ret _ _ |- _ => injection H as <- <-
  | H : (_ <? 0) = true |- _ => apply Z.ltb_lt in H
  end; try lia; eauto using epoll_ctl_refused, eventfd_lower_refused.

#[export] Instance read_copyout : CopyoutLaws sysos (evfilt_read sysos).
Proof.
  split; [|copyout_fails]. intros fp p n slot ev w Hl Hn. apply (copyout_law_intro fp p n w _ Hl Hn). repeat keep_with_step.
Qed.
#[export] Instance write_copyout : CopyoutLaws sysos (evfilt_write sysos).
Proof.
  split; [|copyout_fails]. intros fp p n slot ev w Hl Hn. apply (copyout_law_intro fp p n w _ Hl Hn). repeat keep_with_step.
Qed.
#[export] Instance timer_copyout : CopyoutLaws sysos (evfilt_timer sysos).
Proof.
  split; [|copyout_fails]. intros fp p n slot ev w Hl Hn. apply (copyout_law_intro fp p n w _ Hl Hn). repeat keep_with_step.
Qed.
#[export] Instance signal_copyout : CopyoutLaws sysos (evfilt_signal sysos).
Proof.
  split; [|copyout_fails]. intros fp p n slot ev w Hl Hn. apply (copyout_law_intro fp p n w _ Hl Hn). repeat keep_with_step.
Qed.
#[export] Instance user_copyout : CopyoutLaws sysos (evfilt_user sysos).
Proof.
  split; [|copyout_fails]. intros fp p n slot ev w Hl Hn. apply (copyout_law_intro fp p n w _ Hl Hn). repeat keep_with_step.
Qed.
End copyout_instances.

Section delivery.
Context (sysos : os) `{!OsOk sysos} (tries : nat).
Notation filters := (linux_filters sysos tries).

Lemma linux_copyout i o : filters i = Some o -> i <> ImplVnode -> CopyoutLaws sysos o.
Proof. destruct i; intros [= <-] Hi; try done; apply _. Qed.

(** Everything but the knote [p] is as before. *)
Definition others_kept (kq p : Z) (w w' : kworld) : Prop :=
  same_shape w w' /\ (forall p', p' <> p -> kw_kns w' !! p' = kw_kns w !! p') /\
  (forall j y p', p' <> p -> tbl (kw_kqs w) kq j y = Some p' -> tbl (kw_kqs w') kq j y = Some p').

Lemma others_touches kq p n w w' : kw_kns w !! p = Some n -> touches p w w' -> others_kept kq p w w'.
Proof.
  intros Hn T. split; [by eapply same_shape_touches|]. destruct (touches_kn _ _ _ T n Hn) as (n' & E & _).
  split; [intros; by rewrite E, lookup_insert_ne|]. by rewrite (touches_kqs _ _ _ T).
Qed.
Lemma others_trans kq p w1 w2 w3 : others_kept kq p w1 w2 -> others_kept kq p w2 w3 -> others_kept kq p w1 w3.
Proof.
  intros (S1 & K1 & T1) (S2 & K2 & T2). split; [by eapply same_shape_trans|]. split; [|by eauto].
  intros p' Hp. by rewrite K2, K1.
Qed.

(** A knote of a kqueue whose filter can deliver it. *)
Record ready (kq : Z) (w : kworld) (p : Z) (i : nat) (x : Z) (n : knote) : Prop := Ready {
  rd_tbl : tbl (kw_kqs w) kq i x = Some p;
  rd_kn : kw_kns w !! p = Some n;
  rd_enabled : disabled n = false;
  rd_filter : exists q f o, usable filters w kq i q f o /\ kf_impl f <> ImplVnode
}.

Lemma usable_shape kq i w w' q f o :
  same_shape w w' -> usable filters w kq i q f o ->
  exists q' f', usable filters w' kq i q' f' o /\ kf_impl f' = kf_impl f.
Proof.
  intros [_ S] U. pose proof (filt_at_shape (kw_kqs w') (kq, Z.of_nat i)) as E.
  rewrite S, <- filt_at_shape, (usable_filt _ _ _ _ _ _ _ U) in E.
  destruct (filt_at (kw_kqs w') _) as [f'|] eqn:Ef; [|done]. injection E as Ei _.
  unfold filt_at in Ef. simpl in Ef. destruct (Z.of_nat i <? 0); [done|]. apply bind_Some in Ef as (q' & Hq' & Hf').
  rewrite Nat2Z.id in Hf'. exists q', f'. split; [|done]. split; [done|done|]. rewrite Ei. apply U.
Qed.

Lemma ready_other kq p w w' p' i x n : others_kept kq p w w' -> p' <> p -> ready kq w p' i x n -> ready kq w' p' i x n.
Proof.
  intros (S & K & T) Hp [Ht Hn Hd (q & f & o & U & Hi)]. split; [by apply T|by rewrite K|done|].
  destruct (usable_shape kq i w w' q f o S U) as (q' & f' & U' & Ei). exists q', f', o. by rewrite Ei.
Qed.

(** What the delivery of an event leaves registered. *)
Definition after_delivery (k : kevent) (key : Z * Z) (reg : registry) : registry :=
  if has (ke_flags k) EV_ONESHOT then delete key reg
  else if has (ke_flags k) EV_DISPATCH then <[key:=(ke_udata k, true)]> reg
  else reg.

Lemma knote_disable_run kq reg w i q f o x p n :
  holds kq reg w -> usable filters w kq i q f o -> tbl (kw_kqs w) kq i x = Some p -> kw_kns w !! p = Some n -> disabled n = false ->
  exists w', knote_disable filters (kq, Z.of_nat i) p w = Ret 0 w' /\
    holds kq (<[(Z.lnot (Z.of_nat i), x):=(ke_udata (kn_kev n), true)]> reg) w' /\ others_kept kq p w w' /\
    kw_kqs w' = kw_kqs w.
Proof.
  intros H U Ht Hn Hd. unfold knote_disable. rewrite (get_kn_bind p n) by done. unfold disabled in Hd. rewrite Hd.
  unfold kassert. cbn [negb]. rewrite ret_bind.
  destruct (usable_call filters eq_refl w kq reg i q f o p (fun o => op_disable o (kq, Z.of_nat i) p) H U) as (rv & w1 & E & T).
  { by eexists. } { destruct (linux_laws sysos tries _ _ (us_o _ _ _ _ _ _ _ U)). done. }
  rewrite (bind_step _ _ _ _ _ E). destruct (touches_kn _ _ _ T n Hn) as (n1 & E1 & K1 & F1).
  assert (kw_kns w1 !! p = Some n1) as Hn1 by (by rewrite E1, lookup_insert_eq).
  rewrite (upd_kn_bind p n1) by done. eexists. split; [done|].
  pose proof (holds_touches _ _ _ _ _ _ H Hn T) as H1. rewrite <- (touches_kqs _ _ _ T) in Ht.
  split; [|split; [|exact (touches_kqs _ _ _ T)]].
  - replace (ke_udata (kn_kev n)) with (ke_udata (kn_kev n1)) by (by injection F1). rewrite <- kn_entry_disable.
    by apply (holds_upd kq reg w1 i x p n1 KNOTE_DISABLE H1 Ht Hn1).
  - apply (others_trans _ _ _ w1); [by apply (others_touches _ _ n)|]. split; [done|]. split; [|done].
    intros p' Hp. simpl. by rewrite lookup_insert_ne.
Qed.

Lemma knote_delete_others kq reg w i q f o x p :
  holds kq reg w -> usable filters w kq i q f o -> tbl (kw_kqs w) kq i x = Some p ->
  exists w', knote_delete filters (kq, Z.of_nat i) p w = Ret 0 w' /\
    holds kq (delete (Z.lnot (Z.of_nat i), x) reg) w' /\ others_kept kq p w w'.
Proof.
  intros H U Ht. rewrite (usable_tbl _ _ _ _ _ _ _ _ U) in Ht.
  destruct (knote_delete_run filters eq_refl (linux_laws sysos tries) kq reg w i q f o x p H U Ht) as (w' & E & S & H' & Ek & En).
  exists w'. split; [done|]. split; [done|]. split; [done|]. split; [intros p' Hp; by rewrite En, lookup_delete_ne|].
  intros j y p' Hp Hj. rewrite Ek, (tbl_set_table _ _ _ q f) by apply U. case_decide as Hd; [|done]. destruct Hd as [_ ->].
  rewrite (usable_tbl _ _ _ _ _ _ _ _ U) in Hj. rewrite lookup_delete_ne; congruence.
Qed.

(** One event: the filter fills the slot, then the knote is disabled or deleted as its flags say; a filter that fails
    ends the program. *)
Lemma copyout_one_run kq reg w p i x n events slot :
  holds kq reg w -> ready kq w p i x n ->
  (exists w', copyout_one sysos tries kq (events, p) slot w = Crash "abort" w' /\ last_refused sysos w') \/
  (exists e w', copyout_one sysos tries kq (events, p) slot w = Ret e w' /\ reports (kn_kev n) e /\
     holds kq (after_delivery (kn_kev n) (Z.lnot (Z.of_nat i), x) reg) w' /\ others_kept kq p w w').
Proof.
  intros H [Ht Hn Hd (q & f & o & U & Hi)].
  destruct (holds_lookup _ _ _ _ _ _ H Ht) as (n0 & Hn0 & K & _). rewrite Hn in Hn0. injection Hn0 as <-.
  injection K as _ Efl _ _ _. pose proof (usable_filt _ _ _ _ _ _ _ U) as Hat.
  unfold copyout_one. cbn [snd]. rewrite (get_kn_bind p n) by done. rewrite Efl, Z.lnot_involutive.
  destruct (linux_copyout _ _ (us_o _ _ _ _ _ _ _ U) Hi) as [Lc Lf].
  destruct (Lc (kq, Z.of_nat i) p n slot (events, p) w) as (rv & e & w1 & E & T & R).
  { split; [by eexists|]. exists f. split; [done|]. rewrite (usable_kq filters eq_refl _ _ _ _ _ _ _ H U). apply H. }
  { done. }
  unfold with_ops. rewrite bind_assoc, (bind_step _ _ _ _ _ (get_filt_run w _ f Hat)), (us_o _ _ _ _ _ _ _ U).
  rewrite (bind_step _ _ _ _ _ E). destruct (Z.ltb_spec rv 0) as [Hrv|_]; [left; exists w1; split; [done|by eapply Lf]|right].
  pose proof (holds_touches _ _ _ _ _ _ H Hn T) as H1. destruct (touches_kn _ _ _ T n Hn) as (n1 & E1 & K1 & F1).
  assert (kw_kns w1 !! p = Some n1) as Hn1 by (by rewrite E1, lookup_insert_eq).
  pose proof (usable_same _ _ _ _ _ _ _ _ (touches_kqs _ _ _ T) U) as U1. rewrite <- (touches_kqs _ _ _ T) in Ht.
  pose proof (others_touches kq _ _ _ _ Hn T) as O1. pose proof R as (_ & _ & Rd & Ro & _). rewrite Rd, Ro. clear Rd Ro.
  unfold after_delivery. injection F1 as Fu Fd. rewrite Hd in Fd.
  assert (exists w2, (if has (ke_flags (kn_kev n)) EV_DISPATCH then _ ← knote_disable filters (kq, Z.of_nat i) p; mret tt else mret tt) w1 = Ret tt w2 /\
    holds kq (if has (ke_flags (kn_kev n)) EV_DISPATCH then <[(Z.lnot (Z.of_nat i), x):=(ke_udata (kn_kev n), true)]> reg else reg) w2 /\
    others_kept kq p w w2 /\ kw_kqs w2 = kw_kqs w1) as (w2 & E2 & H2 & O2 & Q2).
  { destruct (has (ke_flags (kn_kev n)) EV_DISPATCH); [|by exists w1].
    destruct (knote_disable_run kq reg w1 i q f o x p n1 H1 U1 Ht Hn1 Fd) as (w2 & E2 & H2 & O2 & Q2).
    exists w2. rewrite (bind_step _ _ _ _ _ E2). rewrite Fu in H2. split; [done|]. split; [done|]. split; [by eapply others_trans|done]. }
  rewrite (bind_step _ _ _ _ _ E2). destruct (has (ke_flags (kn_kev n)) EV_ONESHOT) eqn:Eo.
  - destruct (knote_delete_others kq _ w2 i q f o x p H2) as (w3 & E3 & H3 & O3); [by eapply usable_same|by rewrite Q2|].
    rewrite bind_assoc, (bind_step _ _ _ _ _ E3), ret_bind. eexists e, w3. split; [done|]. split; [done|].
    split; [|by eapply others_trans]. destruct (has (ke_flags (kn_kev n)) EV_DISPATCH); [by rewrite delete_insert_eq in H3|done].
  - rewrite ret_bind. exists e, w2. split; [done|]. by split.
Qed.

Definition kept (es : list kevent) : list kevent := filter (fun e => ke_filter e <> 0) es.

(** Where a ready knote is registered, and the knote. *)
Notation info := (nat * Z * knote)%type.
Definition deliver_all (reg : registry) (infos : list info) : registry :=
  foldl (fun reg '(i, x, n) => after_delivery (kn_kev n) (Z.lnot (Z.of_nat i), x) reg) reg infos.

Lemma copyout_loop_run kq evs : forall reg w infos evl k nret,
  holds kq reg w -> Forall2 (fun ev '(i, x, n) => ready kq w (ev.2) i x n) evs infos -> NoDup (snd <$> evs) ->
  (k + length evs <= length evl)%nat ->
  (exists w', copyout_loop sysos tries kq evs evl (Z.of_nat k) nret w = Crash "abort" w' /\ last_refused sysos w') \/
  (exists es rest w', Forall2 (fun (inf : info) e => reports (kn_kev (inf.2)) e) infos es /\
     copyout_loop sysos tries kq evs evl (Z.of_nat k) nret w =
       Ret (nret - Z.of_nat (length es - length (kept es)), take k evl ++ kept es ++ rest) w' /\
     holds kq (deliver_all reg infos) w').
Proof.
  induction evs as [|[events p] evs IH]; intros reg w infos evl k nret H HF Hnd Hl.
  { apply Forall2_nil_inv_l in HF as ->. right. exists [], (drop k evl), w. split; [done|]. simpl.
    rewrite take_drop, Z.sub_0_r. by split. }
  apply Forall2_cons_inv_l in HF as ([[i x] n] & infos' & Hr & HF & ->). apply NoDup_cons in Hnd as [Hp Hnd]. simpl in Hl, Hr.
  cbn [copyout_loop]. rewrite Nat2Z.id. destruct (lookup_lt_is_Some_2 evl k) as [slot Hs]; [lia|]. rewrite Hs.
  destruct (copyout_one_run kq reg w p i x n events slot H Hr) as [(w' & E & Hl')|(e & w1 & E & R & H1 & O1)].
  { left. exists w'. unfold mbind, M_bind. by rewrite E. }
  rewrite (bind_step _ _ _ _ _ E).
  assert (Forall2 (fun ev '(i, x, n) => ready kq w1 (ev.2) i x n) evs infos') as HF1.
  { apply Forall2_same_length_lookup in HF as [Hlen HF]. apply Forall2_same_length_lookup. split; [done|].
    intros j ev [[i' x'] n'] Hj Hj'. apply (ready_other kq p w); [done| |exact (HF j ev _ Hj Hj')].
    intros Ep. apply Hp. apply list_elem_of_fmap. exists ev. split; [done|by eapply list_elem_of_lookup_2]. }
  destruct (Z.eqb_spec (ke_filter e) 0) as [Ef|Ef]; cbn [negb].
  - destruct (IH _ w1 infos' (<[k:=e]> evl) k (nret - 1) H1 HF1 Hnd) as [(w' & E')|(es & rest & w' & HR & E' & H')];
      [rewrite length_insert; lia|by left; exists w'|right].
    exists (e :: es), rest, w'. split; [by constructor|]. rewrite E', take_insert_ge by lia.
    unfold kept. rewrite filter_cons_False by auto. split; [|done]. fold (kept es).
    pose proof (length_filter (fun e => ke_filter e <> 0) es) as Hle. fold (kept es) in Hle. simpl. do 2 f_equal. lia.
  - replace (Z.of_nat k + 1) with (Z.of_nat (S k)) by lia.
    destruct (IH _ w1 infos' (<[k:=e]> evl) (S k) nret H1 HF1 Hnd) as [(w' & E')|(es & rest & w' & HR & E' & H')];
      [rewrite length_insert; lia|by left; exists w'|right].
    exists (e :: es), rest, w'. split; [by constructor|]. rewrite E'. unfold kept. rewrite filter_cons_True by done. split; [|done].
    rewrite (take_S_r _ k e) by (apply list_lookup_insert_eq; lia). rewrite take_insert_ge, <- app_assoc by lia. done.
Qed.

End delivery.

(** A one-shot EVFILT_USER event that is ready. *)
Definition ex_ready_w : kworld :=
  set_epevt [(EPOLLIN, 4112)] (world_of (kevent_copyin_one ex_os (linux_filters ex_os 1) 4096
    (Kevent 7 EVFILT_USER (Z.lor EV_ADD EV_ONESHOT) 0 0 99) ex_w)).
Definition ex_ready_kn : knote := Knote (Kevent 7 EVFILT_USER (Z.lor EV_ADD EV_ONESHOT) 0 0 99) 0 0 0 0 4096 1 0 13.

Lemma ex_ready_holds : exists reg, holds 4096 reg ex_ready_w.
Proof.
  destruct (copyin_one_run ex_os (linux_filters ex_os 1) eq_refl (linux_laws ex_os 1) 4096 ∅ ex_w
    (Kevent 7 EVFILT_USER (Z.lor EV_ADD EV_ONESHOT) 0 0 99) ex_holds) as (rv & w' & reg' & E & _ & [] & _).
  exists reg'. unfold ex_ready_w. rewrite E. by split.
Qed.

Lemma ex_ready_ok : ready ex_os 1 4096 ex_ready_w 4112 10 7 ex_ready_kn.
Proof.
  split; [by vm_compute|by vm_compute|done|].
  exists (KQueue 3 (<[10%nat:=KFilter EVFILT_USER ImplUser {[7:=4112]} 4096]> (linux_kq_filt 4096)) 1),
    (KFilter EVFILT_USER ImplUser {[7:=4112]} 4096), (evfilt_user ex_os).
  split; [|done]. split; [by vm_compute|done|done].
Qed.


Example ex_delivered :
  match linux_kevent_copyout ex_os 1 4096 1 [Kevent 0 0 0 0 0 0] 0 ex_ready_w with
  | Ret (1, [e]) w => (ke_udata e, size (kw_kns w)) = (99, 0%nat)
  | _ => False
  end.
Proof. vm_compute. reflexivity. Qed.
