(* ===== verification/KqueueClient.v ===== *)
(** * libdispatch on the kqueue emulation

    _dispatch_update_kq hands one change with EV_RECEIPT to kevent() and reads the reply.  Here the kernel of the source
    model is the library of Kqueue and KqueueLinux, in whatever sound state it is. *)

From stdpp Require Import base tactics list numbers gmap strings.
From Stdlib Require Import ZArith Lia.
From S2P Require Import Prelude DispatchTime DispatchSource TimerList SourceTable SourceEvents.
From S2P Require Import Kqueue KqueueLinux KqueueTable KqueueEvents.

Local Open Scope Z_scope.

Lemma has_lor_mask v a b : has v (Z.lor a b) = has v a || has v b.
Proof.
  unfold has. rewrite Z.land_lor_distr_r. destruct (Z.eqb_spec (Z.lor (Z.land v a) (Z.land v b)) 0) as [E|E].
  - apply Z.lor_eq_0_iff in E as [-> ->]. done.
  - rewrite Z.lor_eq_0_iff in E. destruct (Z.eqb_spec (Z.land v a) 0), (Z.eqb_spec (Z.land v b) 0); naive_solver.
Qed.

Section client.
Context (sysos : os) `{!OsOk sysos} (tries : nat) (kqfd : Z).
Notation filters := (linux_filters sysos tries).

(** The library is initialised, and the descriptor is that of the kqueue [kq], on which [reg] is registered. *)
Definition serving (kq : Z) (reg : registry) (w : kworld) : Prop :=
  kqueue_lookup kqfd w = Ret kq w /\ kq <> 0 /\ holds kq reg w.

Lemma receipt_run kq reg w ke slot timeout :
  serving kq reg w -> has (ke_flags ke) EV_RECEIPT = true ->
  exists w' st reg', linux_kevent sysos tries kqfd [ke] [slot] 1 timeout w = Ret (0, [set_ke_data (default 0 st) ke]) w' /\
    change_spec (implemented filters (kw_kqs w) kq) reg ke st reg' /\ 0 <= default 0 st /\ holds kq reg' w'.
Proof.
  intros (Hl & H0 & H) Hr. destruct (copyin_one_run sysos filters eq_refl (linux_laws sysos tries) kq reg w ke H)
    as (rv & w' & reg' & E & S & H' & C).
  exists w', (status rv w'), reg'. split; [|split; [done|split; [|done]]].
  - unfold linux_kevent, kevent_call. rewrite (bind_step _ _ _ _ _ Hl), (proj2 (Z.eqb_neq kq 0) H0).
    rewrite bool_decide_eq_false_2 by done. cbn [kevent_copyin].
    rewrite bind_assoc, (bind_step _ _ _ _ _ E), bind_assoc, gets_bind, Hr. unfold status.
    by destruct (rv <? 0).
  - unfold status. destruct (rv <? 0); simpl; [apply H'|done].
Qed.

(** A change with EV_RECEIPT makes kevent() return 0 at once, without waiting, and leaves in the client's event the same
    event with the errno of the change, or 0, as data; EV_ERROR is not set by a failure. *)
Theorem receipt_reply kq reg w ke slot timeout :
  serving kq reg w -> has (ke_flags ke) EV_RECEIPT = true ->
  exists w' st reg', linux_kevent sysos tries kqfd [ke] [slot] 1 timeout w = Ret (0, [set_ke_data (default 0 st) ke]) w' /\
    change_spec (implemented filters (kw_kqs w) kq) reg ke st reg' /\ 0 <= default 0 st /\ holds kq reg' w'.
Proof. apply receipt_run. Qed.

(** kevent(2) as _dispatch_update_kq calls it, the change being its own event list; [st asked] is the state of the library
    after the history [asked]. *)
Definition libkqueue_kernel (st : list sevent -> kworld) : kernel := fun asked ke =>
  if has (ke_flags ke) EV_RECEIPT then
    match linux_kevent sysos tries kqfd [ke] [ke] 1 None (st asked) with
    | Ret (rv, [r]) _ => if rv =? -1 then None else Some r
    | _ => None
    end
  else None.

Lemma libkqueue_kernel_ok st :
  (forall asked, exists kq reg, serving kq reg (st asked)) -> kernel_ok (libkqueue_kernel st).
Proof.
  intros Hst asked ke r. unfold libkqueue_kernel. destruct (has (ke_flags ke) EV_RECEIPT) eqn:Hr; [|done].
  destruct (Hst asked) as (kq & reg & Hs). destruct (receipt_run kq reg _ ke ke None Hs Hr) as (w' & e & reg' & -> & _ & He & _).
  by intros [= <-].
Qed.


(** The reply for a filter that is not implemented. *)
Lemma unimplemented_reply st asked ke kq reg :
  serving kq reg (st asked) -> has (ke_flags ke) EV_RECEIPT = true -> has (ke_flags ke) EV_ONESHOT = false ->
  0 <= Z.lnot (ke_filter ke) < EVFILT_SYSCOUNT -> ~ implemented filters (kw_kqs (st asked)) kq (ke_filter ke) ->
  libkqueue_kernel st asked ke = Some (set_ke_data ENOSYS ke).
Proof.
  intros Hs Hr Ho Hf Hn. unfold libkqueue_kernel. rewrite Hr.
  destruct (receipt_run kq reg _ ke ke None Hs Hr) as (w' & e & reg' & -> & C & _). simpl.
  destruct C; first [done|congruence|by exfalso; eauto].
Qed.

(** C19: a PROC source fires as soon as it is given to the emulation, which does not implement the filter: the reply has
    ENOSYS as data but not EV_ERROR, so that it is drained as an event with every flag that was asked for. *)
Theorem proc_source_fires_at_once st kq reg w ds s dk d :
  serving kq reg (st (sw_log w)) -> ~ implemented filters (kw_kqs (st (sw_log w))) kq EVFILT_PROC ->
  sw_dk w !! dk = Some d -> dk <> 0 -> dk_sources d = [ds] -> ke_udata (dk_kevent d) = dk ->
  ke_filter (dk_kevent d) = EVFILT_PROC -> has (ke_flags (dk_kevent d)) EV_ADD = true ->
  has (ke_flags (dk_kevent d)) (Z.lor (Z.lor EV_DELETE EV_ERROR) EV_ONESHOT) = false ->
  sw_src w !! ds = Some s -> cancelled s = false -> ds_is_level s = false -> ds_is_adder s = false -> ds_needs_rearm s = false ->
  _dispatch_update_kq (libkqueue_kernel st) (dk_kevent d) w =
    Ret tt (log_event (EvWake ds)
      (set_src (insert ds (set_ds_pending (Z.lor (ds_pending_data s)
                             (s64 (Z.land (ke_fflags (dk_kevent d)) (ds_pending_data_mask s)))) s))
        (log_event (EvKevent (set_ke_flags (Z.lor (ke_flags (dk_kevent d)) EV_RECEIPT) (dk_kevent d))) w))).
Proof.
  intros Hs Hn Hd Hdk Hsrc Hu Hf Ha Hfl Hds Hc Hl Hadd Hre. rewrite !has_lor_mask in Hfl.
  apply orb_false_iff in Hfl as [[Hdel Herr]%orb_false_iff Hos]. set (k := dk_kevent d) in *.
  set (kc := set_ke_flags (Z.lor (ke_flags k) EV_RECEIPT) k).
  assert (forall b, Z.land EV_RECEIPT b = 0 -> has (ke_flags kc) b = has (ke_flags k) b) as Hkc
    by (intros b Hb; by apply has_lor_other).
  unfold _dispatch_update_kq. fold kc. rewrite (bind_step (update_kq_delete kc) _ w false w)
    by (unfold update_kq_delete; by rewrite Hkc, Hdel).
  rewrite gets_bind, modify_bind. rewrite (unimplemented_reply st (sw_log w) kc kq reg);
    [|done|by apply has_lor_self|by rewrite Hkc|simpl; by rewrite Hf|simpl; by rewrite Hf].
  rewrite Ha. cbn [negb]. change (ke_data (set_ke_data ENOSYS kc)) with ENOSYS.
  change (ke_filter (set_ke_data ENOSYS kc)) with (ke_filter k). rewrite Hf. simpl.
  unfold _dispatch_source_drain_kevent. change (ke_udata (set_ke_data ENOSYS kc)) with (ke_udata k). rewrite Hu.
  rewrite (proj2 (Z.eqb_neq dk 0) Hdk). unfold dispatch_assert. cbn [negb]. rewrite ret_bind.
  change (ke_flags (set_ke_data ENOSYS kc)) with (ke_flags kc). rewrite Hkc, Hos by done. rewrite ret_bind.
  rewrite (get_dk_bind dk d) by done. rewrite Hsrc. cbn [merge_all]. unfold _dispatch_source_merge_kevent.
  rewrite bind_assoc, (get_src_bind ds s) by done. rewrite Hc. unfold merge_fake.
  change (ke_flags (set_ke_data ENOSYS kc)) with (ke_flags kc). rewrite Hkc, Herr, Hl, Hadd, Hre by done.
  rewrite bind_assoc, (upd_src_bind ds _ s) by done. done.
Qed.
End client.

(** ** Concrete uses *)

Lemma ex_serving : serving 3 4096 ∅ ex_w.
Proof. split; [by vm_compute|]. split; [done|apply ex_holds]. Qed.

Lemma ex_always_serving : exists kq reg, serving 3 kq reg ex_w.
Proof. exists 4096, ∅. exact ex_serving. Qed.

Lemma receipt_reply_witness :
  exists w' st reg', linux_kevent ex_os 1 3 [Kevent 5 EVFILT_READ 0xc1 0 0 8192] [Kevent 5 EVFILT_READ 0xc1 0 0 8192] 1 None ex_w =
      Ret (0, [set_ke_data (default 0 st) (Kevent 5 EVFILT_READ 0xc1 0 0 8192)]) w' /\ holds 4096 reg' w'.
Proof.
  destruct (receipt_reply ex_os 1 3 4096 ∅ ex_w (Kevent 5 EVFILT_READ 0xc1 0 0 8192) (Kevent 5 EVFILT_READ 0xc1 0 0 8192) None
    ex_serving eq_refl) as (w' & st & reg' & E & _ & _ & H).
  exists w', st, reg'. exact (conj E H).
Defined.


(** A source for the exit of a process. *)
Definition ex_proc : source :=
  set_ds_data 0 0 NOTE_EXIT (set_ds_state true false false
    (Source 2 1 0 600 77 8192 55 66 88 false false true false false 0 0 0 0 4242 (TimerSource 0 0 0 0 0))).
Definition ex_proc_dk : dkevent := Dkevent (Kevent 4242 EVFILT_PROC 0x25 NOTE_EXIT 0 8192) [4096].
Definition ex_proc_world : sworld := set_src (insert 4096 ex_proc) (set_dk (insert 8192 ex_proc_dk) (init_world 600)).

Lemma ex_proc_unimplemented : ~ implemented (linux_filters ex_os 1) (kw_kqs ex_w) 4096 EVFILT_PROC.
Proof. intros [o Ho]. vm_compute in Ho. discriminate. Qed.

Lemma proc_source_fires_at_once_witness :
  exists w', _dispatch_update_kq (libkqueue_kernel ex_os 1 3 (fun _ => ex_w)) (dk_kevent ex_proc_dk) ex_proc_world = Ret tt w' /\
    last (sw_log w') = Some (EvWake 4096).
Proof.
  eexists. split; [exact (proc_source_fires_at_once ex_os 1 3 (fun _ => ex_w) 4096 ∅ ex_proc_world 4096 ex_proc 8192 ex_proc_dk
    ex_serving ex_proc_unimplemented eq_refl ltac:(discriminate) eq_refl eq_refl eq_refl eq_refl eq_refl eq_refl eq_refl
    eq_refl eq_refl eq_refl)|reflexivity].
Defined.
